(* ===== verification/_CoqProject ===== *)
-Q . S2P
Prelude.v
Status.v
ByteBuffer.v
HttpRequest.v
HttpParser.v
Json.v
HttpResponse.v
Metrics.v
Logging.v
Crypto.v
Sql.v
MySQLTx.v
MySQLPool.v
RedisCache.v
RedisProps.v
Config.v
ConfigTypes.v
MemServer.v
MetaStore.v
Sessions.v
MetaStoreSpec.v
MetaStoreProps.v
MetaStoreQueries.v
MetaCache.v
Uuid.v
FileSys.v
TempFiles.v
Paths.v
DataStore.v
DataStoreSpec.v
DataStoreProps.v
HttpRouter.v
Auth.v
Trace.v
TimerWheel.v
EventLoop.v
LoopThreads.v
Channel.v
Acceptor.v
Lifecycle.v
HttpConnection.v
ConnProps.v
ConnReads.v
World.v
StoreSpec.v
Gc.v
GcProps.v
GcThread.v
ObjectHandlers.v
MultipartHandlers.v
BucketHandlers.v
Server.v
Startup.v
Programs.v
StoreProps.v
Interleaving.v
Services.v
ObjectProps.v
Linear.v
Durability.v
MultipartProps.v
Races.v
Atomicity.v
ServerProps.v
Serving.v
ServerFaults.v
