(* ===== verification/Prelude.v ===== *)
(** * MiniS3: a verification development for the object store under src/

    MiniS3 is an S3-like object store in C++: an epoll HTTP server whose handlers
    keep object metadata in MySQL (with an optional Redis cache) and object
    contents in a content-addressed directory, and a collector that removes
    contents nobody refers to. The development translates the code under src/src/
    into executable definitions and proves what makes it correct. This file is
    the root: the notes below cover the whole development, and after them come
    the scope, the hint databases, the integer and string functions of the C++
    library that the code uses, and the small error/state monad of the other files.

    ** Conventions

    - [size_t] and [uint64_t] are [Z] with the wrap-around written as [u64];
      [int64_t] values are [Z] read from the database or from text, where
      [stoi], [stoll] and [stoull] check the ranges as the C++ functions do.
    - A [std::string] is a [string], a buffer or a file content a [list ascii].
    - A function of the code that may throw returns [exn A]; one that also
      changes state is in [M W A], the state [W] explicit. [wp op Q w] says
      that [Q] holds of the outcome of [op] run from [w], a value or an exception,
      and of its final state: the operations are total functions.
    - [Status] and [Result] are those of util/status.h.
    - What is not under src/ is a class whose methods the definitions take as an
      argument, with what the code relies on as laws in a second class: the MySQL
      server ([MySQL], [MySQLLaws] in Sql), the connection pool ([ConnPool]),
      Redis as the store calls it ([Redis], [RedisLaws]; RedisCache implements it
      over a socket to a server of the protocol, [RedisServer], [RedisServerLaws],
      with the send buffer of the socket, [SendBuffer]),
      the descriptors the kernel watches ([Epoll], [EpollLaws]), the YAML library
      ([YamlLib]), the operating system's files ([Posix], [PosixLaws] in
      FileSys), the collation of the database ([Collation]) and its calendar
      ([Calendar]), the digest of OpenSSL ([Digest]) and the JSON library
      ([JsonLib]). The server and the files may fail at any call: the laws only
      say what a failure leaves. MemServer has a server, a clock and a Redis that
      satisfy the laws (proved there) and can be told to fail, DataStoreProps a
      file system; the witnesses run on them.

    ** Files

    - Prelude: this file. Status: util/status.h.
    - ByteBuffer: net/buffer/byte_buffer. The three regions and their indices,
      [Append], [Retrieve], [ReadFd], [WriteFd], [Shrink] and the searches;
      [buffer_fifo] refines it to a queue of bytes.
    - HttpRequest, HttpParser, HttpResponse, HttpRouter: net/http. [Parse] runs
      [Parse_step] (one line or one piece of the body) while it progresses; its
      fuel is the number of readable bytes plus two, and [parse_refines_list]
      shows that it is never used up. The router's regular expressions are
      matched by [regex_match] on the fragments [CompilePattern] makes.
    - Json: the JSON values the handlers build and read, over [JsonLib].
    - Crypto: util/crypto, hex encoding and HMAC over the digest. Uuid: util/uuid.
    - Sql: the schema of scripts/mysql_init.sql as maps ([Tables]), and
      [exec_stmt], the effect and the answer of every SQL statement the store
      sends, with the unique keys, the cascades, the 255 character prefix key and the
      widths of the columns. [starts srv] says of a session that it accepts every
      START TRANSACTION it may still get.
    - MySQLTx: the connection as its users see it and db/mysql_tx, whose
      destructor is part of [transaction]. MySQLPool: db/mysql_pool, the operations
      of the pool and the threads that take, wait, time out, return and close as
      a step relation. MemServer: the server of the witnesses.
    - RedisCache: util/redis_cache, commands and replies of the protocol, the
      socket and the operations; the fuel of [ReadLine] is the number of bytes on
      their way, the counts of [GetBytes] bound the other loops. RedisProps: the
      client keeps [RedisLaws]. Config: util/config, and ConfigTypes what it may load.
      Metrics: util/metrics. Logging: util/logging, the access log.
    - MetaStore: db/meta_store, one definition per method, with the retry on a
      deadlock or a duplicate key and both caches. Sessions: every method leaves a
      session that accepts START TRANSACTION one that does. MetaStoreSpec has the abstract
      store ([AStore]: objects, parts, counts) and the refinement of the
      operations that move references; MetaStoreProps and MetaStoreQueries have
      the properties; MetaCache those of the Redis cache of the objects.
    - FileSys, Paths, TempFiles: util/fs, the calls of the data store, the path test
      with the directory calls, and the objects that own a temporary file as a step
      relation. DataStore: storage/cas_layout and storage/data_store.
      Loops on [write] and [read] take as fuel the bytes left plus [os_patience],
      the bound the operating system gives on interrupted calls in a row; the
      [wp] rules show that it is enough. DataStoreSpec, DataStoreProps.
    - Auth: the authentication middleware and presigned URLs. Trace: the trace middleware.
    - World: the state of a running server as the handlers reach it ([StoreW]:
      metadata, files, the collector's queue). Gc: storage/gc with the callback
      of server/server.cpp. ObjectHandlers, MultipartHandlers, BucketHandlers:
      api/handlers. GcThread: the thread of the collector, with the threads that
      queue contents and stop it. Services: the bucket, object and multipart
      classes of service/, which the program does not call yet.
    - StoreSpec: the invariant of that state ([store_ok]): no transaction is
      open, every content in place hashes to its name, every count covers the
      references ([covered]), every referenced content is in place, and the queue
      holds valid keys; and the classes of operations that keep it. GcProps,
      StoreProps, ObjectProps and MultipartProps have the properties,
      Durability those of a PUT, other requests and a GET, Atomicity what a PUT
      leaves on every outcome.
    - Programs: the handlers and a batch of the collector again, as programs whose
      steps are the calls they make on the stores; run without interruption they are
      the handlers ([run_request], [run_batch]). Interleaving: any number of requests
      and the collector as a step relation, one call of one of them at a time, with the
      facts each relies on between its calls and what each call guarantees to the
      others. Linear: the call at which a request takes effect. Races: runs that
      go wrong.
    - TimerWheel, EventLoop: net/epoll, the wheel of an hour and one loop with its
      queue of functors, seen from its own thread. LoopThreads: the same loop with
      the threads that queue functors and ask it to quit, as a step relation.
      Channel: the channels, their objects and the kernel's list of them. Acceptor:
      the acceptor and the choice of a loop for a connection. Lifecycle: [Start] and
      [Stop] of server/server.cpp with the IO threads as a step relation. HttpConnection:
      net/http/http_connection, the state of one connection with its buffers, its
      file, its timers and its callbacks; the kernel's answers to [read], [write]
      and [sendfile] come with each event. ConnProps has what reaches the client,
      ConnReads what a client of the connection receives of a request, through the
      class [BodyClient].
    - Server: server/server.cpp, the routing table, the callbacks of a connection
      with the upload sessions, and the round of the loop ([loop_round]). Startup:
      [Init], the constructors that may throw, and main.cpp.
      ServerProps composes all parts from the bytes of a PUT to the stored
      content, Serving from a GET to the bytes on the wire; ServerFaults shows what
      failed writes, forged headers and names that are not UTF-8 do.

    ** What the theorems show

    - No loss: [store_consistent] (the invariant over any sequence of requests
      and collector batches on any answers of the database and the files), [put_durable]
      (what a PUT stored is served until the object is written again),
      [put_all_or_nothing] (a PUT that fails in any way leaves the old object or the new),
      [gc_batch_safe], [can_delete_unreferenced].
    - Requests and the collector at the same time: [interleaved_store_consistent]
      (the invariant under any interleaving of their calls, as long as none is about
      to remove a content another has stored and not yet counted),
      [requests_linearize] (a PUT, a DELETE or a GET takes effect at one of its own
      calls, as the abstract store prescribes, or at none and then it does not succeed).
    - The handlers: [put_object_stores], [get_object_serves],
      [complete_upload_concatenates], [parse_range_forms].
    - The metadata store refines the abstract one: [put_object_refcount],
      [delete_object_refcount], [put_part_refcount]; it makes progress
      ([put_object_succeeds]); listing is exact ([list_objects_page]); a read
      answers the current row although it may come from Redis
      ([cached_reads_current]).
    - Threads: the pool of connections keeps its count and loses no wake-up
      ([pool_sound]), a loop runs what is queued once and in order
      ([loop_threads_sound]), so does the collector ([gc_thread_sound]), and the
      kernel is never left with the address of a dead channel ([epoll_no_dangling]). A serving
      server has its loops registered ([start_registers_loops]), and [Stop] on the main
      thread ends with nothing left of it, on any other aborts ([stop_terminates]).
    - The helpers: what Redis returns is what was set ([redis_values], with
      [resp_roundtrip] for the commands), the metrics count what was served
      ([metrics_exact]), what is loaded is a
      configuration of the right types ([config_well_typed]), [Init] makes every part
      or says why not ([init_makes_ready]) and does not need Redis
      ([redis_is_optional]).
    - Files: temporary files do not leak ([temp_files_sound]). The data store: [write_stores], [write_read_roundtrip],
      [merge_concatenates], [stream_read_range].
    - HTTP: [parse_roundtrip], [parse_incremental], [parse_refines_list],
      [parser_lengths_safe], [buffer_fifo], [handle_dispatch].
    - The network: [streamed_put] (from the pieces in which a PUT arrives to the
      file and the call of the handlers), [get_on_the_wire] (from a GET to the bytes of
      the object that the client receives), [response_on_the_wire] and
      [response_leaves] (what is sent, and that all of it is sent), and
      [timer_wheel_exact] (the wheel refines a table of countdowns).
    - Access: [auth_gate], [presign_roundtrip], [presign_binds],
      [trace_propagates], [uuid_fallback_valid].
    - Behaviour that surprises: [gc_race_loses_object],
      [list_objects_skips_marker], [put_object_prefix_clash],
      [idempotency_lifetime], [abort_failure_undercounts],
      [suffix_zero_sends_file], [failed_write_corrupts],
      [internal_header_trusted], [chunked_put_stores_empty],
      [outage_exhausts_pool], [late_pong_answers_set], [early_quit_forgotten],
      [gc_stop_missed], [service_put_refused], [one_row_stale_entry],
      [early_stop_hangs], [path_safe_accepts], [bad_request_id_throws]; and when
      requests interleave, [cleanup_loses_object], [delete_bucket_loses_object],
      [double_abort_undercounts].

    ** Limits

    Most theorems on the handlers serve requests and collector batches one at a time.
    Interleaving, Linear and Races let them interleave between their calls: a
    metadata operation with its transaction, or an operation of the data store, is
    one atomic step there. Transactions that touch the same references lock their
    rows, but at READ COMMITTED a row that does not exist is not locked, and two first
    uploads of one part number may leave a count too high (Programs).

    The theorems on what the database keeps are for sessions on which START
    TRANSACTION does not fail ([starts], part of [store_ok]): the constructor of
    Transaction ignores its failure, and then they do not hold. Any other statement
    may fail. Those on requests take them as the server hands them to the handlers
    when the client does not forge the internal headers ([streamed];
    [internal_header_trusted] is what a forged one does). Those that name one row for
    an object ask that no other key shares its first 255 characters
    ([put_object_prefix_clash]), and reads are served without Redis unless they say so.

    [store_consistent] and [interleaved_store_consistent]
    leave out CompleteUpload and AbortUpload, which release references before they
    delete the rows that hold them ([abort_failure_undercounts],
    [double_abort_undercounts]), and the service classes. The threads of the pool,
    the loops, the collector and the server are step relations of their own (MySQLPool,
    LoopThreads, GcThread, Lifecycle).
    In HttpConnection and Server a loop is seen from its own thread, and the
    theorems on a connection follow one connection. Log messages are not modelled
    but for the access log, nor the query parameters that a handler parses into
    the request it was passed, nor a signal that comes while the main thread holds
    a mutex, nor a [Stop] that destroys the acceptor before [Start] listens on it,
    which C++ leaves undefined. *)
From Stdlib Require Export ZArith Lia Ascii.
From stdpp Require Export base gmap strings list fin_maps pretty.

Declare Scope minis3_scope.
Delimit Scope minis3_scope with minis3.
Create HintDb minis3 discriminated.
Create Rewrite HintDb minis3_rw.

(** ** Machine integers *)

(** [size_t] and [uint64_t] arithmetic wraps modulo [2^64]; [int64_t] and
    [int] are kept as [Z] with their ranges written out where they matter. *)
Definition two64 : Z := 18446744073709551616.
Definition two63 : Z := 9223372036854775808.
Definition u64 (z : Z) : Z := (z mod two64)%Z.

Lemma u64_small z : (0 <= z < two64)%Z -> u64 z = z.
Proof. intros H. unfold u64. by apply Z.mod_small. Qed.

Lemma u64_range z : (0 <= u64 z < two64)%Z.
Proof. unfold u64. apply Z.mod_pos_bound. unfold two64. lia. Qed.

(** Removes the [u64] of a goal whose argument is in range. *)
Ltac u64_tac := repeat rewrite u64_small by (unfold two64, two63 in *; lia).

(** ** Characters and strings *)

#[global] Arguments String.append !s1 s2 / : simpl nomatch.

Definition CR : ascii := "013".
Definition LF : ascii := "010".

(** [std::tolower] of the C locale. *)
Definition tolower (c : ascii) : ascii :=
  let n := nat_of_ascii c in
  if ((65 <=? n) && (n <=? 90))%nat then ascii_of_nat (n + 32) else c.

Fixpoint str_map (f : ascii -> ascii) (s : string) : string :=
  match s with
  | EmptyString => EmptyString
  | String c r => String (f c) (str_map f r)
  end.

Definition to_lower (s : string) : string := str_map tolower s.

(** [std::string::empty]. *)
Definition str_empty (s : string) : bool :=
  match s with EmptyString => true | _ => false end.

Fixpoint str_take (n : nat) (s : string) : string :=
  match n, s with
  | S n, String c r => String c (str_take n r)
  | _, _ => EmptyString
  end.

Fixpoint str_drop (n : nat) (s : string) : string :=
  match n, s with
  | S n, String _ r => str_drop n r
  | _, _ => s
  end.

(** [s.substr(pos, len)] for a [pos] within the string. *)
Definition substr (s : string) (pos len : nat) : string :=
  str_take len (str_drop pos s).

(** [s.find(c)], [None] for [npos]. *)
Fixpoint str_find (c : ascii) (s : string) : option nat :=
  match s with
  | EmptyString => None
  | String d r => if Ascii.eqb c d then Some 0%nat else S <$> str_find c r
  end.

(** [s.find(c, from)]. *)
Definition str_find_from (c : ascii) (s : string) (from : nat) : option nat :=
  (fun i => (from + i)%nat) <$> str_find c (str_drop from s).

(** [s.find(needle) != npos]. *)
Definition str_contains (needle s : string) : bool :=
  match String.index 0 needle s with Some _ => true | None => false end.

(** Characters of a string satisfying a test. *)
Fixpoint str_all (p : ascii -> bool) (s : string) : bool :=
  match s with
  | EmptyString => true
  | String c r => p c && str_all p r
  end.

(** No occurrence of the character [c]. *)
Definition str_free (c : ascii) (s : string) : bool :=
  str_all (fun d => negb (Ascii.eqb c d)) s.

Definition bytes_of (s : string) : list ascii := String.list_ascii_of_string s.
Definition string_of (l : list ascii) : string := String.string_of_list_ascii l.

Lemma string_of_bytes s : string_of (bytes_of s) = s.
Proof. apply String.string_of_list_ascii_of_string. Qed.

Lemma bytes_of_string l : bytes_of (string_of l) = l.
Proof. apply String.list_ascii_of_string_of_list_ascii. Qed.

Lemma bytes_app a b : bytes_of (a +:+ b) = bytes_of a ++ bytes_of b.
Proof. induction a as [|c a IH]; [done|]. cbn. by f_equal. Qed.

Lemma bytes_length s : length (bytes_of s) = String.length s.
Proof. induction s as [|c s IH]; [done|]. cbn. by f_equal. Qed.

Lemma bytes_inj a b : bytes_of a = bytes_of b -> a = b.
Proof. intros H. by rewrite <-(string_of_bytes a), H, string_of_bytes. Qed.

Lemma str_app_nil_r s : s +:+ "" = s.
Proof. induction s as [|c s IH]; [done|]. cbn. by f_equal. Qed.

Lemma str_app_assoc a b c : (a +:+ b) +:+ c = a +:+ (b +:+ c).
Proof. induction a as [|x a IH]; [done|]. cbn. by f_equal. Qed.

Lemma str_app_cons c a b : String c a +:+ b = String c (a +:+ b).
Proof. done. Qed.

Lemma str_app_nil_l b : "" +:+ b = b.
Proof. done. Qed.

Lemma str_length_app a b :
  String.length (a +:+ b) = (String.length a + String.length b)%nat.
Proof. induction a as [|c a IH]; [done|]. cbn. by f_equal. Qed.

Lemma str_empty_spec s : str_empty s = true <-> s = "".
Proof. destruct s; split; (done || discriminate). Qed.

Lemma str_empty_false s : str_empty s = false <-> s <> "".
Proof. destruct s; split; (done || discriminate). Qed.

Lemma str_take_app a b : str_take (String.length a) (a +:+ b) = a.
Proof. induction a as [|c a IH]; [by destruct b|]. cbn. by f_equal. Qed.

Lemma str_drop_app a b : str_drop (String.length a) (a +:+ b) = b.
Proof. induction a as [|c a IH]; [done|]. cbn. done. Qed.

Lemma str_take_drop n s : str_take n s +:+ str_drop n s = s.
Proof. revert s. induction n as [|n IH]; intros [|c s]; try done. cbn. f_equal. apply IH. Qed.

Lemma str_drop_0 s : str_drop 0 s = s.
Proof. by destruct s. Qed.

Lemma str_take_all n s : (String.length s <= n)%nat -> str_take n s = s.
Proof.
  revert s. induction n as [|n IH]; intros [|c s]; cbn; intros H; try done; [lia|].
  f_equal. apply IH. lia.
Qed.

Lemma str_drop_all n s : (String.length s <= n)%nat -> str_drop n s = "".
Proof.
  revert s. induction n as [|n IH]; intros [|c s]; cbn; intros H; try done; [lia|].
  apply IH. lia.
Qed.

Lemma str_drop_app_S a c b :
  str_drop (S (String.length a)) (a +:+ String c b) = b.
Proof. induction a as [|d a IH]; [by destruct b|]. cbn. done. Qed.

Lemma str_all_app p a b : str_all p (a +:+ b) = str_all p a && str_all p b.
Proof. induction a as [|c a IH]; [done|]. cbn. rewrite IH. by destruct (p c). Qed.

Lemma str_all_impl (p q : ascii -> bool) s :
  (forall c, p c = true -> q c = true) -> str_all p s = true -> str_all q s = true.
Proof.
  intros Hpq. induction s as [|c s IH]; [done|]. cbn.
  rewrite !andb_true_iff. intros [H1 H2]. auto.
Qed.

Lemma str_find_free c s : str_free c s = true <-> str_find c s = None.
Proof.
  unfold str_free. induction s as [|d s IH]; [done|]. cbn.
  destruct (Ascii.eqb c d) eqn:E; cbn; [done|].
  rewrite IH. destruct (str_find c s); cbn; split; congruence.
Qed.

Lemma str_find_app c a b :
  str_free c a = true -> str_find c (a +:+ String c b) = Some (String.length a).
Proof.
  unfold str_free. induction a as [|d a IH]; cbn.
  { intros _. by rewrite Ascii.eqb_refl. }
  destruct (Ascii.eqb c d) eqn:E; cbn; [discriminate|].
  intros H. by rewrite IH.
Qed.

Lemma str_find_Some c s i :
  str_find c s = Some i ->
  s = str_take i s +:+ String c (str_drop (S i) s) /\
  str_free c (str_take i s) = true /\ String.length (str_take i s) = i.
Proof.
  unfold str_free. revert i. induction s as [|d s IH]; intros i; cbn; [done|].
  destruct (Ascii.eqb c d) eqn:E.
  - intros [= <-]. by apply Ascii.eqb_eq in E as ->.
  - destruct (str_find c s) as [j|] eqn:F; cbn; [|done].
    intros [= <-]. destruct (IH j eq_refl) as (H1 & H2 & H3).
    cbn. rewrite E. cbn. split_and!; [by f_equal|done|by f_equal].
Qed.

(** ** Decimal conversions *)

(** [std::to_string]. *)
Definition to_string (z : Z) : string := pretty z.

Definition digit_val (c : ascii) : option Z :=
  let n := Z.of_nat (nat_of_ascii c) in
  if ((48 <=? n) && (n <=? 57))%Z then Some (n - 48)%Z else None.

Definition is_digit (c : ascii) : bool :=
  match digit_val c with Some _ => true | None => false end.

(** Reads the longest run of decimal digits: its value and what follows. *)
Fixpoint scan_digits (acc : Z) (s : string) : Z * string :=
  match s with
  | EmptyString => (acc, EmptyString)
  | String c r =>
      match digit_val c with
      | Some d => scan_digits (acc * 10 + d)%Z r
      | None => (acc, s)
      end
  end.

(** [std::from_chars] into a [size_t]: no sign, no blanks; an empty run of
    digits and a value beyond [2^64 - 1] are errors. Returns the value and the
    unread rest. *)
Definition from_chars (s : string) : option (Z * string) :=
  match s with
  | EmptyString => None
  | String c _ =>
      if is_digit c then
        let '(v, rest) := scan_digits 0 s in
        if (v <? two64)%Z then Some (v, rest) else None
      else None
  end.

(** Outcome of the throwing conversions [stoi], [stoll], [stoull]. *)
Inductive conv : Type :=
  | Conv (z : Z)
  | InvalidConv
  | RangeConv.

Fixpoint skip_spaces (s : string) : string :=
  match s with
  | String c r => if Ascii.is_space c then skip_spaces r else s
  | EmptyString => EmptyString
  end.

(** Optional sign of [strtol] and friends: (negative?, rest). *)
Definition read_sign (s : string) : bool * string :=
  match s with
  | String "-" r => (true, r)
  | String "+" r => (false, r)
  | _ => (false, s)
  end.

(** Sign and magnitude read by the [strto*] family, [None] without a digit. *)
Definition strto (s : string) : option (bool * Z) :=
  let '(neg, r) := read_sign (skip_spaces s) in
  match r with
  | String c _ => if is_digit c then Some (neg, fst (scan_digits 0 r)) else None
  | EmptyString => None
  end.

Definition sto_signed (bound : Z) (s : string) : conv :=
  match strto s with
  | None => InvalidConv
  | Some (neg, m) =>
      let v := if neg then (- m)%Z else m in
      if ((- bound <=? v) && (v <? bound))%Z then Conv v else RangeConv
  end.

(** [std::stoi] into a 32-bit [int]; [std::stoll] into an [int64_t]. *)
Definition stoi : string -> conv := sto_signed 2147483648.
Definition stoll : string -> conv := sto_signed two63.

(** [std::stoull]: the magnitude must fit, a minus sign negates it modulo
    [2^64]. *)
Definition stoull (s : string) : conv :=
  match strto s with
  | None => InvalidConv
  | Some (neg, m) =>
      if (m <? two64)%Z then Conv (if neg then u64 (- m) else m) else RangeConv
  end.

Lemma digit_val_pretty x :
  digit_val (pretty_N_char (x `mod` 10)) = Some (Z.of_N (x `mod` 10)).
Proof.
  assert (H : (x `mod` 10 < 10)%N) by (apply N.mod_lt; lia).
  destruct (x `mod` 10)%N as [|p]; [done|].
  do 4 (destruct p as [p|p|]; try done); lia.
Qed.

Lemma scan_pretty_go x s :
  scan_digits 0 (pretty_N_go x s) = scan_digits (Z.of_N x) s.
Proof.
  revert s. induction (N.lt_wf_0 x) as [x _ IH]; intros s.
  destruct (decide (x = 0%N)) as [->|Hx]; [by rewrite pretty_N_go_0|].
  rewrite pretty_N_go_step by lia.
  rewrite IH by (apply N.div_lt; lia). cbn [scan_digits].
  rewrite digit_val_pretty. f_equal.
  pose proof (N.div_mod' x 10). lia.
Qed.

Lemma pretty_go_app x s rest : pretty_N_go x s +:+ rest = pretty_N_go x (s +:+ rest).
Proof.
  revert s. induction (N.lt_wf_0 x) as [x _ IH]; intros s.
  destruct (decide (x = 0%N)) as [->|Hx]; [by rewrite !pretty_N_go_0|].
  rewrite !(pretty_N_go_step x) by lia. rewrite IH by (apply N.div_lt; lia). done.
Qed.

Lemma pretty_go_digits x s :
  str_all is_digit (pretty_N_go x s) = str_all is_digit s.
Proof.
  revert s. induction (N.lt_wf_0 x) as [x _ IH]; intros s.
  destruct (decide (x = 0%N)) as [->|Hx]; [by rewrite !pretty_N_go_0|].
  rewrite !(pretty_N_go_step x) by lia. rewrite IH by (apply N.div_lt; lia).
  cbn. unfold is_digit. by rewrite digit_val_pretty.
Qed.

Lemma to_string_N n : (0 <= n)%Z -> to_string n = pretty (Z.to_N n).
Proof. intros H. by destruct n. Qed.

Lemma to_string_go n : (0 < n)%Z -> to_string n = pretty_N_go (Z.to_N n) "".
Proof.
  intros H. rewrite to_string_N by lia.
  unfold pretty, pretty_N. rewrite decide_False; [done|lia].
Qed.

Lemma to_string_digits n : (0 <= n)%Z -> str_all is_digit (to_string n) = true.
Proof.
  intros H. destruct (decide (n = 0%Z)) as [->|]; [done|].
  rewrite to_string_go by lia. by rewrite pretty_go_digits.
Qed.

(** Reading back a printed number, with any continuation. *)
Lemma scan_to_string n rest :
  (0 <= n)%Z -> scan_digits 0 (to_string n +:+ rest) = scan_digits n rest.
Proof.
  intros H. destruct (decide (n = 0%Z)) as [->|]; [done|].
  rewrite to_string_go, pretty_go_app, scan_pretty_go by lia. cbn. f_equal. lia.
Qed.

Lemma to_string_cons n :
  (0 <= n)%Z -> exists c r, to_string n = String c r /\ is_digit c = true.
Proof.
  intros H. pose proof (to_string_digits n H) as Hd.
  destruct (to_string n) as [|c r] eqn:E.
  - exfalso. pose proof (scan_to_string n "" H) as Hs. rewrite E in Hs.
    cbn in Hs. injection Hs as Hs. subst n. discriminate.
  - cbn in Hd. apply andb_true_iff in Hd as [? _]. eauto.
Qed.

Lemma from_chars_to_string n :
  (0 <= n < two64)%Z -> from_chars (to_string n) = Some (n, "").
Proof.
  intros H. destruct (to_string_cons n) as (c & r & E & Hc); [lia|].
  unfold from_chars. rewrite E, Hc, <-E.
  pose proof (scan_to_string n "" ltac:(lia)) as Hs. rewrite str_app_nil_r in Hs.
  rewrite Hs. cbn. by destruct (Z.ltb_spec n two64); [|lia].
Qed.

Lemma digit_not_space c : is_digit c = true -> Ascii.is_space c = false.
Proof. destruct c as [[] [] [] [] [] [] [] []]; (done || discriminate). Qed.

Lemma digit_not_sign c r : is_digit c = true -> read_sign (String c r) = (false, String c r).
Proof. destruct c as [[] [] [] [] [] [] [] []]; (done || discriminate). Qed.

Lemma strto_to_string n : (0 <= n)%Z -> strto (to_string n) = Some (false, n).
Proof.
  intros H. destruct (to_string_cons n) as (c & r & E & Hc); [lia|].
  unfold strto. rewrite E. cbn [skip_spaces].
  rewrite digit_not_space, digit_not_sign, Hc, <-E by done.
  pose proof (scan_to_string n "" ltac:(lia)) as Hs. rewrite str_app_nil_r in Hs.
  by rewrite Hs.
Qed.

Lemma stoll_to_string n : (0 <= n < two63)%Z -> stoll (to_string n) = Conv n.
Proof.
  intros H. unfold stoll, sto_signed. rewrite strto_to_string by lia.
  destruct (Z.leb_spec (- two63) n), (Z.ltb_spec n two63); (done || unfold two63 in *; lia).
Qed.

(** Any printed integer is read back, with its sign. *)
Lemma strto_to_string_any n : strto (to_string n) = Some (n <? 0, Z.abs n)%Z.
Proof.
  destruct (Z.ltb_spec n 0) as [Hn|Hn].
  - assert (E : to_string n = String "-" (to_string (- n))) by (destruct n; (done || lia)).
    destruct (to_string_cons (- n)) as (c & r & Ec & Hc); [lia|].
    rewrite E. unfold strto. change (skip_spaces (String "-" (to_string (- n))))
      with (String "-" (to_string (- n))). cbn [read_sign]. rewrite Ec, Hc, <-Ec.
    pose proof (scan_to_string (- n) "" ltac:(lia)) as Hs. rewrite str_app_nil_r in Hs.
    rewrite Hs. cbn. do 2 f_equal. lia.
  - rewrite strto_to_string by done. do 2 f_equal. lia.
Qed.

Lemma sto_signed_to_string bound n :
  sto_signed bound (to_string n) =
  if ((- bound <=? n) && (n <? bound))%Z then Conv n else RangeConv.
Proof.
  unfold sto_signed. rewrite strto_to_string_any.
  assert (E : (if (n <? 0)%Z then (- Z.abs n)%Z else Z.abs n) = n)
    by (destruct (Z.ltb_spec n 0); lia).
  by rewrite E.
Qed.

Lemma stoull_to_string n : (0 <= n < two64)%Z -> stoull (to_string n) = Conv n.
Proof.
  intros H. unfold stoull. rewrite strto_to_string by lia.
  destruct (Z.ltb_spec n two64); (done || lia).
Qed.

(** ** Exceptions and state

    [exn A] is the outcome of a call that may throw; [M W A] is a call on a
    mutable world [W] that may throw, the effects made before the throw being
    kept. *)
Inductive exn (A : Type) : Type :=
  | Ret (a : A)
  | Throw (what : string).
Arguments Ret {A} a.
Arguments Throw {A} what.

#[export] Instance exn_ret : MRet exn := fun A a => Ret a.
#[export] Instance exn_bind : MBind exn := fun A B k m =>
  match m with Ret a => k a | Throw e => Throw e end.

Definition M (W A : Type) : Type := W -> exn A * W.

#[export] Instance M_ret {W} : MRet (M W) := fun A a w => (Ret a, w).
#[export] Instance M_bind {W} : MBind (M W) := fun A B k m w =>
  match m w with
  | (Ret a, w') => k a w'
  | (Throw e, w') => (Throw e, w')
  end.

(** A throwing computation without effects, and a conversion that throws. *)
Definition lift_exn {W A} (m : exn A) : M W A := fun w => (m, w).

Definition conv_exn (c : conv) : exn Z :=
  match c with
  | Conv z => Ret z
  | InvalidConv => Throw "std::invalid_argument"
  | RangeConv => Throw "std::out_of_range"
  end.

(** A conversion inside [try { .. } catch (...) { v = d; }]. *)
Definition conv_or (d : Z) (c : conv) : Z :=
  match c with Conv z => z | _ => d end.

Definition crlf : string := String CR (String LF "").

Lemma str_drop_drop a b s : str_drop a (str_drop b s) = str_drop (b + a) s.
Proof.
  revert s. induction b as [|b IH]; intros s; cbn; [done|].
  destruct s as [|c s]; cbn; [by destruct a|apply IH].
Qed.

Lemma str_free_bytes c s : str_free c s = true -> c ∉ bytes_of s.
Proof.
  unfold str_free. induction s as [|d s IH]; cbn; [intros _; apply not_elem_of_nil|].
  rewrite andb_true_iff, negb_true_iff, Ascii.eqb_neq. intros [H1 H2].
  apply not_elem_of_cons. auto.
Qed.

Lemma str_free_app c a b : str_free c (a +:+ b) = str_free c a && str_free c b.
Proof. apply str_all_app. Qed.

Lemma str_free_cons c d s : str_free c (String d s) = negb (Ascii.eqb c d) && str_free c s.
Proof. done. Qed.

(** ** Reasoning about effectful code *)

Section wp.
Context {W : Type}.

(** [wp m Q w]: running [m] from [w] ends in a state that satisfies [Q]. *)
Definition wp {A} (m : M W A) (Q : exn A -> W -> Prop) (w : W) : Prop := Q (fst (m w)) (snd (m w)).

Lemma wp_ret {A} (a : A) Q w : Q (Ret a) w -> wp (mret a) Q w.
Proof. done. Qed.

Lemma wp_bind {A B} (m : M W A) (k : A -> M W B) Q w :
  wp m (fun r w' => match r with Ret a => wp (k a) Q w' | Throw e => Q (Throw e) w' end) w ->
  wp (m ≫= k) Q w.
Proof. unfold wp, mbind, M_bind. by destruct (m w) as [[a|e] w']. Qed.

Lemma wp_mono {A} (m : M W A) (Q R : exn A -> W -> Prop) w :
  wp m Q w -> (forall r w', Q r w' -> R r w') -> wp m R w.
Proof. unfold wp. auto. Qed.

Lemma wp_lift {A} (m : exn A) (Q : exn A -> W -> Prop) w : Q m w -> wp (lift_exn m) Q w.
Proof. done. Qed.

Lemma wp_run {A} (m : M W A) Q w r w' : m w = (r, w') -> wp m Q w -> Q r w'.
Proof. unfold wp. intros ->. done. Qed.

Lemma wp_both {A} (m : M W A) (Q R : exn A -> W -> Prop) w :
  wp m Q w -> wp m R w -> wp m (fun r w' => Q r w' /\ R r w') w.
Proof. done. Qed.
End wp.
