(* ===== verification/Status.v ===== *)
(** * Error codes, [Status] and [Result] (src/src/util/status.h)

    [ErrorCode] is the enumeration with its numeric values; [Status] pairs a
    code with a message; [Result T] is the variant a fallible call returns. *)
From S2P Require Import Prelude.

Inductive ErrorCode : Type :=
  | OK
  | InvalidArgument | InvalidRange | InvalidPartNumber | InvalidPartOrder
  | EntityTooLarge | ChecksumMismatch | MissingContentLength
  | Unauthorized | InvalidToken
  | AccessDenied | SignatureExpired
  | NoSuchBucket | NoSuchKey | NoSuchUpload
  | BucketAlreadyExists | IdempotencyConflict | ObjectAlreadyExists
  | InternalError | DatabaseError | StorageError
  | ServiceUnavailable.

#[export] Instance ErrorCode_eq_dec : EqDecision ErrorCode.
Proof. solve_decision. Defined.

(** [static_cast<int>(code)]. *)
Definition code_value (c : ErrorCode) : Z :=
  match c with
  | OK => 0
  | InvalidArgument => 400001 | InvalidRange => 400002
  | InvalidPartNumber => 400003 | InvalidPartOrder => 400004
  | EntityTooLarge => 400005 | ChecksumMismatch => 400006
  | MissingContentLength => 400007
  | Unauthorized => 401001 | InvalidToken => 401002
  | AccessDenied => 403001 | SignatureExpired => 403002
  | NoSuchBucket => 404001 | NoSuchKey => 404002 | NoSuchUpload => 404003
  | BucketAlreadyExists => 409001 | IdempotencyConflict => 409002
  | ObjectAlreadyExists => 409003
  | InternalError => 500001 | DatabaseError => 500002 | StorageError => 500003
  | ServiceUnavailable => 503001
  end%Z.

Definition GetHttpStatus (code : ErrorCode) : Z :=
  let v := code_value code in
  if (v =? 0)%Z then 200%Z else Z.quot v 1000.

Definition GetErrorName (code : ErrorCode) : string :=
  match code with
  | OK => "OK"
  | InvalidArgument => "InvalidArgument"
  | InvalidRange => "InvalidRange"
  | InvalidPartNumber => "InvalidPartNumber"
  | InvalidPartOrder => "InvalidPartOrder"
  | EntityTooLarge => "EntityTooLarge"
  | ChecksumMismatch => "ChecksumMismatch"
  | MissingContentLength => "MissingContentLength"
  | Unauthorized => "Unauthorized"
  | InvalidToken => "InvalidToken"
  | AccessDenied => "AccessDenied"
  | SignatureExpired => "SignatureExpired"
  | NoSuchBucket => "NoSuchBucket"
  | NoSuchKey => "NoSuchKey"
  | NoSuchUpload => "NoSuchUpload"
  | BucketAlreadyExists => "BucketAlreadyExists"
  | IdempotencyConflict => "IdempotencyConflict"
  | ObjectAlreadyExists => "ObjectAlreadyExists"
  | InternalError => "InternalError"
  | DatabaseError => "DatabaseError"
  | StorageError => "StorageError"
  | ServiceUnavailable => "ServiceUnavailable"
  end.

Record Status : Type := MkStatus { code_ : ErrorCode; message_ : string }.

Definition Status_OK : Status := MkStatus OK "".
Definition Status_Error (c : ErrorCode) (m : string) : Status := MkStatus c m.
Definition Status_InvalidArgument (m : string) : Status := MkStatus InvalidArgument m.
Definition Status_NotFound (m : string) : Status := MkStatus NoSuchKey m.
Definition Status_AlreadyExists (m : string) : Status := MkStatus BucketAlreadyExists m.
Definition Status_Unauthorized (m : string) : Status := MkStatus Unauthorized m.
Definition Status_InternalError (m : string) : Status := MkStatus InternalError m.

Definition status_ok (s : Status) : bool := bool_decide (code_ s = OK).

Definition IsNotFound (s : Status) : bool :=
  bool_decide (code_ s = NoSuchKey) || bool_decide (code_ s = NoSuchBucket)
  || bool_decide (code_ s = NoSuchUpload).

Definition HttpStatus (s : Status) : Z := GetHttpStatus (code_ s).

Definition ToString (s : Status) : string :=
  if status_ok s then "OK" else GetErrorName (code_ s) +:+ ": " +:+ message_ s.

(** [Result<T>]: the [std::variant<T, Status>] and its two constructors. *)
Inductive Result (A : Type) : Type :=
  | Ok (a : A)
  | Err (s : Status).
Arguments Ok {A} a.
Arguments Err {A} s.

Definition result_ok {A} (r : Result A) : bool :=
  match r with Ok _ => true | Err _ => false end.

(** [Result::status] and [Result::code] of either side. *)
Definition result_status {A} (r : Result A) : Status :=
  match r with Ok _ => Status_OK | Err s => s end.

Definition result_code {A} (r : Result A) : ErrorCode :=
  match r with Ok _ => OK | Err s => code_ s end.

#[export] Instance Result_map : FMap Result := fun A B f r =>
  match r with Ok a => Ok (f a) | Err s => Err s end.

#[export] Instance Result_bind : MBind Result := fun A B f r =>
  match r with Ok a => f a | Err s => Err s end.

(** The mapped HTTP status of every code is one of the response codes
    [HttpResponse::GetStatusMessage] knows, and a code is an error exactly when
    its HTTP status is a 4xx or a 5xx. *)
Lemma http_status_class code :
  GetHttpStatus code ∈ [200; 400; 401; 403; 404; 409; 500; 503]%Z /\
  (code <> OK <-> (400 <= GetHttpStatus code < 600)%Z).
Proof.
  destruct code; (split; [repeat constructor|]); split; intros H;
    vm_compute in H |- *; first [by destruct H | by split | congruence].
Qed.

(** A code is recovered from its name: the names are pairwise distinct. *)
Lemma GetErrorName_inj a b : GetErrorName a = GetErrorName b -> a = b.
Proof. by destruct a, b. Qed.

Lemma IsNotFound_http s : IsNotFound s = true <-> HttpStatus s = 404%Z.
Proof.
  destruct s as [c m]. unfold IsNotFound, HttpStatus. cbn [code_].
  split; intros H; [|]; destruct c; vm_compute in H |- *; congruence.
Qed.
