(* ===== verification/ByteBuffer.v ===== *)
(** * The socket byte buffer (src/src/net/buffer/byte_buffer.h, .cpp)

    A vector of bytes with a read and a write index, both of type [size_t].
    [contents] is the abstraction: the bytes between the two indices. *)
From S2P Require Import Prelude.
Open Scope Z_scope.

Definition kInitialSize : Z := 1024.
Definition kPrependSize : Z := 8.
(** [sizeof(extrabuf)] in [ReadFd]. *)
Definition kExtraBuf : Z := 65536.

Record ByteBuffer : Type := MkBuffer {
  buffer_ : list ascii;
  reader_index_ : Z;
  writer_index_ : Z
}.

Definition zlen {A} (l : list A) : Z := Z.of_nat (length l).

(** [std::vector<char>(n)] and [resize(n)] value-initialise the new bytes. *)
Definition zeros (n : Z) : list ascii := replicate (Z.to_nat n) zero.
Definition vec_resize (n : Z) (v : list ascii) : list ascii :=
  resize (Z.to_nat n) zero v.

(** The bytes [v[i .. j)]. *)
Definition slice (v : list ascii) (i j : Z) : list ascii :=
  take (Z.to_nat (j - i)) (drop (Z.to_nat i) v).

(** Stores [d] from index [i] on, the destination of [std::copy] and [memcpy]. *)
Definition store (v : list ascii) (i : Z) (d : list ascii) : list ascii :=
  take (Z.to_nat i) v ++ d ++ drop (Z.to_nat i + length d) v.

Definition new_buffer (initial_size : Z) : ByteBuffer :=
  MkBuffer (zeros (kPrependSize + initial_size)) kPrependSize kPrependSize.

Definition ReadableBytes (b : ByteBuffer) : Z := u64 (writer_index_ b - reader_index_ b).
Definition WritableBytes (b : ByteBuffer) : Z := u64 (zlen (buffer_ b) - writer_index_ b).
Definition PrependableBytes (b : ByteBuffer) : Z := reader_index_ b.

Definition RetrieveAll (b : ByteBuffer) : ByteBuffer :=
  MkBuffer (buffer_ b) kPrependSize kPrependSize.

Definition Retrieve (b : ByteBuffer) (len : Z) : ByteBuffer :=
  if len <? ReadableBytes b
  then MkBuffer (buffer_ b) (u64 (reader_index_ b + len)) (writer_index_ b)
  else RetrieveAll b.

(** [end] is given by its index in [buffer_]; [Peek()] is [reader_index_]. *)
Definition RetrieveUntil (b : ByteBuffer) (end_ : Z) : ByteBuffer :=
  Retrieve b (u64 (end_ - reader_index_ b)).

Definition RetrieveAsString (b : ByteBuffer) (len : Z) : string * ByteBuffer :=
  let n := Z.min len (ReadableBytes b) in
  (string_of (slice (buffer_ b) (reader_index_ b) (reader_index_ b + n)), Retrieve b len).

Definition RetrieveAllAsString (b : ByteBuffer) : string * ByteBuffer :=
  RetrieveAsString b (ReadableBytes b).

Definition HasWritten (b : ByteBuffer) (len : Z) : ByteBuffer :=
  MkBuffer (buffer_ b) (reader_index_ b) (u64 (writer_index_ b + len)).

Definition Unwrite (b : ByteBuffer) (len : Z) : ByteBuffer :=
  MkBuffer (buffer_ b) (reader_index_ b) (u64 (writer_index_ b - len)).

Definition MakeSpace (b : ByteBuffer) (len : Z) : ByteBuffer :=
  if u64 (WritableBytes b + PrependableBytes b) <? u64 (len + kPrependSize)
  then MkBuffer (vec_resize (u64 (writer_index_ b + len)) (buffer_ b))
         (reader_index_ b) (writer_index_ b)
  else
    let readable := ReadableBytes b in
    MkBuffer
      (store (buffer_ b) kPrependSize
         (slice (buffer_ b) (reader_index_ b) (writer_index_ b)))
      kPrependSize (u64 (kPrependSize + readable)).

Definition EnsureWritableBytes (b : ByteBuffer) (len : Z) : ByteBuffer :=
  if WritableBytes b <? len then MakeSpace b len else b.

Definition Append (b : ByteBuffer) (data : list ascii) : ByteBuffer :=
  let b1 := EnsureWritableBytes b (zlen data) in
  HasWritten
    (MkBuffer (store (buffer_ b1) (writer_index_ b1) data)
       (reader_index_ b1) (writer_index_ b1))
    (zlen data).

Definition Append_str (b : ByteBuffer) (s : string) : ByteBuffer := Append b (bytes_of s).

Definition Prepend (b : ByteBuffer) (data : list ascii) : ByteBuffer :=
  let r := u64 (reader_index_ b - zlen data) in
  MkBuffer (store (buffer_ b) r data) r (writer_index_ b).

Definition Shrink (b : ByteBuffer) (reserve : Z) : ByteBuffer :=
  let readable := ReadableBytes b in
  let buf := zeros (kPrependSize + readable + reserve) in
  MkBuffer
    (store buf kPrependSize
       (slice (buffer_ b) (reader_index_ b) (reader_index_ b + readable)))
    kPrependSize (u64 (kPrependSize + readable)).

(** [std::search(.., "\r\n", "\r\n" + 2)]: offset of the first match. *)
Fixpoint search_crlf (l : list ascii) : option nat :=
  match l with
  | c :: ((d :: _) as r) =>
      if Ascii.eqb c CR && Ascii.eqb d LF then Some 0%nat else S <$> search_crlf r
  | _ => None
  end.

(** [memchr(.., '\n', ..)]. *)
Fixpoint search_lf (l : list ascii) : option nat :=
  match l with
  | c :: r => if Ascii.eqb c LF then Some 0%nat else S <$> search_lf r
  | [] => None
  end.

(** The searches return an index of [buffer_], [None] for [nullptr]. *)
Definition FindCRLF_from (b : ByteBuffer) (start : Z) : option Z :=
  (fun i => start + Z.of_nat i) <$> search_crlf (slice (buffer_ b) start (writer_index_ b)).

Definition FindCRLF (b : ByteBuffer) : option Z := FindCRLF_from b (reader_index_ b).

Definition FindEOL_from (b : ByteBuffer) (start : Z) : option Z :=
  (fun i => start + Z.of_nat i) <$> search_lf (slice (buffer_ b) start (writer_index_ b)).

Definition FindEOL (b : ByteBuffer) : option Z := FindEOL_from b (reader_index_ b).

(** Outcome of a [readv] or [read]: [errno], or the bytes the kernel stored. *)
Inductive io_read : Type := ReadErr (errno : Z) | ReadOk (data : list ascii).
(** Outcome of a [write]: [errno], or the number of bytes taken. *)
Inductive io_write : Type := WriteErr (errno : Z) | WriteOk (n : Z).

(** The room [readv] is given: the second vector is used only when the free
    space is smaller than [extrabuf]. *)
Definition ReadFd_room (b : ByteBuffer) : Z :=
  let writable := WritableBytes b in
  if writable <? kExtraBuf then writable + kExtraBuf else writable.

(** [ReadFd] on the outcome of its [readv]: the bytes fill the free space, then
    [extrabuf]. Returns [n] and the saved [errno]. *)
Definition ReadFd (b : ByteBuffer) (r : io_read) : (Z * option Z) * ByteBuffer :=
  match r with
  | ReadErr e => ((-1, Some e), b)
  | ReadOk data =>
      let writable := WritableBytes b in
      let n := zlen data in
      if n <=? writable then
        ((n, None),
         MkBuffer (store (buffer_ b) (writer_index_ b) data)
           (reader_index_ b) (u64 (writer_index_ b + n)))
      else
        let head := take (Z.to_nat writable) data in
        let b1 := MkBuffer (store (buffer_ b) (writer_index_ b) head)
                    (reader_index_ b) (zlen (buffer_ b)) in
        ((n, None), Append b1 (drop (Z.to_nat writable) data))
  end.

Definition WriteFd (b : ByteBuffer) (r : io_write) : (Z * option Z) * ByteBuffer :=
  match r with
  | WriteErr e => ((-1, Some e), b)
  | WriteOk n => ((n, None), Retrieve b n)
  end.

(** ** Slices *)

Lemma zlen_nonneg {A} (l : list A) : 0 <= zlen l.
Proof. unfold zlen. lia. Qed.

Lemma zlen_app {A} (l k : list A) : zlen (l ++ k) = zlen l + zlen k.
Proof. unfold zlen. rewrite length_app. lia. Qed.

Lemma zlen_drop {A} n (l : list A) : 0 <= n <= zlen l -> zlen (drop (Z.to_nat n) l) = zlen l - n.
Proof. unfold zlen. rewrite length_drop. lia. Qed.

Lemma zlen_take {A} n (l : list A) : 0 <= n <= zlen l -> zlen (take (Z.to_nat n) l) = n.
Proof. unfold zlen. rewrite length_take. lia. Qed.

Lemma slice_length v i j : 0 <= i <= j -> j <= zlen v -> zlen (slice v i j) = j - i.
Proof. unfold slice, zlen. rewrite length_take, length_drop. lia. Qed.

Lemma slice_empty v i : slice v i i = [].
Proof. unfold slice. by rewrite Z.sub_diag. Qed.

Lemma slice_app v i j k :
  0 <= i <= j -> j <= k -> slice v i j ++ slice v j k = slice v i k.
Proof.
  intros H1 H2. unfold slice.
  replace (Z.to_nat j) with (Z.to_nat i + Z.to_nat (j - i))%nat by lia.
  rewrite <-drop_drop, take_take_drop. f_equal. lia.
Qed.

Lemma slice_drop v i j n :
  0 <= i -> 0 <= n <= j - i -> drop (Z.to_nat n) (slice v i j) = slice v (i + n) j.
Proof.
  intros H1 H2. unfold slice. rewrite skipn_firstn_comm, drop_drop.
  f_equal; [|f_equal]; lia.
Qed.

Lemma slice_take v i j n :
  0 <= n <= j - i -> take (Z.to_nat n) (slice v i j) = slice v i (i + n).
Proof. intros H. unfold slice. rewrite take_take. f_equal. lia. Qed.

Lemma store_length v i d :
  0 <= i -> i + zlen d <= zlen v -> zlen (store v i d) = zlen v.
Proof.
  unfold store, zlen. rewrite !length_app, length_take, length_drop. lia.
Qed.

Lemma slice_store_same v i d :
  0 <= i -> i + zlen d <= zlen v -> slice (store v i d) i (i + zlen d) = d.
Proof.
  unfold slice, store, zlen. intros H1 H2.
  rewrite drop_app_length' by (rewrite length_take; lia).
  by rewrite take_app_length' by lia.
Qed.

Lemma slice_store_before v i d a j :
  0 <= a <= j -> j <= i -> i + zlen d <= zlen v -> slice (store v i d) a j = slice v a j.
Proof.
  unfold slice, store, zlen. intros H1 H2 H3.
  rewrite drop_app_le by (rewrite length_take; lia).
  rewrite take_app_le by (rewrite length_drop, length_take; lia).
  rewrite skipn_firstn_comm, take_take. f_equal. lia.
Qed.

Lemma slice_resize v n i j :
  0 <= i <= j -> j <= zlen v -> zlen v <= n -> slice (vec_resize n v) i j = slice v i j.
Proof.
  unfold slice, vec_resize, zlen. intros H1 H2 H3.
  rewrite resize_ge by lia.
  rewrite drop_app_le by lia. rewrite take_app_le by (rewrite length_drop; lia). done.
Qed.

Lemma vec_resize_length v n : 0 <= n -> zlen (vec_resize n v) = n.
Proof. unfold vec_resize, zlen. rewrite length_resize. lia. Qed.

Lemma zeros_length n : 0 <= n -> zlen (zeros n) = n.
Proof. unfold zeros, zlen. rewrite length_replicate. lia. Qed.

(** ** Invariant and abstraction *)

(** Vectors stay far below [2^63 - 1], the limit of [std::vector<char>]. *)
Definition kMaxBuffer : Z := 4611686018427387904.

Record wf (b : ByteBuffer) : Prop := {
  wf_prepend : kPrependSize <= reader_index_ b;
  wf_order : reader_index_ b <= writer_index_ b;
  wf_bound : writer_index_ b <= zlen (buffer_ b);
  wf_max : zlen (buffer_ b) < kMaxBuffer
}.

Definition contents (b : ByteBuffer) : list ascii :=
  slice (buffer_ b) (reader_index_ b) (writer_index_ b).

Ltac buf_tac :=
  unfold kPrependSize, kExtraBuf, kMaxBuffer, two64, two63 in *; lia.

(** Evaluates the [size_t] arithmetic of well-formed buffers. *)
Ltac buf_simp :=
  repeat match goal with
  | |- context [u64 ?z] => rewrite (u64_small z) by buf_tac
  end.

Lemma readable_wf b : wf b -> ReadableBytes b = writer_index_ b - reader_index_ b.
Proof. intros []. unfold ReadableBytes. by buf_simp. Qed.

Lemma writable_wf b : wf b -> WritableBytes b = zlen (buffer_ b) - writer_index_ b.
Proof. intros []. unfold WritableBytes. pose proof (zlen_nonneg (buffer_ b)). by buf_simp. Qed.

Lemma contents_length b : wf b -> zlen (contents b) = ReadableBytes b.
Proof. intros H. rewrite readable_wf by done. destruct H. unfold contents. apply slice_length; buf_tac. Qed.

Lemma wf_new n : 0 <= n < kMaxBuffer - kPrependSize -> wf (new_buffer n) /\ contents (new_buffer n) = [].
Proof.
  intros H. unfold new_buffer. split; [|apply slice_empty].
  split; cbn; rewrite ?zeros_length; buf_tac.
Qed.

Lemma retrieve_buffer b len : buffer_ (Retrieve b len) = buffer_ b.
Proof. unfold Retrieve. by case_match. Qed.

Lemma wf_retrieve_all b : wf b -> wf (RetrieveAll b) /\ contents (RetrieveAll b) = [].
Proof. intros []. split; [split; cbn; buf_tac|apply slice_empty]. Qed.

Lemma retrieve_spec b len :
  wf b -> 0 <= len ->
  wf (Retrieve b len) /\ contents (Retrieve b len) = drop (Z.to_nat len) (contents b) /\
  buffer_ (Retrieve b len) = buffer_ b.
Proof.
  intros Hwf Hlen. unfold Retrieve. pose proof (readable_wf b Hwf) as Hr.
  pose proof (contents_length b Hwf) as Hc.
  destruct (Z.ltb_spec len (ReadableBytes b)) as [H|H].
  - destruct Hwf. split_and!; [split; cbn; buf_simp; buf_tac| |done].
    unfold contents; cbn. buf_simp. symmetry. apply slice_drop; buf_tac.
  - split_and!; [by apply wf_retrieve_all| |done].
    destruct (wf_retrieve_all b Hwf) as [_ ->].
    rewrite drop_ge; [done|]. unfold zlen in *. lia.
Qed.

(** Space is made without touching the readable bytes. *)
Lemma make_space_spec b len :
  wf b -> 0 <= len -> zlen (buffer_ b) + len < kMaxBuffer -> WritableBytes b < len ->
  let b' := MakeSpace b len in
  wf b' /\ contents b' = contents b /\ len <= WritableBytes b' /\
  zlen (buffer_ b') <= zlen (buffer_ b) + len.
Proof.
  intros Hwf Hlen Hmax Hw b'. subst b'. unfold MakeSpace, PrependableBytes.
  pose proof (contents_length b Hwf) as Hc. pose proof (readable_wf b Hwf) as Hr.
  pose proof (writable_wf b Hwf) as Hwr.
  rewrite Hwr, Hr in *. destruct Hwf as [H1 H2 H3 H4]. buf_simp.
  destruct (Z.ltb_spec (zlen (buffer_ b) - writer_index_ b + reader_index_ b) (len + kPrependSize)).
  - set (b' := MkBuffer _ _ _).
    assert (Hl : zlen (buffer_ b') = writer_index_ b + len)
      by (cbn; apply vec_resize_length; buf_tac).
    assert (Hwf' : wf b') by (split; [..|rewrite Hl]; cbn; rewrite ?vec_resize_length; buf_tac).
    split_and!; [done| |rewrite writable_wf by done; rewrite Hl; cbn; lia|lia].
    unfold contents; cbn. apply slice_resize; buf_tac.
  - set (b' := MkBuffer _ _ _).
    assert (Hl : zlen (buffer_ b') = zlen (buffer_ b)).
    { cbn. apply store_length; [buf_tac|]. rewrite slice_length; buf_tac. }
    assert (Hwf' : wf b').
    { split; [..|rewrite Hl]; cbn; buf_simp; try buf_tac.
      rewrite store_length; [buf_tac..|]. rewrite slice_length; buf_tac. }
    split_and!; [done| |rewrite writable_wf by done; rewrite Hl; cbn; buf_simp; buf_tac|lia].
    unfold contents in Hc |- *; cbn. buf_simp. rewrite <-Hc. apply slice_store_same; buf_tac.
Qed.

Lemma ensure_writable_spec b len :
  wf b -> 0 <= len -> zlen (buffer_ b) + len < kMaxBuffer ->
  let b' := EnsureWritableBytes b len in
  wf b' /\ contents b' = contents b /\ len <= WritableBytes b' /\
  zlen (buffer_ b') <= zlen (buffer_ b) + len.
Proof.
  intros Hwf Hlen Hmax. cbn zeta. unfold EnsureWritableBytes.
  destruct (Z.ltb_spec (WritableBytes b) len) as [H|H]; [by apply make_space_spec|].
  split_and!; (done || lia).
Qed.

(** Writing [d] at the write index of a buffer with room, then moving it. *)
Lemma store_at_writer b d :
  wf b -> zlen d <= WritableBytes b ->
  let b' := MkBuffer (store (buffer_ b) (writer_index_ b) d) (reader_index_ b)
              (u64 (writer_index_ b + zlen d)) in
  wf b' /\ contents b' = contents b ++ d /\ zlen (buffer_ b') = zlen (buffer_ b).
Proof.
  intros Hwf Hd b'. rewrite writable_wf in Hd by done. destruct Hwf as [H1 H2 H3 H4].
  pose proof (zlen_nonneg d).
  assert (Hl : zlen (buffer_ b') = zlen (buffer_ b)) by (cbn; apply store_length; buf_tac).
  split_and!; [|unfold contents; cbn; buf_simp|done].
  - split; [..|by rewrite Hl]; [cbn; buf_simp; buf_tac..|].
    rewrite Hl. cbn. buf_simp. buf_tac.
  - rewrite <-(slice_app _ (reader_index_ b) (writer_index_ b)) by buf_tac.
    rewrite slice_store_before, slice_store_same by buf_tac. done.
Qed.

(** Appending is concatenation at the abstract level, whatever path
    [EnsureWritableBytes] takes. *)
Lemma append_spec b d :
  wf b -> zlen (buffer_ b) + zlen d < kMaxBuffer ->
  wf (Append b d) /\ contents (Append b d) = contents b ++ d /\
  zlen (buffer_ (Append b d)) <= zlen (buffer_ b) + zlen d.
Proof.
  intros Hwf Hmax. pose proof (zlen_nonneg d).
  destruct (ensure_writable_spec b (zlen d) Hwf) as (W & C & R & L); [lia..|].
  destruct (store_at_writer _ d W R) as (W' & C' & L').
  unfold Append, HasWritten; cbn. rewrite C in C'. split_and!; [done|done|].
  cbn in L'. lia.
Qed.

Lemma readfd_room_ge b : wf b -> kExtraBuf <= ReadFd_room b.
Proof.
  intros Hwf. unfold ReadFd_room. pose proof (writable_wf b Hwf). destruct Hwf.
  destruct (Z.ltb_spec (WritableBytes b) kExtraBuf); buf_tac.
Qed.

Lemma read_fd_spec b d :
  wf b -> zlen d <= ReadFd_room b -> zlen (buffer_ b) + zlen d < kMaxBuffer ->
  let '(r, b') := ReadFd b (ReadOk d) in
  r = (zlen d, None) /\ wf b' /\ contents b' = contents b ++ d /\
  zlen (buffer_ b') <= zlen (buffer_ b) + zlen d.
Proof.
  intros Hwf Hroom Hmax. cbn. pose proof (zlen_nonneg d) as Hd. pose proof (writable_wf b Hwf) as Hw.
  destruct (Z.leb_spec (zlen d) (WritableBytes b)) as [H|H].
  - destruct (store_at_writer b d Hwf H) as (? & ? & L). split_and!; [done..|cbn in *; lia].
  - assert (Hwr : 0 <= WritableBytes b) by (rewrite Hw; destruct Hwf; lia).
    destruct (store_at_writer b (take (Z.to_nat (WritableBytes b)) d) Hwf) as (W & C & L);
      [rewrite zlen_take; lia|].
    rewrite zlen_take in W, C, L by lia.
    rewrite (u64_small (writer_index_ b + WritableBytes b)) in W, C, L
      by (destruct Hwf; buf_tac).
    replace (writer_index_ b + WritableBytes b) with (zlen (buffer_ b)) in W, C, L by lia.
    cbn [buffer_] in L.
    destruct (append_spec _ (drop (Z.to_nat (WritableBytes b)) d) W) as (W' & C' & L').
    { cbn [buffer_]. rewrite L, zlen_drop; lia. }
    split_and!; [done|done| |cbn [buffer_] in L'; rewrite L, zlen_drop in L'; lia].
    by rewrite C', C, <-app_assoc, take_drop.
Qed.

Lemma shrink_spec b reserve :
  wf b -> 0 <= reserve -> kPrependSize + ReadableBytes b + reserve < kMaxBuffer ->
  wf (Shrink b reserve) /\ contents (Shrink b reserve) = contents b /\
  WritableBytes (Shrink b reserve) = reserve.
Proof.
  intros Hwf Hr Hmax. pose proof (readable_wf b Hwf) as Hrd.
  pose proof (contents_length b Hwf) as Hc.
  assert (Hs : slice (buffer_ b) (reader_index_ b) (reader_index_ b + ReadableBytes b) = contents b).
  { unfold contents. f_equal. lia. }
  assert (H0 : 0 <= ReadableBytes b) by (rewrite Hrd; destruct Hwf; lia).
  assert (Hl : zlen (store (zeros (kPrependSize + ReadableBytes b + reserve)) kPrependSize (contents b))
             = kPrependSize + ReadableBytes b + reserve).
  { rewrite store_length; rewrite ?zeros_length; buf_tac. }
  assert (W : wf (Shrink b reserve)).
  { unfold Shrink. rewrite Hs. split; cbn; buf_simp; buf_tac. }
  split_and!; [done| |].
  - unfold Shrink, contents at 1; cbn. rewrite Hs. buf_simp. rewrite <-Hc.
    apply slice_store_same; rewrite ?zeros_length; buf_tac.
  - rewrite writable_wf by done. unfold Shrink; cbn. rewrite Hs, Hl. buf_simp. lia.
Qed.

(** [Prepend] uses the reserved head of the vector. *)
Lemma prepend_contents b d :
  wf b -> zlen d <= reader_index_ b -> contents (Prepend b d) = d ++ contents b.
Proof.
  intros [H1 H2 H3 H4] Hd. pose proof (zlen_nonneg d).
  unfold Prepend, contents; cbn. buf_simp.
  rewrite <-(slice_app _ _ (reader_index_ b)) by buf_tac. f_equal.
  - replace (reader_index_ b) with (reader_index_ b - zlen d + zlen d) at 3 by lia.
    apply slice_store_same; buf_tac.
  - unfold slice, store, zlen in *. f_equal.
    rewrite drop_app_ge by (rewrite length_take; lia).
    rewrite drop_app_ge by (rewrite length_take; lia).
    rewrite drop_drop, length_take. f_equal. lia.
Qed.

(** ** Line search *)

Definition crlf_at (l : list ascii) (j : nat) : Prop :=
  l !! j = Some CR /\ l !! S j = Some LF.

Lemma search_crlf_None l : search_crlf l = None <-> forall j, ~ crlf_at l j.
Proof.
  induction l as [|c [|d r] IH].
  - split; [intros _ j [H _]; by destruct j|done].
  - split; [intros _ j [_ H]; by destruct j|done].
  - cbn [search_crlf]. destruct (Ascii.eqb c CR && Ascii.eqb d LF) eqn:E.
    + split; [done|]. intros H. exfalso. apply (H 0%nat).
      apply andb_true_iff in E as [->%Ascii.eqb_eq ->%Ascii.eqb_eq]. done.
    + assert (~ crlf_at (c :: d :: r) 0).
      { intros [[= ->] [= ->]]. done. }
      rewrite fmap_None, IH. split.
      * intros H' [|j]; [done|apply H'].
      * intros H' j. apply (H' (S j)).
Qed.

Lemma search_crlf_Some l i :
  search_crlf l = Some i <->
  crlf_at l i /\ forall j, (j < i)%nat -> ~ crlf_at l j.
Proof.
  revert i. induction l as [|c [|d r] IH]; intros i.
  - split; [done|]. intros [[H _] _]. by destruct i.
  - split; [done|]. intros [[_ H] _]. by destruct i.
  - cbn [search_crlf]. destruct (Ascii.eqb c CR && Ascii.eqb d LF) eqn:E.
    + apply andb_true_iff in E as [->%Ascii.eqb_eq ->%Ascii.eqb_eq].
      split; [intros [= <-]; split; [done|lia]|].
      intros [_ H]. destruct i; [done|]. exfalso. by apply (H 0%nat); [lia|].
    + assert (Hn : ~ crlf_at (c :: d :: r) 0).
      { intros [[= ->] [= ->]]. done. }
      rewrite fmap_Some. split.
      * intros (k & [H1 H2]%IH & ->). split; [done|].
        intros [|j] Hj; [done|]. apply H2. lia.
      * intros [H1 H2]. destruct i as [|i]; [done|]. exists i. split; [|done].
        apply IH. split; [done|]. intros j Hj. apply (H2 (S j)). lia.
Qed.

(** More input does not move a line end that has been found. *)
Lemma search_crlf_app l k i : search_crlf l = Some i -> search_crlf (l ++ k) = Some i.
Proof.
  rewrite !search_crlf_Some. intros [[H1 H2] H]. split.
  - split; by apply lookup_app_l_Some.
  - intros j Hj [H3 H4]. apply (H j Hj).
    apply lookup_lt_Some in H2 as Hl.
    rewrite lookup_app_l in H3, H4 by lia. done.
Qed.

Lemma search_crlf_line line rest :
  CR ∉ line -> search_crlf (line ++ CR :: LF :: rest) = Some (length line).
Proof.
  intros Hcr. apply search_crlf_Some. split.
  - split; [by rewrite list_lookup_middle|].
    rewrite lookup_app_r by lia. by replace (S (length line) - length line)%nat with 1%nat by lia.
  - intros j Hj [H _]. rewrite lookup_app_l in H by lia.
    apply Hcr. by eapply list_elem_of_lookup_2.
Qed.

Lemma search_crlf_split l i :
  search_crlf l = Some i -> l = take i l ++ CR :: LF :: drop (i + 2) l.
Proof.
  intros [[H1 H2] _]%search_crlf_Some.
  rewrite <-(take_drop i l) at 1. f_equal.
  rewrite (drop_S _ _ _ H1), (drop_S _ _ _ H2). do 2 f_equal. f_equal. lia.
Qed.

Lemma find_crlf_contents b :
  FindCRLF b = (fun i => reader_index_ b + Z.of_nat i) <$> search_crlf (contents b).
Proof. done. Qed.

(** ** The buffer as a byte queue *)

Inductive buf_op : Type :=
  | OpAppend (d : list ascii)
  | OpRetrieve (n : Z)
  | OpRead (r : io_read)
  | OpWrite (r : io_write)
  | OpShrink (reserve : Z).

Definition exec_op (b : ByteBuffer) (op : buf_op) : ByteBuffer :=
  match op with
  | OpAppend d => Append b d
  | OpRetrieve n => Retrieve b n
  | OpRead r => snd (ReadFd b r)
  | OpWrite r => snd (WriteFd b r)
  | OpShrink n => Shrink b n
  end.

(** What the callers and the kernel keep to. *)
Definition op_ok (b : ByteBuffer) (op : buf_op) : Prop :=
  match op with
  | OpAppend d => zlen (buffer_ b) + zlen d < kMaxBuffer
  | OpRetrieve n => 0 <= n
  | OpRead (ReadOk d) => zlen d <= ReadFd_room b /\ zlen (buffer_ b) + zlen d < kMaxBuffer
  | OpWrite (WriteOk n) => 0 <= n <= ReadableBytes b
  | OpShrink n => 0 <= n /\ kPrependSize + ReadableBytes b + n < kMaxBuffer
  | _ => True
  end.

(** Bytes an operation puts in, and bytes it takes out. *)
Definition op_in (op : buf_op) : list ascii :=
  match op with OpAppend d => d | OpRead (ReadOk d) => d | _ => [] end.

Definition op_out (b : ByteBuffer) (op : buf_op) : list ascii :=
  match op with
  | OpRetrieve n => take (Z.to_nat n) (contents b)
  | OpWrite (WriteOk n) => take (Z.to_nat n) (contents b)
  | _ => []
  end.

(** A sequence of operations with the bytes taken out along it. *)
Inductive buf_run : ByteBuffer -> list buf_op -> list ascii -> ByteBuffer -> Prop :=
  | run_nil b : buf_run b [] [] b
  | run_cons b op ops out b' :
      op_ok b op -> buf_run (exec_op b op) ops out b' ->
      buf_run b (op :: ops) (op_out b op ++ out) b'.

Lemma exec_op_spec b op :
  wf b -> op_ok b op ->
  wf (exec_op b op) /\ contents b ++ op_in op = op_out b op ++ contents (exec_op b op).
Proof.
  intros Hwf Hok. destruct op as [d|n|[e|d]|[e|n]|n]; cbn in *.
  - destruct (append_spec b d Hwf Hok) as (? & -> & _). done.
  - destruct (retrieve_spec b n Hwf Hok) as (? & -> & _). by rewrite app_nil_r, take_drop.
  - by rewrite app_nil_r.
  - destruct Hok as [H1 H2]. pose proof (read_fd_spec b d Hwf H1 H2) as H.
    unfold ReadFd in H. destruct (Z.leb _ _); cbn in *; by destruct H as (_ & ? & -> & _).
  - by rewrite app_nil_r.
  - destruct (retrieve_spec b n Hwf) as (? & -> & _); [lia|]. by rewrite app_nil_r, take_drop.
  - destruct (shrink_spec b n Hwf) as (? & -> & _); [lia..|]. by rewrite app_nil_r.
Qed.

#[export] Hint Resolve exec_op_spec : minis3.

(** ** Properties *)

(** C24. The socket buffer is a FIFO byte queue: along any sequence of appends,
    retrieves, [readv]s, [write]s and shrinks from a well-formed buffer, the
    index invariant is kept and the bytes held plus the bytes put in are, in
    order, the bytes taken out followed by the bytes still held. *)
Theorem buffer_fifo b ops out b' :
  wf b -> buf_run b ops out b' ->
  wf b' /\ contents b ++ concat (op_in <$> ops) = out ++ contents b'.
Proof.
  intros Hwf Hrun. revert Hwf.
  induction Hrun as [b|b op ops out b' Hok _ IH]; intros Hwf; cbn.
  - by rewrite app_nil_r.
  - destruct (exec_op_spec b op Hwf Hok) as [Hwf1 Heq].
    destruct (IH Hwf1) as [Hwf' Heq']. split; [done|].
    by rewrite (app_assoc (contents b)), Heq, <-!app_assoc, Heq'.
Qed.

Definition sample_ops : list buf_op :=
  [OpAppend (bytes_of "GET /x"); OpRetrieve 4; OpRead (ReadOk (bytes_of " HTTP"));
   OpWrite (WriteOk 3); OpShrink 2; OpAppend (bytes_of "/1.1")].

(** A run on a 4-byte buffer that grows, compacts and shrinks. *)
Lemma sample_run : exists out b', buf_run (new_buffer 4) sample_ops out b'.
Proof.
  eexists _, _. unfold sample_ops.
  repeat (apply run_cons; [vm_compute; repeat split; intros; discriminate|]).
  apply run_nil.
Defined.

Lemma buffer_fifo_witness :
  exists out b', wf b' /\
    bytes_of "GET /x HTTP/1.1" = out ++ contents b'.
Proof.
  destruct sample_run as (out & b' & Hrun).
  destruct (wf_new 4) as [Hwf Hc]; [done|].
  destruct (buffer_fifo (new_buffer 4) sample_ops out b' Hwf Hrun) as [H1 H2].
  exists out, b'. split; [exact H1|]. exact H2.
Defined.
