(* ===== verification/HttpRequest.v ===== *)
(** * HTTP requests (src/src/net/http/http_request.h, .cpp)

    Methods, the request object with its header, path-parameter and lazily
    parsed query maps. Accessors that fill the query cache return the request
    they leave behind. *)
From S2P Require Import Prelude.

Inductive HttpMethod : Type :=
  | UNKNOWN | GET | POST | PUT | DELETE | HEAD | OPTIONS | PATCH.

#[export] Instance HttpMethod_eq_dec : EqDecision HttpMethod.
Proof. solve_decision. Defined.

Definition StringToMethod (m : string) : HttpMethod :=
  if String.eqb m "GET" then GET
  else if String.eqb m "POST" then POST
  else if String.eqb m "PUT" then PUT
  else if String.eqb m "DELETE" then DELETE
  else if String.eqb m "HEAD" then HEAD
  else if String.eqb m "OPTIONS" then OPTIONS
  else if String.eqb m "PATCH" then PATCH
  else UNKNOWN.

Definition HttpMethodToString (m : HttpMethod) : string :=
  match m with
  | GET => "GET" | POST => "POST" | PUT => "PUT" | DELETE => "DELETE"
  | HEAD => "HEAD" | OPTIONS => "OPTIONS" | PATCH => "PATCH"
  | UNKNOWN => "UNKNOWN"
  end.

Record HttpRequest : Type := MkRequest {
  method_ : HttpMethod;
  path_ : string;
  query_ : string;
  version_ : string;
  headers_ : gmap string string;
  body_ : string;
  path_params_ : gmap string string;
  query_params_ : gmap string string;
  query_parsed_ : bool;
  trace_id_ : string;
  client_ip_ : string
}.

Definition new_request : HttpRequest :=
  MkRequest UNKNOWN "" "" "HTTP/1.1" ∅ "" ∅ ∅ false "" "".

Definition SetMethod (m : HttpMethod) (r : HttpRequest) : HttpRequest :=
  MkRequest m (path_ r) (query_ r) (version_ r) (headers_ r) (body_ r)
    (path_params_ r) (query_params_ r) (query_parsed_ r) (trace_id_ r) (client_ip_ r).

Definition SetPath (p : string) (r : HttpRequest) : HttpRequest :=
  MkRequest (method_ r) p (query_ r) (version_ r) (headers_ r) (body_ r)
    (path_params_ r) (query_params_ r) (query_parsed_ r) (trace_id_ r) (client_ip_ r).

Definition SetQuery (q : string) (r : HttpRequest) : HttpRequest :=
  MkRequest (method_ r) (path_ r) q (version_ r) (headers_ r) (body_ r)
    (path_params_ r) (query_params_ r) (query_parsed_ r) (trace_id_ r) (client_ip_ r).

Definition SetVersion (v : string) (r : HttpRequest) : HttpRequest :=
  MkRequest (method_ r) (path_ r) (query_ r) v (headers_ r) (body_ r)
    (path_params_ r) (query_params_ r) (query_parsed_ r) (trace_id_ r) (client_ip_ r).

Definition set_headers (h : gmap string string) (r : HttpRequest) : HttpRequest :=
  MkRequest (method_ r) (path_ r) (query_ r) (version_ r) h (body_ r)
    (path_params_ r) (query_params_ r) (query_parsed_ r) (trace_id_ r) (client_ip_ r).

Definition SetBody (b : string) (r : HttpRequest) : HttpRequest :=
  MkRequest (method_ r) (path_ r) (query_ r) (version_ r) (headers_ r) b
    (path_params_ r) (query_params_ r) (query_parsed_ r) (trace_id_ r) (client_ip_ r).

Definition AppendBody (d : string) (r : HttpRequest) : HttpRequest :=
  SetBody (body_ r +:+ d) r.

Definition SetPathParam (k v : string) (r : HttpRequest) : HttpRequest :=
  MkRequest (method_ r) (path_ r) (query_ r) (version_ r) (headers_ r) (body_ r)
    (<[k := v]> (path_params_ r)) (query_params_ r) (query_parsed_ r)
    (trace_id_ r) (client_ip_ r).

Definition set_query_params (q : gmap string string) (r : HttpRequest) : HttpRequest :=
  MkRequest (method_ r) (path_ r) (query_ r) (version_ r) (headers_ r) (body_ r)
    (path_params_ r) q true (trace_id_ r) (client_ip_ r).

Definition SetTraceId (t : string) (r : HttpRequest) : HttpRequest :=
  MkRequest (method_ r) (path_ r) (query_ r) (version_ r) (headers_ r) (body_ r)
    (path_params_ r) (query_params_ r) (query_parsed_ r) t (client_ip_ r).

Definition SetClientIp (ip : string) (r : HttpRequest) : HttpRequest :=
  MkRequest (method_ r) (path_ r) (query_ r) (version_ r) (headers_ r) (body_ r)
    (path_params_ r) (query_params_ r) (query_parsed_ r) (trace_id_ r) ip.

(** Header names are stored and looked up in lower case. *)
Definition AddHeader (k v : string) (r : HttpRequest) : HttpRequest :=
  set_headers (<[to_lower k := v]> (headers_ r)) r.

Definition SetHeader (k v : string) (r : HttpRequest) : HttpRequest :=
  set_headers (<[to_lower k := v]> (headers_ r)) r.

Definition GetHeader (k : string) (r : HttpRequest) : string :=
  default "" (headers_ r !! to_lower k).

Definition ContentLength (r : HttpRequest) : Z :=
  let header := GetHeader "content-length" r in
  if str_empty header then 0%Z else conv_or 0 (stoull header).

Definition ContentType (r : HttpRequest) : string := GetHeader "content-type" r.
Definition Host (r : HttpRequest) : string := GetHeader "host" r.

Definition IsKeepAlive (r : HttpRequest) : bool :=
  let connection := GetHeader "connection" r in
  let default_ := String.eqb (version_ r) "HTTP/1.1" in
  if str_empty connection then default_
  else
    let connection := to_lower connection in
    if String.eqb connection "close" then false
    else if String.eqb connection "keep-alive" then true
    else default_.

Definition GetPathParam (k : string) (r : HttpRequest) : string :=
  default "" (path_params_ r !! k).

(** All pieces of [s] between occurrences of [c]. *)
Fixpoint split_on (c : ascii) (s : string) : list string :=
  match s with
  | EmptyString => [""]
  | String d r =>
      if Ascii.eqb c d then "" :: split_on c r
      else match split_on c r with
           | h :: t => String d h :: t
           | [] => [String d ""]
           end
  end.

(** The strings successive [std::getline(stream, _, c)] calls read: a final
    empty piece is not read. *)
Definition getlines (c : ascii) (s : string) : list string :=
  let ps := split_on c s in
  match last ps with
  | Some "" => removelast ps
  | _ => ps
  end.

Definition query_pair (pair : string) (m : gmap string string) : gmap string string :=
  match str_find "=" pair with
  | Some eq_pos => <[str_take eq_pos pair := str_drop (S eq_pos) pair]> m
  | None => <[pair := ""]> m
  end.

Definition ParseQueryString (r : HttpRequest) : HttpRequest :=
  if query_parsed_ r || str_empty (query_ r)
  then set_query_params (query_params_ r) r
  else set_query_params
         (fold_left (fun m p => query_pair p m) (getlines "&" (query_ r)) (query_params_ r)) r.

Definition GetQueryParam (k : string) (r : HttpRequest) : string * HttpRequest :=
  let r := ParseQueryString r in
  (default "" (query_params_ r !! k), r).

(** [trace_id] and [client_ip] are kept across requests of a connection. *)
Definition Reset (r : HttpRequest) : HttpRequest :=
  MkRequest UNKNOWN "" "" "HTTP/1.1" ∅ "" ∅ ∅ false (trace_id_ r) (client_ip_ r).

(** ** Lemmas *)

Lemma method_roundtrip m : m <> UNKNOWN -> StringToMethod (HttpMethodToString m) = m.
Proof. by destruct m. Qed.

Lemma StringToMethod_known s :
  StringToMethod s <> UNKNOWN -> HttpMethodToString (StringToMethod s) = s.
Proof.
  unfold StringToMethod. intros H.
  repeat match goal with
  | |- context [if String.eqb s ?t then _ else _] =>
      destruct (String.eqb_spec s t); [by subst|]
  end. done.
Qed.

Lemma tolower_idem c : tolower (tolower c) = tolower c.
Proof. by destruct c as [[] [] [] [] [] [] [] []]. Qed.

Lemma to_lower_idem s : to_lower (to_lower s) = to_lower s.
Proof. induction s as [|c s IH]; [done|]. cbn. unfold to_lower in *. by rewrite tolower_idem, IH. Qed.

(** Lookup ignores the case of the name. *)
Lemma get_add_header k k' v r :
  GetHeader k' (AddHeader k v r) = if decide (to_lower k = to_lower k') then v else GetHeader k' r.
Proof. unfold GetHeader, AddHeader; cbn. rewrite lookup_insert. by case_decide. Qed.

#[export] Hint Rewrite get_add_header : minis3_rw.

Lemma query_pair_kv k v m :
  str_free "=" k = true -> query_pair (k +:+ "=" +:+ v) m = <[k := v]> m.
Proof.
  intros H. unfold query_pair.
  change (k +:+ "=" +:+ v) with (k +:+ String "=" v).
  by rewrite str_find_app, str_take_app, str_drop_app_S.
Qed.

Lemma split_on_nonempty c s : split_on c s <> [].
Proof. destruct s as [|d s]; cbn; [done|]. destruct (Ascii.eqb c d); [done|]. by destruct (split_on c s). Qed.

Lemma split_on_app c a b :
  str_free c a = true -> split_on c (a +:+ String c b) = a :: split_on c b.
Proof.
  unfold str_free. induction a as [|d a IH]; cbn.
  { by rewrite Ascii.eqb_refl. }
  destruct (Ascii.eqb c d) eqn:E; cbn; [discriminate|]. intros H. by rewrite IH.
Qed.

Lemma split_on_free c a : str_free c a = true -> split_on c a = [a].
Proof.
  unfold str_free. induction a as [|d a IH]; cbn; [done|].
  destruct (Ascii.eqb c d) eqn:E; cbn; [discriminate|]. intros H. by rewrite IH.
Qed.
