(* ===== verification/HttpParser.v ===== *)
(** * The streaming HTTP parser (src/src/net/http/http_parser.h, .cpp)

    A state machine over the socket buffer. [Parse_step] is one round of the
    [while (true)] loop, [Parse] the loop; [parse_list] is the same machine on
    the bytes themselves, to which [Parse] is shown equal. *)
From S2P Require Import Prelude ByteBuffer HttpRequest.

Inductive ParseState : Type := REQUEST_LINE | HEADERS | BODY | DONE | ERROR.

Inductive ParseResult : Type :=
  | NEED_MORE_DATA | HEADERS_COMPLETE | BODY_DATA | MESSAGE_COMPLETE | PARSE_ERROR.

#[export] Instance ParseResult_eq_dec : EqDecision ParseResult.
Proof. solve_decision. Defined.

Definition kMaxHeaderSize : Z := 8192.
Definition kMaxRequestLineSize : Z := 4096.

Record HttpParser : Type := MkParser {
  state_ : ParseState;
  request_ : HttpRequest;
  error_message_ : string;
  content_length_ : Z;
  remaining_body_length_ : Z;
  chunked_ : bool;
  current_chunk_size_ : Z;
  reading_chunk_size_ : bool
}.

Definition new_parser : HttpParser :=
  MkParser REQUEST_LINE new_request "" 0 0 false 0 true.

Definition set_state (s : ParseState) (p : HttpParser) : HttpParser :=
  MkParser s (request_ p) (error_message_ p) (content_length_ p)
    (remaining_body_length_ p) (chunked_ p) (current_chunk_size_ p) (reading_chunk_size_ p).

Definition set_request (r : HttpRequest) (p : HttpParser) : HttpParser :=
  MkParser (state_ p) r (error_message_ p) (content_length_ p)
    (remaining_body_length_ p) (chunked_ p) (current_chunk_size_ p) (reading_chunk_size_ p).

Definition set_error (m : string) (p : HttpParser) : HttpParser :=
  MkParser (state_ p) (request_ p) m (content_length_ p)
    (remaining_body_length_ p) (chunked_ p) (current_chunk_size_ p) (reading_chunk_size_ p).

Definition set_body_info (cl rem : Z) (ch : bool) (p : HttpParser) : HttpParser :=
  MkParser (state_ p) (request_ p) (error_message_ p) cl rem ch
    (current_chunk_size_ p) (reading_chunk_size_ p).

Definition Reset (p : HttpParser) : HttpParser :=
  MkParser REQUEST_LINE (HttpRequest.Reset (request_ p)) "" 0 0 false 0 true.

Definition HasBody (p : HttpParser) : bool := (0 <? content_length_ p)%Z || chunked_ p.

(** [ConsumeBody(len)]: whether the body is now complete. *)
Definition ConsumeBody (p : HttpParser) (len : Z) : bool * HttpParser :=
  if (remaining_body_length_ p <=? len)%Z
  then (true, set_state DONE (set_body_info (content_length_ p) 0 (chunked_ p) p))
  else (false, set_body_info (content_length_ p) (u64 (remaining_body_length_ p - len))
                 (chunked_ p) p).

(** The three line parsers return [false] with the message set. *)
Definition ParseRequestLine (p : HttpParser) (line : string) : bool * HttpParser :=
  match str_find " " line with
  | None => (false, set_error "Invalid request line: missing method" p)
  | Some space1 =>
      let method := substr line 0 space1 in
      let p := set_request (SetMethod (StringToMethod method) (request_ p)) p in
      if bool_decide (method_ (request_ p) = UNKNOWN)
      then (false, set_error "Unknown HTTP method" p)
      else
        match str_find_from " " line (space1 + 1) with
        | None => (false, set_error "Invalid request line: missing path" p)
        | Some space2 =>
            let uri := substr line (space1 + 1) (space2 - space1 - 1) in
            let p :=
              match str_find "?" uri with
              | Some query_pos =>
                  set_request (SetQuery (str_drop (query_pos + 1) uri)
                                (SetPath (substr uri 0 query_pos) (request_ p))) p
              | None => set_request (SetPath uri (request_ p)) p
              end in
            let version := str_drop (space2 + 1) line in
            if negb (String.eqb version "HTTP/1.0") && negb (String.eqb version "HTTP/1.1")
            then (false, set_error "Unsupported HTTP version" p)
            else (true, set_request (SetVersion version (request_ p)) p)
        end
  end.

Definition is_blank (c : ascii) : bool := Ascii.eqb c " " || Ascii.eqb c "009".

Fixpoint trim_front (s : string) : string :=
  match s with
  | String c r => if is_blank c then trim_front r else s
  | EmptyString => EmptyString
  end.

Fixpoint trim_back (s : string) : string :=
  match s with
  | String c r =>
      let r' := trim_back r in
      if str_empty r' && is_blank c then EmptyString else String c r'
  | EmptyString => EmptyString
  end.

Definition ParseHeader (p : HttpParser) (line : string) : bool * HttpParser :=
  match str_find ":" line with
  | None => (false, set_error "Invalid header: missing colon" p)
  | Some colon =>
      let key := substr line 0 colon in
      let value := trim_back (trim_front (str_drop (colon + 1) line)) in
      (true, set_request (AddHeader key value (request_ p)) p)
  end.

Definition FinishHeaders (p : HttpParser) : bool * HttpParser :=
  let p := set_body_info 0 0 false p in
  let content_length_header := GetHeader "content-length" (request_ p) in
  let parsed :=
    if str_empty content_length_header then Some p
    else match from_chars content_length_header with
         | Some (n, "") => Some (set_body_info n n (chunked_ p) p)
         | _ => None
         end in
  match parsed with
  | None => (false, set_error "Invalid Content-Length" p)
  | Some p =>
      let transfer_encoding := to_lower (GetHeader "transfer-encoding" (request_ p)) in
      if negb (str_empty transfer_encoding) && str_contains "chunked" transfer_encoding
      then
        if (0 <? content_length_ p)%Z
        then (false, set_error "Conflicting Content-Length and Transfer-Encoding" p)
        else (true, set_body_info (content_length_ p) (remaining_body_length_ p) true p)
      else (true, p)
  end.

(** One round of the loop of [Parse]: a result to return, or [None] to go
    round again. *)
Definition Parse_step (p : HttpParser) (b : ByteBuffer)
    : option ParseResult * HttpParser * ByteBuffer :=
  match state_ p with
  | REQUEST_LINE =>
      match FindCRLF b with
      | None =>
          if (kMaxRequestLineSize <? ReadableBytes b)%Z
          then (Some PARSE_ERROR, set_state ERROR (set_error "Request line too long" p), b)
          else (Some NEED_MORE_DATA, p, b)
      | Some crlf =>
          let line := string_of (slice (buffer_ b) (reader_index_ b) crlf) in
          let '(ok, p) := ParseRequestLine p line in
          if ok then (None, set_state HEADERS p, RetrieveUntil b (crlf + 2))
          else (Some PARSE_ERROR, set_state ERROR p, b)
      end
  | HEADERS =>
      match FindCRLF b with
      | None =>
          if (kMaxHeaderSize <? ReadableBytes b)%Z
          then (Some PARSE_ERROR, set_state ERROR (set_error "Headers too large" p), b)
          else (Some NEED_MORE_DATA, p, b)
      | Some crlf =>
          let line := string_of (slice (buffer_ b) (reader_index_ b) crlf) in
          if str_empty line then
            let b := RetrieveUntil b (crlf + 2) in
            let '(ok, p) := FinishHeaders p in
            if ok then
              if HasBody p then (Some HEADERS_COMPLETE, set_state BODY p, b)
              else (Some MESSAGE_COMPLETE, set_state DONE p, b)
            else (Some PARSE_ERROR, set_state ERROR p, b)
          else
            let '(ok, p) := ParseHeader p line in
            if ok then (None, p, RetrieveUntil b (crlf + 2))
            else (Some PARSE_ERROR, set_state ERROR p, b)
      end
  | BODY =>
      if chunked_ p then
        (Some PARSE_ERROR,
         set_state ERROR (set_error "Chunked encoding not supported yet" p), b)
      else
        let readable := ReadableBytes b in
        if (readable =? 0)%Z then (Some NEED_MORE_DATA, p, b)
        else
          let to_read := Z.min readable (remaining_body_length_ p) in
          let p := set_body_info (content_length_ p)
                     (u64 (remaining_body_length_ p - to_read)) (chunked_ p) p in
          if (remaining_body_length_ p =? 0)%Z
          then (Some MESSAGE_COMPLETE, set_state DONE p, b)
          else (Some BODY_DATA, p, b)
  | DONE => (Some MESSAGE_COMPLETE, p, b)
  | ERROR => (Some PARSE_ERROR, p, b)
  end.

(** The loop with [fuel] rounds, [None] when they do not suffice. *)
Fixpoint Parse_loop (fuel : nat) (p : HttpParser) (b : ByteBuffer)
    : option (ParseResult * HttpParser * ByteBuffer) :=
  match fuel with
  | O => None
  | S fuel =>
      match Parse_step p b with
      | (Some r, p, b) => Some (r, p, b)
      | (None, p, b) => Parse_loop fuel p b
      end
  end.

(** Every round that does not return consumes a line, so the bytes held bound
    the number of rounds. *)
Definition Parse (p : HttpParser) (b : ByteBuffer) : option (ParseResult * HttpParser * ByteBuffer) :=
  Parse_loop (S (length (contents b))) p b.

(** ** The parser on the bytes themselves *)

(** One round on the bytes held, without indices or buffer moves. *)
Definition parse_step_list (p : HttpParser) (l : list ascii)
    : option ParseResult * HttpParser * list ascii :=
  match state_ p with
  | REQUEST_LINE =>
      match search_crlf l with
      | None =>
          if (kMaxRequestLineSize <? zlen l)%Z
          then (Some PARSE_ERROR, set_state ERROR (set_error "Request line too long" p), l)
          else (Some NEED_MORE_DATA, p, l)
      | Some i =>
          let '(ok, p) := ParseRequestLine p (string_of (take i l)) in
          if ok then (None, set_state HEADERS p, drop (i + 2) l)
          else (Some PARSE_ERROR, set_state ERROR p, l)
      end
  | HEADERS =>
      match search_crlf l with
      | None =>
          if (kMaxHeaderSize <? zlen l)%Z
          then (Some PARSE_ERROR, set_state ERROR (set_error "Headers too large" p), l)
          else (Some NEED_MORE_DATA, p, l)
      | Some i =>
          let line := string_of (take i l) in
          if str_empty line then
            let '(ok, p) := FinishHeaders p in
            if ok then
              if HasBody p then (Some HEADERS_COMPLETE, set_state BODY p, drop (i + 2) l)
              else (Some MESSAGE_COMPLETE, set_state DONE p, drop (i + 2) l)
            else (Some PARSE_ERROR, set_state ERROR p, drop (i + 2) l)
          else
            let '(ok, p) := ParseHeader p line in
            if ok then (None, p, drop (i + 2) l)
            else (Some PARSE_ERROR, set_state ERROR p, l)
      end
  | BODY =>
      if chunked_ p then
        (Some PARSE_ERROR,
         set_state ERROR (set_error "Chunked encoding not supported yet" p), l)
      else if (zlen l =? 0)%Z then (Some NEED_MORE_DATA, p, l)
      else
        let p := set_body_info (content_length_ p)
                   (u64 (remaining_body_length_ p
                         - Z.min (zlen l) (remaining_body_length_ p))) (chunked_ p) p in
        if (remaining_body_length_ p =? 0)%Z
        then (Some MESSAGE_COMPLETE, set_state DONE p, l)
        else (Some BODY_DATA, p, l)
  | DONE => (Some MESSAGE_COMPLETE, p, l)
  | ERROR => (Some PARSE_ERROR, p, l)
  end.

Fixpoint parse_loop_list (fuel : nat) (p : HttpParser) (l : list ascii)
    : option (ParseResult * HttpParser * list ascii) :=
  match fuel with
  | O => None
  | S fuel =>
      match parse_step_list p l with
      | (Some r, p, l) => Some (r, p, l)
      | (None, p, l) => parse_loop_list fuel p l
      end
  end.

Definition parse_list (p : HttpParser) (l : list ascii) : option (ParseResult * HttpParser * list ascii) :=
  parse_loop_list (S (length l)) p l.

Lemma slice_line b i :
  wf b -> search_crlf (contents b) = Some i ->
  slice (buffer_ b) (reader_index_ b) (reader_index_ b + Z.of_nat i) = take i (contents b).
Proof.
  intros Hwf H. apply search_crlf_Some in H as [[_ H] _]. apply lookup_lt_Some in H.
  unfold contents in *. pose proof (contents_length b Hwf) as Hl.
  rewrite readable_wf in Hl by done. unfold zlen, contents in Hl.
  rewrite <-(slice_take _ _ (writer_index_ b)) by lia. f_equal. lia.
Qed.

Lemma retrieve_line b i :
  wf b -> search_crlf (contents b) = Some i ->
  let b' := RetrieveUntil b (reader_index_ b + Z.of_nat i + 2) in
  wf b' /\ contents b' = drop (i + 2) (contents b).
Proof.
  intros Hwf H. apply search_crlf_Some in H as [[_ H] _]. apply lookup_lt_Some in H.
  pose proof (contents_length b Hwf) as Hl. rewrite readable_wf in Hl by done.
  unfold zlen in Hl. unfold RetrieveUntil. destruct Hwf as [W1 W2 W3 W4].
  rewrite u64_small by buf_tac.
  destruct (retrieve_spec b (reader_index_ b + Z.of_nat i + 2 - reader_index_ b)) as (? & -> & _);
    [by split|lia|].
  split; [done|]. f_equal. lia.
Qed.

(** Each round on a well-formed buffer is the round on its contents. *)
Lemma parse_step_refines p b :
  wf b ->
  let '(r, p', b') := Parse_step p b in
  wf b' /\ parse_step_list p (contents b) = (r, p', contents b').
Proof.
  intros Hwf. unfold Parse_step, parse_step_list.
  rewrite (find_crlf_contents b), <-(contents_length b) by done.
  destruct (state_ p); [| | |done|done].
  - destruct (search_crlf (contents b)) as [i|] eqn:Hs; cbn [fmap option_fmap option_map].
    + rewrite slice_line by done.
      destruct (retrieve_line b i Hwf Hs) as [W C].
      destruct (ParseRequestLine _ _) as [[] q]; [|done]. by rewrite C.
    + by destruct (Z.ltb _ _).
  - destruct (search_crlf (contents b)) as [i|] eqn:Hs; cbn [fmap option_fmap option_map].
    + rewrite slice_line by done.
      destruct (retrieve_line b i Hwf Hs) as [W C].
      destruct (str_empty _).
      * destruct (FinishHeaders p) as [[] q]; [|by rewrite C].
        destruct (HasBody q); by rewrite C.
      * destruct (ParseHeader _ _) as [[] q]; [|done]. by rewrite C.
    + by destruct (Z.ltb _ _).
  - destruct (chunked_ p); [done|]. destruct (Z.eqb _ _); [done|].
    by destruct (Z.eqb _ _).
Qed.

Lemma parse_loop_refines fuel p b :
  wf b ->
  match Parse_loop fuel p b with
  | Some (r, p', b') => wf b' /\ parse_loop_list fuel p (contents b) = Some (r, p', contents b')
  | None => parse_loop_list fuel p (contents b) = None
  end.
Proof.
  revert p b. induction fuel as [|fuel IH]; intros p b Hwf; [done|]. cbn.
  pose proof (parse_step_refines p b Hwf) as H.
  destruct (Parse_step p b) as [[[r|] p'] b']; destruct H as [Hwf' ->]; [done|].
  by apply IH.
Qed.

(** Rounds that go on consume bytes. *)
Lemma parse_step_list_shorter p l p' l' :
  parse_step_list p l = (None, p', l') -> (length l' < length l)%nat.
Proof.
  unfold parse_step_list. intros H.
  destruct (state_ p); try done.
  - destruct (search_crlf l) as [i|] eqn:Hs; [|by destruct (Z.ltb _ _)].
    apply search_crlf_Some in Hs as [[Hl _] _]. apply lookup_lt_Some in Hl.
    destruct (ParseRequestLine _ _) as [[] q]; [|done]. injection H as _ <-.
    rewrite length_drop. lia.
  - destruct (search_crlf l) as [i|] eqn:Hs; [|by destruct (Z.ltb _ _)].
    apply search_crlf_Some in Hs as [[Hl _] _]. apply lookup_lt_Some in Hl.
    destruct (str_empty _); [destruct (FinishHeaders p) as [[] q]; [destruct (HasBody q)|]; done|].
    destruct (ParseHeader _ _) as [[] q]; [|done]. injection H as _ <-.
    rewrite length_drop. lia.
  - destruct (chunked_ p); [done|]. destruct (Z.eqb _ _); [done|]. by destruct (Z.eqb _ _).
Qed.

Lemma parse_loop_list_total fuel p l :
  (length l < fuel)%nat -> is_Some (parse_loop_list fuel p l).
Proof.
  revert p l. induction fuel as [|fuel IH]; intros p l Hl; [lia|]. cbn.
  destruct (parse_step_list p l) as [[[r|] p'] l'] eqn:E; [by eexists|].
  apply IH. apply parse_step_list_shorter in E. lia.
Qed.

Lemma parse_loop_list_mono fuel fuel' p l x :
  parse_loop_list fuel p l = Some x -> (fuel <= fuel')%nat -> parse_loop_list fuel' p l = Some x.
Proof.
  revert fuel' p l. induction fuel as [|fuel IH]; intros fuel' p l H Hle; [done|].
  destruct fuel' as [|fuel']; [lia|]. cbn in *.
  destruct (parse_step_list p l) as [[[r|] p'] l']; [done|]. apply IH; [done|lia].
Qed.

(** The fuel of [parse_list] is enough: any result found with some fuel is its
    result. *)
Lemma parse_list_loop fuel p l x :
  parse_loop_list fuel p l = Some x -> parse_list p l = Some x.
Proof.
  intros H. destruct (parse_loop_list_total (S (length l)) p l) as [y Hy]; [lia|].
  unfold parse_list. rewrite Hy.
  apply (parse_loop_list_mono _ (fuel + S (length l))) in H; [|lia].
  apply (parse_loop_list_mono _ (fuel + S (length l))) in Hy; [|lia]. congruence.
Qed.

(** One round then the rest. *)
Lemma parse_list_step p l p' l' :
  parse_step_list p l = (None, p', l') -> parse_list p l = parse_list p' l'.
Proof.
  intros H. destruct (parse_loop_list_total (S (length l')) p' l') as [y Hy]; [lia|].
  unfold parse_list at 2. rewrite Hy.
  apply (parse_list_loop (S (S (length l')))). cbn. rewrite H. exact Hy.
Qed.

Lemma parse_list_done p l r p' l' :
  parse_step_list p l = (Some r, p', l') -> parse_list p l = Some (r, p', l').
Proof. intros H. apply (parse_list_loop 1). cbn. by rewrite H. Qed.

Lemma parse_refines p b :
  wf b ->
  exists r p' b', Parse p b = Some (r, p', b') /\ wf b' /\
    parse_list p (contents b) = Some (r, p', contents b').
Proof.
  intros Hwf. pose proof (parse_loop_refines (S (length (contents b))) p b Hwf) as H.
  unfold Parse, parse_list in *.
  destruct (Parse_loop _ _ _) as [[[r p'] b']|]; [destruct H as [? ->]; by eauto 10|].
  exfalso.
  destruct (parse_loop_list_total (S (length (contents b))) p (contents b)) as [y Hy]; [lia|].
  congruence.
Qed.

(** ** Streaming *)

(** A round that went on, seen on a longer input. *)
Lemma parse_step_list_app p l k p' l' :
  parse_step_list p l = (None, p', l') -> parse_step_list p (l ++ k) = (None, p', l' ++ k).
Proof.
  unfold parse_step_list. intros H.
  destruct (state_ p); try done.
  - destruct (search_crlf l) as [i|] eqn:Hs; [|by destruct (Z.ltb _ _)].
    rewrite (search_crlf_app l k i Hs).
    apply search_crlf_Some in Hs as [[_ Hl] _]. apply lookup_lt_Some in Hl.
    rewrite take_app_le by lia.
    destruct (ParseRequestLine _ _) as [[] q]; [|done]. injection H as <- <-.
    by rewrite drop_app_le by lia.
  - destruct (search_crlf l) as [i|] eqn:Hs; [|by destruct (Z.ltb _ _)].
    rewrite (search_crlf_app l k i Hs).
    apply search_crlf_Some in Hs as [[_ Hl] _]. apply lookup_lt_Some in Hl.
    rewrite take_app_le by lia.
    destruct (str_empty _); [destruct (FinishHeaders p) as [[] q]; [destruct (HasBody q)|]; done|].
    destruct (ParseHeader _ _) as [[] q]; [|done]. injection H as <- <-.
    by rewrite drop_app_le by lia.
  - destruct (chunked_ p); [done|]. destruct (Z.eqb _ _); [done|]. by destruct (Z.eqb _ _).
Qed.

(** Waiting leaves the parser and the bytes as they are. *)
Lemma parse_step_list_wait p l p' l' :
  parse_step_list p l = (Some NEED_MORE_DATA, p', l') -> p' = p /\ l' = l.
Proof.
  unfold parse_step_list. intros H.
  destruct (state_ p); try done.
  - destruct (search_crlf l); [|by destruct (Z.ltb _ _); simplify_eq].
    by destruct (ParseRequestLine _ _) as [[] q].
  - destruct (search_crlf l); [|by destruct (Z.ltb _ _); simplify_eq].
    destruct (str_empty _); [destruct (FinishHeaders p) as [[] q]; [destruct (HasBody q)|]; done|].
    by destruct (ParseHeader _ _) as [[] q].
  - destruct (chunked_ p); [done|]. destruct (Z.eqb _ _); [by simplify_eq|].
    by destruct (Z.eqb _ _).
Qed.

Lemma parse_loop_list_app fuel p l k p' l' :
  parse_loop_list fuel p l = Some (NEED_MORE_DATA, p', l') ->
  parse_list p (l ++ k) = parse_list p' (l' ++ k).
Proof.
  revert p l. induction fuel as [|fuel IH]; intros p l H; [done|]. cbn in H.
  destruct (parse_step_list p l) as [[[r|] q] m] eqn:E.
  - simplify_eq. by apply parse_step_list_wait in E as [-> ->].
  - apply (parse_step_list_app _ _ k) in E. rewrite (parse_list_step _ _ _ _ E). by apply IH.
Qed.

(** While no byte limit is in play, a round that answers something else than
    "more" answers it whatever follows. *)
Lemma parse_step_list_final p l k r p' l' :
  state_ p = REQUEST_LINE \/ state_ p = HEADERS -> (zlen l <= kMaxRequestLineSize)%Z ->
  parse_step_list p l = (Some r, p', l') -> r <> NEED_MORE_DATA ->
  parse_step_list p (l ++ k) = (Some r, p', l' ++ k).
Proof.
  unfold parse_step_list, kMaxRequestLineSize, kMaxHeaderSize. intros Hst Hl H Hr. destruct (state_ p); try (by destruct Hst).
  - destruct (search_crlf l) as [i|] eqn:Hs; [|destruct (Z.ltb_spec 4096 (zlen l)); [lia|congruence]].
    rewrite (search_crlf_app l k i Hs).
    apply search_crlf_Some in Hs as [[_ Hi] _]. apply lookup_lt_Some in Hi. rewrite take_app_le by lia.
    destruct (ParseRequestLine _ _) as [[] q]; congruence.
  - destruct (search_crlf l) as [i|] eqn:Hs; [|destruct (Z.ltb_spec 8192 (zlen l)); [lia|congruence]].
    rewrite (search_crlf_app l k i Hs).
    apply search_crlf_Some in Hs as [[_ Hi] _]. apply lookup_lt_Some in Hi. rewrite take_app_le, drop_app_le by lia.
    destruct (str_empty _).
    + destruct (FinishHeaders p) as [[] q]; [destruct (HasBody q)|]; congruence.
    + destruct (ParseHeader _ _) as [[] q]; congruence.
Qed.

Lemma parse_step_list_head p l p' l' :
  state_ p = REQUEST_LINE \/ state_ p = HEADERS -> parse_step_list p l = (None, p', l') -> state_ p' = HEADERS.
Proof.
  unfold parse_step_list. intros Hst H. destruct (state_ p) eqn:Hp; try (by destruct Hst).
  - destruct (search_crlf l); [|by destruct (Z.ltb _ _)].
    destruct (ParseRequestLine _ _) as [[] q]; [by simplify_eq|done].
  - destruct (search_crlf l); [|by destruct (Z.ltb _ _)].
    destruct (str_empty _); [destruct (FinishHeaders p) as [[] q]; [destruct (HasBody q)|]; done|].
    destruct (ParseHeader p _) as [[] q] eqn:E; [|done]. simplify_eq. unfold ParseHeader in E. case_match; by simplify_eq.
Qed.

Lemma parse_loop_list_final fuel p l k r p' l' :
  state_ p = REQUEST_LINE \/ state_ p = HEADERS -> (zlen l <= kMaxRequestLineSize)%Z ->
  parse_loop_list fuel p l = Some (r, p', l') -> r <> NEED_MORE_DATA ->
  parse_list p (l ++ k) = Some (r, p', l' ++ k).
Proof.
  revert p l. induction fuel as [|fuel IH]; intros p l Hst Hl H Hr; [done|]. cbn in H.
  destruct (parse_step_list p l) as [[[r1|] q] m] eqn:E.
  - simplify_eq. apply parse_list_done. by apply parse_step_list_final.
  - rewrite (parse_list_step _ _ _ _ (parse_step_list_app _ _ k _ _ E)).
    apply IH; [right; by eapply parse_step_list_head|apply parse_step_list_shorter in E; unfold zlen in *; lia|done|done].
Qed.

(** A head that needs all its bytes makes the parser wait until the last. *)
Lemma parse_prefix_waits p l k q :
  state_ p = REQUEST_LINE -> (zlen l <= kMaxRequestLineSize)%Z -> k <> [] ->
  parse_list p (l ++ k) = Some (HEADERS_COMPLETE, q, []) ->
  exists p' l', parse_list p l = Some (NEED_MORE_DATA, p', l').
Proof.
  intros Hst Hl Hk Hq. destruct (parse_loop_list_total (S (length l)) p l) as [[[r p'] l'] E]; [lia|].
  destruct (decide (r = NEED_MORE_DATA)) as [->|Hr]; [by exists p', l'|]. exfalso.
  apply (parse_loop_list_final _ _ _ k) in E; [|by left|done|done]. rewrite E in Hq. injection Hq as _ _ Hnil.
  by apply app_nil in Hnil as [_ ?].
Qed.

Lemma parse_buffer p b r p' b' : Parse p b = Some (r, p', b') -> buffer_ b' = buffer_ b.
Proof.
  unfold Parse. generalize (S (length (contents b))). intros fuel. revert p b.
  induction fuel as [|fuel IH]; intros p b H; [done|]. cbn in H.
  assert (Hs : buffer_ (snd (Parse_step p b)) = buffer_ b).
  { unfold Parse_step, RetrieveUntil. repeat (case_match; cbn; try apply retrieve_buffer); done. }
  destruct (Parse_step p b) as [[[r1|] q] m]; [by simplify_eq|]. by rewrite (IH q m).
Qed.

(** ** Invariant *)

(** The lengths are [size_t] values, no more is left than was announced, and a
    chunked message announces no length. *)
Record parser_inv (p : HttpParser) : Prop := {
  inv_length : (0 <= remaining_body_length_ p <= content_length_ p)%Z;
  inv_range : (content_length_ p < two64)%Z;
  inv_exclusive : chunked_ p = true -> content_length_ p = 0%Z
}.

Lemma scan_digits_lower acc s : (0 <= acc)%Z -> (0 <= fst (scan_digits acc s))%Z.
Proof.
  revert acc. induction s as [|c s IH]; intros acc H; cbn; [done|].
  destruct (digit_val c) as [d|] eqn:E; [|done]. apply IH.
  unfold digit_val in E. case_match; simplify_eq. lia.
Qed.

Lemma from_chars_range s n r : from_chars s = Some (n, r) -> (0 <= n < two64)%Z.
Proof.
  destruct s as [|c s]; [done|]. unfold from_chars. destruct (is_digit c); [|done].
  pose proof (scan_digits_lower 0 (String c s)) as H.
  destruct (scan_digits 0 (String c s)) as [v rest]. cbn in H.
  destruct (Z.ltb_spec v two64); intros; simplify_eq. lia.
Qed.

Lemma finish_headers_inv p : parser_inv (snd (FinishHeaders p)).
Proof.
  unfold FinishHeaders.
  set (h := GetHeader "content-length" _).
  destruct (str_empty h); [|destruct (from_chars h) as [[n [|? ?]]|] eqn:E;
    [apply from_chars_range in E| |]]; cbn;
    repeat (case_match; cbn in * ); (split; cbn; unfold two64 in *; try lia; try done).
Qed.

Lemma parse_request_line_info p line :
  let q := snd (ParseRequestLine p line) in
  content_length_ q = content_length_ p /\
  remaining_body_length_ q = remaining_body_length_ p /\ chunked_ q = chunked_ p.
Proof.
  unfold ParseRequestLine. repeat (case_match; cbn); done.
Qed.

Lemma parse_header_info p line :
  let q := snd (ParseHeader p line) in
  content_length_ q = content_length_ p /\
  remaining_body_length_ q = remaining_body_length_ p /\ chunked_ q = chunked_ p.
Proof. unfold ParseHeader. by case_match. Qed.

Lemma parser_inv_eq p q :
  parser_inv p -> content_length_ q = content_length_ p ->
  remaining_body_length_ q = remaining_body_length_ p -> chunked_ q = chunked_ p -> parser_inv q.
Proof. intros [? ? ?] E1 E2 E3. split; by rewrite ?E1, ?E2, ?E3. Qed.

Lemma parse_step_list_inv p l :
  parser_inv p -> parser_inv (snd (fst (parse_step_list p l))).
Proof.
  intros Hp. unfold parse_step_list. destruct (state_ p); [| | |done|done].
  - case_match; [|case_match; by eapply parser_inv_eq].
    pose proof (parse_request_line_info p (string_of (take n l))) as Hi.
    destruct (ParseRequestLine _ _) as [[] q]; cbn in *;
      destruct Hi as (? & ? & ?); by eapply parser_inv_eq.
  - case_match; [|case_match; by eapply parser_inv_eq]. destruct (str_empty _).
    + pose proof (finish_headers_inv p) as Hi.
      destruct (FinishHeaders p) as [[] q]; cbn in *; [|by eapply parser_inv_eq].
      destruct (HasBody q); cbn; by eapply parser_inv_eq.
    + pose proof (parse_header_info p (string_of (take n l))) as Hi.
      destruct (ParseHeader _ _) as [[] q]; cbn in *;
        destruct Hi as (? & ? & ?); by eapply parser_inv_eq.
  - destruct (chunked_ p) eqn:Hc; [by eapply parser_inv_eq|].
    destruct (Z.eqb _ _); [done|]. pose proof (zlen_nonneg l) as Hl.
    destruct Hp as [H1 H2 H3].
    destruct (Z.eqb _ _); (split; cbn; rewrite ?Hc; try done; rewrite u64_small by lia; lia).
Qed.

Lemma parse_loop_list_inv fuel p l r p' l' :
  parser_inv p -> parse_loop_list fuel p l = Some (r, p', l') -> parser_inv p'.
Proof.
  revert p l. induction fuel as [|fuel IH]; intros p l Hp H; [done|]. cbn in H.
  pose proof (parse_step_list_inv p l Hp) as Hp'.
  destruct (parse_step_list p l) as [[[r1|] q] m]; simplify_eq; [done|]. by apply (IH q m).
Qed.

Lemma consume_body_inv p n : parser_inv p -> (0 <= n)%Z -> parser_inv (snd (ConsumeBody p n)).
Proof.
  intros [H1 H2 H3] Hn. unfold ConsumeBody.
  destruct (Z.leb_spec (remaining_body_length_ p) n); split; cbn; try done; try lia.
  rewrite u64_small by lia. lia.
Qed.

(** ** Reading back a printed request *)

Definition request_line (m : HttpMethod) (path : string) (query : option string) (ver : string) : string :=
  HttpMethodToString m +:+ String " " ((path +:+ match query with Some q => String "?" q | None => "" end)
                                       +:+ String " " ver).

Definition header_line (h : string * string) : string := fst h +:+ String ":" (String " " (snd h)).

Definition render_head (m : HttpMethod) (path : string) (query : option string) (ver : string)
    (hs : list (string * string)) : list ascii :=
  bytes_of (request_line m path query ver) ++ CR :: LF ::
  concat ((fun h => bytes_of (header_line h) ++ [CR; LF]) <$> hs) ++ [CR; LF].

Definition line_request (m : HttpMethod) (path : string) (query : option string) (ver : string)
    (r : HttpRequest) : HttpRequest :=
  let r := SetPath path (SetMethod m r) in
  SetVersion ver (match query with Some q => SetQuery q r | None => r end).

Definition add_headers (hs : list (string * string)) (r : HttpRequest) : HttpRequest :=
  fold_left (fun r h => AddHeader (fst h) (snd h) r) hs r.

(** The texts that can stand in a request line and in a header line. *)
Definition line_ok (m : HttpMethod) (path : string) (query : option string) (ver : string) : Prop :=
  m <> UNKNOWN /\ str_free " " path = true /\ str_free "?" path = true /\ str_free CR path = true /\
  (forall q, query = Some q -> str_free " " q = true /\ str_free CR q = true) /\
  (ver = "HTTP/1.0" \/ ver = "HTTP/1.1").

Definition header_ok (h : string * string) : Prop :=
  str_free ":" (fst h) = true /\ str_free CR (fst h) = true /\ str_free CR (snd h) = true /\
  trim_back (trim_front (snd h)) = snd h.

Lemma parse_request_line_ok p m path query ver :
  line_ok m path query ver ->
  ParseRequestLine p (request_line m path query ver)
    = (true, set_request (line_request m path query ver (request_ p)) p).
Proof.
  intros (Hm & Hp & Hq & _ & Hqu & Hver).
  unfold ParseRequestLine, request_line, substr, str_find_from.
  set (uri := path +:+ _). set (mm := HttpMethodToString m).
  assert (Hmm : str_free " " mm = true) by (subst mm; by destruct m).
  assert (Huri : str_free " " uri = true).
  { subst uri. rewrite str_free_app, Hp. destruct query as [q|]; [|done].
    destruct (Hqu q eq_refl) as [H _]. exact H. }
  rewrite str_find_app, str_drop_0, str_take_app by done.
  subst mm. rewrite method_roundtrip by done. cbn [set_request request_ SetMethod method_].
  rewrite bool_decide_false by done.
  rewrite !Nat.add_1_r, str_drop_app_S, str_find_app by done. cbn [fmap option_fmap option_map].
  replace (S (String.length (HttpMethodToString m)) + String.length uri
           - String.length (HttpMethodToString m) - 1)%nat with (String.length uri) by lia.
  rewrite str_take_app.
  replace (str_drop _ (HttpMethodToString m +:+ _)) with ver.
  2: { rewrite <-Nat.add_assoc, Nat.add_1_r, <-str_drop_drop, str_drop_app_S.
       by rewrite str_drop_app_S. }
  assert (Hv : negb (String.eqb ver "HTTP/1.0") && negb (String.eqb ver "HTTP/1.1") = false).
  { by destruct Hver as [-> | ->]. }
  destruct query as [q|]; subst uri.
  - rewrite str_find_app, str_drop_0, str_take_app, Nat.add_1_r, str_drop_app_S, Hv by done.
    done.
  - rewrite str_app_nil_r. apply str_find_free in Hq as ->. by rewrite Hv.
Qed.

Lemma parse_header_ok p h :
  header_ok h ->
  ParseHeader p (header_line h) = (true, set_request (AddHeader (fst h) (snd h) (request_ p)) p).
Proof.
  intros (Hk & _ & _ & Hv). unfold ParseHeader, header_line, substr.
  rewrite str_find_app, str_drop_0, str_take_app, Nat.add_1_r, str_drop_app_S by done.
  change (trim_front (String " " (snd h))) with (trim_front (snd h)). by rewrite Hv.
Qed.

Lemma line_step p line rest :
  str_free CR line = true -> state_ p = REQUEST_LINE ->
  parse_step_list p (bytes_of line ++ CR :: LF :: rest)
    = let '(ok, q) := ParseRequestLine p line in
      if ok then (None, set_state HEADERS q, rest)
      else (Some PARSE_ERROR, set_state ERROR q, bytes_of line ++ CR :: LF :: rest).
Proof.
  intros Hcr Hst. unfold parse_step_list. rewrite Hst.
  rewrite search_crlf_line by (by apply str_free_bytes).
  rewrite take_app_length, string_of_bytes, drop_app_add. done.
Qed.

Lemma header_step p h rest :
  header_ok h -> state_ p = HEADERS ->
  parse_step_list p (bytes_of (header_line h) ++ CR :: LF :: rest)
    = (None, set_request (AddHeader (fst h) (snd h) (request_ p)) p, rest).
Proof.
  intros Hh Hst. unfold parse_step_list. rewrite Hst.
  assert (Hcr : str_free CR (header_line h) = true).
  { destruct Hh as (_ & H1 & H2 & _). unfold header_line. rewrite str_free_app, H1. exact H2. }
  rewrite search_crlf_line by (by apply str_free_bytes).
  rewrite take_app_length, string_of_bytes, drop_app_add, parse_header_ok by done.
  destruct (str_empty (header_line h)) eqn:E; [|done].
  apply str_empty_spec in E. unfold header_line in E. by destruct (fst h).
Qed.

Lemma headers_steps hs p rest :
  Forall header_ok hs -> state_ p = HEADERS ->
  parse_list p (concat ((fun h => bytes_of (header_line h) ++ [CR; LF]) <$> hs) ++ CR :: LF :: rest)
    = parse_list (set_request (add_headers hs (request_ p)) p) (CR :: LF :: rest).
Proof.
  intros Hhs. revert p. induction Hhs as [|h hs Hh _ IH]; intros p Hst.
  { by destruct p. }
  cbn [fmap list_fmap concat]. rewrite <-!app_assoc. cbn [app].
  rewrite (parse_list_step _ _ _ _ (header_step p h _ Hh Hst)).
  by rewrite IH.
Qed.

Lemma finish_headers_request p : request_ (snd (FinishHeaders p)) = request_ p.
Proof. unfold FinishHeaders. repeat (case_match; cbn); simplify_eq/=; done. Qed.

Lemma finish_headers_length p n :
  GetHeader "transfer-encoding" (request_ p) = "" ->
  (GetHeader "content-length" (request_ p) = "" /\ n = 0%Z \/
   GetHeader "content-length" (request_ p) = to_string n /\ (0 <= n < two64)%Z) ->
  FinishHeaders p = (true, set_body_info n n false p).
Proof.
  intros Hte Hcl. unfold FinishHeaders. cbn [set_body_info request_ chunked_].
  destruct Hcl as [[-> ->]|[-> Hn]]; [cbn; by rewrite Hte|].
  rewrite from_chars_to_string by done.
  destruct (to_string_cons n) as (c & r & E & _); [lia|]. rewrite E; cbn. by rewrite Hte.
Qed.

Lemma blank_line_step p n rest :
  state_ p = HEADERS -> FinishHeaders p = (true, set_body_info n n false p) ->
  parse_step_list p (CR :: LF :: rest)
    = (Some (if (0 <? n)%Z then HEADERS_COMPLETE else MESSAGE_COMPLETE),
       set_state (if (0 <? n)%Z then BODY else DONE) (set_body_info n n false p), rest).
Proof.
  intros Hst Hf. unfold parse_step_list. rewrite Hst. cbn. rewrite Hf.
  unfold HasBody; cbn. rewrite orb_false_r. destruct (0 <? n)%Z; by rewrite drop_0.
Qed.

Lemma add_headers_line_irrel p hs m path query ver n rest :
  state_ p = REQUEST_LINE -> line_ok m path query ver -> Forall header_ok hs ->
  let req := add_headers hs (line_request m path query ver (request_ p)) in
  GetHeader "transfer-encoding" req = "" ->
  (GetHeader "content-length" req = "" /\ n = 0%Z \/
   GetHeader "content-length" req = to_string n /\ (0 <= n < two64)%Z) ->
  parse_list p (render_head m path query ver hs ++ rest)
    = Some (if (0 <? n)%Z then HEADERS_COMPLETE else MESSAGE_COMPLETE,
            set_state (if (0 <? n)%Z then BODY else DONE)
              (set_body_info n n false (set_request req p)), rest).
Proof.
  intros Hst Hline Hhs req Hte Hcl. unfold render_head.
  rewrite <-app_assoc. cbn [app]. rewrite <-app_assoc. cbn [app].
  assert (Hcr : str_free CR (request_line m path query ver) = true).
  { destruct Hline as (Hm & _ & _ & Hp & Hq & Hv). unfold request_line.
    rewrite str_free_app, str_free_cons, !str_free_app, Hp.
    destruct query as [q|].
    - destruct (Hq q eq_refl) as [_ Hq'].
      rewrite str_free_cons, Hq'. destruct Hv as [-> | ->]; by destruct m.
    - destruct Hv as [-> | ->]; destruct m; done. }
  rewrite (parse_list_step p _ (set_state HEADERS (set_request (line_request m path query ver (request_ p)) p))
             (concat ((fun h => bytes_of (header_line h) ++ [CR; LF]) <$> hs) ++ CR :: LF :: rest)).
  2: { rewrite (line_step p _ _ Hcr Hst). by rewrite parse_request_line_ok. }
  rewrite headers_steps by done. apply parse_list_done.
  cbn [request_ set_request set_state]. fold req.
  by rewrite (blank_line_step _ n) by (by apply finish_headers_length || done).
Qed.

(** ** Properties *)

(** C37. [Parse] always returns, and the buffer arithmetic is transparent: on a
    well-formed buffer the loop terminates within its fuel, leaves a well-formed
    buffer and computes what the reference parser computes on the bytes held. *)
Theorem parse_refines_list p b :
  wf b ->
  exists r p' b', Parse p b = Some (r, p', b') /\ wf b' /\
    parse_list p (contents b) = Some (r, p', contents b').
Proof. apply parse_refines. Qed.

Lemma parse_refines_list_witness :
  exists r p' b', Parse new_parser (new_buffer 16) = Some (r, p', b') /\ wf b' /\
    parse_list new_parser [] = Some (r, p', contents b').
Proof.
  destruct (wf_new 16) as [Hwf Hc]; [done|].
  destruct (parse_refines_list new_parser (new_buffer 16) Hwf) as (r & p' & b' & H1 & H2 & H3).
  exists r, p', b'. split_and!; [exact H1|exact H2|]. rewrite Hc in H3. exact H3.
Defined.

(** C19. Streaming: when a call on the bytes so far waits for more data, parsing what
    is left once more bytes have arrived gives the result and leaves the parser and
    the bytes that parsing all the bytes at once would, for any split of the input.
    A first call that ends in an error is not covered: a request line of more than
    4096 bytes (a header line of more than 8192) is refused while its end has not
    arrived, and parses when it comes in one piece ([long_line_in_pieces]). *)
Theorem parse_incremental p b p1 b1 d :
  wf b -> Parse p b = Some (NEED_MORE_DATA, p1, b1) ->
  (zlen (buffer_ b) + zlen d < kMaxBuffer)%Z -> (zlen (buffer_ b1) + zlen d < kMaxBuffer)%Z ->
  exists r q c c1, Parse p (Append b d) = Some (r, q, c) /\
    Parse p1 (Append b1 d) = Some (r, q, c1) /\ contents c = contents c1.
Proof.
  intros Hwf Hp Hm Hm1.
  destruct (parse_refines p b Hwf) as (r0 & p0 & b0 & Hp0 & Hwf0 & Hl).
  rewrite Hp in Hp0. injection Hp0 as <- <- <-.
  destruct (append_spec b d Hwf Hm) as (W & C & _).
  destruct (append_spec b1 d Hwf0 Hm1) as (W1 & C1 & _).
  destruct (parse_refines p _ W) as (r & q & c & H1 & _ & L1).
  destruct (parse_refines p1 _ W1) as (r' & q' & c' & H2 & _ & L2).
  rewrite C in L1. rewrite C1 in L2.
  rewrite (parse_loop_list_app _ _ _ d _ _ Hl), L2 in L1. injection L1 as <- <- Hc.
  by exists r', q', c, c'.
Qed.

Definition sample_head : string :=
  "PUT /buckets/b/objects/o?x=1 HTTP/1.1" +:+ crlf +:+ "Host: h" +:+ crlf +:+ "Content-".
Definition sample_tail : string := "Length: 5" +:+ crlf +:+ crlf +:+ "hello".

Lemma parse_incremental_witness :
  exists p1 b1 r q c c1,
    Parse new_parser (Append_str (new_buffer 16) sample_head) = Some (NEED_MORE_DATA, p1, b1) /\
    Parse new_parser (Append (Append_str (new_buffer 16) sample_head) (bytes_of sample_tail))
      = Some (r, q, c) /\
    Parse p1 (Append b1 (bytes_of sample_tail)) = Some (r, q, c1) /\ contents c = contents c1.
Proof.
  destruct (wf_new 16) as [Hn _]; [done|].
  destruct (append_spec (new_buffer 16) (bytes_of sample_head) Hn) as (Hwf & _ & _);
    [vm_compute; reflexivity|].
  destruct (Parse new_parser (Append_str (new_buffer 16) sample_head)) as [[[r0 p1] b1]|] eqn:E;
    [|vm_compute in E; discriminate].
  assert (r0 = NEED_MORE_DATA) as -> by (vm_compute in E; congruence).
  destruct (parse_incremental new_parser _ p1 b1 (bytes_of sample_tail) Hwf E) as (r & q & c & c1 & H).
  - vm_compute; reflexivity.
  - vm_compute in E. injection E as _ <-. vm_compute. reflexivity.
  - exists p1, b1, r, q, c, c1. split; [reflexivity|exact H].
Defined.

(** A request line of 5000 characters and more: refused if its end comes later. *)
Definition long_line : list ascii := bytes_of "GET /" ++ repeat "a"%char 5000.
Definition parse_result (r : option (ParseResult * HttpParser * list ascii)) : option ParseResult := fst ∘ fst <$> r.

Example long_line_in_pieces :
  parse_result (parse_list new_parser long_line) = Some PARSE_ERROR /\
  parse_result (parse_list new_parser (long_line ++ bytes_of (" HTTP/1.1" +:+ crlf +:+ crlf))) = Some MESSAGE_COMPLETE.
Proof. split; vm_compute; reflexivity. Qed.

(** C18. Round trip: a printed request head (method, path, optional query,
    version, header lines, blank line) is parsed back into the same request
    whatever follows it; the bytes after the blank line stay in the buffer, and
    the announced length decides between body and completion. *)
Theorem parse_roundtrip p b m path query ver hs n rest :
  wf b -> state_ p = REQUEST_LINE -> line_ok m path query ver -> Forall header_ok hs ->
  contents b = render_head m path query ver hs ++ rest ->
  let req := add_headers hs (line_request m path query ver (request_ p)) in
  GetHeader "transfer-encoding" req = "" ->
  (GetHeader "content-length" req = "" /\ n = 0%Z \/
   GetHeader "content-length" req = to_string n /\ (0 <= n < two64)%Z) ->
  exists p' b', Parse p b = Some (if (0 <? n)%Z then HEADERS_COMPLETE else MESSAGE_COMPLETE, p', b') /\
    wf b' /\ contents b' = rest /\ request_ p' = req /\
    content_length_ p' = n /\ remaining_body_length_ p' = n /\
    state_ p' = (if (0 <? n)%Z then BODY else DONE).
Proof.
  intros Hwf Hst Hline Hhs Hb req Hte Hcl.
  destruct (parse_refines p b Hwf) as (r & p' & b' & Hp & Hwf' & Hl).
  rewrite Hb, (add_headers_line_irrel p hs m path query ver n rest) in Hl by done.
  injection Hl as E1 E2 E3. subst r p'. eexists _, b'. split; [exact Hp|]. done.
Qed.

Definition sample_headers : list (string * string) :=
  [("Host", "localhost"); ("X-Content-SHA256", "ab cd"); ("CONTENT-length", "5")].

Lemma parse_roundtrip_witness :
  exists p' b', Parse new_parser
      (Append (new_buffer 64) (render_head PUT "/buckets/b/objects/o" (Some "a=1&b") "HTTP/1.1" sample_headers
                               ++ bytes_of "hello")) = Some (HEADERS_COMPLETE, p', b') /\
    contents b' = bytes_of "hello" /\ GetHeader "host" (request_ p') = "localhost" /\
    content_length_ p' = 5%Z.
Proof.
  set (l := render_head _ _ _ _ _ ++ _).
  destruct (wf_new 64) as [Hn Hc]; [done|].
  destruct (append_spec (new_buffer 64) l Hn) as (Hwf & Hcont & _); [vm_compute; reflexivity|].
  rewrite Hc in Hcont.
  destruct (parse_roundtrip new_parser _ PUT "/buckets/b/objects/o" (Some "a=1&b") "HTTP/1.1"
              sample_headers 5 (bytes_of "hello") Hwf eq_refl) as (p' & b' & H1 & H2 & H3 & H4 & H5 & _).
  - split_and!; try done; [|by right]. intros q [= <-]. done.
  - repeat constructor.
  - exact Hcont.
  - reflexivity.
  - right. split; [reflexivity|]. split; [discriminate|reflexivity].
  - exists p', b'. split_and!; [exact H1|exact H3|rewrite H4; reflexivity|exact H5].
Defined.

(** The calls a connection makes on its parser. *)
Inductive parser_call : HttpParser -> HttpParser -> Prop :=
  | call_parse p b r p' b' : wf b -> Parse p b = Some (r, p', b') -> parser_call p p'
  | call_consume p n : (0 <= n)%Z -> parser_call p (snd (ConsumeBody p n))
  | call_reset p : parser_call p (Reset p).

(** C38. Length safety: along any sequence of [Parse], [ConsumeBody] and [Reset]
    calls from a new parser, the lengths are 64-bit values, the bytes still
    expected never exceed the announced length, and a message taken as chunked
    has no announced length. *)
Theorem parser_lengths_safe p : rtc parser_call new_parser p -> parser_inv p.
Proof.
  apply (rtc_ind_r parser_inv); [by split|].
  intros q q' _ Hcall Hq. destruct Hcall as [q b r q' b' Hwf Hp|q n Hn|q].
  - destruct (parse_refines q b Hwf) as (r0 & p0 & b0 & Hp0 & _ & Hl).
    rewrite Hp in Hp0. injection Hp0 as <- <- <-.
    by eapply parse_loop_list_inv in Hl.
  - by apply consume_body_inv.
  - by split.
Qed.

Lemma parser_lengths_safe_witness : parser_inv (snd (ConsumeBody new_parser 3)).
Proof.
  apply parser_lengths_safe. eapply rtc_l; [apply call_consume|apply rtc_refl]. done.
Defined.
