(* ===== verification/Json.v ===== *)
(** * The JSON library the handlers call

    nlohmann::json is not part of the repository: its serializer, its parser and
    its typed accessors are parameters ([JsonLib]); what the code relies on is
    stated as laws ([JsonLaws]). The values themselves are the trees the
    handlers build and walk. *)
From S2P Require Import Prelude.

Inductive Json : Type :=
  | JNull
  | JBool (b : bool)
  | JInt (z : Z)
  | JStr (s : string)
  | JArr (l : list Json)
  | JObj (fields : list (string * Json)).

(** [dump] throws on strings that are not UTF-8, [parse] on malformed text,
    [get<int>], [get<int64_t>] and [get<std::string>] on a value of another type. *)
Class JsonLib : Type := {
  json_dump : Json -> exn string;
  json_parse : string -> exn Json;
  json_get_int : Json -> exn Z;
  json_get_i64 : Json -> exn Z;
  json_get_string : Json -> exn string
}.

Fixpoint obj_lookup (k : string) (fields : list (string * Json)) : option Json :=
  match fields with
  | [] => None
  | (k', v) :: r => if String.eqb k k' then Some v else obj_lookup k r
  end.

(** [j.contains(k)] and [j[k]]; only an object contains a key. *)
Definition json_field (k : string) (j : Json) : option Json :=
  match j with JObj fields => obj_lookup k fields | _ => None end.

(** [j.value(k, d)]: the default for an absent key, an exception when [j] is no
    object or the value has another type. *)
Definition value_i64 `{JsonLib} (k : string) (d : Z) (j : Json) : exn Z :=
  match j with
  | JObj fields => match obj_lookup k fields with Some v => json_get_i64 v | None => Ret d end
  | _ => Throw "type_error"
  end.

Definition value_string `{JsonLib} (k d : string) (j : Json) : exn string :=
  match j with
  | JObj fields => match obj_lookup k fields with Some v => json_get_string v | None => Ret d end
  | _ => Throw "type_error"
  end.

Class JsonLaws `{JsonLib} : Prop := {
  get_string_str s : json_get_string (JStr s) = Ret s;
  get_int_int z : (-2147483648 <= z < 2147483648)%Z -> json_get_int (JInt z) = Ret z;
  get_i64_int z : (- two63 <= z < two63)%Z -> json_get_i64 (JInt z) = Ret z;
  get_int_str s : exists e, json_get_int (JStr s) = Throw e;
  get_string_int z : exists e, json_get_string (JInt z) = Throw e
}.

(** A small concrete library: [dump] writes the tree with the type of each value
    and [parse] knows no text but the empty array and object. *)
Fixpoint tree_text (j : Json) : string :=
  match j with
  | JNull => "null"
  | JBool b => if b then "true" else "false"
  | JInt z => to_string z
  | JStr s => "'" +:+ s +:+ "'"
  | JArr l => "[" +:+ String.concat "," (tree_text <$> l) +:+ "]"
  | JObj fs => "{" +:+ String.concat "," ((fun kv => fst kv +:+ ":" +:+ tree_text (snd kv)) <$> fs) +:+ "}"
  end.

Definition tree_json : JsonLib := {|
  json_dump j := Ret (tree_text j);
  json_parse s :=
    if String.eqb s "[]" then Ret (JArr [])
    else if String.eqb s "{}" then Ret (JObj [])
    else Throw "parse_error";
  json_get_int j := match j with JInt z => Ret z | _ => Throw "type_error" end;
  json_get_i64 j := match j with JInt z => Ret z | _ => Throw "type_error" end;
  json_get_string j := match j with JStr s => Ret s | _ => Throw "type_error" end
|}.

Lemma tree_json_laws : @JsonLaws tree_json.
Proof. split; cbn; eauto. Qed.
