(* ===== verification/HttpResponse.v ===== *)
(** * HTTP responses (src/src/net/http/http_response.h, .cpp)

    The response object, its convenience constructors and its serialization
    into the output buffer. The header map is a [std::unordered_map], whose
    iteration order is a parameter. *)
From S2P Require Import Prelude ByteBuffer Json.

Record HttpResponse : Type := MkResponse {
  status_code_ : Z;
  status_message_ : string;
  headers_ : gmap string string;
  body_ : string;
  file_path_ : string;
  file_size_ : Z;
  file_offset_ : Z;
  file_length_ : Z;
  keep_alive_ : bool
}.

Definition new_response : HttpResponse :=
  MkResponse 200 "OK" ∅ "" "" 0 0 0 true.

Definition SetStatusCode (c : Z) (r : HttpResponse) : HttpResponse :=
  MkResponse c (status_message_ r) (headers_ r) (body_ r) (file_path_ r) (file_size_ r)
    (file_offset_ r) (file_length_ r) (keep_alive_ r).

Definition SetStatusMessage (m : string) (r : HttpResponse) : HttpResponse :=
  MkResponse (status_code_ r) m (headers_ r) (body_ r) (file_path_ r) (file_size_ r)
    (file_offset_ r) (file_length_ r) (keep_alive_ r).

Definition set_headers (h : gmap string string) (r : HttpResponse) : HttpResponse :=
  MkResponse (status_code_ r) (status_message_ r) h (body_ r) (file_path_ r) (file_size_ r)
    (file_offset_ r) (file_length_ r) (keep_alive_ r).

Definition SetHeader (k v : string) (r : HttpResponse) : HttpResponse :=
  set_headers (<[k := v]> (headers_ r)) r.

Definition AddHeader (k v : string) (r : HttpResponse) : HttpResponse :=
  match headers_ r !! k with
  | Some old => set_headers (<[k := old +:+ ", " +:+ v]> (headers_ r)) r
  | None => set_headers (<[k := v]> (headers_ r)) r
  end.

Definition SetBody (b : string) (r : HttpResponse) : HttpResponse :=
  MkResponse (status_code_ r) (status_message_ r) (headers_ r) b (file_path_ r) (file_size_ r)
    (file_offset_ r) (file_length_ r) (keep_alive_ r).

Definition SetJsonBody (json : string) (r : HttpResponse) : HttpResponse :=
  SetHeader "Content-Type" "application/json; charset=utf-8" (SetBody json r).

Definition SetFile (path : string) (size offset length : Z) (r : HttpResponse) : HttpResponse :=
  MkResponse (status_code_ r) (status_message_ r) (headers_ r) (body_ r) path size offset
    (if (0 <? length)%Z then length else size) (keep_alive_ r).

Definition SetFileRange (offset length : Z) (r : HttpResponse) : HttpResponse :=
  MkResponse (status_code_ r) (status_message_ r) (headers_ r) (body_ r) (file_path_ r)
    (file_size_ r) offset length (keep_alive_ r).

Definition SetKeepAlive (k : bool) (r : HttpResponse) : HttpResponse :=
  MkResponse (status_code_ r) (status_message_ r) (headers_ r) (body_ r) (file_path_ r)
    (file_size_ r) (file_offset_ r) (file_length_ r) k.

Definition HasFile (r : HttpResponse) : bool := negb (str_empty (file_path_ r)).

Definition FileLength (r : HttpResponse) : Z :=
  if (0 <? file_length_ r)%Z then file_length_ r else file_size_ r.

Definition Reset (r : HttpResponse) : HttpResponse := new_response.

Definition GetStatusMessage (code : Z) : string :=
  match code with
  | 200 => "OK"
  | 201 => "Created"
  | 204 => "No Content"
  | 206 => "Partial Content"
  | 301 => "Moved Permanently"
  | 302 => "Found"
  | 304 => "Not Modified"
  | 400 => "Bad Request"
  | 401 => "Unauthorized"
  | 403 => "Forbidden"
  | 404 => "Not Found"
  | 405 => "Method Not Allowed"
  | 409 => "Conflict"
  | 413 => "Payload Too Large"
  | 416 => "Range Not Satisfiable"
  | 500 => "Internal Server Error"
  | 503 => "Service Unavailable"
  | _ => "Unknown"
  end%Z.

(** [HttpResponse(HttpStatusCode)]. *)
Definition response_of_code (code : Z) : HttpResponse :=
  SetStatusMessage (GetStatusMessage code) (SetStatusCode code new_response).

(** ** Serialization *)

(** The order in which the header map is iterated. *)
Class HeaderOrder : Type := {
  header_list : gmap string string -> list (string * string);
  header_list_perm h : header_list h ≡ₚ map_to_list h
}.

Definition map_order : HeaderOrder :=
  {| header_list := map_to_list; header_list_perm h := Permutation_refl (map_to_list h) |}.

Definition header_text (h : string * string) : string := fst h +:+ ": " +:+ snd h +:+ crlf.

Definition render_response `{HeaderOrder} (r : HttpResponse) : string :=
  "HTTP/1.1 " +:+ to_string (status_code_ r) +:+ " " +:+ status_message_ r +:+ crlf +:+
  String.concat "" (header_text <$> header_list (headers_ r)) +:+
  (if negb (str_empty (body_ r)) && bool_decide (headers_ r !! "Content-Length" = None)
   then "Content-Length: " +:+ to_string (Z.of_nat (String.length (body_ r))) +:+ crlf else "") +:+
  (if bool_decide (headers_ r !! "Connection" = None)
   then "Connection: " +:+ (if keep_alive_ r then "keep-alive" else "close") +:+ crlf else "") +:+
  crlf +:+
  (if negb (HasFile r) && negb (str_empty (body_ r)) then body_ r else "").

Definition AppendToBuffer `{HeaderOrder} (r : HttpResponse) (b : ByteBuffer) : ByteBuffer :=
  Append_str b (render_response r).

(** ** Convenience constructors *)

Definition Resp_Ok (body : string) : HttpResponse :=
  let resp := SetStatusMessage "OK" (SetStatusCode 200 new_response) in
  if str_empty body then resp else SetBody body resp.

Definition Resp_Json (json : string) (code : Z) : HttpResponse :=
  SetJsonBody json (SetStatusMessage (GetStatusMessage code) (SetStatusCode code new_response)).

Definition Resp_RangeNotSatisfiable (file_size : Z) : HttpResponse :=
  SetHeader "Content-Range" ("bytes */" +:+ to_string file_size)
    (SetStatusMessage "Range Not Satisfiable" (SetStatusCode 416 new_response)).

Definition Resp_OK (body : string) : HttpResponse := Resp_Ok body.

Definition Resp_Created (body : string) : HttpResponse :=
  let resp := SetStatusMessage "Created" (SetStatusCode 201 new_response) in
  if str_empty body then resp else SetJsonBody body resp.

Definition Resp_NoContent : HttpResponse :=
  SetStatusMessage "No Content" (SetStatusCode 204 new_response).

(** The error constructors throw when [dump] does. *)
Definition Resp_Error `{JsonLib} (status_code : Z) (code message trace_id : string) : exn HttpResponse :=
  let fields := [("code", JStr code); ("message", JStr message)] in
  let fields := if str_empty trace_id then fields else fields ++ [("trace_id", JStr trace_id)] in
  text ← json_dump (JObj [("error", JObj fields)]);
  mret (SetJsonBody text
    (SetStatusMessage (GetStatusMessage status_code) (SetStatusCode status_code new_response))).

Definition Resp_NotFound `{JsonLib} (message trace_id : string) : exn HttpResponse :=
  Resp_Error 404 "NotFound" message trace_id.
Definition Resp_BadRequest `{JsonLib} (message trace_id : string) : exn HttpResponse :=
  Resp_Error 400 "BadRequest" message trace_id.
Definition Resp_Unauthorized `{JsonLib} (message trace_id : string) : exn HttpResponse :=
  Resp_Error 401 "Unauthorized" message trace_id.
Definition Resp_Forbidden `{JsonLib} (message trace_id : string) : exn HttpResponse :=
  Resp_Error 403 "Forbidden" message trace_id.
Definition Resp_Conflict `{JsonLib} (message trace_id : string) : exn HttpResponse :=
  Resp_Error 409 "Conflict" message trace_id.
Definition Resp_InternalError `{JsonLib} (message trace_id : string) : exn HttpResponse :=
  Resp_Error 500 "InternalError" message trace_id.
Definition Resp_ServiceUnavailable `{JsonLib} (message trace_id : string) : exn HttpResponse :=
  Resp_Error 503 "ServiceUnavailable" message trace_id.
