(* ===== verification/Metrics.v ===== *)
(** * Metrics (src/src/util/metrics.h, .cpp)

    The counters, the gauges and the samples of request durations, what the access
    log adds to them, and their text for Prometheus. A duration is kept in the
    milliseconds it was measured in ([latency_ms / 1000.0] and the bounds are the
    nearest doubles, so comparing them is comparing milliseconds); the text of a sum
    of doubles and the order of the unordered maps are parameters. *)
From S2P Require Import Prelude HttpRequest HttpResponse.

Open Scope Z_scope.

(** An [int] that wraps around. *)
Definition i32 (z : Z) : Z := (z + 2147483648) mod 4294967296 - 2147483648.

Record Metrics : Type := MkMetrics {
  http_requests_ : gmap string Z;
  upload_bytes_ : Z;
  download_bytes_ : Z;
  active_connections_ : Z;
  storage_used_bytes_ : Z;
  objects_count_ : Z;
  cas_blobs_count_ : Z;
  gc_queue_length_ : Z;
  request_durations_ : gmap string (list Z)
}.

Definition new_metrics : Metrics := MkMetrics ∅ 0 0 0 0 0 0 0 ∅.

(** ** Counters and gauges *)

Definition request_key (method : string) (status_code : Z) : string := method +:+ "_" +:+ to_string status_code.

Definition IncrementHttpRequests (method : string) (status_code : Z) (m : Metrics) : Metrics :=
  let key := request_key method status_code in
  MkMetrics (<[key := u64 (default 0 (http_requests_ m !! key) + 1)]> (http_requests_ m)) (upload_bytes_ m)
    (download_bytes_ m) (active_connections_ m) (storage_used_bytes_ m) (objects_count_ m) (cas_blobs_count_ m)
    (gc_queue_length_ m) (request_durations_ m).

Definition AddUploadBytes (bytes : Z) (m : Metrics) : Metrics :=
  MkMetrics (http_requests_ m) (u64 (upload_bytes_ m + bytes)) (download_bytes_ m) (active_connections_ m)
    (storage_used_bytes_ m) (objects_count_ m) (cas_blobs_count_ m) (gc_queue_length_ m) (request_durations_ m).

Definition AddDownloadBytes (bytes : Z) (m : Metrics) : Metrics :=
  MkMetrics (http_requests_ m) (upload_bytes_ m) (u64 (download_bytes_ m + bytes)) (active_connections_ m)
    (storage_used_bytes_ m) (objects_count_ m) (cas_blobs_count_ m) (gc_queue_length_ m) (request_durations_ m).

Definition SetActiveConnections (count : Z) (m : Metrics) : Metrics :=
  MkMetrics (http_requests_ m) (upload_bytes_ m) (download_bytes_ m) count
    (storage_used_bytes_ m) (objects_count_ m) (cas_blobs_count_ m) (gc_queue_length_ m) (request_durations_ m).

Definition IncrementActiveConnections (m : Metrics) : Metrics :=
  SetActiveConnections (i32 (active_connections_ m + 1)) m.

Definition DecrementActiveConnections (m : Metrics) : Metrics :=
  SetActiveConnections (i32 (active_connections_ m - 1)) m.

Definition set_gauges (storage objects blobs queue : Z) (m : Metrics) : Metrics :=
  MkMetrics (http_requests_ m) (upload_bytes_ m) (download_bytes_ m) (active_connections_ m)
    storage objects blobs queue (request_durations_ m).

Definition SetStorageUsedBytes (bytes : Z) (m : Metrics) : Metrics :=
  set_gauges bytes (objects_count_ m) (cas_blobs_count_ m) (gc_queue_length_ m) m.
Definition SetObjectsCount (count : Z) (m : Metrics) : Metrics :=
  set_gauges (storage_used_bytes_ m) count (cas_blobs_count_ m) (gc_queue_length_ m) m.
Definition SetCasBlobsCount (count : Z) (m : Metrics) : Metrics :=
  set_gauges (storage_used_bytes_ m) (objects_count_ m) count (gc_queue_length_ m) m.
Definition SetGcQueueLength (length : Z) (m : Metrics) : Metrics :=
  set_gauges (storage_used_bytes_ m) (objects_count_ m) (cas_blobs_count_ m) length m.

(** ** Durations *)

(** The vector of a key after a sample: the older half goes when it is full. *)
Definition add_sample (d : Z) (samples : list Z) : list Z :=
  let samples := samples ++ [d] in
  if 10000 <? Z.of_nat (length samples) then drop (Z.to_nat 5000) samples else samples.

Definition ObserveRequestDuration (method route : string) (latency_ms : Z) (m : Metrics) : Metrics :=
  let key := method +:+ "_" +:+ route in
  MkMetrics (http_requests_ m) (upload_bytes_ m) (download_bytes_ m) (active_connections_ m) (storage_used_bytes_ m)
    (objects_count_ m) (cas_blobs_count_ m) (gc_queue_length_ m)
    (<[key := add_sample latency_ms (default [] (request_durations_ m !! key))]> (request_durations_ m)).

(** [AccessLog] without the line it writes. *)
Definition AccessLog (request : HttpRequest) (response : HttpResponse) (latency_ms : Z) (m : Metrics) : Metrics :=
  let method := HttpMethodToString (method_ request) in
  let m := IncrementHttpRequests method (status_code_ response) m in
  let m := ObserveRequestDuration method (path_ request) latency_ms m in
  let body := Z.of_nat (String.length (HttpRequest.body_ request)) in
  let internal_size := GetHeader "X-Internal-Size" request in
  let bytes_in := if str_empty internal_size then body else conv_or body (stoull internal_size) in
  let bytes_out := if HasFile response then FileLength response
                   else Z.of_nat (String.length (HttpResponse.body_ response)) in
  let m := if bool_decide (method_ request = PUT) || bool_decide (method_ request = POST)
           then AddUploadBytes bytes_in m else m in
  if bool_decide (method_ request = GET) then AddDownloadBytes bytes_out m else m.

(** ** Export *)

(** The bounds of the histogram, in milliseconds. *)
Definition kBuckets : list Z := [1; 5; 10; 25; 50; 100; 250; 500; 1000; 2500; 5000; 10000].

(** One sample in the loops of [Export]. *)
Definition count_sample (counts : list Z) (d : Z) : list Z :=
  zip_with (fun b n => if d <=? b then n + 1 else n) kBuckets counts.

Definition bucket_counts (durations : list Z) : list Z :=
  foldl count_sample (replicate (length kBuckets) 0) durations.

Definition nl : string := String LF "".
Definition dq : string := String "034" "".

Definition header_lines (name help type : string) : string :=
  "# HELP " +:+ name +:+ " " +:+ help +:+ nl +:+ "# TYPE " +:+ name +:+ " " +:+ type +:+ nl.

Definition value_line (name help type : string) (v : Z) : string :=
  header_lines name help type +:+ name +:+ " " +:+ to_string v +:+ nl.

Definition label (name value : string) : string := name +:+ "=" +:+ dq +:+ value +:+ dq.

(** The line of a request counter: the key is cut at its first underscore. *)
Definition request_line (kv : string * Z) : string :=
  match str_find "_" (fst kv) with
  | Some pos =>
      "minis3_http_requests_total{" +:+ label "method" (str_take pos (fst kv)) +:+ "," +:+
        label "code" (str_drop (S pos) (fst kv)) +:+ "} " +:+ to_string (snd kv) +:+ nl
  | None => ""
  end.

(** Three digits. *)
Definition pad3 (n : Z) : string :=
  (if n <? 100 then "0" else "") +:+ (if n <? 10 then "0" else "") +:+ to_string n.

Fixpoint strip_zeros (s : string) : string :=
  match s with
  | EmptyString => EmptyString
  | String c r => match strip_zeros r with
                  | EmptyString => if Ascii.eqb c "0" then EmptyString else String c EmptyString
                  | r' => String c r'
                  end
  end.

(** A bound in seconds: the stream prints six significant digits at first, and six
    decimals once [std::fixed] has been set. *)
Definition bound_text (fixed : bool) (ms : Z) : string :=
  let whole := to_string (ms / 1000) in
  let frac := pad3 (ms mod 1000) in
  if fixed then whole +:+ "." +:+ frac +:+ "000"
  else match strip_zeros frac with "" => whole | f => whole +:+ "." +:+ f end.

Section export.
Context (request_order : gmap string Z -> list (string * Z))
        (duration_order : gmap string (list Z) -> list (string * list Z))
        (sum_text : list Z -> string).

Definition kDuration : string := "minis3_http_request_duration_seconds".

Definition bucket_line (method route le : string) (n : Z) : string :=
  kDuration +:+ "_bucket{" +:+ label "method" method +:+ "," +:+ label "route" route +:+ "," +:+
    label "le" le +:+ "} " +:+ to_string n +:+ nl.

Definition histogram_lines (fixed : bool) (key : string) (durations : list Z) : string :=
  let method := match str_find "_" key with Some pos => str_take pos key | None => key end in
  let route := match str_find "_" key with Some pos => str_drop (S pos) key | None => "" end in
  let total := Z.of_nat (length durations) in
  let labels := "{" +:+ label "method" method +:+ "," +:+ label "route" route +:+ "} " in
  String.concat "" (zip_with (fun b n => bucket_line method route (bound_text fixed b) n) kBuckets (bucket_counts durations))
  +:+ bucket_line method route "+Inf" total
  +:+ kDuration +:+ "_sum" +:+ labels +:+ sum_text durations +:+ nl
  +:+ kDuration +:+ "_count" +:+ labels +:+ to_string total +:+ nl.

(** The loop over the keys; a key without samples is passed over. *)
Fixpoint histograms (fixed : bool) (l : list (string * list Z)) : string :=
  match l with
  | [] => ""
  | (key, []) :: l => histograms fixed l
  | (key, durations) :: l => histogram_lines fixed key durations +:+ histograms true l
  end.

Definition Export (m : Metrics) : string :=
  header_lines "minis3_http_requests_total" "Total number of HTTP requests" "counter"
  +:+ String.concat "" (request_line <$> request_order (http_requests_ m))
  +:+ value_line "minis3_upload_bytes_total" "Total bytes uploaded" "counter" (upload_bytes_ m)
  +:+ value_line "minis3_download_bytes_total" "Total bytes downloaded" "counter" (download_bytes_ m)
  +:+ value_line "minis3_active_connections" "Current number of active connections" "gauge" (active_connections_ m)
  +:+ value_line "minis3_storage_used_bytes" "Total storage used in bytes" "gauge" (storage_used_bytes_ m)
  +:+ value_line "minis3_objects_count" "Total number of objects" "gauge" (objects_count_ m)
  +:+ value_line "minis3_cas_blobs_count" "Total number of CAS blobs" "gauge" (cas_blobs_count_ m)
  +:+ value_line "minis3_gc_queue_length" "Current GC queue length" "gauge" (gc_queue_length_ m)
  +:+ header_lines kDuration "HTTP request duration in seconds" "histogram"
  +:+ histograms false (duration_order (request_durations_ m)).
End export.

(** ** Properties *)

(** The two nested loops compute, for every bound, the number of samples within it. *)
Lemma bucket_counts_exact durations :
  bucket_counts durations = (fun b => Z.of_nat (length (filter (fun d => d <= b) durations))) <$> kBuckets.
Proof.
  unfold bucket_counts.
  assert (Hgo : forall l f, foldl count_sample (f <$> kBuckets) l =
    (fun b => f b + Z.of_nat (length (filter (fun d => d <= b) l))) <$> kBuckets).
  { induction l as [|d l IH]; intros f; cbn [foldl]; [apply list_fmap_ext; intros; cbn; lia|].
    assert (E : count_sample (f <$> kBuckets) d = (fun b => if d <=? b then f b + 1 else f b) <$> kBuckets) by done.
    rewrite E, IH. apply list_fmap_ext. intros _ b _. rewrite filter_cons. destruct (Z.leb_spec d b).
    - rewrite decide_True by done. cbn [length]. lia.
    - rewrite decide_False by lia. done. }
  exact (Hgo durations (fun _ => 0)).
Qed.

(** The vectors of samples stay bounded. *)
Lemma samples_bounded d samples :
  Z.of_nat (length samples) <= 10000 -> Z.of_nat (length (add_sample d samples)) <= 10000.
Proof.
  intros H. unfold add_sample. destruct (Z.ltb_spec 10000 (Z.of_nat (length (samples ++ [d])))) as [Hl|Hl]; [|lia].
  rewrite length_drop, length_app. cbn [length]. lia.
Qed.

(** The method of a request key can be read back: no method has an underscore. *)
Lemma request_key_cut method code :
  str_find "_" (request_key (HttpMethodToString method) code) = Some (String.length (HttpMethodToString method)).
Proof. apply (str_find_app "_"). by destruct method. Qed.

Lemma request_key_inj method1 code1 method2 code2 :
  request_key (HttpMethodToString method1) code1 = request_key (HttpMethodToString method2) code2 ->
  method1 = method2 /\ code1 = code2.
Proof.
  intros E. pose proof (request_key_cut method1 code1) as H1. pose proof (request_key_cut method2 code2) as H2.
  rewrite E, H2 in H1. injection H1 as Hl. unfold request_key in E.
  assert (Em : HttpMethodToString method1 = HttpMethodToString method2).
  { rewrite <-(str_take_app (HttpMethodToString method1) ("_" +:+ to_string code1)), E, <-Hl. apply str_take_app. }
  split; [by destruct method1, method2|].
  assert (Ed : "_" +:+ to_string code1 = "_" +:+ to_string code2).
  { rewrite <-(str_drop_app (HttpMethodToString method1) ("_" +:+ to_string code1)), E, <-Hl. apply str_drop_app. }
  injection Ed as Ed. by apply (inj pretty) in Ed.
Qed.

(** A run of the access log. *)
Definition log_all (logs : list (HttpRequest * HttpResponse * Z)) (m : Metrics) : Metrics :=
  foldl (fun m '(request, response, ms) => AccessLog request response ms m) m logs.

Definition logged (method : HttpMethod) (code : Z) (log : HttpRequest * HttpResponse * Z) : bool :=
  bool_decide (method_ (fst (fst log)) = method) && (status_code_ (snd (fst log)) =? code).

Lemma AccessLog_requests request response ms m :
  http_requests_ (AccessLog request response ms m) =
  http_requests_ (IncrementHttpRequests (HttpMethodToString (method_ request)) (status_code_ response) m).
Proof. unfold AccessLog. by repeat case_match. Qed.

Lemma log_all_count method code logs : forall m,
  let key := request_key (HttpMethodToString method) code in
  0 <= default 0 (http_requests_ m !! key) < two64 ->
  default 0 (http_requests_ (log_all logs m) !! key) =
    u64 (default 0 (http_requests_ m !! key) + Z.of_nat (length (filter (fun l => logged method code l = true) logs))).
Proof.
  induction logs as [|[[request response] ms] logs IH]; intros m key Hm; cbn [log_all foldl].
  - cbn. rewrite Z.add_0_r, u64_small by done. done.
  - fold (log_all logs (AccessLog request response ms m)). rewrite IH; fold key;
      rewrite AccessLog_requests; unfold IncrementHttpRequests; cbn [http_requests_].
    + rewrite filter_cons.
      destruct (decide (request_key (HttpMethodToString (method_ request)) (status_code_ response) = key)) as [E|E].
      * rewrite E, lookup_insert_eq. apply request_key_inj in E as [E1 E2]. cbn [default from_option id].
        rewrite decide_True by (unfold logged; cbn; by rewrite E1, E2, bool_decide_true, Z.eqb_refl). cbn [length].
        unfold u64. rewrite Zplus_mod_idemp_l. f_equal. lia.
      * rewrite lookup_insert_ne by done. rewrite decide_False; [done|]. intros Hl. apply E.
        apply andb_true_iff in Hl as [H1%bool_decide_eq_true H2%Z.eqb_eq]. cbn in H1, H2. by rewrite H1, H2.
    + destruct (decide (request_key (HttpMethodToString (method_ request)) (status_code_ response) = key)) as [E|E].
      * rewrite E, lookup_insert_eq. apply u64_range.
      * by rewrite lookup_insert_ne.
Qed.

(** The metrics text is exact: after any number of requests the counter of a
    method and a status code is the number of requests of that method answered with
    that code, modulo 2^64, and it is exported under that method and that code; and
    the buckets of the exported histogram hold, for each bound, the number of the
    samples within it. *)
Theorem metrics_exact logs method code durations :
  default 0 (http_requests_ (log_all logs new_metrics) !! request_key (HttpMethodToString method) code) =
    u64 (Z.of_nat (length (filter (fun l => logged method code l = true) logs))) /\
  (forall n, request_line (request_key (HttpMethodToString method) code, n) =
    "minis3_http_requests_total{" +:+ label "method" (HttpMethodToString method) +:+ "," +:+
      label "code" (to_string code) +:+ "} " +:+ to_string n +:+ nl) /\
  bucket_counts durations = (fun b => Z.of_nat (length (filter (fun d => d <= b) durations))) <$> kBuckets.
Proof.
  split_and!; [apply (log_all_count method code logs new_metrics); done| |apply bucket_counts_exact].
  intros n. unfold request_line. cbn [fst snd]. rewrite request_key_cut. unfold request_key. rewrite str_take_app.
  by rewrite (str_drop_app_S _ "_" (to_string code)).
Qed.

(** The bounds of the first histogram and of the others are not written alike. *)
Example first_histogram_differs :
  bound_text false 1000 = "1" /\ bound_text true 1000 = "1.000000" /\ bound_text false 25 = "0.025".
Proof. vm_compute. done. Qed.
