(* ===== verification/Logging.v ===== *)
(** * Logging (src/src/util/logging.h, .cpp, and [Logging] of util/metrics.cpp)

    The set-up of the loggers, and the access log: the line of a request, as JSON or
    plain, after the metrics have counted it. The sinks of the logging library, the
    directories and the clocks are parameters. *)
From S2P Require Import Prelude Json HttpRequest HttpResponse Metrics.

Open Scope Z_scope.

(** ** The loggers *)

Inductive Level : Type := LevelTrace | LevelDebug | LevelInfo | LevelWarn | LevelErr.

Definition ParseLevel (level : string) : Level :=
  if String.eqb level "trace" then LevelTrace
  else if String.eqb level "debug" then LevelDebug
  else if String.eqb level "info" then LevelInfo
  else if String.eqb level "warn" then LevelWarn
  else if String.eqb level "error" then LevelErr
  else LevelInfo.

(** [logger_] with its level and its file, if it has one besides the console; the
    access logger with its file, [None] for the console; the lines it was given. *)
Record Logger : Type := MkLogger {
  json_format_ : bool;
  logger_ : option (Level * option string);
  access_logger_ : option (option string);
  access_lines_ : list string
}.

Definition new_logger : Logger := MkLogger true None None [].

Definition file_of (path : string) : option string := if str_empty path then None else Some path.

(** [Logger::Init]. [make_parent] makes the directory of a path, [open_sink] opens a
    rotating file; both may throw. *)
Definition Logger_Init (make_parent open_sink : string -> exn unit)
    (level access_log_path error_log_path : string) (json_format : bool) (l : Logger) : exn Logger :=
  _ ← (if str_empty error_log_path then mret tt else make_parent error_log_path);
  _ ← (if str_empty access_log_path then mret tt else make_parent access_log_path);
  _ ← (if str_empty error_log_path then mret tt else open_sink error_log_path);
  _ ← (if str_empty access_log_path then mret tt else open_sink access_log_path);
  mret (MkLogger json_format (Some (ParseLevel level, file_of error_log_path)) (Some (file_of access_log_path))
          (access_lines_ l)).

(** ** The access log *)

Definition add_line (line : string) (l : Logger) : Logger :=
  MkLogger (json_format_ l) (logger_ l) (access_logger_ l) (access_lines_ l ++ [line]).

Section access.
Context `{JsonLib}.

(** The entry; [bucket] and [object] are added when they are not empty. *)
Definition log_entry (now : Z) (trace_id client_ip method path : string) (status latency_ms bytes_in bytes_out : Z)
    (bucket object : string) : Json :=
  JObj ([("ts", JInt now); ("trace_id", JStr trace_id); ("client_ip", JStr client_ip); ("method", JStr method);
         ("path", JStr path); ("status", JInt status); ("latency_ms", JInt latency_ms); ("bytes_in", JInt bytes_in);
         ("bytes_out", JInt bytes_out)] ++
        (if str_empty bucket then [] else [("bucket", JStr bucket)]) ++
        (if str_empty object then [] else [("object", JStr object)])).

Definition plain_line (trace_id client_ip method path : string) (status latency_ms bytes_in bytes_out : Z) : string :=
  trace_id +:+ " " +:+ client_ip +:+ " " +:+ method +:+ " " +:+ path +:+ " " +:+ to_string status +:+ " " +:+
  to_string latency_ms +:+ "ms " +:+ to_string bytes_in +:+ " " +:+ to_string bytes_out.

Definition LogAccess (now : Z) (trace_id client_ip method path : string) (status latency_ms bytes_in bytes_out : Z)
    (bucket object : string) (l : Logger) : exn Logger :=
  match access_logger_ l with
  | None => Ret l
  | Some _ =>
      if json_format_ l then
        line ← json_dump (log_entry now trace_id client_ip method path status latency_ms bytes_in bytes_out bucket object);
        Ret (add_line line l)
      else Ret (add_line (plain_line trace_id client_ip method path status latency_ms bytes_in bytes_out) l)
  end.

(** The metrics, the logger, and what the clocks will read: the time and the
    duration of each request in milliseconds. *)
Record ServerLog : Type := MkServerLog {
  lg_metrics : Metrics;
  lg_logger : Logger;
  lg_clock : list (Z * Z)
}.

Definition set_metrics (f : Metrics -> Metrics) (g : ServerLog) : ServerLog :=
  MkServerLog (f (lg_metrics g)) (lg_logger g) (lg_clock g).

(** The bytes of a request and of its response. *)
Definition bytes_in (request : HttpRequest) : Z :=
  let body := Z.of_nat (String.length (HttpRequest.body_ request)) in
  let internal_size := GetHeader "X-Internal-Size" request in
  if str_empty internal_size then body else conv_or body (stoull internal_size).

Definition bytes_out (response : HttpResponse) : Z :=
  if HasFile response then FileLength response else Z.of_nat (String.length (HttpResponse.body_ response)).

(** [Logging::AccessLog]: the metrics first, then the line. *)
Definition Logging_AccessLog (request : HttpRequest) (response : HttpResponse) : M ServerLog unit := fun g =>
  let '(now, latency_ms) := hd (0, 0) (lg_clock g) in
  let g := MkServerLog (AccessLog request response latency_ms (lg_metrics g)) (lg_logger g) (tl (lg_clock g)) in
  match LogAccess now (trace_id_ request) (client_ip_ request) (HttpMethodToString (method_ request)) (path_ request)
          (status_code_ response) latency_ms (bytes_in request) (bytes_out response) "" "" (lg_logger g) with
  | Ret l => (Ret tt, MkServerLog (lg_metrics g) l (lg_clock g))
  | Throw e => (Throw e, g)
  end.
End access.

(** ** Lemmas *)

(** A log that was set up takes a line for every request; the only failure is that
    of the JSON text, and then the request was counted all the same. *)
Lemma AccessLog_line `{JsonLib} request response g x g' :
  is_Some (access_logger_ (lg_logger g)) -> Logging_AccessLog request response g = (x, g') ->
  lg_metrics g' = AccessLog request response (snd (hd (0, 0) (lg_clock g))) (lg_metrics g) /\
  match x with
  | Ret _ => exists line, access_lines_ (lg_logger g') = access_lines_ (lg_logger g) ++ [line]
  | Throw e => json_format_ (lg_logger g) = true /\ lg_logger g' = lg_logger g /\ exists j, json_dump j = Throw e
  end.
Proof.
  intros [f Hf]. unfold Logging_AccessLog. destruct (hd _ _) as [now ms]. unfold LogAccess. cbn [lg_logger]. rewrite Hf.
  destruct (json_format_ (lg_logger g)).
  - destruct (json_dump _) as [line|e] eqn:E; cbn; intros [= <- <-]; cbn; eauto.
  - intros [= <- <-]. cbn. eauto.
Qed.

(** A plain log never throws. *)
Lemma plain_log_ret `{JsonLib} request response g :
  json_format_ (lg_logger g) = false -> fst (Logging_AccessLog request response g) = Ret tt.
Proof.
  intros Hf. unfold Logging_AccessLog. destruct (hd _ _) as [now ms]. unfold LogAccess. cbn [lg_logger].
  destruct (access_logger_ (lg_logger g)); [|done]. by rewrite Hf.
Qed.
