(* ===== verification/Crypto.v ===== *)
(** * Digests (src/src/util/crypto.h, .cpp)

    The digest functions of the cryptographic library are parameters on bytes;
    the hexadecimal form the program keys its storage with is modelled. *)
From S2P Require Import Prelude.

(** SHA-256 and HMAC-SHA-256 of OpenSSL: 32 bytes each. *)
Class Digest : Type := {
  sha256_raw : list ascii -> list ascii;
  hmac_raw : list ascii -> list ascii -> list ascii;
  sha256_length l : length (sha256_raw l) = 32%nat;
  hmac_length k l : length (hmac_raw k l) = 32%nat
}.

Definition hex_digit (n : nat) : ascii :=
  ascii_of_nat (if (n <? 10)%nat then 48 + n else 87 + n).

Definition hex_byte (c : ascii) : ascii * ascii :=
  (hex_digit (nat_of_ascii c / 16), hex_digit (nat_of_ascii c mod 16)).

(** [ToHexString]: two lower-case digits per byte. *)
Fixpoint ToHexString (data : list ascii) : string :=
  match data with
  | [] => EmptyString
  | c :: r => String (fst (hex_byte c)) (String (snd (hex_byte c)) (ToHexString r))
  end.

Section digest.
Context `{Digest}.

Definition SHA256 (data : string) : string := ToHexString (sha256_raw (bytes_of data)).
Definition HMAC_SHA256 (key data : string) : string :=
  ToHexString (hmac_raw (bytes_of key) (bytes_of data)).

(** The streaming context, by the bytes it has been fed. *)
Definition SHA256Context : Type := list ascii.
Definition new_context : SHA256Context := [].
Definition Update (ctx : SHA256Context) (data : list ascii) : SHA256Context := ctx ++ data.
Definition Final (ctx : SHA256Context) : string := ToHexString (sha256_raw ctx).
Definition Reset (ctx : SHA256Context) : SHA256Context := [].
End digest.

Definition is_hex (c : ascii) : bool :=
  let n := nat_of_ascii c in
  ((48 <=? n) && (n <=? 57) || (97 <=? n) && (n <=? 102))%nat.

Lemma hex_byte_is_hex c : is_hex (fst (hex_byte c)) = true /\ is_hex (snd (hex_byte c)) = true.
Proof. by destruct c as [[] [] [] [] [] [] [] []]. Qed.

(** The two digits determine the byte. *)
Definition unhex (p : ascii * ascii) : ascii :=
  let val c := let n := nat_of_ascii c in if (n <? 58)%nat then (n - 48)%nat else (n - 87)%nat in
  ascii_of_nat (16 * val (fst p) + val (snd p)).

Lemma unhex_byte c : unhex (hex_byte c) = c.
Proof. by destruct c as [[] [] [] [] [] [] [] []]. Qed.

Lemma to_hex_length l : String.length (ToHexString l) = (2 * length l)%nat.
Proof.
  induction l as [|c l IH]; [done|]. cbn [ToHexString String.length length].
  rewrite IH, Nat.mul_succ_r. by rewrite Nat.add_comm.
Qed.

Lemma to_hex_digits l : str_all is_hex (ToHexString l) = true.
Proof.
  induction l as [|c l IH]; [done|]. destruct (hex_byte_is_hex c) as [E1 E2].
  cbn [ToHexString str_all]. by rewrite E1, E2, IH.
Qed.

Lemma string_pair_inj (p q : ascii * ascii) a b :
  String (fst p) (String (snd p) a) = String (fst q) (String (snd q) b) -> p = q /\ a = b.
Proof. destruct p, q. cbn. by intros [= -> -> ->]. Qed.

Lemma to_hex_inj l k : ToHexString l = ToHexString k -> l = k.
Proof.
  revert k. induction l as [|c l IH]; intros [|d k]; try done.
  cbn [ToHexString]. intros [E1 E2]%string_pair_inj. f_equal; [|by apply IH].
  by rewrite <-(unhex_byte c), <-(unhex_byte d), E1.
Qed.

Lemma SHA256_key `{Digest} s :
  String.length (SHA256 s) = 64%nat /\ str_all is_hex (SHA256 s) = true.
Proof. split; [|apply to_hex_digits]. unfold SHA256. by rewrite to_hex_length, sha256_length. Qed.

(** A toy digest for evaluation: the first 32 bytes, padded. *)
Definition pad32 (l : list ascii) : list ascii := take 32 (l ++ replicate 32 zero).

Lemma pad32_length l : length (pad32 l) = 32%nat.
Proof. unfold pad32. rewrite length_take, length_app, length_replicate. lia. Qed.

Definition toy_digest : Digest :=
  {| sha256_raw := pad32; hmac_raw := fun k d => pad32 (k ++ d);
     sha256_length := pad32_length; hmac_length k d := pad32_length (k ++ d) |}.
