(* ===== verification/Sql.v ===== *)
(** * The database schema and the statements the metadata store issues
    (src/scripts/mysql_init.sql, the SQL texts of src/src/db/meta_store.cpp)

    The tables are finite maps keyed by their primary or unique keys; [Stmt] has
    one constructor per statement text of the program and [exec_stmt] is the
    effect the schema and the statement give it. String comparison follows the
    collation of the schema, a parameter, and so does the number of characters of a
    text, which the column widths of the schema bound. The server itself is the
    interface [MySQL] with its laws [MySQLLaws], at the end of the file. *)
From stdpp Require Import sorting.
From S2P Require Import Prelude.

Open Scope Z_scope.

(** ** Parameters of the SQL dialect *)

(** [utf8mb4_unicode_ci]: two strings are equal when their weight strings
    [coll] are; [uk255] is the weight of the 255-character prefix the unique key
    [uk_bucket_key] indexes; [like pattern subject] is the [LIKE] operator;
    [char_count] is the number of characters of a text of the character set, [None]
    for bytes that are no text of it. *)
Class Collation : Type := {
  char_count : string -> option Z;
  coll : string -> string;
  uk255 : string -> string;
  like : string -> string -> bool;
  coll_uk a b : coll a = coll b -> uk255 a = uk255 b
}.

(** Calendar text of a second count, as [std::put_time] writes it, MySQL stores
    it and [std::get_time] reads it; [tz_offset] is the distance between local
    time and UTC of the process. *)
Class Calendar : Type := {
  ts_text : Z -> string;
  ts_read : string -> option Z;
  tz_offset : Z;
  ts_read_text t : ts_read (ts_text t) = Some t
}.

(** ** Tables *)

Record BucketRow : Type := MkBucketRow { br_id : Z; br_name : string; br_created : Z }.

Record CasRow : Type := MkCasRow {
  cr_key : string; cr_size : Z; cr_ref : Z; cr_created : Z; cr_updated : Z }.

Record ObjectRow : Type := MkObjectRow {
  or_id : Z; or_bucket : Z; or_key : string; or_cas : string; or_size : Z;
  or_type : string; or_etag : string; or_created : Z }.

Record UploadRow : Type := MkUploadRow {
  ur_id : string; ur_bucket : Z; ur_key : string; ur_type : string;
  ur_created : Z; ur_expires : Z }.

Record PartRow : Type := MkPartRow {
  pr_upload : string; pr_number : Z; pr_cas : string; pr_size : Z; pr_etag : string;
  pr_created : Z }.

Record IdemRow : Type := MkIdemRow {
  ir_key : string; ir_hash : string; ir_status : Z; ir_body : string;
  ir_created : Z; ir_expires : Z }.

(** Keys: the name, the content key, (bucket, key prefix), the upload id,
    (upload id, part number) and the idempotency key, up to collation. *)
Record Tables : Type := MkTables {
  buckets : gmap string BucketRow;
  cas_blobs : gmap string CasRow;
  objects : gmap (Z * string) ObjectRow;
  uploads : gmap string UploadRow;
  parts : gmap (string * Z) PartRow;
  idem : gmap string IdemRow;
  next_bucket : Z;
  next_object : Z
}.

Definition set_buckets b t := MkTables b (cas_blobs t) (objects t) (uploads t) (parts t) (idem t) (next_bucket t) (next_object t).
Definition set_cas c t := MkTables (buckets t) c (objects t) (uploads t) (parts t) (idem t) (next_bucket t) (next_object t).
Definition set_objects o t := MkTables (buckets t) (cas_blobs t) o (uploads t) (parts t) (idem t) (next_bucket t) (next_object t).
Definition set_uploads u t := MkTables (buckets t) (cas_blobs t) (objects t) u (parts t) (idem t) (next_bucket t) (next_object t).
Definition set_parts p t := MkTables (buckets t) (cas_blobs t) (objects t) (uploads t) p (idem t) (next_bucket t) (next_object t).
Definition set_idem i t := MkTables (buckets t) (cas_blobs t) (objects t) (uploads t) (parts t) i (next_bucket t) (next_object t).
Definition set_counters b o t := MkTables (buckets t) (cas_blobs t) (objects t) (uploads t) (parts t) (idem t) b o.

Definition empty_tables : Tables := MkTables ∅ ∅ ∅ ∅ ∅ ∅ 1 1.

(** ** Statements *)

Inductive Stmt : Type :=
  (** START TRANSACTION, COMMIT, ROLLBACK *)
  | StartTransaction
  | CommitStmt
  | RollbackStmt
  (** INSERT INTO buckets(name) VALUES('..') *)
  | InsertBucket (name : string)
  (** SELECT id, name, created_at FROM buckets WHERE name='..' LIMIT 1; WHERE
      id=.. LIMIT 1; ORDER BY name *)
  | SelectBucketByName (name : string)
  | SelectBucketById (id : Z)
  | SelectBuckets
  (** DELETE FROM buckets WHERE name='..' *)
  | DeleteBucketRow (name : string)
  (** SELECT COUNT( * ) FROM objects WHERE bucket_id=.. *)
  | CountBucketObjects (id : Z)
  (** INSERT INTO objects(bucket_id, object_key, cas_key, size, content_type, etag)
      VALUES(..), without and with ON DUPLICATE KEY UPDATE cas_key=VALUES(cas_key),
      size=VALUES(size), content_type=VALUES(content_type), etag=VALUES(etag) *)
  | InsertObject (bucket : Z) (key cas : string) (size : Z) (ctype etag : string)
  | UpsertObject (bucket : Z) (key cas : string) (size : Z) (ctype etag : string)
  (** SELECT id FROM objects WHERE bucket_id=.. AND object_key='..' LIMIT 1 *)
  | SelectObjectId (bucket : Z) (key : string)
  (** SELECT cas_key FROM objects WHERE bucket_id=.. AND object_key='..' FOR UPDATE *)
  | SelectObjectCas (bucket : Z) (key : string)
  (** SELECT id, bucket_id, object_key, cas_key, size, etag, content_type, created_at
      FROM objects WHERE bucket_id=.. AND object_key='..' LIMIT 1; or with
      object_key LIKE '..%', object_key > '..', ORDER BY object_key LIMIT .. *)
  | SelectObject (bucket : Z) (key : string)
  | SelectObjects (bucket : Z) (prefix start_after : option string) (limit : Z)
  (** DELETE FROM objects WHERE bucket_id=.. AND object_key='..' *)
  | DeleteObjectRow (bucket : Z) (key : string)
  (** INSERT INTO cas_blobs(cas_key, size, ref_count) VALUES('..', .., 1) ON DUPLICATE
      KEY UPDATE ref_count = ref_count + 1, updated_at=CURRENT_TIMESTAMP *)
  | InsertOrIncCas (cas : string) (size : Z)
  (** UPDATE cas_blobs SET ref_count = ref_count + 1, or IF(ref_count>0, ref_count-1, 0),
      updated_at=CURRENT_TIMESTAMP WHERE cas_key='..' *)
  | IncCas (cas : string)
  | DecCas (cas : string)
  (** SELECT ref_count FROM cas_blobs WHERE cas_key='..' LIMIT 1 / FOR UPDATE *)
  | SelectRefCount (cas : string) (for_update : bool)
  (** SELECT cas_key, size, ref_count, created_at, updated_at FROM cas_blobs WHERE
      cas_key='..' LIMIT 1; or WHERE ref_count = 0 AND updated_at < (NOW() -
      INTERVAL .. SECOND) ORDER BY updated_at LIMIT .. *)
  | SelectCas (cas : string)
  | SelectGarbage (min_age limit : Z)
  (** DELETE FROM cas_blobs WHERE cas_key='..' *)
  | DeleteCasRow (cas : string)
  (** SELECT COUNT( * ) FROM objects / multipart_parts WHERE cas_key='..' *)
  | CountObjectsByCas (cas : string)
  | CountPartsByCas (cas : string)
  (** INSERT INTO multipart_uploads(upload_id, bucket_id, object_key, content_type,
      expires_at) VALUES(..) *)
  | InsertUpload (uid : string) (bucket : Z) (key ctype expires : string)
  (** SELECT upload_id, bucket_id, object_key, content_type, created_at FROM
      multipart_uploads WHERE upload_id='..' LIMIT 1; or WHERE bucket_id=.. [AND
      object_key LIKE '..%'] ORDER BY created_at LIMIT .. *)
  | SelectUpload (uid : string)
  | SelectUploads (bucket : Z) (prefix : option string) (limit : Z)
  (** DELETE FROM multipart_uploads WHERE upload_id='..' *)
  | DeleteUploadRow (uid : string)
  (** INSERT INTO multipart_parts(upload_id, part_number, cas_key, size, etag) VALUES(..)
      ON DUPLICATE KEY UPDATE cas_key=VALUES(cas_key), size=VALUES(size), etag=VALUES(etag) *)
  | UpsertPart (uid : string) (number : Z) (cas : string) (size : Z) (etag : string)
  (** SELECT cas_key FROM multipart_parts WHERE upload_id='..' AND part_number=.. FOR UPDATE *)
  | SelectPartCas (uid : string) (number : Z)
  (** SELECT upload_id, part_number, cas_key, size, etag, created_at FROM multipart_parts
      WHERE upload_id='..' AND part_number > .. ORDER BY part_number LIMIT .. *)
  | SelectParts (uid : string) (marker limit : Z)
  (** SELECT idempotency_key, request_hash, response_status, response_body, created_at,
      expires_at FROM idempotency_records WHERE idempotency_key='..' LIMIT 1 *)
  | SelectIdem (key : string)
  (** INSERT INTO idempotency_records(..) VALUES(..) ON DUPLICATE KEY UPDATE of all but the key *)
  | UpsertIdem (key hash : string) (status : Z) (body expires : string)
  (** DELETE FROM idempotency_records WHERE expires_at < NOW() *)
  | DeleteExpiredIdem.

(** A fetched row: the text of each column, [None] for NULL. *)
Definition SqlRow : Type := list (option string).

(** Outcome of a statement on given tables: executed (new tables, result rows,
    affected rows, the values [mysql_insert_id] may take), refused for a duplicate
    key, or refused for another reason (foreign key, column range, LIMIT). *)
Inductive outcome : Type :=
  | Done (t : Tables) (rows : list SqlRow) (affected : Z) (ids : list Z)
  | Duplicate
  | Refused.

Definition str_leb (a b : string) : bool := String.leb a b.

Lemma compare_le_trans a b c :
  String.compare a b <> Gt -> String.compare b c <> Gt -> String.compare a c <> Gt.
Proof.
  revert b c. induction a as [|x a IH]; intros [|y b] [|z c]; cbn; try done.
  unfold Ascii.compare.
  destruct (N.compare_spec (N_of_ascii x) (N_of_ascii y)) as [E1|E1|E1];
    destruct (N.compare_spec (N_of_ascii y) (N_of_ascii z)) as [E2|E2|E2];
    destruct (N.compare_spec (N_of_ascii x) (N_of_ascii z)) as [E3|E3|E3];
    try done; try lia. apply IH.
Qed.

Lemma str_leb_spec a b : str_leb a b = true <-> String.compare a b <> Gt.
Proof. unfold str_leb, String.leb. by destruct (String.compare a b). Qed.

Lemma str_leb_trans a b c : str_leb a b = true -> str_leb b c = true -> str_leb a c = true.
Proof. rewrite !str_leb_spec. apply compare_le_trans. Qed.

Lemma str_leb_total a b : str_leb a b = true \/ str_leb b a = true.
Proof.
  rewrite !str_leb_spec. rewrite (String.compare_antisym a b).
  destruct (String.compare b a); cbn; auto.
Qed.

(** [ORDER BY]: a stable merge sort on a total preorder. *)
Definition order_by {A} (le : A -> A -> bool) (l : list A) : list A :=
  @merge_sort A (fun a b => le a b = true) (fun a b => decide (le a b = true)) l.

Lemma order_by_sorted {A} (le : A -> A -> bool) l :
  (forall x y z, le x y = true -> le y z = true -> le x z = true) ->
  (forall x y, le x y = true \/ le y x = true) ->
  StronglySorted (fun x y => le x y = true) (order_by le l).
Proof.
  intros Ht Hl. unfold order_by. apply @StronglySorted_merge_sort.
  - intros x y z. apply Ht.
  - intros x y. apply Hl.
Qed.

Lemma order_by_elem {A} (le : A -> A -> bool) l x : x ∈ order_by le l <-> x ∈ l.
Proof. unfold order_by. by rewrite merge_sort_Permutation. Qed.

(** Rows of a table that satisfy a test. *)
Definition rows_where {K} `{Countable K} {A} (p : A -> bool) (m : gmap K A) : list A :=
  filter (fun r => p r = true) (snd <$> map_to_list m).

Definition keep_where {K} `{Countable K} {A} (p : A -> bool) (m : gmap K A) : gmap K A :=
  filter (fun kv => p (snd kv) = true) m.

Definition count_where {K} `{Countable K} {A} (p : A -> bool) (m : gmap K A) : Z :=
  Z.of_nat (size (keep_where p m)).

Section counting.
Context {K : Type} `{Countable K} {A : Type}.
Implicit Types (p : A -> bool) (m : gmap K A).

Lemma count_empty p : count_where p (∅ : gmap K A) = 0.
Proof. unfold count_where, keep_where. by rewrite map_filter_empty, map_size_empty. Qed.

Lemma count_nonneg p m : 0 <= count_where p m.
Proof. unfold count_where. lia. Qed.

(** Counting a map with the entry [k] set aside. *)
Lemma count_insert p m k v :
  count_where p (<[k := v]> m) = count_where p (delete k m) + Z.b2z (p v).
Proof.
  unfold count_where, keep_where. rewrite <-insert_delete_eq.
  destruct (p v) eqn:E.
  - rewrite map_filter_insert_True, map_size_insert_None by
      (rewrite ?map_lookup_filter, ?lookup_delete_eq; done). cbn. lia.
  - rewrite map_filter_insert_False, delete_delete_eq by (cbn; congruence). cbn. lia.
Qed.

Lemma count_delete p m k v :
  m !! k = Some v -> count_where p m = count_where p (delete k m) + Z.b2z (p v).
Proof. intros E. rewrite <-count_insert. by rewrite insert_id. Qed.

Lemma count_delete_none m k : m !! k = None -> delete k m = m.
Proof. apply delete_id. Qed.

Lemma count_zero p m : count_where p m = 0 <-> forall k v, m !! k = Some v -> p v = false.
Proof.
  unfold count_where, keep_where. split.
  - intros E k v Hk. destruct (p v) eqn:Ep; [|done]. exfalso.
    assert (Hs : filter (fun kv : K * A => p (snd kv) = true) m = ∅).
    { apply map_size_empty_inv. lia. }
    assert (Hl : filter (fun kv : K * A => p (snd kv) = true) m !! k = Some v)
      by (apply map_lookup_filter_Some; auto).
    by rewrite Hs, lookup_empty in Hl.
  - intros E. assert (Hs : filter (fun kv : K * A => p (snd kv) = true) m = ∅).
    { apply map_empty. intros k. apply map_lookup_filter_None. right.
      intros v Hk. cbn. rewrite (E k v Hk). done. }
    rewrite Hs, map_size_empty. done.
Qed.

Lemma count_ext p q m :
  (forall k v, m !! k = Some v -> p v = q v) -> count_where p m = count_where q m.
Proof.
  intros E. unfold count_where, keep_where. do 2 f_equal.
  apply map_filter_ext. intros k v Hk. cbn. by rewrite (E k v Hk).
Qed.
End counting.

Section semantics.
Context `{Collation, Calendar}.

(** [a = b] of the collation. *)
Definition sql_eq (a b : string) : bool := String.eqb (coll a) (coll b).

(** [object_key > start] and [ORDER BY object_key]. *)
Definition sql_leb (a b : string) : bool := str_leb (coll a) (coll b).
Definition sql_gt (a b : string) : bool := negb (sql_leb a b).

Definition bucket_exists (t : Tables) (id : Z) : bool :=
  negb (count_where (fun r => Z.eqb (br_id r) id) (buckets t) =? 0).

Definition cas_exists (t : Tables) (c : string) : bool :=
  bool_decide (is_Some (cas_blobs t !! coll c)).

(** Rows that reference a content key. *)
Definition object_refs (t : Tables) (c : string) : Z :=
  count_where (fun r => sql_eq (or_cas r) c) (objects t).
Definition part_refs (t : Tables) (c : string) : Z :=
  count_where (fun r => sql_eq (pr_cas r) c) (parts t).

(** The row [WHERE bucket_id=b AND object_key='k'] selects. *)
Definition find_object (t : Tables) (b : Z) (k : string) : option ObjectRow :=
  match objects t !! (b, uk255 k) with
  | Some r => if sql_eq (or_key r) k then Some r else None
  | None => None
  end.

Definition kMaxU32 : Z := 4294967296.

(** A column of [n] characters takes the text: in strict mode, the server's default,
    a longer one and one that is not of the character set are errors. (Surplus
    trailing spaces, which the server cuts off instead, count here.) *)
Definition fits (n : Z) (s : string) : bool :=
  match char_count s with Some c => c <=? n | None => false end.

(** A TEXT column: at most 65535 bytes. *)
Definition fits_text (s : string) : bool :=
  bool_decide (is_Some (char_count s)) && (Z.of_nat (String.length s) <=? 65535).

(** Effects of the statements that change a table. *)
Definition exec_insert_bucket (now : Z) (t : Tables) (name : string) : outcome :=
  if negb (fits 63 name) then Refused
  else match buckets t !! coll name with
  | Some _ => Duplicate
  | None =>
      let id := next_bucket t in
      Done (set_counters (id + 1) (next_object t)
              (set_buckets (<[coll name := MkBucketRow id name now]> (buckets t)) t)) [] 1 [id]
  end.

(** ON DELETE CASCADE reaches the objects and uploads of the bucket and the
    parts of those uploads. *)
Definition exec_delete_bucket (t : Tables) (name : string) : outcome :=
  match buckets t !! coll name with
  | None => Done t [] 0 [0]
  | Some row =>
      let gone u := match uploads t !! coll u with
                    | Some ur => Z.eqb (ur_bucket ur) (br_id row) | None => false end in
      Done (set_parts (keep_where (fun r => negb (gone (pr_upload r))) (parts t))
             (set_uploads (keep_where (fun r => negb (Z.eqb (ur_bucket r) (br_id row))) (uploads t))
               (set_objects (keep_where (fun r => negb (Z.eqb (or_bucket r) (br_id row))) (objects t))
                 (set_buckets (delete (coll name) (buckets t)) t)))) [] 1 [0]
  end.

Definition exec_insert_object (now : Z) (t : Tables) (upsert : bool) (b : Z)
    (k cas : string) (size : Z) (ctype etag : string) : outcome :=
  if negb (bucket_exists t b && cas_exists t cas && (0 <=? size) && fits 1024 k && fits 64 cas
           && fits 255 ctype && fits 64 etag) then Refused
  else match objects t !! (b, uk255 k) with
  | None =>
      let id := next_object t in
      Done (set_counters (next_bucket t) (id + 1)
              (set_objects (<[(b, uk255 k) := MkObjectRow id b k cas size ctype etag now]> (objects t)) t))
        [] 1 [id]
  | Some r =>
      if upsert
      then Done (set_objects (<[(b, uk255 k) := MkObjectRow (or_id r) (or_bucket r) (or_key r) cas
                                   size ctype etag (or_created r)]> (objects t)) t)
             [] 2 [0; or_id r]
      else Duplicate
  end.

Definition exec_delete_object (t : Tables) (b : Z) (k : string) : outcome :=
  match find_object t b k with
  | Some _ => Done (set_objects (delete (b, uk255 k) (objects t)) t) [] 1 [0]
  | None => Done t [] 0 [0]
  end.

(** Changes the count of a blob: [INT UNSIGNED], and only a row that really
    changes counts as affected. *)
Definition exec_set_ref (now : Z) (t : Tables) (cas : string) (r : CasRow) (n : Z) : outcome :=
  if kMaxU32 <=? n then Refused
  else
    let same := Z.eqb n (cr_ref r) && Z.eqb now (cr_updated r) in
    Done (set_cas (<[coll cas := MkCasRow (cr_key r) (cr_size r) n (cr_created r) now]>
                     (cas_blobs t)) t) [] (if same then 0 else 1) [0].

Definition exec_inc_or_insert (now : Z) (t : Tables) (cas : string) (size : Z) : outcome :=
  if negb ((0 <=? size) && fits 64 cas) then Refused
  else match cas_blobs t !! coll cas with
  | None => Done (set_cas (<[coll cas := MkCasRow cas size 1 now now]> (cas_blobs t)) t) [] 1 [0]
  | Some r => exec_set_ref now t cas r (cr_ref r + 1)
  end.

Definition exec_delete_cas (t : Tables) (cas : string) : outcome :=
  match cas_blobs t !! coll cas with
  | None => Done t [] 0 [0]
  | Some _ =>
      if (object_refs t cas =? 0) && (part_refs t cas =? 0)
      then Done (set_cas (delete (coll cas) (cas_blobs t)) t) [] 1 [0]
      else Refused
  end.

Definition exec_delete_upload (t : Tables) (uid : string) : outcome :=
  match uploads t !! coll uid with
  | None => Done t [] 0 [0]
  | Some _ =>
      Done (set_parts (keep_where (fun r => negb (sql_eq (pr_upload r) uid)) (parts t))
              (set_uploads (delete (coll uid) (uploads t)) t)) [] 1 [0]
  end.

Definition exec_upsert_part (now : Z) (t : Tables) (uid : string) (n : Z) (cas : string)
    (size : Z) (etag : string) : outcome :=
  if negb (bool_decide (is_Some (uploads t !! coll uid)) && cas_exists t cas
           && (0 <=? size) && (0 <=? n) && (n <? kMaxU32) && fits 36 uid && fits 64 cas
           && fits 64 etag) then Refused
  else match parts t !! (coll uid, n) with
  | None => Done (set_parts (<[(coll uid, n) := MkPartRow uid n cas size etag now]> (parts t)) t) [] 1 [0]
  | Some r =>
      Done (set_parts (<[(coll uid, n) := MkPartRow (pr_upload r) n cas size etag (pr_created r)]>
                         (parts t)) t) [] 2 [0]
  end.

(** ** Result rows *)
Definition num (z : Z) : option string := Some (to_string z).
Definition bucket_text (r : BucketRow) : SqlRow := [num (br_id r); Some (br_name r); Some (ts_text (br_created r))].
Definition object_text (r : ObjectRow) : SqlRow :=
  [num (or_id r); num (or_bucket r); Some (or_key r); Some (or_cas r); num (or_size r);
   Some (or_etag r); Some (or_type r); Some (ts_text (or_created r))].
Definition cas_text (r : CasRow) : SqlRow :=
  [Some (cr_key r); num (cr_size r); num (cr_ref r); Some (ts_text (cr_created r));
   Some (ts_text (cr_updated r))].
Definition upload_text (r : UploadRow) : SqlRow :=
  [Some (ur_id r); num (ur_bucket r); Some (ur_key r); Some (ur_type r); Some (ts_text (ur_created r))].
Definition part_text (r : PartRow) : SqlRow :=
  [Some (pr_upload r); num (pr_number r); Some (pr_cas r); num (pr_size r); Some (pr_etag r);
   Some (ts_text (pr_created r))].
Definition idem_text (r : IdemRow) : SqlRow :=
  [Some (ir_key r); Some (ir_hash r); num (ir_status r); Some (ir_body r);
   Some (ts_text (ir_created r)); Some (ts_text (ir_expires r))].

(** [LIMIT n] of a list of rows. *)
Definition limited (t : Tables) (n : Z) (rows : list SqlRow) : outcome :=
  if n <? 0 then Refused else Done t (take (Z.to_nat n) rows) 0 [0].

Definition rows_of (t : Tables) (rows : list SqlRow) : outcome := Done t rows 0 [0].

Definition opt_rows {A} (f : A -> SqlRow) (o : option A) : list SqlRow :=
  match o with Some r => [f r] | None => [] end.

Definition prefix_test (prefix : option string) (k : string) : bool :=
  match prefix with Some p => like (p +:+ "%") k | None => true end.
Definition start_test (start : option string) (k : string) : bool :=
  match start with Some s => sql_gt k s | None => true end.

(** The objects a listing selects, in key order. *)
Definition listed_objects (t : Tables) (b : Z) (prefix start : option string) : list ObjectRow :=
  order_by (fun x y => sql_leb (or_key x) (or_key y))
    (rows_where (fun r => Z.eqb (or_bucket r) b && prefix_test prefix (or_key r)
                          && start_test start (or_key r)) (objects t)).

Definition listed_parts (t : Tables) (uid : string) (marker : Z) : list PartRow :=
  order_by (fun x y => pr_number x <=? pr_number y)
    (rows_where (fun r => sql_eq (pr_upload r) uid && (marker <? pr_number r)) (parts t)).

(** The statement on the tables [t] when the server clock shows [now]. The
    transaction statements act on the session and change no table. *)
Definition exec_stmt (now : Z) (t : Tables) (st : Stmt) : outcome :=
  match st with
  | StartTransaction | CommitStmt | RollbackStmt => Done t [] 0 [0]
  | InsertBucket name => exec_insert_bucket now t name
  | SelectBucketByName name => rows_of t (opt_rows bucket_text (buckets t !! coll name))
  | SelectBucketById id =>
      rows_of t (take 1 (bucket_text <$> rows_where (fun r => Z.eqb (br_id r) id) (buckets t)))
  | SelectBuckets =>
      rows_of t (bucket_text <$> order_by (fun x y => sql_leb (br_name x) (br_name y))
                                   (rows_where (fun _ => true) (buckets t)))
  | DeleteBucketRow name => exec_delete_bucket t name
  | CountBucketObjects id =>
      rows_of t [[num (count_where (fun r => Z.eqb (or_bucket r) id) (objects t))]]
  | InsertObject b k c s ct e => exec_insert_object now t false b k c s ct e
  | UpsertObject b k c s ct e => exec_insert_object now t true b k c s ct e
  | SelectObjectId b k => rows_of t (opt_rows (fun r => [num (or_id r)]) (find_object t b k))
  | SelectObjectCas b k => rows_of t (opt_rows (fun r => [Some (or_cas r)]) (find_object t b k))
  | SelectObject b k => rows_of t (opt_rows object_text (find_object t b k))
  | SelectObjects b prefix start n => limited t n (object_text <$> listed_objects t b prefix start)
  | DeleteObjectRow b k => exec_delete_object t b k
  | InsertOrIncCas c s => exec_inc_or_insert now t c s
  | IncCas c =>
      match cas_blobs t !! coll c with
      | Some r => exec_set_ref now t c r (cr_ref r + 1)
      | None => Done t [] 0 [0]
      end
  | DecCas c =>
      match cas_blobs t !! coll c with
      | Some r => exec_set_ref now t c r (if 0 <? cr_ref r then cr_ref r - 1 else 0)
      | None => Done t [] 0 [0]
      end
  | SelectRefCount c _ =>
      rows_of t (opt_rows (fun r => [num (cr_ref r)]) (cas_blobs t !! coll c))
  | SelectCas c => rows_of t (opt_rows cas_text (cas_blobs t !! coll c))
  | SelectGarbage age n =>
      limited t n (cas_text <$> order_by (fun x y => cr_updated x <=? cr_updated y)
        (rows_where (fun r => Z.eqb (cr_ref r) 0 && (cr_updated r <? now - age)) (cas_blobs t)))
  | DeleteCasRow c => exec_delete_cas t c
  | CountObjectsByCas c => rows_of t [[num (object_refs t c)]]
  | CountPartsByCas c => rows_of t [[num (part_refs t c)]]
  | InsertUpload uid b k ct expires =>
      match uploads t !! coll uid, ts_read expires with
      | Some _, _ => Duplicate
      | None, Some e =>
          if bucket_exists t b && fits 36 uid && fits 1024 k && fits 255 ct
          then Done (set_uploads (<[coll uid := MkUploadRow uid b k ct now e]> (uploads t)) t) [] 1 [0]
          else Refused
      | None, None => Refused
      end
  | SelectUpload uid => rows_of t (opt_rows upload_text (uploads t !! coll uid))
  | SelectUploads b prefix n =>
      limited t n (upload_text <$> order_by (fun x y => ur_created x <=? ur_created y)
        (rows_where (fun r => Z.eqb (ur_bucket r) b && prefix_test prefix (ur_key r)) (uploads t)))
  | DeleteUploadRow uid => exec_delete_upload t uid
  | UpsertPart uid n c s e => exec_upsert_part now t uid n c s e
  | SelectPartCas uid n => rows_of t (opt_rows (fun r => [Some (pr_cas r)]) (parts t !! (coll uid, n)))
  | SelectParts uid marker n => limited t n (part_text <$> listed_parts t uid marker)
  | SelectIdem k => rows_of t (opt_rows idem_text (idem t !! coll k))
  | UpsertIdem k h st body expires =>
      match ts_read expires with
      | None => Refused
      | Some e =>
          if negb (fits 64 k && fits 64 h && fits_text body) then Refused
          else let row := match idem t !! coll k with
                     | Some r => MkIdemRow (ir_key r) h st body (ir_created r) e
                     | None => MkIdemRow k h st body now e
                     end in
          Done (set_idem (<[coll k := row]> (idem t)) t) [] 1 [0]
      end
  | DeleteExpiredIdem =>
      Done (set_idem (keep_where (fun r => negb (ir_expires r <? now)) (idem t)) t) []
        (count_where (fun r => ir_expires r <? now) (idem t)) [0]
  end.
End semantics.

(** ** The server *)

(** What a client sees of a statement. *)
Inductive Reply : Type :=
  | ROk (rows : list SqlRow) (affected insert_id : Z)
  | RErr (message : string).

Definition IsRetryableTxnError (err : string) : bool :=
  str_contains "Deadlock found" err || str_contains "Lock wait timeout exceeded" err.

Definition IsDuplicateKeyError (err : string) : bool := str_contains "Duplicate entry" err.

(** A MySQL server seen through one session: the committed tables, the tables
    of the open transaction if there is one, the server clock and the effect of a
    statement. *)
Class MySQL : Type := {
  srv : Type;
  db_tables : srv -> Tables;
  db_tx : srv -> option Tables;
  db_clock : srv -> Z;
  db_run : srv -> Stmt -> Reply * srv
}.

(** The tables the session sees. *)
Definition db_view `{MySQL} (s : srv) : Tables := default (db_tables s) (db_tx s).

Definition is_tx_stmt (st : Stmt) : bool :=
  match st with StartTransaction | CommitStmt | RollbackStmt => true | _ => false end.

(** Documented behaviour of InnoDB the program relies on: a statement that
    succeeds has the effect of the schema, inside the transaction when one is
    open; a statement that fails has no effect, or, on a deadlock or a lost
    connection, rolls the transaction back; COMMIT publishes the transaction or,
    when it fails, may have done so or not, but never after a retryable error;
    ROLLBACK drops it, the server does so too when the connection is lost. *)
Class MySQLLaws `{Collation, Calendar, MySQL} : Prop := {
  run_stmt_ok s st s' rows aff id :
    is_tx_stmt st = false -> db_run s st = (ROk rows aff id, s') ->
    exists t' ids, exec_stmt (db_clock s) (db_view s) st = Done t' rows aff ids /\ id ∈ ids /\
      match db_tx s with
      | None => db_tables s' = t' /\ db_tx s' = None
      | Some _ => db_tables s' = db_tables s /\ db_tx s' = Some t'
      end;
  run_stmt_err s st s' e :
    is_tx_stmt st = false -> db_run s st = (RErr e, s') ->
    db_tables s' = db_tables s /\ (db_tx s' = db_tx s \/ db_tx s' = None) /\
    (IsDuplicateKeyError e = true ->
       exec_stmt (db_clock s) (db_view s) st = Duplicate /\ db_tx s' = db_tx s);
  run_start s r s' :
    db_tx s = None -> db_run s StartTransaction = (r, s') ->
    db_tables s' = db_tables s /\
    match r with ROk _ _ _ => db_tx s' = Some (db_tables s) | RErr _ => db_tx s' = None end;
  run_commit s r s' :
    db_run s CommitStmt = (r, s') ->
    db_tx s' = None /\
    match r with
    | ROk _ _ _ => db_tables s' = db_view s
    | RErr e => db_tables s' = db_tables s \/
                (db_tables s' = db_view s /\ IsRetryableTxnError e = false)
    end;
  run_rollback s r s' :
    db_run s RollbackStmt = (r, s') -> db_tx s' = None /\ db_tables s' = db_tables s
}.

(** The states a session gets to by statements. *)
Definition ran `{MySQL} (s s' : srv) : Prop := exists st, s' = snd (db_run s st).
Definition later `{MySQL} : srv -> srv -> Prop := rtc ran.

(** From [s] on the session accepts START TRANSACTION. Not a law: the constructor of
    Transaction ignores a refusal and its statements then commit one by one, so what
    an operation of several statements promises is a promise for the sessions, and
    the runs, in which this does not happen. Any other statement may fail. *)
Definition starts `{MySQL} (s : srv) : Prop := forall s', later s s' ->
  exists rows aff id s2, db_run s' StartTransaction = (ROk rows aff id, s2).

Lemma starts_later `{MySQL} (s s' : srv) : later s s' -> starts s -> starts s'.
Proof. intros Hl Hs s2 Hl2. apply Hs. by transitivity s'. Qed.

Lemma later_refl `{MySQL} (s : srv) : later s s.
Proof. apply rtc_refl. Qed.

Lemma later_run `{MySQL} (s : srv) st r s' : db_run s st = (r, s') -> later s s'.
Proof. intros E. apply rtc_once. exists st. by rewrite E. Qed.

(** A server without faults: every statement the schema accepts succeeds, and a
    duplicate key is reported as such. [calm] states hold for as long as the
    session is undisturbed. *)
Class CalmServer `{Collation, Calendar, MySQL} : Type := {
  calm : srv -> Prop;
  calm_run s st r s' : calm s -> db_run s st = (r, s') -> calm s' /\
    match exec_stmt (db_clock s) (db_view s) st with
    | Done _ _ _ _ => exists rows aff id, r = ROk rows aff id
    | Duplicate => exists e, r = RErr e /\ IsDuplicateKeyError e = true
    | Refused => exists e, r = RErr e /\ IsRetryableTxnError e = false
    end
}.
