(* ===== verification/MySQLTx.v ===== *)
(** * Connections and transactions (src/src/db/mysql_tx.h, .cpp; the
    connection wrapper of src/src/db/mysql_pool.cpp)

    The state a metadata operation works on, the RAII connection and transaction
    objects as combinators that run their destructor on every exit, and the
    reasoning rules for code that throws. *)
From S2P Require Import Prelude Status Sql.

Open Scope Z_scope.

(** ** Collaborators of the metadata store *)

(** The connection pool: a request either yields a connection or a null
    pointer. *)
Class ConnPool : Type := {
  pool : Type;
  pool_get : pool -> bool * pool;
  pool_put : pool -> pool
}.

(** The RedisCache object of util/redis_cache.h; [Get] may throw. *)
Class Redis : Type := {
  redis : Type;
  redis_enabled : redis -> bool;
  redis_ttl : redis -> Z;
  redis_get : string -> redis -> exn (Result (option string)) * redis;
  redis_setex : string -> Z -> string -> redis -> Status * redis;
  redis_del : string -> redis -> Status * redis
}.

(** What a cache promises between two operations ([cache_ok]): it does not throw
    and it returns, for a key, an entry it has ([cached]); entries disappear at
    any time, and come only from [redis_setex]. *)
Class RedisLaws `{Redis} : Type := {
  cache_ok : redis -> Prop;
  cached : redis -> gmap string string;
  law_get k r : cache_ok r ->
    let '(x, r') := redis_get k r in
    cache_ok r' /\ cached r' ⊆ cached r /\
    exists res, x = Ret res /\ forall v, res = Ok (Some v) -> cached r !! k = Some v;
  law_setex k ttl v r : cache_ok r ->
    let '(_, r') := redis_setex k ttl v r in
    cache_ok r' /\ forall k' v', cached r' !! k' = Some v' -> cached r !! k' = Some v' \/ (k' = k /\ v' = v);
  law_del k r : cache_ok r ->
    let '(_, r') := redis_del k r in cache_ok r' /\ cached r' ⊆ cached r
}.

Record BucketInfo : Type := MkBucketInfo {
  bi_id : Z; bi_name : string; bi_owner_id : string; bi_region : string; bi_acl : string;
  bi_versioning_enabled : bool; bi_created_at : Z; bi_updated_at : Z }.

(** The metadata store object with everything it reaches: the server session,
    the pool, the in-process bucket cache, the optional Redis cache and the
    process clock. *)
Record MetaW `{MySQL, ConnPool, Redis} : Type := MkMeta {
  m_srv : srv;
  m_pool : pool;
  bucket_cache_ : gmap string BucketInfo;
  redis_cache_ : option redis;
  m_now : Z
}.

Section world.
Context `{MySQL, ConnPool, Redis}.

Definition set_srv (s : srv) (w : MetaW) : MetaW :=
  MkMeta _ _ _ s (m_pool w) (bucket_cache_ w) (redis_cache_ w) (m_now w).
Definition set_pool (p : pool) (w : MetaW) : MetaW :=
  MkMeta _ _ _ (m_srv w) p (bucket_cache_ w) (redis_cache_ w) (m_now w).
Definition set_cache (c : gmap string BucketInfo) (w : MetaW) : MetaW :=
  MkMeta _ _ _ (m_srv w) (m_pool w) c (redis_cache_ w) (m_now w).
Definition set_redis (r : option redis) (w : MetaW) : MetaW :=
  MkMeta _ _ _ (m_srv w) (m_pool w) (bucket_cache_ w) r (m_now w).
End world.

Notation MM A := (M MetaW A).

(** A transaction object in scope: the world and its [finished_] flag. *)
Notation Tx A := (M (MetaW * bool) A).

Section connections.
Context `{MySQL, ConnPool, Redis}.

Definition get_world : MM MetaW := fun w => (Ret w, w).
Definition put_world (f : MetaW -> MetaW) : MM unit := fun w => (Ret tt, f w).

(** [MySQLConnection::Execute] and [Query]: the reply carries what
    [AffectedRows], [LastInsertId], [mysql_fetch_row] and [LastError] read. *)
Definition conn_run (st : Stmt) : MM Reply := fun w =>
  let '(r, s) := db_run (m_srv w) st in (Ret r, set_srv s w).

(** [auto conn = pool_.GetConnection(); if (!conn) return nul; ..]: the
    connection goes back to the pool when the scope is left. *)
Definition with_conn {A} (nul : A) (body : MM A) : MM A := fun w =>
  let '(ok, p) := pool_get (m_pool w) in
  if ok then
    let '(r, w') := body (set_pool p w) in (r, set_pool (pool_put (m_pool w')) w')
  else (Ret nul, set_pool p w).

(** [Transaction::Execute] and [Query]. *)
Definition tx_run (st : Stmt) : Tx Reply := fun '(w, finished) =>
  if finished : bool then (Ret (RErr ""), (w, finished))
  else let '(r, w') := conn_run st w in (r, (w', finished)).

(** [Transaction::Commit]: [None] when it returns true, else the error the
    connection reports. *)
Definition Commit : Tx (option string) := fun '(w, finished) =>
  if finished : bool then (Ret (Some ""), (w, finished))
  else match conn_run CommitStmt w with
       | (Ret (ROk _ _ _), w') => (Ret None, (w', true))
       | (Ret (RErr e), w') => (Ret (Some e), (w', true))
       | (Throw e, w') => (Throw e, (w', true))
       end.

(** [Transaction::Rollback]. *)
Definition Rollback : Tx unit := fun '(w, finished) =>
  if finished : bool then (Ret tt, (w, finished))
  else let '(_, w') := conn_run RollbackStmt w in (Ret tt, (w', true)).

(** [Transaction tx(conn); body]: the constructor starts the transaction and
    only logs when that fails; the destructor rolls an unfinished one back. *)
Definition transaction {A} (body : Tx A) : MM A := fun w =>
  let '(_, w1) := conn_run StartTransaction w in
  let '(r, st) := body (w1, false) in
  let '(_, (w3, _)) := Rollback st in
  (r, w3).

(** A call that does not touch the transaction. *)
Definition in_tx {A} (m : MM A) : Tx A := fun '(w, f) =>
  let '(r, w') := m w in (r, (w', f)).

(** [TransactionScope::Execute]: an exception of the action is caught. *)
Definition TransactionScope_Execute (action : Tx bool) : MM (bool * string) :=
  with_conn (false, "Failed to acquire connection from pool") (fun w =>
    let scope : MM (bool * string) := transaction (
      done_ ← action;
      if negb done_ then mret (false, "Transaction action returned false")
      else
        c ← Commit;
        match c with
        | Some _ => mret (false, "Failed to commit transaction")
        | None => mret (true, "")
        end) in
    match scope w with
    | (Throw e, w') => (Ret (false, "Transaction exception: " +:+ e), w')
    | res => res
    end).

(** [for (attempt = 0; attempt < kMaxRetries; ++attempt)]: a body either goes
    on to the next attempt or returns. *)
Inductive flow (A : Type) : Type :=
  | Continue
  | Return (a : A).
Arguments Continue {A}.
Arguments Return {A} a.

Fixpoint retry {A} (n : nat) (attempt : Z) (body : Z -> MM (flow A)) (exhausted : A) : MM A :=
  match n with
  | O => mret exhausted
  | S n' =>
      r ← body attempt;
      match r with
      | Continue => retry n' (attempt + 1) body exhausted
      | Return a => mret a
      end
  end.
End connections.
Arguments Continue {A}.
Arguments Return {A} a.

(** ** Sessions *)

(** An operation reaches the server by statements alone. *)
Section runs.
Context `{MySQL, ConnPool, Redis}.

Definition runs {A} (op : MM A) : Prop := forall w, later (m_srv w) (m_srv (snd (op w))).
Definition runs_tx {A} (op : Tx A) : Prop := forall w f, later (m_srv w) (m_srv (fst (snd (op (w, f))))).

Lemma runs_ret {A} (a : A) : runs (mret a).
Proof. intros w. apply later_refl. Qed.
Lemma runs_lift {A} (r : exn A) : runs (lift_exn r).
Proof. intros w. apply later_refl. Qed.
Lemma runs_get : runs get_world.
Proof. intros w. apply later_refl. Qed.
Lemma runs_put f : (forall w, m_srv (f w) = m_srv w) -> runs (put_world f).
Proof. intros Hf w. cbn. rewrite Hf. apply later_refl. Qed.
Lemma runs_conn st : runs (conn_run st).
Proof. intros w. unfold conn_run. destruct (db_run (m_srv w) st) eqn:E. by eapply later_run. Qed.
Lemma runs_bind {A B} (op : MM A) (k : A -> MM B) : runs op -> (forall a, runs (k a)) -> runs (op ≫= k).
Proof.
  intros Ho Hk w. unfold mbind, M_bind. specialize (Ho w). destruct (op w) as [[a|e] w']; [|done].
  etransitivity; [exact Ho|apply Hk].
Qed.
Lemma runs_with_conn {A} (nul : A) body : runs body -> runs (with_conn nul body).
Proof.
  intros Hb w. unfold with_conn. destruct (pool_get (m_pool w)) as [[] p]; [|apply later_refl].
  specialize (Hb (set_pool p w)). by destruct (body (set_pool p w)).
Qed.

Lemma runs_tx_ret {A} (a : A) : runs_tx (mret a).
Proof. intros w f. apply later_refl. Qed.
Lemma runs_tx_lift {A} (r : exn A) : runs_tx (lift_exn r).
Proof. intros w f. apply later_refl. Qed.
Lemma runs_tx_bind {A B} (op : Tx A) (k : A -> Tx B) : runs_tx op -> (forall a, runs_tx (k a)) -> runs_tx (op ≫= k).
Proof.
  intros Ho Hk w f. unfold mbind, M_bind. specialize (Ho w f). destruct (op (w, f)) as [[a|e] [w' f']]; [|done].
  etransitivity; [exact Ho|apply Hk].
Qed.
Lemma runs_tx_run st : runs_tx (tx_run st).
Proof.
  intros w []; [apply later_refl|]. cbn. pose proof (runs_conn st w) as Hr. by destruct (conn_run st w).
Qed.
Lemma runs_in_tx {A} (m : MM A) : runs m -> runs_tx (in_tx m).
Proof. intros Hm w f. cbn. specialize (Hm w). by destruct (m w). Qed.
Lemma runs_Commit : runs_tx Commit.
Proof.
  intros w []; [apply later_refl|]. cbn. pose proof (runs_conn CommitStmt w) as Hr.
  by destruct (conn_run CommitStmt w) as [[[]|] ?].
Qed.
Lemma runs_Rollback : runs_tx Rollback.
Proof.
  intros w []; [apply later_refl|]. cbn. pose proof (runs_conn RollbackStmt w) as Hr.
  by destruct (conn_run RollbackStmt w).
Qed.
Lemma runs_transaction {A} (body : Tx A) : runs_tx body -> runs (transaction body).
Proof.
  intros Hb w. unfold transaction. pose proof (runs_conn StartTransaction w) as Hs.
  destruct (conn_run StartTransaction w) as [x w1]. specialize (Hb w1 false).
  destruct (body (w1, false)) as [r [w2 f]]. pose proof (runs_Rollback w2 f) as Hr.
  destruct (Rollback (w2, f)) as [y [w3 g]]. cbn in *. etransitivity; [exact Hs|]. by etransitivity.
Qed.
Lemma runs_retry {A} n attempt (body : Z -> MM (flow A)) exhausted :
  (forall a, runs (body a)) -> runs (retry n attempt body exhausted).
Proof.
  intros Hb. revert attempt. induction n as [|n IH]; intros attempt; [apply runs_ret|].
  apply runs_bind; [apply Hb|]. intros [|a]; [apply IH|apply runs_ret].
Qed.

Lemma wp_runs {A} (op : MM A) Q w :
  runs op -> wp op Q w -> wp op (fun r w' => Q r w' /\ later (m_srv w) (m_srv w')) w.
Proof. intros Hr Hq. split; [exact Hq|apply Hr]. Qed.
End runs.

#[export] Hint Resolve runs_ret runs_lift runs_get runs_conn runs_tx_ret runs_tx_lift runs_tx_run runs_Commit : minis3.

(** Splits an operation into its statements. *)
Ltac runs_tac :=
  repeat first
    [ solve [auto with minis3]
    | apply runs_with_conn | apply runs_transaction | apply runs_retry; intros ?
    | apply runs_bind; [|intros ?] | apply runs_tx_bind; [|intros ?] | apply runs_in_tx
    | solve [apply runs_put; intros ?; reflexivity]
    | case_match ].

Section tx_rules.
Context `{Collation, Calendar, MySQL, ConnPool, Redis} `{!MySQLLaws}.
Implicit Types w : MetaW.

(** The parts of the world a statement leaves alone. *)
Definition same_rest w w' : Prop :=
  m_pool w' = m_pool w /\ bucket_cache_ w' = bucket_cache_ w /\
  redis_cache_ w' = redis_cache_ w /\ m_now w' = m_now w /\ later (m_srv w) (m_srv w').

Definition committed w : Tables := db_tables (m_srv w).
Definition open_tx w : option Tables := db_tx (m_srv w).

Lemma same_rest_srv st r s w : db_run (m_srv w) st = (r, s) -> same_rest w (set_srv s w).
Proof. intros E. split_and!; try done. by eapply later_run. Qed.

(** A statement inside the open transaction [T] over the committed tables [T0]. *)
Lemma wp_tx_run st T0 T (Q : exn Reply -> MetaW * bool -> Prop) w :
  is_tx_stmt st = false -> committed w = T0 -> open_tx w = Some T ->
  (forall w' t' rows aff id ids, same_rest w w' ->
     exec_stmt (db_clock (m_srv w)) T st = Done t' rows aff ids -> id ∈ ids ->
     committed w' = T0 -> open_tx w' = Some t' -> Q (Ret (ROk rows aff id)) (w', false)) ->
  (forall w' e, same_rest w w' -> committed w' = T0 ->
     (open_tx w' = Some T \/ open_tx w' = None) ->
     (IsDuplicateKeyError e = true -> exec_stmt (db_clock (m_srv w)) T st = Duplicate) ->
     Q (Ret (RErr e)) (w', false)) ->
  wp (tx_run st) Q (w, false).
Proof.
  intros Hst Hc Ho Hok Herr. unfold wp, tx_run, conn_run.
  destruct (db_run (m_srv w) st) as [[rows aff id|e] s'] eqn:E; cbn.
  - destruct (run_stmt_ok _ _ _ _ _ _ Hst E) as (t' & ids & He & Hid & Htx).
    unfold db_view, open_tx, committed in *. rewrite Ho in Htx, He. destruct Htx.
    eapply Hok; eauto using same_rest_srv. cbn. congruence.
  - destruct (run_stmt_err _ _ _ _ Hst E) as (D1 & D2 & D3).
    unfold db_view, open_tx, committed in *. rewrite Ho in D2, D3.
    apply Herr; cbn; eauto using same_rest_srv; [congruence|]. intros Hd. by apply D3.
Qed.

Lemma wp_commit T0 T (Q : exn (option string) -> MetaW * bool -> Prop) w :
  committed w = T0 -> default T0 (open_tx w) = T ->
  (forall w', same_rest w w' -> committed w' = T -> open_tx w' = None -> Q (Ret None) (w', true)) ->
  (forall w' e, same_rest w w' ->
     (committed w' = T0 \/ (committed w' = T /\ IsRetryableTxnError e = false)) ->
     open_tx w' = None -> Q (Ret (Some e)) (w', true)) ->
  wp Commit Q (w, false).
Proof.
  intros Hc Ho Hok Herr. unfold wp, Commit, conn_run.
  destruct (db_run (m_srv w) CommitStmt) as [[rows aff id|e] s'] eqn:E; cbn;
    destruct (run_commit _ _ _ E) as [D1 D2];
    unfold committed, open_tx, db_view in *.
  - apply Hok; cbn; eauto using same_rest_srv. by rewrite D2, Hc, Ho.
  - apply Herr; cbn; eauto using same_rest_srv. rewrite Hc, Ho in D2. done.
Qed.

(** The scope of a transaction object: the body runs on the committed tables,
    and whatever it leaves open is rolled back. *)
Lemma wp_transaction {A} (body : Tx A) T0 (Q : exn A -> MetaW -> Prop) w :
  starts (m_srv w) -> committed w = T0 -> open_tx w = None ->
  (forall w1, same_rest w w1 -> committed w1 = T0 -> open_tx w1 = Some T0 ->
     wp body (fun r '(w2, f) =>
       forall w3, same_rest w2 w3 -> committed w3 = committed w2 ->
         (if f : bool then w3 = w2 else open_tx w3 = None) -> Q r w3) (w1, false)) ->
  wp (transaction body) Q w.
Proof.
  intros Hs Hc Ho Hbody. unfold wp, transaction, conn_run.
  destruct (Hs _ (later_refl _)) as (rows & aff & id & s & E). rewrite E.
  destruct (run_start _ _ _ Ho E) as [D1 D2]. unfold committed, open_tx in *.
  specialize (Hbody (set_srv s w) (same_rest_srv _ _ _ _ E)). cbn in Hbody.
  rewrite D1, D2, Hc in Hbody. specialize (Hbody eq_refl eq_refl). unfold wp in Hbody.
  destruct (body (set_srv s w, false)) as [r [w2 []]] eqn:Eb; cbn in *.
  - by apply Hbody.
  - unfold conn_run. destruct (db_run (m_srv w2) RollbackStmt) as [r2 s2] eqn:E2. cbn.
    destruct (run_rollback _ _ _ E2) as [D3 D4].
    apply Hbody; eauto using same_rest_srv.
Qed.

(** A statement in autocommit mode. *)
Lemma wp_conn_run st (Q : exn Reply -> MetaW -> Prop) w :
  is_tx_stmt st = false -> open_tx w = None ->
  (forall w' t' rows aff id ids, same_rest w w' ->
     exec_stmt (db_clock (m_srv w)) (committed w) st = Done t' rows aff ids -> id ∈ ids ->
     committed w' = t' -> open_tx w' = None -> Q (Ret (ROk rows aff id)) w') ->
  (forall w' e, same_rest w w' -> committed w' = committed w -> open_tx w' = None ->
     (IsDuplicateKeyError e = true -> exec_stmt (db_clock (m_srv w)) (committed w) st = Duplicate) ->
     Q (Ret (RErr e)) w') ->
  wp (conn_run st) Q w.
Proof.
  intros Hst Ho Hok Herr. unfold wp, conn_run, committed, open_tx in *.
  destruct (db_run (m_srv w) st) as [[rows aff id|e] s'] eqn:E; cbn.
  - destruct (run_stmt_ok _ _ _ _ _ _ Hst E) as (t' & ids & He & Hid & Htx).
    unfold db_view in *. rewrite Ho in Htx, He. destruct Htx.
    eapply Hok; eauto using same_rest_srv.
  - destruct (run_stmt_err _ _ _ _ Hst E) as (D1 & D2 & D3).
    unfold db_view in *. rewrite Ho in D2, D3.
    apply Herr; cbn; eauto using same_rest_srv; [by destruct D2|]. intros Hd. by apply D3.
Qed.

Lemma wp_with_conn {A} (nul : A) (body : MM A) (Q : exn A -> MetaW -> Prop) w :
  (forall p, Q (Ret nul) (set_pool p w)) ->
  (forall p, wp body (fun r w' => forall p', Q r (set_pool p' w')) (set_pool p w)) ->
  wp (with_conn nul body) Q w.
Proof.
  intros Hn Hb. unfold wp, with_conn. destruct (pool_get (m_pool w)) as [[] p]; [|apply Hn].
  specialize (Hb p). unfold wp in Hb. destruct (body (set_pool p w)) as [r w']. apply Hb.
Qed.
End tx_rules.

(** ** Rules in terms of the committed tables *)

(** What a transaction body has to establish: a finished transaction is closed,
    and the result [r] suits the tables committed so far. *)
Definition tx_done `{MySQL, ConnPool, Redis} {A} (Q : exn A -> Tables -> Prop)
    (r : exn A) (st : MetaW * bool) : Prop :=
  (snd st = true -> open_tx (fst st) = None) /\ Q r (committed (fst st)).

(** What an operation establishes: no transaction is left open. *)
Definition db_done `{MySQL, ConnPool, Redis} {A} (Q : exn A -> Tables -> Prop)
    (r : exn A) (w : MetaW) : Prop :=
  open_tx w = None /\ Q r (committed w).

(** A computation that leaves the database alone. *)
Definition no_db `{MySQL, ConnPool, Redis} {A} (m : MM A) : Prop :=
  forall w, m_srv (snd (m w)) = m_srv w.

Section table_rules.
Context `{Collation, Calendar, MySQL, ConnPool, Redis} `{!MySQLLaws}.
Implicit Types w : MetaW.

Lemma wp_transaction_tables {A} (body : Tx A) T0 Q w :
  starts (m_srv w) -> committed w = T0 -> open_tx w = None ->
  (forall w1, committed w1 = T0 -> open_tx w1 = Some T0 -> wp body (tx_done Q) (w1, false)) ->
  wp (transaction body) (db_done Q) w.
Proof.
  intros Hs Hc Ho Hb. apply (wp_transaction _ T0); [done..|]. intros w1 _ D1 D2.
  eapply wp_mono; [by apply Hb|]. intros r [w2 f] [E1 E2] w3 _ D3 D4. unfold db_done. cbn in *.
  rewrite D3. split; [|done]. destruct f; [|done]. subst w3. by apply E1.
Qed.

(** A statement of a body: a successful one goes on with the new tables of the
    transaction, a failed one with an error and nothing committed. *)
Lemma wp_stmt {A} st T0 T (Q : exn A -> Tables -> Prop) (k : Reply -> Tx A) w :
  is_tx_stmt st = false -> committed w = T0 -> open_tx w = Some T ->
  (forall w' t' rows aff id ids, exec_stmt (db_clock (m_srv w)) T st = Done t' rows aff ids ->
     id ∈ ids -> committed w' = T0 -> open_tx w' = Some t' ->
     wp (k (ROk rows aff id)) (tx_done Q) (w', false)) ->
  (forall w' e, committed w' = T0 ->
     (IsDuplicateKeyError e = true -> exec_stmt (db_clock (m_srv w)) T st = Duplicate) ->
     wp (k (RErr e)) (tx_done Q) (w', false)) ->
  wp (tx_run st ≫= k) (tx_done Q) (w, false).
Proof.
  intros Hst Hc Ho Hok Herr. apply wp_bind.
  eapply wp_tx_run; [done..| |]; cbn; eauto.
Qed.

Lemma wp_commit_then {A} T0 T (Q : exn A -> Tables -> Prop) (k : option string -> Tx A) w :
  committed w = T0 -> open_tx w = Some T ->
  (forall w', committed w' = T -> open_tx w' = None -> wp (k None) (tx_done Q) (w', true)) ->
  (forall w' e, (committed w' = T0 \/ (committed w' = T /\ IsRetryableTxnError e = false)) ->
     open_tx w' = None -> wp (k (Some e)) (tx_done Q) (w', true)) ->
  wp (Commit ≫= k) (tx_done Q) (w, false).
Proof.
  intros Hc Ho Hok Herr. apply wp_bind.
  eapply wp_commit; [done|by rewrite Ho| |]; cbn; eauto.
Qed.

Lemma wp_in_tx_no_db {A B} (m : MM A) (Q : exn B -> Tables -> Prop) (k : A -> Tx B) w :
  no_db m ->
  (forall a w', committed w' = committed w -> open_tx w' = open_tx w ->
     wp (k a) (tx_done Q) (w', true)) ->
  (forall e, Q (Throw e) (committed w)) -> open_tx w = None ->
  wp (in_tx m ≫= k) (tx_done Q) (w, true).
Proof.
  intros Hm Hk Ht Ho. apply wp_bind. unfold wp at 1, in_tx. specialize (Hm w).
  destruct (m w) as [[a|e] w']; cbn in *.
  - apply Hk; unfold committed, open_tx; congruence.
  - unfold tx_done, committed, open_tx in *. cbn. rewrite Hm. auto.
Qed.

Lemma wp_with_conn_tables {A} (nul : A) (body : MM A) Q w :
  open_tx w = None -> Q (Ret nul) (committed w) ->
  (forall w1, m_srv w1 = m_srv w -> committed w1 = committed w -> open_tx w1 = None -> wp body (db_done Q) w1) ->
  wp (with_conn nul body) (db_done Q) w.
Proof.
  intros Ho Hn Hb. apply wp_with_conn; intros p; [done|].
  eapply wp_mono; [by apply Hb|]. intros r w' Hd p'. apply Hd.
Qed.

(** Retrying: an attempt that goes on has committed nothing. *)
Lemma wp_retry {A} n attempt (body : Z -> MM (flow A)) exhausted (Q : exn A -> Tables -> Prop) T0 w :
  starts (m_srv w) -> (forall a, runs (body a)) ->
  committed w = T0 -> open_tx w = None -> Q (Ret exhausted) T0 ->
  (forall a w1, starts (m_srv w1) -> committed w1 = T0 -> open_tx w1 = None ->
     wp (body a) (db_done (fun r T => match r with
       | Ret Continue => T = T0
       | Ret (Return x) => Q (Ret x) T
       | Throw e => Q (Throw e) T
       end)) w1) ->
  wp (retry n attempt body exhausted) (db_done Q) w.
Proof.
  intros Hs Hr Hc Ho Hx Hb. revert attempt w Hs Hc Ho. induction n as [|n IH]; intros attempt w Hs Hc Ho; cbn.
  { apply wp_ret. split; [done|]. by rewrite Hc. }
  apply wp_bind. eapply wp_mono; [apply wp_runs; [apply Hr|by apply (Hb attempt)]|].
  intros [[|a]|e] w' [[D1 D2] D3]; cbn in *; [apply IH; by eauto using starts_later|by split|by split].
Qed.
End table_rules.

(** ** An undisturbed server *)

Section calm_rules.
Context `{Collation, Calendar, MySQL, ConnPool, Redis} `{!MySQLLaws} `{!CalmServer}.
Implicit Types w : MetaW.

Definition calm_in (T0 T : Tables) w : Prop :=
  calm (m_srv w) /\ committed w = T0 /\ open_tx w = Some T.

(** The schema accepts the statement, at any time. *)
Definition accepts (st : Stmt) (T : Tables) : Prop :=
  forall now, exists T' rows aff ids, exec_stmt now T st = Done T' rows aff ids.

Lemma calm_stmt {A} st T0 T (Q : exn A -> MetaW * bool -> Prop) (k : Reply -> Tx A) w :
  is_tx_stmt st = false -> calm_in T0 T w -> accepts st T ->
  (forall w' now T' rows aff id ids, exec_stmt now T st = Done T' rows aff ids ->
     calm_in T0 T' w' -> same_rest w w' -> wp (k (ROk rows aff id)) Q (w', false)) ->
  wp (tx_run st ≫= k) Q (w, false).
Proof.
  intros Hst (Hcalm & Hc & Ho) Hacc Hk. apply wp_bind. unfold wp at 1, tx_run, conn_run.
  destruct (db_run (m_srv w) st) as [r s'] eqn:E. cbn.
  destruct (calm_run _ _ _ _ Hcalm E) as [Hcalm' Hr].
  assert (Hv : db_view (m_srv w) = T) by (unfold db_view, open_tx in *; by rewrite Ho).
  rewrite Hv in Hr. destruct (Hacc (db_clock (m_srv w))) as (T' & rows & aff & ids & Ex).
  rewrite Ex in Hr. destruct Hr as (rows' & aff' & id & ->).
  destruct (run_stmt_ok _ _ _ _ _ _ Hst E) as (T2 & ids2 & Ex2 & Hid & Htx).
  rewrite Hv, Ex in Ex2. injection Ex2 as <- <- <- <-.
  unfold open_tx, committed in *. rewrite Ho in Htx. destruct Htx as [D1 D2].
  eapply Hk; [exact Ex| |by eapply same_rest_srv]. split; [done|].
  unfold committed, open_tx. split; cbn; congruence.
Qed.

Lemma calm_duplicate {A} st T0 T (Q : exn A -> MetaW * bool -> Prop) (k : Reply -> Tx A) w :
  is_tx_stmt st = false -> calm_in T0 T w -> (forall now, exec_stmt now T st = Duplicate) ->
  (forall w' e, IsDuplicateKeyError e = true -> calm_in T0 T w' -> same_rest w w' ->
     wp (k (RErr e)) Q (w', false)) ->
  wp (tx_run st ≫= k) Q (w, false).
Proof.
  intros Hst (Hcalm & Hc & Ho) Hdup Hk. apply wp_bind. unfold wp at 1, tx_run, conn_run.
  destruct (db_run (m_srv w) st) as [r s'] eqn:E. cbn.
  destruct (calm_run _ _ _ _ Hcalm E) as [Hcalm' Hr].
  assert (Hv : db_view (m_srv w) = T) by (unfold db_view, open_tx in *; by rewrite Ho).
  rewrite Hv, Hdup in Hr. destruct Hr as (e & -> & He).
  destruct (run_stmt_err _ _ _ _ Hst E) as (D1 & _ & D2). destruct (D2 He) as [_ D3].
  apply Hk; [done| |by eapply same_rest_srv]. unfold open_tx, committed in *.
  split; [done|].
  unfold committed, open_tx. split; cbn; congruence.
Qed.

Lemma calm_commit {A} T0 T (Q : exn A -> MetaW * bool -> Prop) (k : option string -> Tx A) w :
  calm_in T0 T w ->
  (forall w', calm (m_srv w') -> committed w' = T -> open_tx w' = None -> same_rest w w' ->
     wp (k None) Q (w', true)) ->
  wp (Commit ≫= k) Q (w, false).
Proof.
  intros (Hcalm & Hc & Ho) Hk. apply wp_bind. unfold wp at 1, Commit, conn_run.
  destruct (db_run (m_srv w) CommitStmt) as [r s'] eqn:E.
  destruct (calm_run _ _ _ _ Hcalm E) as [Hcalm' (rows & aff & id & ->)]. cbn.
  destruct (run_commit _ _ _ E) as [D1 D2]. unfold db_view, open_tx, committed in *.
  rewrite Ho in D2. apply Hk; cbn; eauto using same_rest_srv.
Qed.

Lemma calm_transaction {A} (body : Tx A) T0 (Q : exn A -> MetaW -> Prop) w :
  calm (m_srv w) -> committed w = T0 -> open_tx w = None ->
  (forall w1, calm_in T0 T0 w1 -> same_rest w w1 ->
     wp body (fun r st => calm (m_srv (fst st)) /\ (snd st = true -> open_tx (fst st) = None) /\
       forall w3, calm (m_srv w3) -> committed w3 = committed (fst st) -> open_tx w3 = None ->
         same_rest (fst st) w3 -> Q r w3) (w1, false)) ->
  wp (transaction body) Q w.
Proof.
  intros Hcalm Hc Ho Hb. unfold wp, transaction, conn_run.
  destruct (db_run (m_srv w) StartTransaction) as [r s'] eqn:E.
  destruct (calm_run _ _ _ _ Hcalm E) as [Hcalm' (rows & aff & id & ->)].
  destruct (run_start _ _ _ Ho E) as [D1 D2]. unfold committed, open_tx in *. cbn in D2.
  specialize (Hb (set_srv s' w)). unfold wp in Hb.
  destruct (body (set_srv s' w, false)) as [r [w2 f]] eqn:Eb. cbn in *.
  destruct Hb as (B1 & B2 & B3); [split; [done|]; unfold committed, open_tx; cbn; split; congruence|by eapply same_rest_srv|].
  destruct f; cbn.
  - apply B3; auto. by split_and!.
  - unfold conn_run. destruct (db_run (m_srv w2) RollbackStmt) as [r2 s2] eqn:E2. cbn.
    destruct (run_rollback _ _ _ E2) as [D3 D4]. destruct (calm_run _ _ _ _ B1 E2) as [D5 _].
    apply B3; eauto using same_rest_srv.
Qed.
End calm_rules.
