(* ===== verification/MySQLPool.v ===== *)
(** * The pool of database connections (src/src/db/mysql_pool.h, .cpp)

    The pool's operations run under its mutex and are functions; what the server
    answers to a ping and to a connection attempt comes with the call. The threads
    that use the pool are a step relation: taking, waiting on the condition
    variable, timing out, returning, closing, in any interleaving. *)
From S2P Require Import Prelude.

Open Scope Z_scope.

(** ** Connections *)

(** An object with its name; [mysql_] tells whether it has a handle. *)
Record MySQLConnection : Type := MkConnection { conn_name : nat; mysql_ : bool }.

Definition new_connection (name : nat) : MySQLConnection := MkConnection name false.

(** [Connect]: the handle, or none when the server refuses. *)
Definition Connect (accepts : bool) (c : MySQLConnection) : bool * MySQLConnection :=
  (accepts, MkConnection (conn_name c) accepts).

Definition Disconnect (c : MySQLConnection) : MySQLConnection := MkConnection (conn_name c) false.

Definition IsValid (c : MySQLConnection) : bool := mysql_ c.

Definition Ping (alive : bool) (c : MySQLConnection) : bool := mysql_ c && alive.

(** ** The pool *)

(** [connections_] from its front; [next_name_] names the next object. *)
Record MySQLPool : Type := MkPool {
  pool_size_ : nat;
  closed_ : bool;
  connections_ : list MySQLConnection;
  active_count_ : Z;
  next_name_ : nat
}.

Definition new_pool (pool_size : nat) : MySQLPool := MkPool pool_size false [] 0 0.

Definition set_queue (q : list MySQLConnection) (active : Z) (next : nat) (p : MySQLPool) : MySQLPool :=
  MkPool (pool_size_ p) (closed_ p) q active next.

(** The loop of [Init], [n] connections to go; the server accepts those named
    by [accepts]. *)
Fixpoint init_loop (n : nat) (accepts : nat -> bool) (p : MySQLPool) : bool * MySQLPool :=
  match n with
  | O => (true, p)
  | S n =>
      let '(ok, c) := Connect (accepts (next_name_ p)) (new_connection (next_name_ p)) in
      let p := set_queue (connections_ p) (active_count_ p) (S (next_name_ p)) p in
      if ok then init_loop n accepts (set_queue (connections_ p ++ [c]) (active_count_ p) (next_name_ p) p)
      else (false, p)
  end.

Definition Init (accepts : nat -> bool) (p : MySQLPool) : bool * MySQLPool :=
  init_loop (pool_size_ p) accepts p.

Definition Close (p : MySQLPool) : MySQLPool :=
  MkPool (pool_size_ p) true [] (active_count_ p) (next_name_ p).

(** [closed_ || !connections_.empty()]. *)
Definition wait_predicate (p : MySQLPool) : bool :=
  closed_ p || negb (bool_decide (connections_ p = [])).

(** The end of [GetConnection], after the wait: a connection that does not answer
    is connected again, and dropped when that fails. *)
Definition take_connection (alive accepts : bool) (p : MySQLPool) : option MySQLConnection * MySQLPool :=
  if closed_ p then (None, p)
  else match connections_ p with
  | [] => (None, p)
  | c :: q =>
      let '(ok, c) := if Ping alive c then (true, c) else Connect accepts c in
      if ok then (Some c, set_queue q (active_count_ p + 1) (next_name_ p) p)
      else (None, set_queue q (active_count_ p) (next_name_ p) p)
  end.

(** [CreateConnection] makes a connection of its own, which goes to the queue
    when its holder is done with it; nothing calls it. *)
Definition CreateConnection (accepts : bool) (p : MySQLPool) : option MySQLConnection * MySQLPool :=
  let '(ok, c) := Connect accepts (new_connection (next_name_ p)) in
  (if ok then Some c else None, set_queue (connections_ p) (active_count_ p) (S (next_name_ p)) p).

(** [ReturnConnection]: whether a waiting thread is notified, and the pool. *)
Definition ReturnConnection (alive accepts : bool) (c : MySQLConnection) (p : MySQLPool) : bool * MySQLPool :=
  if closed_ p then (false, p)
  else if Ping alive c
  then (true, set_queue (connections_ p ++ [c]) (active_count_ p - 1) (next_name_ p) p)
  else
    let '(ok, c) := Connect accepts (new_connection (next_name_ p)) in
    if ok then (true, set_queue (connections_ p ++ [c]) (active_count_ p - 1) (S (next_name_ p)) p)
    else (false, set_queue (connections_ p) (active_count_ p - 1) (S (next_name_ p)) p).

Definition AvailableCount (p : MySQLPool) : nat := length (connections_ p).

(** ** The threads *)

(** The threads asleep on [cv_], those awake but not yet running, each with
    whether its wait is timed, the connections that are lent, and the calls of
    [Close] that have released the mutex and not yet notified. *)
Record System : Type := MkSystem {
  sy_pool : MySQLPool;
  sy_asleep : list (nat * bool);
  sy_awake : list (nat * bool);
  sy_lent : list (nat * MySQLConnection);
  sy_notify : nat
}.

(** [GetConnection] once the predicate holds: the thread has its connection or
    its null pointer. *)
Definition proceed (t : nat) (alive accepts : bool) (asleep awake : list (nat * bool)) (s : System) : System :=
  let '(o, p) := take_connection alive accepts (sy_pool s) in
  MkSystem p asleep awake (match o with Some c => (t, c) :: sy_lent s | None => sy_lent s end) (sy_notify s).

(** [notify_one] wakes one of the threads asleep, if there are any. *)
Inductive notify_one : list (nat * bool) -> list (nat * bool) -> list (nat * bool) -> list (nat * bool) -> Prop :=
  | notify_nobody awake : notify_one [] awake [] awake
  | notify_somebody l1 t l2 awake : notify_one (l1 ++ t :: l2) awake (l1 ++ l2) (t :: awake).

Inductive pool_step : System -> System -> Prop :=
  | step_get_closed s : closed_ (sy_pool s) = true -> pool_step s s
  | step_get_now t alive accepts s :
      closed_ (sy_pool s) = false -> wait_predicate (sy_pool s) = true ->
      pool_step s (proceed t alive accepts (sy_asleep s) (sy_awake s) s)
  | step_get_waits t timed s :
      wait_predicate (sy_pool s) = false ->
      pool_step s (MkSystem (sy_pool s) ((t, timed) :: sy_asleep s) (sy_awake s) (sy_lent s) (sy_notify s))
  | step_runs t timed l1 l2 alive accepts s :
      sy_awake s = l1 ++ (t, timed) :: l2 -> wait_predicate (sy_pool s) = true ->
      pool_step s (proceed t alive accepts (sy_asleep s) (l1 ++ l2) s)
  | step_sleeps_again t timed l1 l2 s :
      sy_awake s = l1 ++ (t, timed) :: l2 -> wait_predicate (sy_pool s) = false ->
      pool_step s (MkSystem (sy_pool s) ((t, timed) :: sy_asleep s) (l1 ++ l2) (sy_lent s) (sy_notify s))
  | step_spurious t timed l1 l2 s :
      sy_asleep s = l1 ++ (t, timed) :: l2 ->
      pool_step s (MkSystem (sy_pool s) (l1 ++ l2) ((t, timed) :: sy_awake s) (sy_lent s) (sy_notify s))
  | step_timeout_asleep t l1 l2 s :
      sy_asleep s = l1 ++ (t, true) :: l2 -> wait_predicate (sy_pool s) = false ->
      pool_step s (MkSystem (sy_pool s) (l1 ++ l2) (sy_awake s) (sy_lent s) (sy_notify s))
  | step_timeout_late t l1 l2 alive accepts s :
      sy_asleep s = l1 ++ (t, true) :: l2 -> wait_predicate (sy_pool s) = true ->
      pool_step s (proceed t alive accepts (l1 ++ l2) (sy_awake s) s)
  | step_timeout_awake t l1 l2 s :
      sy_awake s = l1 ++ (t, true) :: l2 -> wait_predicate (sy_pool s) = false ->
      pool_step s (MkSystem (sy_pool s) (sy_asleep s) (l1 ++ l2) (sy_lent s) (sy_notify s))
  | step_return t c l1 l2 alive accepts notified p asleep awake s :
      sy_lent s = l1 ++ (t, c) :: l2 -> ReturnConnection alive accepts c (sy_pool s) = (notified, p) ->
      (if notified : bool then notify_one (sy_asleep s) (sy_awake s) asleep awake
       else asleep = sy_asleep s /\ awake = sy_awake s) ->
      pool_step s (MkSystem p asleep awake (l1 ++ l2) (sy_notify s))
  | step_close s :
      pool_step s (MkSystem (Close (sy_pool s)) (sy_asleep s) (sy_awake s) (sy_lent s) (S (sy_notify s)))
  | step_notify_all k s :
      sy_notify s = S k ->
      pool_step s (MkSystem (sy_pool s) [] (sy_asleep s ++ sy_awake s) (sy_lent s) k).

(** A pool that nobody uses yet, and one that [Init] has filled. *)
Definition idle (p : MySQLPool) : System := MkSystem p [] [] [] 0.

Definition started (n : nat) (accepts : nat -> bool) : System := idle (snd (Init accepts (new_pool n))).

(** ** The invariant *)

Definition names (s : System) : list nat :=
  (conn_name <$> connections_ (sy_pool s)) ++ (conn_name ∘ snd <$> sy_lent s).

Record pool_ok (n : nat) (s : System) : Prop := MkPoolOk {
  po_names : NoDup (names s);
  po_fresh : Forall (fun k => (k < next_name_ (sy_pool s))%nat) (names s);
  po_size : (length (connections_ (sy_pool s)) + length (sy_lent s) <= n)%nat;
  po_valid : Forall (fun tc => IsValid (snd tc) = true) (sy_lent s);
  po_active : closed_ (sy_pool s) = false -> active_count_ (sy_pool s) = Z.of_nat (length (sy_lent s));
  po_closed : closed_ (sy_pool s) = true -> 
    connections_ (sy_pool s) = [] /\ (sy_asleep s = [] \/ (0 < sy_notify s)%nat);
  po_wake : sy_asleep s = [] \/ (length (connections_ (sy_pool s)) <= length (sy_awake s))%nat
}.

Lemma connect_name accepts c : conn_name (snd (Connect accepts c)) = conn_name c.
Proof. done. Qed.

Lemma wait_predicate_false p : wait_predicate p = false -> closed_ p = false /\ connections_ p = [].
Proof.
  unfold wait_predicate. intros [H1 H2]%orb_false_iff. split; [done|].
  apply negb_false_iff, bool_decide_eq_true in H2. done.
Qed.

(** What a thread takes off the queue. *)
Lemma take_spec alive accepts p :
  match take_connection alive accepts p with
  | (Some c, p') => closed_ p = false /\ exists c0 q, connections_ p = c0 :: q /\ conn_name c = conn_name c0 /\
      IsValid c = true /\ p' = set_queue q (active_count_ p + 1) (next_name_ p) p
  | (None, p') => (p' = p /\ (closed_ p = true \/ connections_ p = [])) \/
      exists c0 q, closed_ p = false /\ connections_ p = c0 :: q /\ p' = set_queue q (active_count_ p) (next_name_ p) p
  end.
Proof.
  unfold take_connection. destruct (closed_ p); [auto|]. destruct (connections_ p) as [|c q] eqn:E; [auto|].
  destruct (Ping alive c) eqn:Hp.
  - split; [done|]. exists c, q. split_and!; [done..| |done]. by apply andb_true_iff in Hp as [? _].
  - destruct accepts; cbn; [|right; by exists c, q]. split; [done|]. by exists c, q.
Qed.

Lemma proceed_ok n s t alive accepts asleep awake :
  pool_ok n s -> (closed_ (sy_pool s) = true -> asleep = [] \/ (0 < sy_notify s)%nat) ->
  (asleep = [] \/ (length (connections_ (sy_pool s)) <= S (length awake))%nat) ->
  pool_ok n (proceed t alive accepts asleep awake s).
Proof.
  intros [H1 H2 H3 H4 H5 H6 H7] Hc Hw. unfold proceed. pose proof (take_spec alive accepts (sy_pool s)) as Ht.
  destruct (take_connection alive accepts (sy_pool s)) as [[c|] p'].
  - destruct Ht as (Hcl & c0 & q & Eq & En & Hv & ->). unfold names in *. rewrite Eq in H1, H2, H3, Hw.
    assert (Hperm : (conn_name <$> c0 :: q) ++ (conn_name ∘ snd <$> sy_lent s) ≡ₚ
      (conn_name <$> q) ++ (conn_name ∘ snd <$> (t, c) :: sy_lent s)) by (cbn; rewrite En; apply Permutation_middle).
    split; unfold names; cbn [sy_pool sy_lent sy_asleep sy_awake set_queue connections_ closed_ active_count_ next_name_];
      [by rewrite <-Hperm|by rewrite <-Hperm| | | | |].
    + cbn in *. lia.
    + by constructor.
    + intros _. rewrite (H5 Hcl). cbn [length]. lia.
    + by rewrite Hcl.
    + destruct Hw as [->|Hw]; [by left|right]. cbn in Hw. lia.
  - destruct Ht as [[-> He]|(c0 & q & Hcl & Eq & ->)].
    + split; try done; cbn; [intros Hcl; split; [by apply H6|by apply Hc]|].
      right. destruct He as [He|He]; [destruct (H6 He) as [He' _]; rewrite He'|rewrite He]; cbn; lia.
    + unfold names in *. rewrite Eq in H1, H2, H3, Hw. cbn in H1, H2.
      split; unfold names; cbn; [by inversion H1|by inversion H2| |done|done|by rewrite Hcl|].
      * cbn in H3. lia.
      * destruct Hw as [->|Hw]; [by left|right]. cbn in Hw. lia.
Qed.

Lemma notify_cases asleep awake asleep' awake' :
  notify_one asleep awake asleep' awake' ->
  asleep' = [] \/ (asleep <> [] /\ (length awake' = S (length awake))%nat).
Proof. destruct 1; [by left|right]. split; [by destruct l1|done]. Qed.

(** What a returned connection leaves. *)
Lemma return_spec alive accepts c p :
  match ReturnConnection alive accepts c p with
  | (true, p') => closed_ p = false /\ exists c' next, p' = set_queue (connections_ p ++ [c']) (active_count_ p - 1) next p /\
      ((conn_name c' = conn_name c /\ next = next_name_ p) \/ (conn_name c' = next_name_ p /\ next = S (next_name_ p)))
  | (false, p') => (closed_ p = true /\ p' = p) \/
      (closed_ p = false /\ p' = set_queue (connections_ p) (active_count_ p - 1) (S (next_name_ p)) p)
  end.
Proof.
  unfold ReturnConnection. destruct (closed_ p); [auto|]. destruct (Ping alive c).
  - split; [done|]. exists c, (next_name_ p). auto.
  - destruct accepts; cbn; [|auto]. split; [done|]. eexists _, _. split; [done|]. auto.
Qed.

Lemma return_ok n s t c l1 l2 alive accepts notified p asleep awake :
  pool_ok n s -> sy_lent s = l1 ++ (t, c) :: l2 -> ReturnConnection alive accepts c (sy_pool s) = (notified, p) ->
  (if notified : bool then notify_one (sy_asleep s) (sy_awake s) asleep awake
   else asleep = sy_asleep s /\ awake = sy_awake s) ->
  pool_ok n (MkSystem p asleep awake (l1 ++ l2) (sy_notify s)).
Proof.
  intros [H1 H2 H3 H4 H5 H6 H7] El Er Hn. unfold names in *. rewrite El, <-Permutation_middle in H1, H2, H4.
  rewrite El, length_app in *. cbn [length fmap list_fmap compose snd] in *.
  rewrite <-Permutation_middle in H1, H2. apply NoDup_cons in H1 as [Hn1 H1]. apply Forall_cons in H2 as [Hn2 H2].
  apply Forall_cons in H4 as [_ H4]. pose proof (return_spec alive accepts c (sy_pool s)) as Hr. rewrite Er in Hr.
  destruct notified.
  - destruct Hr as (Hcl & c' & next & -> & Hname).
    assert (Hfresh : (conn_name c' ∉ (conn_name <$> connections_ (sy_pool s)) ++ (conn_name ∘ snd <$> l1 ++ l2)) /\
      (conn_name c' < next)%nat /\ (next_name_ (sy_pool s) <= next)%nat).
    { destruct Hname as [[-> ->]|[-> ->]]; [done|]. split; [|lia]. intros Hin.
      rewrite Forall_forall in H2. specialize (H2 _ Hin). lia. }
    destruct Hfresh as (F1 & F2 & F3).
    assert (Hnames : (conn_name <$> connections_ (sy_pool s) ++ [c']) ++ (conn_name ∘ snd <$> l1 ++ l2) ≡ₚ
      conn_name c' :: (conn_name <$> connections_ (sy_pool s)) ++ (conn_name ∘ snd <$> l1 ++ l2))
      by (rewrite fmap_app, <-app_assoc; symmetry; apply Permutation_middle).
    split; unfold names; cbn; rewrite ?Hnames, ?length_app; cbn.
    + by constructor.
    + constructor; [done|]. eapply Forall_impl; [exact H2|]. cbn. lia.
    + lia.
    + done.
    + intros _. rewrite (H5 Hcl). lia.
    + by rewrite Hcl.
    + destruct (notify_cases _ _ _ _ Hn) as [->|[Ha Hl]]; [by left|right]. destruct H7 as [H7|H7]; [done|lia].
  - destruct Hn as [-> ->]. destruct Hr as [[Hcl ->]|[Hcl ->]]; split; unfold names; cbn; rewrite ?length_app in *; try done; try lia.
    + by rewrite Hcl.
    + eapply Forall_impl; [exact H2|]. cbn. lia.
    + intros _. rewrite (H5 Hcl). lia.
Qed.

(** Threads that only move between the two lists. *)
Lemma moves_ok n s asleep awake :
  pool_ok n s -> (closed_ (sy_pool s) = true -> asleep = [] \/ (0 < sy_notify s)%nat) ->
  (asleep = [] \/ (length (connections_ (sy_pool s)) <= length awake)%nat) ->
  pool_ok n (MkSystem (sy_pool s) asleep awake (sy_lent s) (sy_notify s)).
Proof. intros [H1 H2 H3 H4 H5 H6 H7] Hc Hw. split; try done. intros Hcl. split; [by apply H6|by apply Hc]. Qed.

Lemma fewer_asleep n s l1 x l2 :
  pool_ok n s -> sy_asleep s = l1 ++ x :: l2 ->
  (closed_ (sy_pool s) = true -> l1 ++ l2 = [] \/ (0 < sy_notify s)%nat) /\
  (length (connections_ (sy_pool s)) <= length (sy_awake s))%nat.
Proof.
  intros [_ _ _ _ _ H6 H7] Ea. split.
  - intros Hcl. destruct (H6 Hcl) as [_ [H|H]]; [|by right]. rewrite H in Ea. by destruct l1.
  - destruct H7 as [H7|H7]; [|done]. rewrite H7 in Ea. by destruct l1.
Qed.

Lemma close_ok n s :
  pool_ok n s ->
  pool_ok n (MkSystem (Close (sy_pool s)) (sy_asleep s) (sy_awake s) (sy_lent s) (S (sy_notify s))).
Proof.
  intros [H1 H2 H3 H4 H5 H6 H7]. unfold names in *. apply NoDup_app in H1 as (_ & _ & H1).
  apply Forall_app in H2 as [_ H2]. split; unfold names; cbn; try done; try lia.
  intros _. split; [done|right; lia].
Qed.

Lemma step_ok n s s' : pool_ok n s -> pool_step s s' -> pool_ok n s'.
Proof.
  intros Hs Hstep. pose proof Hs as [H1 H2 H3 H4 H5 H6 H7]. destruct Hstep as
    [s Hcl|t alive accepts s Hcl Hp|t timed s Hp|t timed l1 l2 alive accepts s Ea Hp|t timed l1 l2 s Ea Hp
    |t timed l1 l2 s Ea|t l1 l2 s Ea Hp|t l1 l2 alive accepts s Ea Hp|t l1 l2 s Ea Hp
    |t c l1 l2 alive accepts notified p asleep awake s El Er Hn|s|k s Hk].
  - done.
  - apply proceed_ok; [done|by intros Hc; apply H6|]. destruct H7; [by left|right; lia].
  - apply wait_predicate_false in Hp as [Hcl Hq]. apply moves_ok; [done|by rewrite Hcl|right]. rewrite Hq. cbn. lia.
  - apply proceed_ok; [done|by intros Hc; apply H6|]. rewrite Ea, length_app in H7. cbn in H7. rewrite length_app.
    destruct H7; [by left|right; lia].
  - apply wait_predicate_false in Hp as [Hcl Hq]. apply moves_ok; [done|by rewrite Hcl|right]. rewrite Hq. cbn. lia.
  - destruct (fewer_asleep n _ _ _ _ Hs Ea) as [Hc Hq]. apply moves_ok; [done..|right]. cbn. lia.
  - destruct (fewer_asleep n _ _ _ _ Hs Ea) as [Hc Hq]. apply moves_ok; [done..|by right].
  - destruct (fewer_asleep n _ _ _ _ Hs Ea) as [Hc Hq]. apply proceed_ok; [done..|right; lia].
  - apply wait_predicate_false in Hp as [Hcl Hq]. apply moves_ok; [done|by rewrite Hcl|right]. rewrite Hq. cbn. lia.
  - by eapply return_ok.
  - by apply close_ok.
  - split; try done; cbn; [intros Hcl; split; [by apply H6|by left]|by left].
Qed.

(** ** [Init] *)


(** ** [Init] *)

Lemma push_ok n p :
  closed_ p = false -> pool_ok n (idle p) ->
  pool_ok (S n) (idle (set_queue (connections_ p ++ [MkConnection (next_name_ p) true]) (active_count_ p)
    (S (next_name_ p)) p)).
Proof.
  intros Hcl [H1 H2 H3 H4 H5 H6 H7]. unfold names in *. cbn in *. rewrite app_nil_r in *.
  split; unfold names; cbn; rewrite ?app_nil_r, ?fmap_app, ?length_app; cbn.
  - apply NoDup_app. split_and!; [done| |apply NoDup_singleton]. intros k Hk ->%list_elem_of_singleton.
    rewrite Forall_forall in H2. specialize (H2 _ Hk). lia.
  - apply Forall_app. split; [|by constructor; [lia|]]. eapply Forall_impl; [exact H2|]. cbn. lia.
  - lia.
  - done.
  - done.
  - by rewrite Hcl.
  - by left.
Qed.

Lemma init_loop_ok m accepts : forall n p,
  closed_ p = false -> pool_ok n (idle p) ->
  pool_ok (n + m) (idle (snd (init_loop m accepts p))) /\
  (fst (init_loop m accepts p) = true -> AvailableCount (snd (init_loop m accepts p)) = (AvailableCount p + m)%nat).
Proof.
  induction m as [|m IH]; intros n p Hcl Hp; cbn.
  - rewrite !Nat.add_0_r. done.
  - unfold Connect. destruct (accepts (next_name_ p)); cbn.
    + pose proof (push_ok n p Hcl Hp) as Hp'. apply IH in Hp' as [Hok Hlen]; [|exact Hcl]. rewrite Nat.add_succ_r. split; [done|].
      intros Hi. etransitivity; [exact (Hlen Hi)|]. unfold AvailableCount. cbn. rewrite length_app. cbn. lia.
    + split; [|done]. destruct Hp as [H1 H2 H3 H4 H5 H6 H7]. split; try done; cbn in *; [|lia].
      eapply Forall_impl; [exact H2|]. cbn. lia.
Qed.

Lemma new_pool_ok n : pool_ok 0 (idle (new_pool n)).
Proof. split; unfold names; cbn; auto using NoDup_nil_2. Qed.

Lemma started_ok n accepts : pool_ok n (started n accepts).
Proof. exact (proj1 (init_loop_ok n accepts 0 (new_pool n) eq_refl (new_pool_ok n))). Qed.

(** [Init] succeeds only with the configured number of connections. *)
Lemma init_fills n accepts :
  fst (Init accepts (new_pool n)) = true -> AvailableCount (snd (Init accepts (new_pool n))) = n.
Proof. exact (proj2 (init_loop_ok n accepts 0 (new_pool n) eq_refl (new_pool_ok n))). Qed.

Lemma reached_ok n accepts s : rtc pool_step (started n accepts) s -> pool_ok n s.
Proof.
  intros Hr. eapply (rtc_ind_r (pool_ok n)); [apply started_ok| |exact Hr]. intros s1 s2 _ Hst Hok. by eapply step_ok.
Qed.

(** C34. The pool of database connections, whatever the threads that take, wait,
    time out, return and close do, in any order, and however the server answers
    their pings and reconnections: no connection is both lent and queued, lent
    twice or queued twice; there are never more than the configured number; what
    is lent has a handle; while the pool is open [active_count_] is the number of
    connections lent; and no wake-up is lost: when threads sleep and none is on
    its way, there is nothing to take, and a closed pool still has a notification
    to send. *)
Theorem pool_sound n accepts s :
  rtc pool_step (started n accepts) s ->
  NoDup (names s) /\
  (AvailableCount (sy_pool s) + length (sy_lent s) <= n)%nat /\
  Forall (fun tc => IsValid (snd tc) = true) (sy_lent s) /\
  (closed_ (sy_pool s) = false -> active_count_ (sy_pool s) = Z.of_nat (length (sy_lent s))) /\
  (sy_asleep s <> [] -> sy_awake s = [] ->
    AvailableCount (sy_pool s) = 0%nat /\ (closed_ (sy_pool s) = true -> (0 < sy_notify s)%nat)).
Proof.
  intros [H1 H2 H3 H4 H5 H6 H7]%reached_ok. split_and!; [done..|]. intros Ha Hw. rewrite Hw in H7. cbn in H7.
  unfold AvailableCount. split; [destruct H7; [done|lia]|]. intros Hc. by destruct (H6 Hc) as [_ [?|?]].
Qed.

(** One connection, two threads: the second sleeps until the first returns it. *)
Lemma pool_sound_witness :
  exists s, sy_awake s = [(2%nat, false)] /\ AvailableCount (sy_pool s) = 1%nat /\ NoDup (names s).
Proof.
  eexists (MkSystem (set_queue [MkConnection 0 true] 0 1 (new_pool 1)) [] [(2%nat, false)] [] 0).
  split; [done|]. split; [done|]. apply (pool_sound 1 (fun _ => true)).
  pose (s1 := proceed 1 true true [] [] (started 1 (fun _ => true))).
  pose (s2 := MkSystem (sy_pool s1) [(2%nat, false)] [] (sy_lent s1) 0).
  eapply rtc_l; [exact (step_get_now 1 true true (started 1 (fun _ => true)) eq_refl eq_refl)|].
  eapply rtc_l; [exact (step_get_waits 2 false s1 eq_refl)|].
  eapply rtc_l; [|apply rtc_refl].
  exact (step_return 1 (MkConnection 0 true) [] [] true true true (set_queue [MkConnection 0 true] 0 1 (new_pool 1))
    [] [(2%nat, false)] s2 eq_refl eq_refl (notify_somebody [] (2%nat, false) [] [])).
Defined.

(** ** An outage *)

(** No connection left, queued or lent. *)
Definition drained (s : System) : Prop := connections_ (sy_pool s) = [] /\ sy_lent s = [].

Lemma proceed_drained t alive accepts asleep awake s :
  drained s -> drained (proceed t alive accepts asleep awake s).
Proof.
  intros [Hq Hl]. unfold proceed, drained, take_connection. rewrite Hq. by destruct (closed_ (sy_pool s)).
Qed.

Lemma drained_step s s' : drained s -> pool_step s s' -> drained s'.
Proof.
  intros Hd Hstep. pose proof Hd as [Hq Hl]. destruct Hstep; try done; try (by apply proceed_drained).
  rewrite Hl in *. by destruct l1.
Qed.

Lemma outage_empties q : forall s,
  connections_ (sy_pool s) = q -> sy_lent s = [] -> closed_ (sy_pool s) = false ->
  exists s', rtc pool_step s s' /\ drained s' /\ closed_ (sy_pool s') = false.
Proof.
  induction q as [|c q IH]; intros s Eq El Hcl; [by exists s|].
  assert (Ep : proceed 0 false false (sy_asleep s) (sy_awake s) s =
    MkSystem (set_queue q (active_count_ (sy_pool s)) (next_name_ (sy_pool s)) (sy_pool s))
      (sy_asleep s) (sy_awake s) (sy_lent s) (sy_notify s)).
  { unfold proceed, take_connection, Ping. rewrite Hcl, Eq, andb_false_r. done. }
  destruct (IH (proceed 0 false false (sy_asleep s) (sy_awake s) s)) as (s' & Hr & Hs'); [by rewrite Ep..|].
  exists s'. split; [|done]. eapply rtc_l; [|exact Hr]. apply step_get_now; [done|].
  unfold wait_predicate. by rewrite Hcl, Eq.
Qed.

(** A connection that cannot be re-established is not replaced: as many failed
    requests as there are connections leave an open pool from which no thread ever
    gets a connection again, whatever the server does later. *)
Theorem outage_exhausts_pool n accepts :
  exists s, rtc pool_step (started n accepts) s /\ closed_ (sy_pool s) = false /\
    forall s', rtc pool_step s s' -> AvailableCount (sy_pool s') = 0%nat /\ sy_lent s' = [].
Proof.
  assert (Hcl : forall m p, closed_ p = false -> closed_ (snd (init_loop m accepts p)) = false).
  { induction m as [|m IH]; intros p Hp; cbn; [done|]. by destruct (accepts (next_name_ p)); [apply IH|]. }
  destruct (outage_empties _ (started n accepts) eq_refl eq_refl) as (s & Hr & Hd & Hc); [by apply Hcl|].
  exists s. split_and!; [done..|]. intros s' Hr'.
  assert (drained s') as [Hq Hl].
  { eapply (rtc_ind_r drained); [exact Hd| |exact Hr']. intros s1 s2 _ Hst Hd1. by eapply drained_step. }
  split; [|done]. unfold AvailableCount. by rewrite Hq.
Qed.
