(* ===== verification/RedisCache.v ===== *)
(** * The Redis client (src/src/util/redis_cache.h, .cpp)

    A client that speaks the Redis protocol over one socket: commands are built
    and sent, replies are read a byte or a block at a time, and a failed command
    closes the socket. The server and the socket are the class [RedisServer], what
    the protocol promises [RedisServerLaws]. The client implements the interface
    [Redis] of the metadata store and its laws. *)
From S2P Require Import Prelude Status MySQLTx.

Open Scope Z_scope.

(** ** State *)

Record RedisConfig : Type := MkRedisConfig {
  redis_enabled_ : bool;
  redis_host : string;
  redis_port : Z;
  redis_password : string;
  redis_db : Z;
  redis_connect_timeout_ms : Z;
  redis_command_timeout_ms : Z;
  redis_object_meta_ttl_seconds : Z
}.

(** The socket calls of the client and the server behind them: [rs_send] returns
    what [send] returns, [rs_recv] the bytes, or [None] when [recv] returns 0 or
    an error. [rs_unread] are the bytes on their way to the client; their number
    bounds the loop of [ReadLine]. *)
Class RedisServer : Type := {
  rs : Type;
  rs_pton : string -> bool;
  rs_socket : rs -> bool * rs;
  rs_connect : RedisConfig -> rs -> bool * rs;
  rs_close : rs -> rs;
  rs_send : string -> rs -> Z * rs;
  rs_recv : nat -> rs -> option string * rs;
  rs_unread : rs -> string
}.

(** [sockfd_] tells whether [sockfd_ >= 0]; [wire_] is the other end. *)
Record RedisCache `{RedisServer} : Type := MkRedisCache {
  config_ : RedisConfig;
  sockfd_ : bool;
  wire_ : rs
}.

(** Stateful calls that do not throw. *)
Definition St (W A : Type) : Type := W -> A * W.

#[export] Instance St_ret {W} : MRet (St W) := fun A a w => (a, w).
#[export] Instance St_bind {W} : MBind (St W) := fun A B k m w => let '(a, w') := m w in k a w'.

(** The same in code that may throw. *)
Definition lift_st {W A} (m : St W A) : M W A := fun w => let '(a, w') := m w in (Ret a, w').

(** ** Protocol *)

Definition BulkString (arg : string) : string :=
  "$" +:+ to_string (Z.of_nat (String.length arg)) +:+ crlf +:+ arg +:+ crlf.

Fixpoint bulk_strings (args : list string) : string :=
  match args with
  | [] => ""
  | arg :: args => BulkString arg +:+ bulk_strings args
  end.

Definition BuildRespCommand (args : list string) : string :=
  "*" +:+ to_string (Z.of_nat (length args)) +:+ crlf +:+ bulk_strings args.

Section client.
Context `{RedisServer}.

Definition set_socket (open : bool) (s : rs) (c : RedisCache) : RedisCache := MkRedisCache _ (config_ c) open s.

Definition on_wire {A} (f : rs -> A * rs) : St RedisCache A := fun c =>
  let '(a, s) := f (wire_ c) in (a, set_socket (sockfd_ c) s c).

Definition Close : St RedisCache unit := fun c =>
  if sockfd_ c then (tt, set_socket false (rs_close (wire_ c)) c) else (tt, c).

(** [fuel] is the length of [data]: each successful [send] takes a byte or more. *)
Fixpoint send_all (fuel : nat) (data : string) : St RedisCache bool :=
  match data, fuel with
  | "", _ => mret true
  | _, O => mret false
  | _, S fuel =>
      n ← on_wire (rs_send data);
      if n <=? 0 then mret false else send_all fuel (str_drop (Z.to_nat n) data)
  end.

Definition SendAll (data : string) : St RedisCache bool := send_all (String.length data) data.

(** [None] when the function returns false. *)
Fixpoint read_line (fuel : nat) (prev : ascii) (line : string) : St RedisCache (option string) :=
  match fuel with
  | O => mret None
  | S fuel =>
      r ← on_wire (rs_recv 1);
      match r with
      | Some (String ch _) =>
          let line := line +:+ String ch "" in
          if Ascii.eqb prev CR && Ascii.eqb ch LF
          then mret (Some (str_take (String.length line - 2) line))
          else read_line fuel ch line
      | _ => mret None
      end
  end.

Definition ReadLine : St RedisCache (option string) := fun c =>
  read_line (S (String.length (rs_unread (wire_ c)))) "000" "" c.

Fixpoint read_exact (fuel len : nat) (out : string) : St RedisCache (option string) :=
  match len, fuel with
  | O, _ => mret (Some out)
  | _, O => mret None
  | _, S fuel =>
      r ← on_wire (rs_recv len);
      match r with
      | Some d => read_exact fuel (len - String.length d) (out +:+ d)
      | None => mret None
      end
  end.

Definition ReadExact (len : nat) : St RedisCache (option string) := read_exact len len "".

Definition SendCommandExpectOk (args : list string) : St RedisCache Status :=
  sent ← SendAll (BuildRespCommand args);
  if negb sent then mret (Status_Error ServiceUnavailable "Redis write failed")
  else
    l ← ReadLine;
    mret match l with
    | None => Status_Error ServiceUnavailable "Redis read failed"
    | Some "" => Status_Error ServiceUnavailable "Redis empty response"
    | Some (String type text) =>
        if Ascii.eqb type "+" || Ascii.eqb type ":" || Ascii.eqb type "$" then Status_OK
        else if Ascii.eqb type "-" then Status_Error ServiceUnavailable ("Redis error: " +:+ text)
        else Status_Error ServiceUnavailable "Unexpected Redis response type"
    end.

Definition BulkErr (m : string) : Result (option string) := Err (Status_Error ServiceUnavailable m).

(** [std::stoi] may throw. *)
Definition SendCommandGetBulk (args : list string) : M RedisCache (Result (option string)) :=
  sent ← lift_st (SendAll (BuildRespCommand args));
  if negb sent then mret (BulkErr "Redis write failed")
  else
    l ← lift_st ReadLine;
    match l with
    | None => mret (BulkErr "Redis read failed")
    | Some "" => mret (BulkErr "Redis empty response")
    | Some (String type text) =>
        if Ascii.eqb type "$" then
          len ← lift_exn (conv_exn (stoi text));
          if len <? 0 then mret (Ok None)
          else
            payload ← lift_st (ReadExact (Z.to_nat len));
            match payload with
            | None => mret (BulkErr "Redis bulk read failed")
            | Some payload =>
                tail ← lift_st (ReadExact 2);
                match tail with
                | None => mret (BulkErr "Redis trailing CRLF missing")
                | Some _ => mret (Ok (Some payload))
                end
            end
        else if Ascii.eqb type "-" then mret (BulkErr ("Redis error: " +:+ text))
        else mret (BulkErr "Unexpected Redis response type")
    end.

(** ** Connection *)

(** A command of the handshake: its failure closes the socket. *)
Definition handshake (needed : bool) (args : list string) (k : St RedisCache Status) : St RedisCache Status :=
  if needed then
    st ← SendCommandExpectOk args;
    if status_ok st then k else (_ ← Close; mret st)
  else k.

(** [Connect] from the end: the commands on a socket that is connected, the
    connection of the socket, and the socket. *)
Definition login (cfg : RedisConfig) : St RedisCache Status :=
  handshake (negb (str_empty (redis_password cfg))) ["AUTH"; redis_password cfg]
    (handshake (0 <? redis_db cfg) ["SELECT"; to_string (redis_db cfg)]
      (SendCommandExpectOk ["PING"])).

Definition connect_to (cfg : RedisConfig) : St RedisCache Status :=
  if negb (rs_pton (redis_host cfg)) then
    _ ← Close; mret (Status_Error InvalidArgument "Invalid Redis host")
  else
    ok ← on_wire (rs_connect cfg);
    if negb ok then
      _ ← Close; mret (Status_Error ServiceUnavailable "Failed to connect Redis")
    else login cfg.

Definition Connect : St RedisCache Status :=
  _ ← Close;
  ok ← on_wire rs_socket;
  if negb ok then mret (Status_Error InternalError "Failed to create Redis socket")
  else fun c => connect_to (config_ c) (set_socket true (wire_ c) c).

Definition EnsureConnected : St RedisCache Status := fun c =>
  if sockfd_ c then (Status_OK, c) else Connect c.

Definition Init : St RedisCache Status := fun c =>
  if negb (redis_enabled_ (config_ c)) then (Status_OK, c) else Connect c.

(** ** Operations *)

Definition Enabled (c : RedisCache) : bool := redis_enabled_ (config_ c).

Definition ObjectMetaTtlSeconds (c : RedisCache) : Z := redis_object_meta_ttl_seconds (config_ c).

Definition Get (key : string) : M RedisCache (Result (option string)) := fun c =>
  if negb (redis_enabled_ (config_ c)) then (Ret (Ok None), c)
  else
    (status ← lift_st EnsureConnected;
     if negb (status_ok status) then mret (Err status)
     else
       res ← SendCommandGetBulk ["GET"; key];
       if negb (result_ok res) then (_ ← lift_st Close; mret res) else mret res) c.

Definition run_command (args : list string) : St RedisCache Status := fun c =>
  if negb (redis_enabled_ (config_ c)) then (Status_OK, c)
  else
    (status ← EnsureConnected;
     if negb (status_ok status) then mret status
     else
       status ← SendCommandExpectOk args;
       if negb (status_ok status) then (_ ← Close; mret status) else mret status) c.

Definition SetEx (key : string) (ttl_seconds : Z) (value : string) : St RedisCache Status :=
  run_command ["SET"; key; value; "EX"; to_string ttl_seconds].

Definition Del (key : string) : St RedisCache Status := run_command ["DEL"; key].
End client.

(** ** The protocol as the server reads it *)

(** [strip_prefix p s]: what follows [p] in [s]. *)
Fixpoint strip_prefix (p s : string) : option string :=
  match p, s with
  | "", _ => Some s
  | String a p, String b s => if Ascii.eqb a b then strip_prefix p s else None
  | _, _ => None
  end.

(** A length line, [kind] its first character. *)
Definition decode_length (kind : string) (s : string) : option (nat * string) :=
  match strip_prefix kind s with
  | Some r => let '(n, r) := scan_digits 0 r in (fun r => (Z.to_nat n, r)) <$> strip_prefix crlf r
  | None => None
  end.

Definition decode_bulk (s : string) : option (string * string) :=
  match decode_length "$" s with
  | Some (n, r) =>
      if (n <=? String.length r)%nat
      then (fun r' => (str_take n r, r')) <$> strip_prefix crlf (str_drop n r)
      else None
  | None => None
  end.

Fixpoint decode_bulks (n : nat) (s : string) : option (list string * string) :=
  match n with
  | O => Some ([], s)
  | S n =>
      match decode_bulk s with
      | Some (arg, r) => (fun '(args, r) => (arg :: args, r)) <$> decode_bulks n r
      | None => None
      end
  end.

(** The first command of the bytes received, with what follows; [None] when it is
    not complete or not in the protocol. *)
Definition decode_command (s : string) : option (list string * string) :=
  match decode_length "*" s with
  | Some (n, r) => decode_bulks n r
  | None => None
  end.

Lemma strip_prefix_app p s : strip_prefix p (p +:+ s) = Some s.
Proof. induction p as [|a p IH]; [done|]. cbn. by rewrite Ascii.eqb_refl. Qed.

Lemma decode_length_app kind n r :
  decode_length kind (kind +:+ to_string (Z.of_nat n) +:+ crlf +:+ r) = Some (n, r).
Proof.
  unfold decode_length. rewrite strip_prefix_app, scan_to_string by lia.
  change (scan_digits (Z.of_nat n) (crlf +:+ r)) with (Z.of_nat n, crlf +:+ r). cbv beta iota.
  by rewrite strip_prefix_app, <-(Nat2Z.id n) at 1.
Qed.

Lemma decode_bulk_app arg r : decode_bulk (BulkString arg +:+ r) = Some (arg, r).
Proof.
  unfold decode_bulk, BulkString. rewrite !str_app_assoc, decode_length_app.
  rewrite (proj2 (Nat.leb_le _ _)) by (rewrite str_length_app; lia).
  by rewrite str_take_app, str_drop_app, strip_prefix_app.
Qed.

Lemma decode_bulks_app args r : decode_bulks (length args) (bulk_strings args +:+ r) = Some (args, r).
Proof.
  induction args as [|arg args IH]; [done|]. cbn [length decode_bulks bulk_strings].
  by rewrite str_app_assoc, decode_bulk_app, IH.
Qed.

Lemma decode_command_app args rest : decode_command (BuildRespCommand args +:+ rest) = Some (args, rest).
Proof.
  unfold decode_command, BuildRespCommand. rewrite !str_app_assoc, decode_length_app. apply decode_bulks_app.
Qed.

(** A command the client builds is read by the server as exactly the list of
    its arguments, whatever bytes they hold (line ends, other commands), and what
    follows it is left for the next command: keys and values cannot inject
    anything. *)
Theorem resp_roundtrip args rest : decode_command (BuildRespCommand args +:+ rest) = Some (args, rest).
Proof. apply decode_command_app. Qed.

(** ** What the server promises *)

(** Text of a reply line. *)
Definition line_text (t : string) : Prop := str_free CR t = true /\ str_free LF t = true.

(** The databases of the server, a number for each. *)
Definition Dbs : Type := Z -> gmap string string.

Definition update_db (n : Z) (f : gmap string string -> gmap string string) (d : Dbs) : Dbs :=
  fun m => if (m =? n)%Z then f (d m) else d m.

(** Entries may expire at any time. *)
Definition expired (d d' : Dbs) : Prop := forall n, d' n ⊆ d n.

(** A value of Redis has at most 512 MB. *)
Definition kMaxValue : Z := 536870912.

(** The reply to a command, the database selected after it and the databases. *)
Inductive answer (sel : Z) (d : Dbs) : list string -> string -> Z -> Dbs -> Prop :=
  | ans_error args text :
      line_text text -> (args = ["PING"] -> str_free "$" text = true) ->
      answer sel d args ("-" +:+ text +:+ crlf) sel d
  | ans_auth pw : answer sel d ["AUTH"; pw] ("+OK" +:+ crlf) sel d
  | ans_select n : answer sel d ["SELECT"; to_string n] ("+OK" +:+ crlf) n d
  | ans_ping : answer sel d ["PING"] ("+PONG" +:+ crlf) sel d
  | ans_hit k v :
      d sel !! k = Some v -> Z.of_nat (String.length v) <= kMaxValue ->
      answer sel d ["GET"; k] (BulkString v) sel d
  | ans_miss k : d sel !! k = None -> answer sel d ["GET"; k] ("$-1" +:+ crlf) sel d
  | ans_set k v ttl :
      answer sel d ["SET"; k; v; "EX"; ttl] ("+OK" +:+ crlf) sel (update_db sel <[k := v]> d)
  | ans_del k n :
      0 <= n -> answer sel d ["DEL"; k] (":" +:+ to_string n +:+ crlf) sel (update_db sel (delete k) d).

(** The replies to a sequence of commands. *)
Inductive answers (sel : Z) (d : Dbs) : list (list string) -> string -> Z -> Dbs -> Prop :=
  | answers_nil : answers sel d [] "" sel d
  | answers_cons args cmds reply sel1 d1 replies sel2 d2 :
      answer sel d args reply sel1 d1 -> answers sel1 d1 cmds replies sel2 d2 ->
      answers sel d (args :: cmds) (reply +:+ replies) sel2 d2.

Fixpoint encode_commands (cmds : list (list string)) : string :=
  match cmds with
  | [] => ""
  | args :: cmds => BuildRespCommand args +:+ encode_commands cmds
  end.

(** [rs_input] are the bytes of a command not yet complete, [rs_selected] the
    database of the connection. The server answers each command once its last byte
    is there, in order; [recv] hands out what was answered, in order, or fails. *)
Class RedisServerLaws `{RedisServer} : Type := {
  rs_input : rs -> string;
  rs_selected : rs -> Z;
  rs_dbs : rs -> Dbs;
  law_socket s : expired (rs_dbs s) (rs_dbs (snd (rs_socket s)));
  law_close s : expired (rs_dbs s) (rs_dbs (rs_close s));
  law_connect cfg s :
    let '(ok, s') := rs_connect cfg s in
    expired (rs_dbs s) (rs_dbs s') /\
    (ok = true -> rs_input s' = "" /\ rs_unread s' = "" /\ rs_selected s' = 0);
  law_send data s :
    let '(n, s') := rs_send data s in
    (n <= 0 /\ rs_input s' = rs_input s /\ rs_unread s' = rs_unread s /\ rs_selected s' = rs_selected s /\
     expired (rs_dbs s) (rs_dbs s')) \/
    (0 < n <= Z.of_nat (String.length data) /\
     forall taken, taken = rs_input s +:+ str_take (Z.to_nat n) data ->
     (exists args more, BuildRespCommand args = taken +:+ more) ->
     exists cmds replies, taken = encode_commands cmds +:+ rs_input s' /\ decode_command (rs_input s') = None /\
       rs_unread s' = rs_unread s +:+ replies /\
       exists d, answers (rs_selected s) (rs_dbs s) cmds replies (rs_selected s') d /\ expired d (rs_dbs s'));
  law_recv n s :
    let '(o, s') := rs_recv n s in
    rs_input s' = rs_input s /\ rs_selected s' = rs_selected s /\ expired (rs_dbs s) (rs_dbs s') /\
    match o with
    | Some d => (0 < String.length d <= n)%nat /\ rs_unread s = d +:+ rs_unread s'
    | None => rs_unread s' = rs_unread s
    end
}.

(** What the send buffer of a socket holds at least (socket(7): the smallest
    [SO_SNDBUF] is 2048 bytes, half of which are for the kernel's own use). *)
Definition kMinSendBuffer : Z := 1024.

(** The send buffer. A [send] blocks, and may be cut by its timeout or a signal, only
    when the message does not fit into the buffer (send(2)): with nothing waiting in
    it, since the server has answered all that was sent, a message of at most
    [kMinSendBuffer] bytes is taken whole, or the call fails. *)
Class SendBuffer `{RedisServerLaws} : Prop :=
  law_fits data s : rs_input s = "" -> Z.of_nat (String.length data) <= kMinSendBuffer ->
    let '(n, _) := rs_send data s in n <= 0 \/ n = Z.of_nat (String.length data).
