(* ===== verification/RedisProps.v ===== *)
(** * What the Redis client returns (src/src/util/redis_cache.cpp)

    The client keeps the laws of the metadata store's cache on every server that
    follows the protocol ([redis_client_laws]), whatever fails between them, and
    what that means for a run of operations; a server that follows the protocol,
    and runs on it. *)
From S2P Require Import Prelude Status MySQLTx RedisCache.

Open Scope Z_scope.

(** ** Reasoning rules *)

Definition st {W A} (m : St W A) (Q : A -> W -> Prop) (w : W) : Prop := Q (fst (m w)) (snd (m w)).

Lemma st_ret {W A} (a : A) (Q : A -> W -> Prop) w : Q a w -> st (mret a) Q w.
Proof. done. Qed.

Lemma st_self {W A} (f : W -> St W A) (Q : A -> W -> Prop) w : st (f w) Q w -> st (fun w => f w w) Q w.
Proof. done. Qed.

Lemma st_unless {W A} (b : W -> bool) (a : A) (m : St W A) (Q : A -> W -> Prop) w :
  (b w = true -> Q a w) -> (b w = false -> st m Q w) -> st (fun w => if b w then (a, w) else m w) Q w.
Proof. unfold st. intros H1 H2. destruct (b w); auto. Qed.

Lemma st_bind {W A B} (m : St W A) (k : A -> St W B) Q w :
  st m (fun a w' => st (k a) Q w') w -> st (m ≫= k) Q w.
Proof. unfold st, mbind, St_bind. by destruct (m w). Qed.

Lemma st_mono {W A} (m : St W A) (Q R : A -> W -> Prop) w :
  st m Q w -> (forall a w', Q a w' -> R a w') -> st m R w.
Proof. unfold st. auto. Qed.

Lemma wp_lift_st {W A} (m : St W A) (Q : exn A -> W -> Prop) w :
  st m (fun a w' => Q (Ret a) w') w -> wp (lift_st m) Q w.
Proof. unfold st, wp, lift_st. by destruct (m w). Qed.

Lemma expired_refl d : expired d d.
Proof. by intros n. Qed.

Lemma expired_trans d d1 d2 : expired d d1 -> expired d1 d2 -> expired d d2.
Proof. intros H1 H2 n. etransitivity; [apply (H2 n)|apply (H1 n)]. Qed.

(** ** Commands on the wire *)

Lemma encode_one c cs rest args :
  encode_commands (c :: cs) +:+ rest = BuildRespCommand args -> c = args /\ encode_commands cs +:+ rest = "".
Proof.
  cbn [encode_commands]. rewrite str_app_assoc. intros E. pose proof (decode_command_app c (encode_commands cs +:+ rest)) as H1.
  rewrite E, <-(str_app_nil_r (BuildRespCommand args)), decode_command_app in H1. by simplify_eq.
Qed.

Lemma str_app_empty a b : a +:+ b = "" -> a = "" /\ b = "".
Proof. by destruct a. Qed.

Lemma encode_whole cmds rest args :
  encode_commands cmds +:+ rest = BuildRespCommand args -> decode_command rest = None -> cmds = [args] /\ rest = "".
Proof.
  destruct cmds as [|c cs]; intros E Hd.
  - cbn [encode_commands] in E. rewrite str_app_nil_l in E. subst rest. by rewrite <-(str_app_nil_r (BuildRespCommand args)), decode_command_app in Hd.
  - apply encode_one in E as [-> [E1 E2]%str_app_empty]. split; [|done]. by destruct cs.
Qed.

Lemma encode_part cmds rest more args :
  encode_commands cmds +:+ rest +:+ more = BuildRespCommand args -> more <> "" -> cmds = [].
Proof.
  destruct cmds as [|c cs]; [done|]. intros E Hm.
  apply encode_one in E as [_ [_ [_ E]%str_app_empty]%str_app_empty]. done.
Qed.

Section proofs.
Context {HS : RedisServer} {HL : RedisServerLaws}.

Local Notation input c := (rs_input (wire_ c)).
Local Notation unread c := (rs_unread (wire_ c)).
Local Notation selected c := (rs_selected (wire_ c)).
Local Notation dbs c := (rs_dbs (wire_ c)).

(** The object itself, but for the socket's other end. *)
Definition same_object (c c' : RedisCache) : Prop := config_ c' = config_ c /\ sockfd_ c' = sockfd_ c.

Definition answered (args : list string) (reply : string) (c c' : RedisCache) : Prop :=
  exists d0 d1, expired (dbs c) d0 /\ answer (selected c) d0 args reply (selected c') d1 /\ expired d1 (dbs c').

Lemma take_drop_app n data p : p +:+ str_take n data +:+ str_drop n data = p +:+ data.
Proof. by rewrite str_take_drop. Qed.

Lemma str_drop_empty n data : str_drop n data = "" -> (String.length data <= n)%nat.
Proof. revert data. induction n as [|n IH]; intros [|a data]; cbn; try done; try lia. intros H. apply IH in H. lia. Qed.

Lemma str_length_drop n s : String.length (str_drop n s) = (String.length s - n)%nat.
Proof. revert s. induction n as [|n IH]; intros [|a s]; cbn; [done..|]. apply IH. Qed.

Lemma str_take_app_le n a b : (n <= String.length a)%nat -> str_take n (a +:+ b) = str_take n a.
Proof.
  revert a. induction n as [|n IH]; intros [|x a] Hn; cbn in *; try done; [lia|]. f_equal. apply IH. lia.
Qed.

Lemma str_app_inj a b c : a +:+ b = a +:+ c -> b = c.
Proof. induction a as [|x a IH]; [done|]. cbn. intros [= H]. auto. Qed.

(** One [send]. *)
Lemma send_spec args data c :
  BuildRespCommand args = input c +:+ data ->
  st (on_wire (rs_send data)) (fun n c' => same_object c c' /\
    ((n <= 0 /\ input c' = input c /\ unread c' = unread c /\ selected c' = selected c /\ expired (dbs c) (dbs c')) \/
     (0 < n /\ str_drop (Z.to_nat n) data = "" /\ input c' = "" /\
       exists reply, unread c' = unread c +:+ reply /\ answered args reply c c') \/
     (0 < n /\ str_drop (Z.to_nat n) data <> "" /\ BuildRespCommand args = input c' +:+ str_drop (Z.to_nat n) data /\
       unread c' = unread c /\ selected c' = selected c /\ expired (dbs c) (dbs c')))) c.
Proof.
  intros E. unfold st, on_wire. pose proof (law_send data (wire_ c)) as L.
  destruct (rs_send data (wire_ c)) as [n s']. cbn. split; [done|].
  destruct L as [L|(Hn & L)]; [by left|right].
  destruct (L _ eq_refl) as (cmds & replies & Et & Hd & Hu & d & Ha & He).
  { exists args, (str_drop (Z.to_nat n) data). by rewrite str_app_assoc, take_drop_app. }
  destruct (decide (str_drop (Z.to_nat n) data = "")) as [Ed|Ed].
  - left. rewrite str_take_all in Et by (by apply str_drop_empty). rewrite <-E in Et. symmetry in Et.
    apply encode_whole in Et as [-> Er]; [|done]. split_and!; [lia|done..|].
    inversion Ha as [|? ? reply sel1 d1 ? ? ? Ha1 Ha2]; subst. inversion Ha2; subst.
    exists reply. split; [by rewrite Hu, str_app_nil_r|]. exists (dbs c), d. split_and!; [apply expired_refl|done..].
  - right. assert (Ew : BuildRespCommand args =
      encode_commands cmds +:+ rs_input s' +:+ str_drop (Z.to_nat n) data).
    { by rewrite <-str_app_assoc, <-Et, str_app_assoc, take_drop_app. }
    assert (cmds = []) as -> by (eapply encode_part; [symmetry; exact Ew|done]).
    inversion Ha; subst. split_and!; [lia|done|exact Ew| |done|done]. by rewrite Hu, str_app_nil_r.
Qed.

(** What a command that has been sent leaves; nothing is known of the wire after
    a failure. *)
Definition sent_post (args : list string) (c : RedisCache) (ok : bool) (c' : RedisCache) : Prop :=
  same_object c c' /\
  if ok then input c' = "" /\ exists reply, unread c' = unread c +:+ reply /\ answered args reply c c'
  else expired (dbs c) (dbs c').

Lemma send_all_spec args fuel : forall data c,
  BuildRespCommand args = input c +:+ data -> data <> "" -> (String.length data <= fuel)%nat ->
  st (send_all fuel data) (sent_post args c) c.
Proof.
  induction fuel as [|fuel IH]; intros [|a data] c E Hd Hf; cbn [String.length] in Hf; [done|lia|done|].
  cbn [send_all]. apply st_bind. eapply st_mono; [by apply send_spec|].
  intros n c1 ([Ho1 Ho2] & [(Hn & Hi & Hu & Hs & He)|[(Hn & Ed & Hi & reply & Hu & Ha)|(Hn & Ed & Ei & Hu & Hs & He)]]).
  - rewrite (proj2 (Z.leb_le _ _)) by lia. by split.
  - rewrite (proj2 (Z.leb_gt _ _)), Ed by lia. destruct fuel; (split; [done|]); split; eauto.
  - rewrite (proj2 (Z.leb_gt _ _)) by lia. eapply st_mono; [apply IH; [done..|]|].
    { destruct (Z.to_nat n) as [|k] eqn:Ek; [lia|]. cbn [str_drop]. rewrite str_length_drop. lia. }
    intros ok c2 ([Ho3 Ho4] & Hp). split; [split; congruence|]. destruct ok.
    + destruct Hp as (Hi2 & reply & Hu2 & d0 & d1 & He0 & Ha & He1). split; [done|]. exists reply.
      split; [by rewrite Hu2, Hu|]. exists d0, d1. rewrite <-Hs. split_and!; [|done..].
      by eapply expired_trans.
    + by eapply expired_trans.
Qed.

Lemma command_nonempty args : BuildRespCommand args <> "".
Proof. done. Qed.

Lemma SendAll_spec args c :
  input c = "" -> st (SendAll (BuildRespCommand args)) (sent_post args c) c.
Proof. intros Hi. apply send_all_spec; [by rewrite Hi|done|done]. Qed.

(** A PING that could not be sent has left no trace. *)
Lemma SendAll_ping `{!SendBuffer} c :
  input c = "" ->
  st (SendAll (BuildRespCommand ["PING"])) (fun ok c' => sent_post ["PING"] c ok c' /\
    (ok = false -> input c' = "" /\ unread c' = unread c /\ selected c' = selected c)) c.
Proof.
  intros Hi. set (ping := BuildRespCommand ["PING"]).
  assert (Hp : st (SendAll ping) (sent_post ["PING"] c) c) by by apply SendAll_spec.
  split; [exact Hp|]. clear Hp. unfold SendAll. change (String.length ping) with 14%nat.
  change (send_all 14 ping) with (n ← on_wire (rs_send ping); if n <=? 0 then mret false : St RedisCache bool
    else send_all 13 (str_drop (Z.to_nat n) ping)).
  pose proof (send_spec ["PING"] ping c) as L. rewrite Hi in L. specialize (L eq_refl). unfold st, on_wire in *.
  pose proof (law_fits ping (wire_ c) Hi ltac:(done)) as Hw. unfold mbind, St_bind.
  destruct (rs_send ping (wire_ c)) as [n s'] eqn:Es. cbn in L |- *.
  destruct (Z.leb_spec n 0).
  - cbn. intros _. destruct L as (_ & [(_ & L1 & L2 & L3 & _)|[(Hn & _)|(Hn & _)]]); [done|lia..].
  - destruct Hw as [Hw|Hw]; [lia|]. subst n. done.
Qed.

(** ** Reading *)

(** Reading moves nothing but the unread bytes. *)
Definition reading (c c' : RedisCache) : Prop :=
  same_object c c' /\ input c' = input c /\ selected c' = selected c /\ expired (dbs c) (dbs c').

Lemma reading_refl c : reading c c.
Proof. split_and!; try done. apply expired_refl. Qed.

Lemma reading_trans c c1 c2 : reading c c1 -> reading c1 c2 -> reading c c2.
Proof.
  intros ([A1 A2] & B & C & D) ([A1' A2'] & B' & C' & D'). split_and!; [split| | |]; try congruence.
  by eapply expired_trans.
Qed.

Lemma recv_spec n c :
  st (on_wire (rs_recv n)) (fun o c' => reading c c' /\
    match o with
    | Some d => (0 < String.length d <= n)%nat /\ unread c = d +:+ unread c'
    | None => unread c' = unread c
    end) c.
Proof.
  unfold st, on_wire. pose proof (law_recv n (wire_ c)) as L. destruct (rs_recv n (wire_ c)) as [o s']. cbn.
  destruct L as (L1 & L2 & L3 & L4). by split_and!.
Qed.

(** One byte. *)
Lemma recv_byte c :
  st (on_wire (rs_recv 1)) (fun o c' => reading c c' /\
    ((o = None /\ unread c' = unread c) \/ exists ch, o = Some (String ch "") /\ unread c = String ch (unread c'))) c.
Proof.
  eapply st_mono; [apply recv_spec|]. intros [d|] c1 [Hr Hd]; [|by split; [|left]]. split; [done|right].
  destruct d as [|ch [|x d]]; cbn in Hd; [lia| |lia]. exists ch. split; [done|apply Hd].
Qed.

Lemma str_length_snoc l ch : String.length (l +:+ String ch "") = S (String.length l).
Proof. rewrite str_length_app. cbn. lia. Qed.

Lemma str_snoc_app l ch r : (l +:+ String ch "") +:+ r = l +:+ String ch r.
Proof. by rewrite str_app_assoc. Qed.

(** The bytes of a line whose text has no return: the text, or a failure with
    part of the line still to come. *)
Lemma read_line_spec t rest : forall fuel prev line c,
  Ascii.eqb prev CR = false -> str_free CR t = true -> unread c = t +:+ crlf +:+ rest ->
  (String.length t + 2 <= fuel)%nat ->
  st (read_line fuel prev line) (fun o c' => reading c c' /\
    ((o = Some (line +:+ t) /\ unread c' = rest) \/
     (o = None /\ exists a b, t +:+ crlf = a +:+ b /\ b <> "" /\ unread c' = b +:+ rest))) c.
Proof.
  induction t as [|x t IH]; intros fuel prev line c Hp Ht Hu Hf; (destruct fuel as [|fuel]; [cbn in Hf; lia|]);
    cbn [read_line]; apply st_bind; (eapply st_mono; [apply recv_byte|]);
    intros o c1 (Hr1 & [[-> Hu1]|(ch & -> & Hu1)]).
  - apply st_ret. split; [done|right]. split; [done|]. exists "", crlf. split_and!; [done..|]. by rewrite Hu1, Hu.
  - rewrite Hu in Hu1. cbn in Hu1. injection Hu1 as <- Hu1. rewrite Hp. cbn [andb].
    destruct fuel as [|fuel]; [cbn in Hf; lia|]. cbn [read_line]. apply st_bind. eapply st_mono; [apply recv_byte|].
    intros o c2 (Hr2 & [[-> Hu2]|(ch & -> & Hu2)]).
    + apply st_ret. split; [by eapply reading_trans|right]. split; [done|]. exists (String CR ""), (String LF "").
      split_and!; [done..|]. by rewrite Hu2, <-Hu1.
    + rewrite <-Hu1 in Hu2. injection Hu2 as <- Hu2. cbn [Ascii.eqb andb]. rewrite Ascii.eqb_refl. cbn [andb].
      apply st_ret. split; [by eapply reading_trans|left]. split; [|done]. f_equal. rewrite !str_length_snoc.
      replace (S (S (String.length line)) - 2)%nat with (String.length line) by lia.
      by rewrite str_app_nil_r, str_snoc_app, str_take_app.
  - apply st_ret. split; [done|right]. split; [done|]. exists "", (String x t +:+ crlf). split_and!; [done..|].
    by rewrite Hu1, Hu, str_app_assoc.
  - rewrite Hu in Hu1. cbn in Hu1. injection Hu1 as <- Hu1. unfold str_free in Ht. cbn in Ht.
    apply andb_true_iff in Ht as [Hx Ht]. apply negb_true_iff in Hx.
    assert (Hx' : Ascii.eqb x CR = false) by by rewrite Ascii.eqb_sym.
    replace (Ascii.eqb prev CR && Ascii.eqb x LF) with false by by rewrite Hp.
    eapply st_mono; [apply (IH fuel x); [done|done|by symmetry|cbn in Hf; lia]|].
    intros o c2 (Hr2 & [[-> Hu2]|(-> & a & b & E & Hb & Hu2)]).
    + split; [by eapply reading_trans|left]. by rewrite str_snoc_app.
    + split; [by eapply reading_trans|right]. split; [done|]. exists (String x a), b. split_and!; [cbn; by f_equal|done..].
Qed.

Lemma ReadLine_spec t rest c :
  str_free CR t = true -> unread c = t +:+ crlf +:+ rest ->
  st ReadLine (fun o c' => reading c c' /\
    ((o = Some t /\ unread c' = rest) \/
     (o = None /\ exists a b, t +:+ crlf = a +:+ b /\ b <> "" /\ unread c' = b +:+ rest))) c.
Proof.
  intros Ht Hu. unfold ReadLine. apply (read_line_spec t rest _ "000" ""); [done..|].
  rewrite Hu, !str_length_app. cbn. lia.
Qed.

(** Whatever is read, the line begins with the first byte that was to come. *)
Lemma read_line_head h : forall fuel prev line c,
  (exists l, line = String h l) ->
  st (read_line fuel prev line) (fun o c' => reading c c' /\
    match o with Some (String x _) => x = h | _ => True end) c.
Proof.
  induction fuel as [|fuel IH]; intros prev line c [l ->]; cbn [read_line]; [by split; [apply reading_refl|]|].
  apply st_bind. eapply st_mono; [apply recv_byte|]. intros o c1 (Hr1 & [[-> Hu1]|(ch & -> & Hu1)]); [by split|].
  destruct (_ && _).
  - split; [done|]. destruct l as [|x l]; [done|]. cbn [str_take].
    rewrite str_length_snoc. cbn [String.length]. by destruct (S _ - 2)%nat.
  - eapply st_mono; [apply IH; by eexists|]. intros o c2 [Hr2 Ho]. split; [by eapply reading_trans|done].
Qed.

Lemma ReadLine_head h u c :
  unread c = String h u ->
  st ReadLine (fun o c' => reading c c' /\ match o with Some (String x _) => x = h | _ => True end) c.
Proof.
  intros Hu. apply (st_self (fun c => read_line (S (String.length (unread c))) "000" "")). cbn [read_line]. apply st_bind. eapply st_mono; [apply recv_byte|].
  intros o c1 (Hr1 & [[-> Hu1]|(ch & -> & Hu1)]); [by split|]. rewrite Hu in Hu1. injection Hu1 as <- _.
  replace (Ascii.eqb "000" CR && Ascii.eqb h LF) with false by done.
  eapply st_mono; [apply (read_line_head h); by eexists|]. intros o c2 [Hr2 Ho]. split; [by eapply reading_trans|done].
Qed.

Lemma read_exact_spec : forall fuel len out c v rest,
  unread c = v +:+ rest -> String.length v = len -> (len <= fuel)%nat ->
  st (read_exact fuel len out) (fun o c' => reading c c' /\
    (o = None \/ (o = Some (out +:+ v) /\ unread c' = rest))) c.
Proof.
  induction fuel as [|fuel IH]; intros len out c v rest Hu Hv Hf.
  - destruct len; [|lia]. destruct v; [|done]. cbn. split; [apply reading_refl|right]. by rewrite str_app_nil_r.
  - destruct len as [|len]; cbn [read_exact].
    { destruct v; [|done]. split; [apply reading_refl|right]. by rewrite str_app_nil_r. }
    apply st_bind. eapply st_mono; [apply recv_spec|]. intros [d|] c1 [Hr Hd]; [|by split; [|left]].
    destruct Hd as [Hl Hd]. rewrite Hu in Hd.
    assert (Ev : v = d +:+ str_drop (String.length d) v).
    { assert (Et : str_take (String.length d) (v +:+ rest) = d) by (rewrite Hd; apply str_take_app).
      rewrite str_take_app_le in Et by lia. by rewrite <-Et at 1; rewrite str_take_drop. }
    set (v' := str_drop (String.length d) v) in *. rewrite Ev, str_app_assoc in Hd. apply str_app_inj in Hd.
    eapply st_mono; [apply (IH _ _ c1 v' rest); [by symmetry| |]|].
    + rewrite <-Hv, Ev, str_length_app. lia.
    + lia.
    + intros o c2 [Hr2 Ho]. split; [by eapply reading_trans|]. destruct Ho as [->|[-> Hu2]]; [by left|right].
      by rewrite Ev at 1; rewrite str_app_assoc.
Qed.

(** ** Replies *)

(** A reply of one line that is not the head of a bulk string. *)
Definition simple_reply (r : string) : Prop :=
  exists x t, r = String x t +:+ crlf /\ str_free CR (String x t) = true /\ x <> "$"%char.

Definition positive_reply (r : string) : Prop := exists x t, r = String x t /\ (x = "+"%char \/ x = ":"%char).

Definition not_get (args : list string) : Prop := forall k, args <> ["GET"; k].

Lemma digits_free_CR x n : Ascii.eqb CR x = false -> 0 <= n -> str_free CR (String x (to_string n)) = true.
Proof.
  intros Hx Hn. rewrite str_free_cons, Hx. apply (str_all_impl is_digit); [|by apply to_string_digits].
  intros c Hc. apply negb_true_iff, Ascii.eqb_neq. by intros <-.
Qed.

Lemma answer_simple sel d args reply sel' d' :
  not_get args -> answer sel d args reply sel' d' -> simple_reply reply.
Proof.
  intros Hn Ha. destruct Ha as [args text [Ht _] _|pw|n| |k v Hk|k Hk|k v ttl|k n Hn0]; try (by destruct (Hn k)).
  all: first [by eexists "-"%char, text|by eexists "+"%char, _|idtac].
  exists ":"%char, (to_string n). split_and!; [done| |done]. by apply digits_free_CR.
Qed.

(** What may still come on a socket whose last command is over: a reply line, or
    the end of one, that no command will take for a value. *)
Definition stale (u : string) : Prop :=
  u = "" \/ u = String LF "" \/
  exists t, u = t +:+ crlf /\ str_free CR t = true /\ match t with String x _ => x <> "$"%char | _ => True end.

Lemma stale_simple r : simple_reply r -> stale r.
Proof. intros (x & t & -> & Ht & Hx). right; right. by exists (String x t). Qed.

Lemma stale_suffix t : forall a b,
  str_free CR t = true -> str_free "$" t = true -> t +:+ crlf = a +:+ b -> b <> "" -> stale b.
Proof.
  induction t as [|x t IH]; intros [|y a] b Ht Hd E Hb.
  - right; right. by exists "".
  - injection E as <- E. destruct a as [|z a]; [right; left; done|]. injection E as <- E. by destruct a, b.
  - right; right. exists (String x t). split_and!; [done..|]. intros ->. done.
  - injection E as <- E. unfold str_free in *. cbn in Ht, Hd. apply andb_true_iff in Ht as [_ Ht], Hd as [_ Hd]. eauto.
Qed.

(** ** Commands *)

Lemma answered_reading args reply c c1 c2 :
  answered args reply c c1 -> reading c1 c2 -> answered args reply c c2.
Proof.
  intros (d0 & d1 & H1 & H2 & H3) (_ & _ & Hs & He). exists d0, d1. rewrite Hs. split_and!; [done..|].
  by eapply expired_trans.
Qed.

Lemma same_object_reading c c1 c2 : same_object c c1 -> reading c1 c2 -> same_object c c2.
Proof. intros [A B] ([A' B'] & _). split; congruence. Qed.

(** The databases after a command that may not have been answered. *)
Definition moved (args : list string) (c c' : RedisCache) : Prop :=
  expired (dbs c) (dbs c') \/ exists reply, answered args reply c c'.

Definition ok_post (args : list string) (c : RedisCache) (s : Status) (c' : RedisCache) : Prop :=
  same_object c c' /\ moved args c c' /\
  (status_ok s = true -> input c' = "" /\ stale (unread c') /\
    exists reply, answered args reply c c' /\ (unread c = "" -> unread c' = "" /\ positive_reply reply)).

Lemma ok_post_fails args c e m c' :
  same_object c c' -> moved args c c' -> e <> OK -> ok_post args c (Status_Error e m) c'.
Proof.
  intros H1 H2 He. split_and!; [done..|]. intros Hs. apply bool_decide_eq_true in Hs. done.
Qed.

(** The status that a reply line gives. *)
Definition line_status (l : option string) : Status :=
  match l with
  | None => Status_Error ServiceUnavailable "Redis read failed"
  | Some "" => Status_Error ServiceUnavailable "Redis empty response"
  | Some (String type text) =>
      if Ascii.eqb type "+" || Ascii.eqb type ":" || Ascii.eqb type "$" then Status_OK
      else if Ascii.eqb type "-" then Status_Error ServiceUnavailable ("Redis error: " +:+ text)
      else Status_Error ServiceUnavailable "Unexpected Redis response type"
  end.

Lemma line_status_ok l :
  status_ok (line_status l) = true ->
  exists x t, l = Some (String x t) /\ (x = "+"%char \/ x = ":"%char \/ x = "$"%char).
Proof.
  destruct l as [[|x t]|]; cbn; [done| |done].
  destruct (Ascii.eqb_spec x "+"), (Ascii.eqb_spec x ":"), (Ascii.eqb_spec x "$"); cbn; eauto 10.
  by destruct (Ascii.eqb x "-").
Qed.

Lemma expect_ok_spec args c :
  not_get args -> input c = "" -> stale (unread c) -> st (SendCommandExpectOk args) (ok_post args c) c.
Proof.
  intros Hg Hi Hst. unfold SendCommandExpectOk. apply st_bind. eapply st_mono; [by apply SendAll_spec|].
  intros [|] c1 [Ho Hp]; cbn [negb]; [|apply st_ret, ok_post_fails; [done|by left|done]].
  destruct Hp as (Hi1 & reply & Hu1 & Ha). apply st_bind.
  assert (Hfin : forall l c2, reading c1 c2 ->
    (status_ok (line_status l) = true -> stale (unread c2) /\ (unread c = "" -> unread c2 = "" /\ positive_reply reply)) ->
    ok_post args c (line_status l) c2).
  { intros l c2 Hr Hs. split_and!; [by eapply same_object_reading| |].
    - right. exists reply. by eapply answered_reading.
    - intros Hk. destruct (Hs Hk) as [Hs1 Hs2]. split_and!; [by rewrite (proj1 (proj2 Hr))|done|].
      exists reply. split; [by eapply answered_reading|done]. }
  pose proof Ha as (d0 & d1 & _ & Han & _). apply answer_simple in Han as (x & t & Er & Ht & Hx); [|done].
  destruct Hst as [Hz|[Hz|(t0 & Hz & Ht0 & Hx0)]]; rewrite Hz in Hu1.
  - cbn in Hu1. eapply st_mono; [apply (ReadLine_spec (String x t) ""); [done|by rewrite Hu1, Er]|].
    intros l c2 [Hr Hl]. apply (st_ret (line_status l)), Hfin; [done|]. intros Hk. apply line_status_ok in Hk as (y & t' & -> & Hy).
    destruct Hl as [[[= -> ->] Hu2]|[Hl _]]; [|done]. rewrite Hu2. split; [by left|]. intros _. split; [done|].
    eexists x, _. split; [exact Er|]. destruct Hy as [?|[?|?]]; [by left|by right|done].
  - eapply st_mono; [apply (ReadLine_head LF reply); by rewrite Hu1|].
    intros l c2 [Hr Hl]. apply (st_ret (line_status l)), Hfin; [done|]. intros Hk. apply line_status_ok in Hk as (y & t' & -> & Hy).
    subst y. destruct Hy as [?|[?|?]]; done.
  - rewrite str_app_assoc in Hu1. eapply st_mono; [apply (ReadLine_spec t0 reply); [done|by rewrite Hu1]|].
    intros l c2 [Hr Hl]. apply (st_ret (line_status l)), Hfin; [done|]. intros Hk. apply line_status_ok in Hk as (y & t' & -> & Hy).
    destruct Hl as [[[= <-] Hu2]|[Hl _]]; [|done]. rewrite Hu2. split; [|].
    + apply stale_simple. by exists x, t.
    + intros Hn. rewrite Hn in Hz. by destruct t'.
Qed.

(** A PING that fails leaves at most the rest of its reply. *)
Lemma ping_spec `{!SendBuffer} c :
  input c = "" -> unread c = "" ->
  st (SendCommandExpectOk ["PING"]) (fun s c' => same_object c c' /\ expired (dbs c) (dbs c') /\
    input c' = "" /\ selected c' = selected c /\ stale (unread c') /\ (status_ok s = true -> unread c' = "")) c.
Proof.
  intros Hi Hu. unfold SendCommandExpectOk. apply st_bind. eapply st_mono; [by apply SendAll_ping|].
  intros ok c1 [[Ho Hp] Hf]. destruct ok; cbn [negb].
  2: { destruct (Hf eq_refl) as (F1 & F2 & F3). apply st_ret. split_and!; [done..| |done]. left. congruence. }
  destruct Hp as (Hi1 & reply & Hu1 & d0 & d1 & He0 & Ha & He1). rewrite Hu, str_app_nil_l in Hu1.
  assert (Hline : exists t, reply = t +:+ crlf /\ str_free CR t = true /\ str_free "$" t = true /\
    selected c1 = selected c /\ d1 = d0).
  { inversion Ha as [args text [Hcr _] Hd| | | | | | |]; subst.
    - exists ("-" +:+ text). split_and!; [done..|by apply Hd|done|done].
    - by exists "+PONG". }
  destruct Hline as (t & -> & Hcr & Hd & Hs & ->).
  assert (He : expired (dbs c) (dbs c1)) by by eapply expired_trans.
  apply st_bind. eapply st_mono; [apply (ReadLine_spec t ""); [done|by rewrite str_app_nil_r]|].
  intros l c2 [Hr Hl]. apply (st_ret (line_status l)). pose proof Hr as (_ & Hr2 & Hr3 & Hr4).
  split_and!; [by eapply same_object_reading|by eapply expired_trans|congruence|congruence|..].
  - destruct Hl as [[_ Hu2]|(_ & a & b & Eab & Hb & Hu2)]; [by left|].
    rewrite Hu2, str_app_nil_r. by eapply stale_suffix.
  - intros Hk. apply line_status_ok in Hk as (y & t' & -> & _). by destruct Hl as [[_ Hu2]|[Hl _]].
Qed.

(** ** [GET] *)

Definition get_post (k : string) (c : RedisCache) (r : exn (Result (option string))) (c' : RedisCache) : Prop :=
  exists res, r = Ret res /\ same_object c c' /\ expired (dbs c) (dbs c') /\
    forall o, res = Ok o -> input c' = "" /\ unread c' = "" /\ selected c' = selected c /\
      forall v, o = Some v -> dbs c (selected c) !! k = Some v.

Lemma get_post_err k c m c' :
  same_object c c' -> expired (dbs c) (dbs c') -> get_post k c (Ret (BulkErr m)) c'.
Proof. intros. by eexists. Qed.

(** What follows the reply line. *)
Definition get_tail (l : option string) : M RedisCache (Result (option string)) :=
  match l with
  | None => mret (BulkErr "Redis read failed")
  | Some "" => mret (BulkErr "Redis empty response")
  | Some (String type text) =>
      if Ascii.eqb type "$" then
        len ← lift_exn (conv_exn (stoi text));
        if len <? 0 then mret (Ok None)
        else
          payload ← lift_st (ReadExact (Z.to_nat len));
          match payload with
          | None => mret (BulkErr "Redis bulk read failed")
          | Some payload =>
              tail ← lift_st (ReadExact 2);
              match tail with
              | None => mret (BulkErr "Redis trailing CRLF missing")
              | Some _ => mret (Ok (Some payload))
              end
          end
      else if Ascii.eqb type "-" then mret (BulkErr ("Redis error: " +:+ text))
      else mret (BulkErr "Unexpected Redis response type")
  end.

Lemma get_tail_refuses k c l c' :
  same_object c c' -> expired (dbs c) (dbs c') ->
  match l with Some (String x _) => x <> "$"%char | _ => True end -> wp (get_tail l) (get_post k c) c'.
Proof.
  intros H1 H2 Hl. destruct l as [[|x t]|]; [by apply wp_ret, get_post_err| |by apply wp_ret, get_post_err].
  cbn [get_tail]. apply Ascii.eqb_neq in Hl as ->. by destruct (Ascii.eqb x "-"); apply wp_ret, get_post_err.
Qed.

Lemma stoi_length n : 0 <= n <= kMaxValue -> stoi (to_string n) = Conv n.
Proof.
  intros Hn. unfold stoi. rewrite sto_signed_to_string. unfold kMaxValue in Hn.
  rewrite (proj2 (Z.leb_le _ _)), (proj2 (Z.ltb_lt _ _)) by lia. done.
Qed.

Lemma wp_reads {A} len (k : option string -> M RedisCache A) Q c v rest :
  unread c = v +:+ rest -> String.length v = len ->
  (forall o c', reading c c' -> o = None \/ (o = Some v /\ unread c' = rest) -> wp (k o) Q c') ->
  wp (o ← lift_st (ReadExact len); k o) Q c.
Proof.
  intros Hu Hv Hk. apply wp_bind, wp_lift_st. eapply st_mono; [by apply (read_exact_spec len len "" c v rest)|].
  intros o c' [Hr Ho]. by apply Hk.
Qed.

(** The value, and the line end after it. *)
Lemma get_tail_value k c v c' :
  reading c c' -> input c' = "" -> unread c' = v +:+ crlf -> Z.of_nat (String.length v) <= kMaxValue ->
  dbs c (selected c) !! k = Some v ->
  wp (get_tail (Some (String "$" (to_string (Z.of_nat (String.length v)))))) (get_post k c) c'.
Proof.
  intros Hr Hi Hu Hv Hk. pose proof Hr as (Ho & _ & Hs & He). cbn [get_tail Ascii.eqb Bool.eqb]. rewrite stoi_length by lia.
  apply wp_bind, wp_lift. cbn [conv_exn]. rewrite (proj2 (Z.ltb_ge _ _)), Nat2Z.id by lia.
  apply (wp_reads _ _ _ _ v crlf); [done..|]. intros o c1 Hr1 [->|[-> Hu1]];
    pose proof (reading_trans _ _ _ Hr Hr1) as Hr1'; [apply wp_ret, get_post_err; apply Hr1'|].
  apply (wp_reads _ _ _ _ crlf ""); [by rewrite str_app_nil_r|done|]. intros o c2 Hr2 [->|[-> Hu2]];
    pose proof (reading_trans _ _ _ Hr1' Hr2) as Hr2'; [apply wp_ret, get_post_err; apply Hr2'|].
  apply wp_ret. eexists. split; [done|]. split; [apply Hr2'|]. split; [apply Hr2'|]. intros o [= <-].
  destruct Hr1 as (_ & E1 & _), Hr2 as (_ & E2 & _). split_and!; [congruence|done|apply Hr2'|]. by intros v' [= <-].
Qed.

Lemma SendCommandGetBulk_spec k c :
  input c = "" -> stale (unread c) -> wp (SendCommandGetBulk ["GET"; k]) (get_post k c) c.
Proof.
  intros Hi Hst. unfold SendCommandGetBulk. apply wp_bind, wp_lift_st. eapply st_mono; [by apply SendAll_spec|].
  intros [|] c1 [Ho Hp]; cbn [negb]; [|by apply wp_ret, get_post_err].
  destruct Hp as (Hi1 & reply & Hu1 & d0 & d1 & He0 & Ha & He1).
  assert (selected c1 = selected c /\ d1 = d0) as [Hs ->] by by inversion Ha.
  assert (He : expired (dbs c) (dbs c1)) by by eapply expired_trans.
  assert (Hr1 : reading c c1) by (split_and!; try apply Ho; try done; congruence).
  apply wp_bind, wp_lift_st. change (st ReadLine (fun l c2 => wp (get_tail l) (get_post k c) c2) c1).
  destruct Hst as [Hz|[Hz|(t0 & Hz & Ht0 & Hx0)]]; rewrite Hz in Hu1.
  - rewrite str_app_nil_l in Hu1. revert Hu1.
    inversion Ha as [args text [Hcr _] _| | | |k' v Hk Hv|k' Hk| |]; subst; intros Hu1.
    + eapply st_mono; [apply (ReadLine_spec ("-" +:+ text) ""); [done|by rewrite Hu1, str_app_nil_r]|].
      intros l c2 [Hr [[-> _]|[-> _]]]; pose proof (reading_trans _ _ _ Hr1 Hr) as Hr2;
        (apply get_tail_refuses; [apply Hr2..|done]).
    + eapply st_mono; [apply (ReadLine_spec (String "$" (to_string (Z.of_nat (String.length v)))) (v +:+ crlf));
        [apply digits_free_CR; [done|lia]|by rewrite Hu1]|].
      intros l c2 [Hr Hl]; pose proof (reading_trans _ _ _ Hr1 Hr) as Hr2.
      destruct Hl as [[-> Hu2]|[-> _]]; [|apply get_tail_refuses; [apply Hr2..|done]].
      apply get_tail_value; [done|by rewrite (proj1 (proj2 Hr))|done..|]. eapply lookup_weaken; [exact Hk|apply He0].
    + eapply st_mono; [apply (ReadLine_spec "$-1" ""); [done|by rewrite Hu1, str_app_nil_r]|].
      intros l c2 [Hr Hl]; pose proof (reading_trans _ _ _ Hr1 Hr) as Hr2.
      destruct Hl as [[-> Hu2]|[-> _]]; [|apply get_tail_refuses; [apply Hr2..|done]].
      change (wp (mret (Ok None)) (get_post k c) c2). apply wp_ret. eexists. split; [done|]. split_and!; [apply Hr2..|].
      intros o [= <-]. split_and!; [by rewrite (proj1 (proj2 Hr))|done|apply Hr2|done].
  - eapply st_mono; [apply (ReadLine_head LF reply); by rewrite Hu1|].
    intros l c2 [Hr Hl]; pose proof (reading_trans _ _ _ Hr1 Hr) as Hr2. apply get_tail_refuses; [apply Hr2..|].
    destruct l as [[|x t]|]; [done|by subst x|done].
  - rewrite str_app_assoc in Hu1. eapply st_mono; [apply (ReadLine_spec t0 reply); [done|by rewrite Hu1]|].
    intros l c2 [Hr Hl]; pose proof (reading_trans _ _ _ Hr1 Hr) as Hr2. apply get_tail_refuses; [apply Hr2..|].
    by destruct Hl as [[-> _]|[-> _]].
Qed.

(** ** Connections *)

(** The database of the configuration. *)
Definition wanted (c : RedisCache) : Z := if 0 <? redis_db (config_ c) then redis_db (config_ c) else 0.

(** Between two operations: no command half sent, the right database selected, and
    nothing to come that could be taken for a value. *)
Definition redis_ok (c : RedisCache) : Prop :=
  sockfd_ c = true -> input c = "" /\ selected c = wanted c /\ stale (unread c).

Lemma Close_spec c :
  st Close (fun _ c' => config_ c' = config_ c /\ sockfd_ c' = false /\ expired (dbs c) (dbs c')) c.
Proof.
  unfold st, Close. destruct (sockfd_ c) eqn:E; cbn; split_and!; try done; [apply law_close|apply expired_refl].
Qed.

Definition connect_post (c : RedisCache) (s : Status) (c' : RedisCache) : Prop :=
  config_ c' = config_ c /\ expired (dbs c) (dbs c') /\ redis_ok c' /\
  (status_ok s = true -> sockfd_ c' = true /\ unread c' = "").

Lemma connect_post_trans c c1 s c' :
  config_ c1 = config_ c -> expired (dbs c) (dbs c1) -> connect_post c1 s c' -> connect_post c s c'.
Proof. intros Hc He (A & B & C & D). split_and!; [congruence|by eapply expired_trans|done..]. Qed.

(** A failure after which the socket is closed. *)
Lemma connect_fails s c : status_ok s = false -> st (_ ← Close; mret s) (connect_post c) c.
Proof.
  intros Hs. apply st_bind. eapply st_mono; [apply Close_spec|]. intros _ c' (Hc & Hf & He). apply st_ret.
  split_and!; [done..| |by rewrite Hs]. unfold redis_ok. by rewrite Hf.
Qed.

(** Commands that change no entry. *)
Definition harmless (args : list string) : Prop :=
  forall sel d reply sel' d', answer sel d args reply sel' d' -> d' = d.

Lemma moved_harmless args c c' : harmless args -> moved args c c' -> expired (dbs c) (dbs c').
Proof.
  intros Hh [He|(reply & d0 & d1 & He0 & Ha & He1)]; [done|]. apply Hh in Ha as ->. by eapply expired_trans.
Qed.

(** In step: connected, and nothing to come. *)
Definition in_step (c : RedisCache) : Prop := sockfd_ c = true /\ input c = "" /\ unread c = "".

Lemma handshake_spec (needed : bool) args k c :
  not_get args -> harmless args -> in_step c -> (needed = false -> st k (connect_post c) c) ->
  (forall c', needed = true -> in_step c' -> config_ c' = config_ c ->
     (exists reply, answered args reply c c' /\ positive_reply reply) -> st k (connect_post c') c') ->
  st (handshake needed args k) (connect_post c) c.
Proof.
  intros Hg Hh (Hs & Hi & Hu) Hno Hyes. unfold handshake. destruct needed; [|by apply Hno].
  apply st_bind. eapply st_mono; [apply expect_ok_spec; [done..|by left]|].
  intros s c' ([Ho1 Ho2] & Hm & Hok). pose proof (moved_harmless _ _ _ Hh Hm) as He. destruct (status_ok s) eqn:Es.
  - destruct (Hok eq_refl) as (Hi' & _ & reply & Ha & Hu'). destruct (Hu' Hu) as [Hu2 Hpos].
    eapply st_mono; [apply Hyes; [done|split_and!; congruence|done|by exists reply]|]. intros s' c2. by apply connect_post_trans.
  - eapply st_mono; [by apply connect_fails|]. intros s' c2. by apply connect_post_trans.
Qed.

Lemma harmless_auth pw : harmless ["AUTH"; pw].
Proof. by inversion 1. Qed.

Lemma harmless_select n : harmless ["SELECT"; n].
Proof. by inversion 1. Qed.

(** A positive answer to AUTH and SELECT. *)
Lemma answered_auth pw reply c c' :
  answered ["AUTH"; pw] reply c c' -> selected c' = selected c.
Proof. intros (d0 & d1 & _ & Ha & _). by inversion Ha. Qed.

Lemma answered_select n reply c c' :
  answered ["SELECT"; to_string n] reply c c' -> positive_reply reply -> selected c' = n.
Proof.
  intros (d0 & d1 & _ & Ha & _) (x & t & -> & Hx). inversion Ha as [args text _ _ E1 E2| |m Em| | | | |].
  - by destruct Hx; subst x.
  - apply (inj pretty) in Em. congruence.
Qed.

Lemma login_spec `{!SendBuffer} c :
  in_step c -> selected c = 0 -> st (login (config_ c)) (connect_post c) c.
Proof.
  intros Hstep Hsel. unfold login.
  assert (Hping : forall c', in_step c' -> config_ c' = config_ c -> selected c' = wanted c ->
    st (SendCommandExpectOk ["PING"]) (connect_post c') c').
  { intros c' (Hs & Hi & Hu) Hc Hw. eapply st_mono; [by apply ping_spec|].
    intros s c2 ([Ho1 Ho2] & He & Hi2 & Hs2 & Hst & Hok). split_and!; [done..| |].
    - intros _. split_and!; [done| |done]. rewrite Hs2, Hw. unfold wanted. by rewrite Ho1, Hc.
    - intros Hk. split; [congruence|by apply Hok]. }
  assert (Hdb : forall c', in_step c' -> config_ c' = config_ c -> selected c' = 0 ->
    st (handshake (0 <? redis_db (config_ c)) ["SELECT"; to_string (redis_db (config_ c))]
      (SendCommandExpectOk ["PING"])) (connect_post c') c').
  { intros c' Hc1 Hc2 Hc3. apply handshake_spec; [done|apply harmless_select|done|..].
    - intros Hn. apply Hping; [done..|]. unfold wanted. by rewrite Hn.
    - intros c2 Hn Hst2 Hcc2 (reply & Ha & Hpos). apply Hping; [done|congruence|].
      apply answered_select in Ha; [|done]. unfold wanted. by rewrite Hn. }
  apply handshake_spec; [done|apply harmless_auth|done|..].
  - intros _. by apply Hdb.
  - intros c' _ Hst Hc (reply & Ha & _). apply Hdb; [done..|]. apply answered_auth in Ha. congruence.
Qed.

Lemma connect_to_spec `{!SendBuffer} c :
  sockfd_ c = true -> st (connect_to (config_ c)) (connect_post c) c.
Proof.
  intros Hs. unfold connect_to. destruct (rs_pton _); cbn [negb]; [|by apply connect_fails].
  apply st_bind. pose proof (law_connect (config_ c) (wire_ c)) as L. unfold st at 1, on_wire.
  destruct (rs_connect (config_ c) (wire_ c)) as [ok s']. cbn in L |- *. destruct L as [He L].
  set (c' := set_socket (sockfd_ c) s' c). destruct ok; cbn [negb].
  - destruct (L eq_refl) as (Hi & Hu & Hsel). eapply st_mono; [by apply (login_spec c')|].
    intros s c2. by apply connect_post_trans.
  - eapply st_mono; [by apply connect_fails|]. intros s c2. by apply connect_post_trans.
Qed.

Lemma Connect_spec `{!SendBuffer} c : st Connect (connect_post c) c.
Proof.
  unfold Connect. apply st_bind. eapply st_mono; [apply Close_spec|]. intros _ c1 (Hc1 & Hf1 & He1).
  apply st_bind. pose proof (law_socket (wire_ c1)) as Hsock. unfold st at 1, on_wire.
  destruct (rs_socket (wire_ c1)) as [ok s2]. cbn in Hsock |- *. set (c2 := set_socket (sockfd_ c1) s2 c1).
  assert (He2 : expired (dbs c) (dbs c2)) by by eapply expired_trans.
  destruct ok; cbn [negb].
  - change (st (connect_to (config_ (set_socket true s2 c1))) (connect_post c) (set_socket true s2 c1)).
    eapply st_mono; [by apply connect_to_spec|]. intros s c'. by apply connect_post_trans.
  - apply st_ret. split_and!; [done..| |done]. intros Hs. cbn in Hs. by rewrite Hf1 in Hs.
Qed.

Lemma EnsureConnected_spec `{!SendBuffer} c :
  redis_ok c ->
  st EnsureConnected (fun s c' => config_ c' = config_ c /\ expired (dbs c) (dbs c') /\ redis_ok c' /\
    (status_ok s = true -> sockfd_ c' = true)) c.
Proof.
  intros Hok. unfold EnsureConnected, st. destruct (sockfd_ c) eqn:E; [by split_and!; try apply expired_refl|].
  destruct (Connect_spec c) as (A & B & C & D). split_and!; try done. intros Hs. by apply D.
Qed.

(** ** The operations *)

Lemma Get_spec `{!SendBuffer} k c :
  redis_ok c ->
  wp (Get k) (fun r c' => exists res, r = Ret res /\ config_ c' = config_ c /\ redis_ok c' /\
    expired (dbs c) (dbs c') /\ forall v, res = Ok (Some v) -> dbs c (wanted c) !! k = Some v) c.
Proof.
  intros Hok. unfold wp, Get. destruct (redis_enabled_ (config_ c)); cbn [negb].
  2: { eexists. split_and!; [done..|apply expired_refl|done]. }
  apply (wp_bind (W := RedisCache)), wp_lift_st. eapply st_mono; [by apply EnsureConnected_spec|].
  intros s c1 (Hc1 & He1 & Hok1 & Hs1). destruct (status_ok s); cbn [negb]; [|apply wp_ret; by eexists].
  destruct (Hok1 (Hs1 eq_refl)) as (Hi & Hsel & Hst). apply wp_bind. eapply wp_mono; [by apply SendCommandGetBulk_spec|].
  intros r c2 (res & -> & [Ho1 Ho2] & He2 & Hres). assert (He : expired (dbs c) (dbs c2)) by by eapply expired_trans.
  destruct res as [o|e]; cbn [result_ok negb].
  - destruct (Hres o eq_refl) as (Hi2 & Hu2 & Hs2 & Hv). apply wp_ret. eexists. split_and!; [done|congruence| |done|].
    + intros _. split_and!; [done| |by left]. rewrite Hs2, Hsel. unfold wanted. by rewrite Ho1.
    + intros v [= ->]. specialize (Hv v eq_refl). rewrite Hsel in Hv. unfold wanted in *. rewrite Hc1 in Hv.
      eapply lookup_weaken; [exact Hv|apply He1].
  - apply wp_bind, wp_lift_st. eapply st_mono; [apply Close_spec|]. intros _ c3 (Hc3 & Hf3 & He3).
    apply wp_ret. eexists. split_and!; [done|congruence| |by eapply expired_trans|done]. unfold redis_ok. by rewrite Hf3.
Qed.

(** The databases after an operation: every entry was there before, or is the one
    the operation sets. *)
Definition only_sets (n : Z) (new : option (string * string)) (d d' : Dbs) : Prop :=
  forall m k v, d' m !! k = Some v -> d m !! k = Some v \/ (m = n /\ new = Some (k, v)).

Lemma expired_only_sets n new d d' : expired d d' -> only_sets n new d d'.
Proof. intros He m k v Hv. left. eapply lookup_weaken; [exact Hv|apply He]. Qed.

Lemma only_sets_expired n new d0 d d' d2 :
  expired d0 d -> only_sets n new d d' -> expired d' d2 -> only_sets n new d0 d2.
Proof.
  intros He Hs He2 m k v Hv. destruct (Hs m k v) as [H|H]; [eapply lookup_weaken; [exact Hv|apply He2]| |by right].
  left. eapply lookup_weaken; [exact H|apply He].
Qed.

Definition sets (args : list string) (new : option (string * string)) : Prop :=
  forall sel d reply sel' d', answer sel d args reply sel' d' -> sel' = sel /\ only_sets sel new d d'.

Lemma run_command_spec `{!SendBuffer} args new c :
  not_get args -> sets args new -> redis_ok c ->
  st (run_command args) (fun _ c' => config_ c' = config_ c /\ redis_ok c' /\ only_sets (wanted c) new (dbs c) (dbs c')) c.
Proof.
  intros Hg Hnew Hok. unfold run_command. apply (st_unless (fun c => negb (redis_enabled_ (config_ c)))); intros _.
  { split_and!; [done..|]. apply expired_only_sets, expired_refl. }
  apply st_bind. eapply st_mono; [by apply EnsureConnected_spec|].
  intros s c1 (Hc1 & He1 & Hok1 & Hs1). destruct (status_ok s); cbn [negb].
  2: { apply st_ret. split_and!; [done..|]. by apply expired_only_sets. }
  destruct (Hok1 (Hs1 eq_refl)) as (Hi & Hsel & Hst). apply st_bind. eapply st_mono; [by apply expect_ok_spec|].
  intros s2 c2 ([Ho1 Ho2] & Hm & Hok2).
  assert (Hd : selected c1 = wanted c) by (rewrite Hsel; unfold wanted; by rewrite Hc1).
  assert (Hsets : only_sets (wanted c) new (dbs c) (dbs c2)).
  { destruct Hm as [He2|(reply & d0 & d1 & He2 & Ha & He3)]; [by apply expired_only_sets; eapply expired_trans|].
    apply Hnew in Ha as [_ Ha]. rewrite Hd in Ha. eapply only_sets_expired; [|exact Ha|done]. by eapply expired_trans. }
  destruct (status_ok s2) eqn:E; cbn [negb].
  - destruct (Hok2 eq_refl) as (Hi2 & Hst2 & reply & (d0 & d1 & _ & Ha & _) & _). apply Hnew in Ha as [Ha _].
    apply st_ret. split_and!; [congruence| |done]. intros _. split_and!; [done| |done].
    rewrite Ha, Hd. unfold wanted. by rewrite Ho1, Hc1.
  - apply st_bind. eapply st_mono; [apply Close_spec|]. intros _ c3 (Hc3 & Hf3 & He3). apply st_ret.
    split_and!; [congruence|unfold redis_ok; by rewrite Hf3|].
    eapply only_sets_expired; [apply expired_refl|exact Hsets|exact He3].
Qed.

Lemma sets_set k v ttl : sets ["SET"; k; v; "EX"; ttl] (Some (k, v)).
Proof.
  intros sel d reply sel' d' Ha. inversion Ha; subst; (split; [done|]); [by apply expired_only_sets, expired_refl|].
  intros m k' v' Hv. unfold update_db in Hv. destruct (Z.eqb_spec m sel') as [->|]; [|by left].
  apply lookup_insert_Some in Hv as [[-> ->]|[_ Hv]]; [by right|by left].
Qed.

Lemma sets_del k : sets ["DEL"; k] None.
Proof.
  intros sel d reply sel' d' Ha. inversion Ha; subst; (split; [done|]); [by apply expired_only_sets, expired_refl|].
  apply expired_only_sets. intros m. unfold update_db. destruct (m =? sel')%Z; [apply delete_subseteq|done].
Qed.

Lemma not_get_set k v ttl : not_get ["SET"; k; v; "EX"; ttl].
Proof. by intros k'. Qed.

Lemma not_get_del k : not_get ["DEL"; k].
Proof. by intros k'. Qed.

(** ** The interface of the metadata store *)

#[export] Instance redis_client : Redis := {|
  redis := RedisCache;
  redis_enabled := Enabled;
  redis_ttl := ObjectMetaTtlSeconds;
  redis_get := Get;
  redis_setex := SetEx;
  redis_del := Del
|}.

#[export] Program Instance redis_client_laws `{!SendBuffer} : RedisLaws := {|
  cache_ok := redis_ok;
  cached c := dbs c (wanted c)
|}.
Next Obligation.
  intros Hp k c Hok. pose proof (Get_spec k c Hok) as Hg. unfold wp in Hg. cbn. destruct (Get k c) as [x c'].
  cbn in Hg. destruct Hg as (res & -> & Hc & Hok' & He & Hv). split_and!; [done| |by exists res].
  replace (wanted c') with (wanted c) by (unfold wanted; by rewrite Hc). apply He.
Qed.
Next Obligation.
  intros Hp k ttl v c Hok. cbn. pose proof (run_command_spec _ _ c (not_get_set k v (to_string ttl)) (sets_set k v (to_string ttl)) Hok) as Hs.
  unfold st in Hs. unfold SetEx. destruct (run_command _ c) as [s c']. cbn in Hs. destruct Hs as (Hc & Hok' & Hs).
  split; [done|]. intros k' v' Hv. unfold wanted in Hv at 1. rewrite Hc in Hv.
  destruct (Hs (wanted c) k' v' Hv) as [?|[_ [= -> ->]]]; auto.
Qed.
Next Obligation.
  intros Hp k c Hok. cbn. pose proof (run_command_spec _ _ c (not_get_del k) (sets_del k) Hok) as Hs.
  unfold st in Hs. unfold Del. destruct (run_command _ c) as [s c']. cbn in Hs. destruct Hs as (Hc & Hok' & Hs).
  split; [done|]. replace (wanted c') with (wanted c) by (unfold wanted; by rewrite Hc).
  apply map_subseteq_spec. intros k' v' Hv. by destruct (Hs (wanted c) k' v' Hv) as [?|[_ ?]].
Qed.
End proofs.

(** ** Runs *)

Inductive cache_op : Type :=
  | OpGet (k : string)
  | OpSetEx (k : string) (ttl : Z) (v : string)
  | OpDel (k : string).

Section runs.
Context `{HR : Redis} {HRL : RedisLaws}.

Definition run_op (op : cache_op) (r : redis) : redis :=
  match op with
  | OpGet k => snd (redis_get k r)
  | OpSetEx k ttl v => snd (redis_setex k ttl v r)
  | OpDel k => snd (redis_del k r)
  end.

Fixpoint run_ops (ops : list cache_op) (r : redis) : redis :=
  match ops with
  | [] => r
  | op :: ops => run_ops ops (run_op op r)
  end.

Lemma run_op_ok op r :
  cache_ok r -> cache_ok (run_op op r) /\
  forall k v, cached (run_op op r) !! k = Some v -> cached r !! k = Some v \/ exists ttl, op = OpSetEx k ttl v.
Proof.
  intros Hr. destruct op as [k|k ttl v|k]; cbn.
  - pose proof (law_get k r Hr) as L. destruct (redis_get k r) as [x r']. destruct L as (L1 & L2 & _). split; [done|].
    intros k' v' Hv. left. by eapply lookup_weaken.
  - pose proof (law_setex k ttl v r Hr) as L. destruct (redis_setex k ttl v r) as [x r']. destruct L as (L1 & L2).
    split; [done|]. intros k' v' Hv. destruct (L2 k' v' Hv) as [?|[-> ->]]; [by left|right; eauto].
  - pose proof (law_del k r Hr) as L. destruct (redis_del k r) as [x r']. destruct L as (L1 & L2). split; [done|].
    intros k' v' Hv. left. by eapply lookup_weaken.
Qed.

Lemma run_ops_ok ops : forall r,
  cache_ok r -> cache_ok (run_ops ops r) /\
  forall k v, cached (run_ops ops r) !! k = Some v -> cached r !! k = Some v \/ exists ttl, OpSetEx k ttl v ∈ ops.
Proof.
  induction ops as [|op ops IH]; intros r Hr; cbn; [by split; [|left]|].
  destruct (run_op_ok op r Hr) as [Hr1 Hop]. destruct (IH _ Hr1) as [Hr2 Hops]. split; [done|].
  intros k v Hv. destruct (Hops k v Hv) as [Hv1|[ttl Hin]]; [|right; exists ttl; by right].
  destruct (Hop k v Hv1) as [?|[ttl ->]]; [by left|right]. exists ttl. by left.
Qed.
End runs.

(** C30. The cache never answers with a value of another key or with one nobody
    stored. The server follows the protocol and the socket its documentation: it
    takes a message of at most 1024 bytes whole, or fails, when nothing waits in its
    send buffer (so the PING of the handshake is not cut; longer commands may be cut
    anywhere). After any sequence of operations of a client that was not connected,
    whatever other sends and receives fail or are cut short, however late the
    replies arrive and whatever entries expire, [Get] does not throw, and the value
    it returns for a key is one that [SetEx] set for that key in the sequence, or one
    that the database of the configuration had for it before the sequence. *)
Theorem redis_values {HS : RedisServer} {HL : RedisServerLaws} {HB : SendBuffer} ops (c : RedisCache) k x c' :
  sockfd_ c = false -> Get k (run_ops (HR := redis_client) ops c) = (x, c') ->
  exists res, x = Ret res /\
    forall v, res = Ok (Some v) -> rs_dbs (wire_ c) (wanted c) !! k = Some v \/ exists ttl, OpSetEx k ttl v ∈ ops.
Proof.
  intros Hf Hg. assert (Hok : redis_ok c) by (intros Hs; congruence).
  destruct (run_ops_ok (HR := redis_client) (HRL := redis_client_laws) ops c Hok) as [Hok' Hops].
  pose proof (law_get (RedisLaws := redis_client_laws) k _ Hok') as L. cbn [redis_get redis_client] in L. rewrite Hg in L. destruct L as (_ & _ & res & -> & Hres). exists res. split; [done|]. intros v Hv.
  exact (Hops k v (Hres v Hv)).
Qed.

(** ** A server *)

(** Bytes received and not executed, bytes answered and not received, the database
    selected, the databases, and the calls that will fail. *)
Record Toy : Type := MkToy {
  toy_in : string;
  toy_out : string;
  toy_sel : Z;
  toy_dbs : Dbs;
  toy_faults : list bool
}.

Definition toy_error : string := "-ERR" +:+ crlf.

Definition toy_exec (args : list string) (sel : Z) (d : Dbs) : string * Z * Dbs :=
  match args with
  | ["AUTH"; _] => ("+OK" +:+ crlf, sel, d)
  | ["SELECT"; n] =>
      match stoi n with
      | Conv m => if String.eqb n (to_string m) then ("+OK" +:+ crlf, m, d) else (toy_error, sel, d)
      | _ => (toy_error, sel, d)
      end
  | ["PING"] => ("+PONG" +:+ crlf, sel, d)
  | ["GET"; k] =>
      match d sel !! k with
      | Some v => if Z.of_nat (String.length v) <=? kMaxValue then (BulkString v, sel, d) else (toy_error, sel, d)
      | None => ("$-1" +:+ crlf, sel, d)
      end
  | ["SET"; k; v; "EX"; ttl] =>
      match stoi ttl with
      | Conv t => if 0 <? t then ("+OK" +:+ crlf, sel, update_db sel <[k := v]> d) else (toy_error, sel, d)
      | _ => (toy_error, sel, d)
      end
  | ["DEL"; k] => (":1" +:+ crlf, sel, update_db sel (delete k) d)
  | _ => (toy_error, sel, d)
  end.

(** The next call: whether it fails. *)
Definition toy_fault (s : Toy) : bool * Toy :=
  match toy_faults s with
  | [] => (false, s)
  | f :: fs => (f, MkToy (toy_in s) (toy_out s) (toy_sel s) (toy_dbs s) fs)
  end.

(** All of [data] is taken; a command is executed when it is complete. *)
Definition toy_receive (data : string) (s : Toy) : Toy :=
  let taken := toy_in s +:+ data in
  match decode_command taken with
  | Some (args, _) =>
      let '(reply, sel, d) := toy_exec args (toy_sel s) (toy_dbs s) in
      MkToy "" (toy_out s +:+ reply) sel d (toy_faults s)
  | None => MkToy taken (toy_out s) (toy_sel s) (toy_dbs s) (toy_faults s)
  end.

Definition toy_send (data : string) (s : Toy) : Z * Toy :=
  let '(failed, s) := toy_fault s in
  if failed || str_empty data then (-1, s) else (Z.of_nat (String.length data), toy_receive data s).

Definition toy_recv (n : nat) (s : Toy) : option string * Toy :=
  let '(failed, s) := toy_fault s in
  if failed : bool then (None, s)
  else match toy_out s, n with
  | "", _ | _, O => (None, s)
  | out, _ => (Some (str_take n out), MkToy (toy_in s) (str_drop n out) (toy_sel s) (toy_dbs s) (toy_faults s))
  end.

#[export] Instance toy_redis : RedisServer := {|
  rs := Toy;
  rs_pton h := negb (str_empty h);
  rs_socket s := (true, s);
  rs_connect _ s := (true, MkToy "" "" 0 (toy_dbs s) (toy_faults s));
  rs_close s := s;
  rs_send := toy_send;
  rs_recv := toy_recv;
  rs_unread := toy_out
|}.

(** A command that can be read does not change when more bytes arrive. *)
Lemma strip_prefix_more p s r m : strip_prefix p s = Some r -> strip_prefix p (s +:+ m) = Some (r +:+ m).
Proof.
  revert s. induction p as [|a p IH]; intros s; cbn.
  - intros [= ->]. by destruct (r +:+ m).
  - destruct s as [|b s]; [done|]. cbn. destruct (Ascii.eqb a b); [apply IH|done].
Qed.

Lemma scan_digits_more s m : forall acc n r,
  scan_digits acc s = (n, r) -> r <> "" -> scan_digits acc (s +:+ m) = (n, r +:+ m).
Proof.
  induction s as [|c s IH]; intros acc n r; cbn; [by intros [= _ <-]|].
  destruct (digit_val c); [apply IH|]. by intros [= <- <-].
Qed.

Lemma decode_length_more kind s n r m :
  decode_length kind s = Some (n, r) -> decode_length kind (s +:+ m) = Some (n, r +:+ m).
Proof.
  unfold decode_length. destruct (strip_prefix kind s) as [r0|] eqn:E; [|done].
  rewrite (strip_prefix_more _ _ _ m E). destruct (scan_digits 0 r0) as [z r1] eqn:Es.
  destruct (strip_prefix crlf r1) as [r2|] eqn:Ep; cbn [fmap option_fmap option_map]; [|done]. intros [= <- <-].
  rewrite (scan_digits_more _ m _ _ _ Es) by (by intros ->). cbv beta iota. by rewrite (strip_prefix_more _ _ _ m Ep).
Qed.

Lemma str_drop_app_le n a b : (n <= String.length a)%nat -> str_drop n (a +:+ b) = str_drop n a +:+ b.
Proof.
  revert a. induction n as [|n IH]; intros a Hn; [by destruct a, b|]. destruct a; cbn in *; [lia|apply IH; lia].
Qed.

Lemma decode_bulk_more s arg r m : decode_bulk s = Some (arg, r) -> decode_bulk (s +:+ m) = Some (arg, r +:+ m).
Proof.
  unfold decode_bulk. destruct (decode_length "$" s) as [[n r0]|] eqn:E; [|done].
  rewrite (decode_length_more _ _ _ _ m E). destruct (Nat.leb_spec n (String.length r0)) as [Hn|]; [|done].
  destruct (strip_prefix crlf (str_drop n r0)) as [r1|] eqn:Ep; cbn [fmap option_fmap option_map]; [|done]. intros [= <- <-].
  rewrite (proj2 (Nat.leb_le _ _)) by (rewrite str_length_app; lia).
  by rewrite str_drop_app_le, (strip_prefix_more _ _ _ m Ep), str_take_app_le by lia.
Qed.

Lemma decode_bulks_more n m : forall s args r,
  decode_bulks n s = Some (args, r) -> decode_bulks n (s +:+ m) = Some (args, r +:+ m).
Proof.
  induction n as [|n IH]; intros s args r; cbn; [by intros [= <- <-]|].
  destruct (decode_bulk s) as [[arg r0]|] eqn:E; [|done]. rewrite (decode_bulk_more _ _ _ m E).
  destruct (decode_bulks n r0) as [[args' r1]|] eqn:Eb; cbn; [|done]. intros [= <- <-]. by rewrite (IH _ _ _ Eb).
Qed.

Lemma decode_command_more s args r m :
  decode_command s = Some (args, r) -> decode_command (s +:+ m) = Some (args, r +:+ m).
Proof.
  unfold decode_command. destruct (decode_length "*" s) as [[n r0]|] eqn:E; [|done].
  rewrite (decode_length_more _ _ _ _ m E). apply decode_bulks_more.
Qed.

Lemma toy_exec_answers args sel d :
  let '(reply, sel', d') := toy_exec args sel d in answer sel d args reply sel' d'.
Proof.
  assert (He : answer sel d args toy_error sel d) by by apply (ans_error sel d args "ERR").
  unfold toy_exec. repeat (case_match; try exact He; simplify_eq); try by constructor.
  - apply ans_hit; [done|by apply Z.leb_le].
  - match goal with E : String.eqb _ _ = true |- _ => apply String.eqb_eq in E as -> end. apply ans_select.
  - by apply (ans_del _ _ _ 1).
Qed.

Lemma toy_receive_law data s taken :
  taken = toy_in s +:+ data -> (exists args more, BuildRespCommand args = taken +:+ more) ->
  exists cmds replies, taken = encode_commands cmds +:+ toy_in (toy_receive data s) /\
    decode_command (toy_in (toy_receive data s)) = None /\ toy_out (toy_receive data s) = toy_out s +:+ replies /\
    exists d, answers (toy_sel s) (toy_dbs s) cmds replies (toy_sel (toy_receive data s)) d /\
      expired d (toy_dbs (toy_receive data s)).
Proof.
  intros -> (args0 & more & Eb). unfold toy_receive. destruct (decode_command (toy_in s +:+ data)) as [[args r]|] eqn:E.
  - pose proof (toy_exec_answers args (toy_sel s) (toy_dbs s)) as Hx.
    destruct (toy_exec args (toy_sel s) (toy_dbs s)) as [[reply sel'] d'].
    pose proof (decode_command_more _ _ _ more E) as E2.
    rewrite <-Eb, <-(str_app_nil_r (BuildRespCommand args0)), decode_command_app in E2.
    injection E2 as -> E3. symmetry in E3. apply str_app_empty in E3 as [-> ->]. rewrite str_app_nil_r in Eb.
    exists [args], reply. cbn [toy_in toy_out toy_sel toy_dbs encode_commands].
    rewrite !str_app_nil_r. split_and!; [by symmetry|done|done|]. exists d'. split; [|apply expired_refl].
    rewrite <-(str_app_nil_r reply). eapply answers_cons; [exact Hx|constructor].
  - exists [], "". cbn [toy_in toy_out toy_sel toy_dbs]. split_and!; [done|done|by rewrite str_app_nil_r|].
    eexists. split; [constructor|apply expired_refl].
Qed.

Lemma str_length_take n s : (String.length (str_take n s) <= n)%nat.
Proof. revert s. induction n as [|n IH]; intros [|a s]; cbn; try lia. specialize (IH s). lia. Qed.

Lemma toy_fault_spec s :
  let '(_, s') := toy_fault s in
  toy_in s' = toy_in s /\ toy_out s' = toy_out s /\ toy_sel s' = toy_sel s /\ toy_dbs s' = toy_dbs s.
Proof. unfold toy_fault. by destruct (toy_faults s). Qed.

#[export] Program Instance toy_redis_laws : RedisServerLaws := {|
  rs_input := toy_in;
  rs_selected := toy_sel;
  rs_dbs := toy_dbs
|}.
Next Obligation. intros s. apply expired_refl. Qed.
Next Obligation. intros s. apply expired_refl. Qed.
Next Obligation. intros cfg s. cbn. split; [apply expired_refl|done]. Qed.
Next Obligation.
  intros data s. cbn. unfold toy_send. pose proof (toy_fault_spec s) as Hf. destruct (toy_fault s) as [failed s1].
  destruct Hf as (H1 & H2 & H3 & H4). rewrite <-H1, <-H2, <-H3, <-H4. destruct failed, data as [|a data]; cbn [orb str_empty].
  1-3: left; split_and!; [lia|done..|apply expired_refl].
  right. split; [cbn; lia|]. rewrite Nat2Z.id, str_take_all by lia. intros taken. apply toy_receive_law.
Qed.
Next Obligation.
  intros n s. cbn. unfold toy_recv. pose proof (toy_fault_spec s) as Hf. destruct (toy_fault s) as [failed s1].
  destruct Hf as (H1 & H2 & H3 & H4). rewrite <-H1, <-H2, <-H3, <-H4.
  destruct failed; [split_and!; try done; apply expired_refl|].
  destruct (toy_out s1) as [|a out] eqn:Eo; [split_and!; try done; apply expired_refl|].
  destruct n as [|n]; [split_and!; try done; apply expired_refl|].
  cbn [toy_in toy_out toy_sel toy_dbs]. split_and!; [done..|apply expired_refl|cbn; lia| |].
  - cbn. pose proof (str_length_take n out). lia.
  - by rewrite str_take_drop.
Qed.

#[export] Instance toy_send_buffer : SendBuffer.
Proof.
  intros data s _ _. cbn. unfold toy_send. destruct (toy_fault s) as [[] s1], data; cbn [orb str_empty]; (left; lia) || by right.
Qed.

(** ** Runs on it *)

Definition toy_config : RedisConfig := MkRedisConfig true "127.0.0.1" 6379 "secret" 2 500 1000 120.

Definition toy_client (faults : list bool) : RedisCache :=
  MkRedisCache toy_redis toy_config false (MkToy "" "" 0 (fun _ => ∅) faults).

(** A value with line ends, stored and read back. *)
Example set_then_get :
  fst (Get "k" (run_ops (HR := redis_client) [OpSetEx "k" 60 ("a" +:+ crlf +:+ "$1")] (toy_client []))) =
  Ret (Ok (Some ("a" +:+ crlf +:+ "$1"))).
Proof. vm_compute. reflexivity. Qed.

Lemma redis_values_witness :
  exists res, Ret (Ok (Some "v")) = Ret res /\
    forall v, res = Ok (Some v) ->
      rs_dbs (wire_ (toy_client [])) (wanted (toy_client [])) !! "k" = Some v \/
      exists ttl, OpSetEx "k" ttl v ∈ [OpSetEx "k" 60 "v"; OpDel "j"].
Proof.
  set (c' := snd (Get "k" (run_ops (HR := redis_client) [OpSetEx "k" 60 "v"; OpDel "j"] (toy_client [])))).
  apply (redis_values [OpSetEx "k" 60 "v"; OpDel "j"] (toy_client []) "k" (Ret (Ok (Some "v"))) c'); [reflexivity|].
  apply injective_projections; [vm_compute; reflexivity|reflexivity].
Defined.

(** The last command of [Connect] leaves its socket open when it fails. Here the
    reply to PING is late, for which [Del] fails; the client then takes it for the
    reply to its next command, and [SetEx] reports success although the server
    refused the command. *)
Example late_pong_answers_set :
  let c := run_ops (HR := redis_client) [OpDel "j"] (toy_client (replicate 13 false ++ [true])) in
  let '(status, c') := SetEx "k" 0 "v" c in
  status_ok status = true /\ toy_out (wire_ c') = toy_error /\ toy_dbs (wire_ c') 2 !! "k" = None.
Proof. vm_compute. done. Qed.
