(* ===== verification/Config.v ===== *)
(** * Configuration (src/src/util/config.h, .cpp)

    The sections of the configuration with their defaults, and their reading from a
    YAML document: a key that is there is converted, which may throw, and a key or a
    section that is not leaves the default. The YAML library is the class [YamlLib]. *)
From S2P Require Import Prelude RedisCache.

Open Scope Z_scope.

(** ** Sections *)

Record ServerConfig : Type := MkServerConfig {
  sc_listen_ip : string;
  sc_listen_port : Z;
  sc_io_threads : Z;
  sc_worker_threads : Z;
  sc_recv_buffer_size : Z;
  sc_send_buffer_size : Z
}.

Record StorageConfig : Type := MkStorageConfig {
  st_data_dir : string;
  st_tmp_dir : string;
  st_sync_mode : string
}.

Record MySQLConfig : Type := MkMySQLConfig {
  my_host : string;
  my_port : Z;
  my_user : string;
  my_password : string;
  my_database : string;
  my_pool_size : Z;
  my_connect_timeout : Z;
  my_read_timeout : Z
}.

Record AuthConfig : Type := MkAuthConfig {
  au_enabled : bool;
  au_static_tokens : list string
}.

Record LimitsConfig : Type := MkLimitsConfig {
  li_max_body_bytes : Z;
  li_max_header_bytes : Z;
  li_max_concurrent_uploads : Z;
  li_max_concurrent_downloads : Z;
  li_connection_idle_timeout : Z;
  li_request_timeout : Z
}.

Record MultipartConfig : Type := MkMultipartConfig {
  mp_min_part_size : Z;
  mp_max_part_number : Z;
  mp_expire_hours : Z
}.

Record LogConfig : Type := MkLogConfig {
  lo_level : string;
  lo_access_log_path : string;
  lo_error_log_path : string;
  lo_json_format : bool
}.

Record MetricsConfig : Type := MkMetricsConfig {
  me_enabled : bool;
  me_listen_port : Z;
  me_path : string
}.

Record GCConfig : Type := MkGCConfig {
  gc_enabled : bool;
  gc_interval_seconds : Z;
  gc_batch_size : Z
}.

Record Config : Type := MkConfig {
  cfg_server : ServerConfig;
  cfg_storage : StorageConfig;
  cfg_mysql : MySQLConfig;
  cfg_redis : RedisConfig;
  cfg_auth : AuthConfig;
  cfg_limits : LimitsConfig;
  cfg_multipart : MultipartConfig;
  cfg_log : LogConfig;
  cfg_metrics : MetricsConfig;
  cfg_gc : GCConfig
}.

(** The default member initializers. *)
Definition default_server : ServerConfig := MkServerConfig "0.0.0.0" 8080 4 8 0 0.
Definition default_storage : StorageConfig := MkStorageConfig "/var/lib/minis3/data" "/var/lib/minis3/tmp" "fsync".
Definition default_mysql : MySQLConfig := MkMySQLConfig "127.0.0.1" 3306 "minis3" "minis3_password" "minis3" 16 5 30.
Definition default_redis : RedisConfig := MkRedisConfig false "127.0.0.1" 6379 "" 0 500 1000 120.
Definition default_auth : AuthConfig := MkAuthConfig true [].
Definition default_limits : LimitsConfig := MkLimitsConfig 5368709120 8192 100 500 60 3600.
Definition default_multipart : MultipartConfig := MkMultipartConfig 5242880 10000 24.
Definition default_log : LogConfig := MkLogConfig "info" "/var/log/minis3/access.log" "/var/log/minis3/error.log" true.
Definition default_metrics : MetricsConfig := MkMetricsConfig true 9090 "/metrics".
Definition default_gc : GCConfig := MkGCConfig true 300 100.

Definition default_config : Config := MkConfig default_server default_storage default_mysql default_redis default_auth default_limits default_multipart default_log default_metrics default_gc.

(** ** Reading *)

(** The YAML library: [yaml_get] is [node[key]], [None] for an undefined node; the
    conversions are [as<T>()], integers with the range of their type. *)
Class YamlLib : Type := {
  yaml : Type;
  yaml_load : string -> exn yaml;
  yaml_get : string -> yaml -> exn (option yaml);
  yaml_string : yaml -> exn string;
  yaml_bool : yaml -> exn bool;
  yaml_int : Z -> Z -> yaml -> exn Z;
  yaml_items : yaml -> list yaml
}.

Section reading.
Context `{YamlLib}.

Definition GetOrDefault {A} (read : yaml -> exn A) (node : yaml) (key : string) (default_value : A) : exn A :=
  n ← yaml_get key node;
  match n with Some n => read n | None => mret default_value end.

Fixpoint read_tokens (items : list yaml) : exn (list string) :=
  match items with
  | [] => mret []
  | n :: items => t ← yaml_string n; ts ← read_tokens items; mret (t :: ts)
  end.

Definition yaml_tokens (node : yaml) : exn (list string) := read_tokens (yaml_items node).

Definition ParseServerConfig (node : option yaml) : exn ServerConfig :=
  match node with
  | None => mret default_server
  | Some node =>
      listen_ip_v ← GetOrDefault yaml_string node "listen_ip" (sc_listen_ip default_server);
      listen_port_v ← GetOrDefault (yaml_int 0 65535) node "listen_port" (sc_listen_port default_server);
      io_threads_v ← GetOrDefault (yaml_int (-2147483648) 2147483647) node "io_threads" (sc_io_threads default_server);
      worker_threads_v ← GetOrDefault (yaml_int (-2147483648) 2147483647) node "worker_threads" (sc_worker_threads default_server);
      recv_buffer_size_v ← GetOrDefault (yaml_int (-2147483648) 2147483647) node "recv_buffer_size" (sc_recv_buffer_size default_server);
      send_buffer_size_v ← GetOrDefault (yaml_int (-2147483648) 2147483647) node "send_buffer_size" (sc_send_buffer_size default_server);
      mret (MkServerConfig listen_ip_v listen_port_v io_threads_v worker_threads_v recv_buffer_size_v send_buffer_size_v)
  end.

Definition ParseStorageConfig (node : option yaml) : exn StorageConfig :=
  match node with
  | None => mret default_storage
  | Some node =>
      data_dir_v ← GetOrDefault yaml_string node "data_dir" (st_data_dir default_storage);
      tmp_dir_v ← GetOrDefault yaml_string node "tmp_dir" (st_tmp_dir default_storage);
      sync_mode_v ← GetOrDefault yaml_string node "sync_mode" (st_sync_mode default_storage);
      mret (MkStorageConfig data_dir_v tmp_dir_v sync_mode_v)
  end.

Definition ParseMySQLConfig (node : option yaml) : exn MySQLConfig :=
  match node with
  | None => mret default_mysql
  | Some node =>
      host_v ← GetOrDefault yaml_string node "host" (my_host default_mysql);
      port_v ← GetOrDefault (yaml_int 0 65535) node "port" (my_port default_mysql);
      user_v ← GetOrDefault yaml_string node "user" (my_user default_mysql);
      password_v ← GetOrDefault yaml_string node "password" (my_password default_mysql);
      database_v ← GetOrDefault yaml_string node "database" (my_database default_mysql);
      pool_size_v ← GetOrDefault (yaml_int (-2147483648) 2147483647) node "pool_size" (my_pool_size default_mysql);
      connect_timeout_v ← GetOrDefault (yaml_int (-2147483648) 2147483647) node "connect_timeout" (my_connect_timeout default_mysql);
      read_timeout_v ← GetOrDefault (yaml_int (-2147483648) 2147483647) node "read_timeout" (my_read_timeout default_mysql);
      mret (MkMySQLConfig host_v port_v user_v password_v database_v pool_size_v connect_timeout_v read_timeout_v)
  end.

Definition ParseRedisConfig (node : option yaml) : exn RedisConfig :=
  match node with
  | None => mret default_redis
  | Some node =>
      enabled_v ← GetOrDefault yaml_bool node "enabled" (redis_enabled_ default_redis);
      host_v ← GetOrDefault yaml_string node "host" (redis_host default_redis);
      port_v ← GetOrDefault (yaml_int 0 65535) node "port" (redis_port default_redis);
      password_v ← GetOrDefault yaml_string node "password" (redis_password default_redis);
      db_v ← GetOrDefault (yaml_int (-2147483648) 2147483647) node "db" (redis_db default_redis);
      connect_timeout_ms_v ← GetOrDefault (yaml_int (-2147483648) 2147483647) node "connect_timeout_ms" (redis_connect_timeout_ms default_redis);
      command_timeout_ms_v ← GetOrDefault (yaml_int (-2147483648) 2147483647) node "command_timeout_ms" (redis_command_timeout_ms default_redis);
      object_meta_ttl_seconds_v ← GetOrDefault (yaml_int (-2147483648) 2147483647) node "object_meta_ttl_seconds" (redis_object_meta_ttl_seconds default_redis);
      mret (MkRedisConfig enabled_v host_v port_v password_v db_v connect_timeout_ms_v command_timeout_ms_v object_meta_ttl_seconds_v)
  end.

Definition ParseAuthConfig (node : option yaml) : exn AuthConfig :=
  match node with
  | None => mret default_auth
  | Some node =>
      enabled_v ← GetOrDefault yaml_bool node "enabled" (au_enabled default_auth);
      static_tokens_v ← GetOrDefault yaml_tokens node "static_tokens" (au_static_tokens default_auth);
      mret (MkAuthConfig enabled_v static_tokens_v)
  end.

Definition ParseLimitsConfig (node : option yaml) : exn LimitsConfig :=
  match node with
  | None => mret default_limits
  | Some node =>
      max_body_bytes_v ← GetOrDefault (yaml_int 0 18446744073709551615) node "max_body_bytes" (li_max_body_bytes default_limits);
      max_header_bytes_v ← GetOrDefault (yaml_int 0 18446744073709551615) node "max_header_bytes" (li_max_header_bytes default_limits);
      max_concurrent_uploads_v ← GetOrDefault (yaml_int (-2147483648) 2147483647) node "max_concurrent_uploads" (li_max_concurrent_uploads default_limits);
      max_concurrent_downloads_v ← GetOrDefault (yaml_int (-2147483648) 2147483647) node "max_concurrent_downloads" (li_max_concurrent_downloads default_limits);
      connection_idle_timeout_v ← GetOrDefault (yaml_int (-2147483648) 2147483647) node "connection_idle_timeout" (li_connection_idle_timeout default_limits);
      request_timeout_v ← GetOrDefault (yaml_int (-2147483648) 2147483647) node "request_timeout" (li_request_timeout default_limits);
      mret (MkLimitsConfig max_body_bytes_v max_header_bytes_v max_concurrent_uploads_v max_concurrent_downloads_v connection_idle_timeout_v request_timeout_v)
  end.

Definition ParseMultipartConfig (node : option yaml) : exn MultipartConfig :=
  match node with
  | None => mret default_multipart
  | Some node =>
      min_part_size_v ← GetOrDefault (yaml_int 0 18446744073709551615) node "min_part_size" (mp_min_part_size default_multipart);
      max_part_number_v ← GetOrDefault (yaml_int (-2147483648) 2147483647) node "max_part_number" (mp_max_part_number default_multipart);
      expire_hours_v ← GetOrDefault (yaml_int (-2147483648) 2147483647) node "expire_hours" (mp_expire_hours default_multipart);
      mret (MkMultipartConfig min_part_size_v max_part_number_v expire_hours_v)
  end.

Definition ParseLogConfig (node : option yaml) : exn LogConfig :=
  match node with
  | None => mret default_log
  | Some node =>
      level_v ← GetOrDefault yaml_string node "level" (lo_level default_log);
      access_log_path_v ← GetOrDefault yaml_string node "access_log_path" (lo_access_log_path default_log);
      error_log_path_v ← GetOrDefault yaml_string node "error_log_path" (lo_error_log_path default_log);
      json_format_v ← GetOrDefault yaml_bool node "json_format" (lo_json_format default_log);
      mret (MkLogConfig level_v access_log_path_v error_log_path_v json_format_v)
  end.

Definition ParseMetricsConfig (node : option yaml) : exn MetricsConfig :=
  match node with
  | None => mret default_metrics
  | Some node =>
      enabled_v ← GetOrDefault yaml_bool node "enabled" (me_enabled default_metrics);
      listen_port_v ← GetOrDefault (yaml_int 0 65535) node "listen_port" (me_listen_port default_metrics);
      path_v ← GetOrDefault yaml_string node "path" (me_path default_metrics);
      mret (MkMetricsConfig enabled_v listen_port_v path_v)
  end.

Definition ParseGCConfig (node : option yaml) : exn GCConfig :=
  match node with
  | None => mret default_gc
  | Some node =>
      enabled_v ← GetOrDefault yaml_bool node "enabled" (gc_enabled default_gc);
      interval_seconds_v ← GetOrDefault (yaml_int (-2147483648) 2147483647) node "interval_seconds" (gc_interval_seconds default_gc);
      batch_size_v ← GetOrDefault (yaml_int (-2147483648) 2147483647) node "batch_size" (gc_batch_size default_gc);
      mret (MkGCConfig enabled_v interval_seconds_v batch_size_v)
  end.

Definition LoadFromNode (root : yaml) : exn Config :=
  server_n ← yaml_get "server" root; server_v ← ParseServerConfig server_n;
  storage_n ← yaml_get "storage" root; storage_v ← ParseStorageConfig storage_n;
  mysql_n ← yaml_get "mysql" root; mysql_v ← ParseMySQLConfig mysql_n;
  redis_n ← yaml_get "redis" root; redis_v ← ParseRedisConfig redis_n;
  auth_n ← yaml_get "auth" root; auth_v ← ParseAuthConfig auth_n;
  limits_n ← yaml_get "limits" root; limits_v ← ParseLimitsConfig limits_n;
  multipart_n ← yaml_get "multipart" root; multipart_v ← ParseMultipartConfig multipart_n;
  log_n ← yaml_get "log" root; log_v ← ParseLogConfig log_n;
  metrics_n ← yaml_get "metrics" root; metrics_v ← ParseMetricsConfig metrics_n;
  gc_n ← yaml_get "gc" root; gc_v ← ParseGCConfig gc_n;
  mret (MkConfig server_v storage_v mysql_v redis_v auth_v limits_v multipart_v log_v metrics_v gc_v).

Definition LoadFromString (yaml_content : string) : exn Config := root ← yaml_load yaml_content; LoadFromNode root.

(** [content] is what the file holds, [None] when it cannot be opened. *)
Definition LoadFromFile (path : string) (content : option string) : exn Config :=
  match content with
  | Some c => LoadFromString c
  | None => Throw ("Failed to open config file: " +:+ path)
  end.
End reading.

(** ** What is read *)

(** The value of a key in a list of pairs. *)
Fixpoint assoc {A} (k : string) (l : list (string * A)) : option A :=
  match l with
  | [] => None
  | (k', v) :: l => if String.eqb k' k then Some v else assoc k l
  end.

(** Trees of the library and what it promises of them. *)
Class YamlLaws `{YamlLib} : Type := {
  y_map : list (string * yaml) -> yaml;
  y_str : string -> yaml;
  y_bool : bool -> yaml;
  y_int : Z -> yaml;
  y_seq : list yaml -> yaml;
  law_get k l : yaml_get k (y_map l) = Ret (assoc k l);
  law_string s : yaml_string (y_str s) = Ret s;
  law_bool b : yaml_bool (y_bool b) = Ret b;
  law_int lo hi n : lo <= n <= hi -> yaml_int lo hi (y_int n) = Ret n;
  law_items l : yaml_items (y_seq l) = l
}.

Section trees.
Context {HY : YamlLib} {HL : YamlLaws}.

(** The document that writes out a configuration, with the keys of the sample
    configuration of the repository. *)
Definition server_tree (c : ServerConfig) : yaml :=
  y_map [("listen_ip", y_str (sc_listen_ip c));
    ("listen_port", y_int (sc_listen_port c));
    ("io_threads", y_int (sc_io_threads c));
    ("worker_threads", y_int (sc_worker_threads c));
    ("recv_buffer_size", y_int (sc_recv_buffer_size c));
    ("send_buffer_size", y_int (sc_send_buffer_size c))].
Definition storage_tree (c : StorageConfig) : yaml :=
  y_map [("data_dir", y_str (st_data_dir c));
    ("tmp_dir", y_str (st_tmp_dir c));
    ("sync_mode", y_str (st_sync_mode c))].
Definition mysql_tree (c : MySQLConfig) : yaml :=
  y_map [("host", y_str (my_host c));
    ("port", y_int (my_port c));
    ("user", y_str (my_user c));
    ("password", y_str (my_password c));
    ("database", y_str (my_database c));
    ("pool_size", y_int (my_pool_size c));
    ("connect_timeout", y_int (my_connect_timeout c));
    ("read_timeout", y_int (my_read_timeout c))].
Definition redis_tree (c : RedisConfig) : yaml :=
  y_map [("enabled", y_bool (redis_enabled_ c));
    ("host", y_str (redis_host c));
    ("port", y_int (redis_port c));
    ("password", y_str (redis_password c));
    ("db", y_int (redis_db c));
    ("connect_timeout_ms", y_int (redis_connect_timeout_ms c));
    ("command_timeout_ms", y_int (redis_command_timeout_ms c));
    ("object_meta_ttl_seconds", y_int (redis_object_meta_ttl_seconds c))].
Definition auth_tree (c : AuthConfig) : yaml :=
  y_map [("enabled", y_bool (au_enabled c));
    ("static_tokens", y_seq (y_str <$> au_static_tokens c))].
Definition limits_tree (c : LimitsConfig) : yaml :=
  y_map [("max_body_bytes", y_int (li_max_body_bytes c));
    ("max_header_bytes", y_int (li_max_header_bytes c));
    ("max_concurrent_uploads", y_int (li_max_concurrent_uploads c));
    ("max_concurrent_downloads", y_int (li_max_concurrent_downloads c));
    ("connection_idle_timeout", y_int (li_connection_idle_timeout c));
    ("request_timeout", y_int (li_request_timeout c))].
Definition multipart_tree (c : MultipartConfig) : yaml :=
  y_map [("min_part_size", y_int (mp_min_part_size c));
    ("max_part_number", y_int (mp_max_part_number c));
    ("expire_hours", y_int (mp_expire_hours c))].
Definition log_tree (c : LogConfig) : yaml :=
  y_map [("level", y_str (lo_level c));
    ("access_log_path", y_str (lo_access_log_path c));
    ("error_log_path", y_str (lo_error_log_path c));
    ("json_format", y_bool (lo_json_format c))].
Definition metrics_tree (c : MetricsConfig) : yaml :=
  y_map [("enabled", y_bool (me_enabled c));
    ("listen_port", y_int (me_listen_port c));
    ("path", y_str (me_path c))].
Definition gc_tree (c : GCConfig) : yaml :=
  y_map [("enabled", y_bool (gc_enabled c));
    ("interval_seconds", y_int (gc_interval_seconds c));
    ("batch_size", y_int (gc_batch_size c))].

Definition config_tree (c : Config) : yaml :=
  y_map [("server", server_tree (cfg_server c));
    ("storage", storage_tree (cfg_storage c));
    ("mysql", mysql_tree (cfg_mysql c));
    ("redis", redis_tree (cfg_redis c));
    ("auth", auth_tree (cfg_auth c));
    ("limits", limits_tree (cfg_limits c));
    ("multipart", multipart_tree (cfg_multipart c));
    ("log", log_tree (cfg_log c));
    ("metrics", metrics_tree (cfg_metrics c));
    ("gc", gc_tree (cfg_gc c))].

(** The integers fit their types. *)
Definition server_fits (c : ServerConfig) : Prop :=
  0 <= sc_listen_port c <= 65535 /\
  -2147483648 <= sc_io_threads c <= 2147483647 /\
  -2147483648 <= sc_worker_threads c <= 2147483647 /\
  -2147483648 <= sc_recv_buffer_size c <= 2147483647 /\
  -2147483648 <= sc_send_buffer_size c <= 2147483647.
Definition mysql_fits (c : MySQLConfig) : Prop :=
  0 <= my_port c <= 65535 /\
  -2147483648 <= my_pool_size c <= 2147483647 /\
  -2147483648 <= my_connect_timeout c <= 2147483647 /\
  -2147483648 <= my_read_timeout c <= 2147483647.
Definition redis_fits (c : RedisConfig) : Prop :=
  0 <= redis_port c <= 65535 /\
  -2147483648 <= redis_db c <= 2147483647 /\
  -2147483648 <= redis_connect_timeout_ms c <= 2147483647 /\
  -2147483648 <= redis_command_timeout_ms c <= 2147483647 /\
  -2147483648 <= redis_object_meta_ttl_seconds c <= 2147483647.
Definition limits_fits (c : LimitsConfig) : Prop :=
  0 <= li_max_body_bytes c <= 18446744073709551615 /\
  0 <= li_max_header_bytes c <= 18446744073709551615 /\
  -2147483648 <= li_max_concurrent_uploads c <= 2147483647 /\
  -2147483648 <= li_max_concurrent_downloads c <= 2147483647 /\
  -2147483648 <= li_connection_idle_timeout c <= 2147483647 /\
  -2147483648 <= li_request_timeout c <= 2147483647.
Definition multipart_fits (c : MultipartConfig) : Prop :=
  0 <= mp_min_part_size c <= 18446744073709551615 /\
  -2147483648 <= mp_max_part_number c <= 2147483647 /\
  -2147483648 <= mp_expire_hours c <= 2147483647.
Definition metrics_fits (c : MetricsConfig) : Prop :=
  0 <= me_listen_port c <= 65535.
Definition gc_fits (c : GCConfig) : Prop :=
  -2147483648 <= gc_interval_seconds c <= 2147483647 /\
  -2147483648 <= gc_batch_size c <= 2147483647.

Definition config_fits (c : Config) : Prop :=
  server_fits (cfg_server c) /\
  mysql_fits (cfg_mysql c) /\
  redis_fits (cfg_redis c) /\
  limits_fits (cfg_limits c) /\
  multipart_fits (cfg_multipart c) /\
  metrics_fits (cfg_metrics c) /\
  gc_fits (cfg_gc c).

Lemma get_found {A} (read : yaml -> exn A) (k : string) n l d v :
  assoc k l = Some n -> read n = Ret v -> GetOrDefault read (y_map l) k d = Ret v.
Proof. intros E Hr. unfold GetOrDefault. rewrite law_get, E. exact Hr. Qed.

Lemma get_section k n l :
  assoc k l = Some n -> yaml_get k (y_map l) = Ret (Some n).
Proof. intros E. by rewrite law_get, E. Qed.

Lemma get_missing {A} (read : yaml -> exn A) (k : string) d : GetOrDefault read (y_map []) k d = Ret d.
Proof. unfold GetOrDefault. by rewrite law_get. Qed.

Lemma tokens_read l : yaml_tokens (y_seq (y_str <$> l)) = Ret l.
Proof.
  unfold yaml_tokens. rewrite law_items. induction l as [|t l IH]; [done|]. cbn. rewrite law_string. cbn.
  change (read_tokens (y_str <$> l)) with (read_tokens (y_str <$> l)). rewrite IH. done.
Qed.

Ltac read_key :=
  first [ erewrite get_found; [|reflexivity|apply law_string]
        | erewrite get_found; [|reflexivity|apply law_bool]
        | erewrite get_found; [|reflexivity|apply tokens_read]
        | erewrite get_found; [|reflexivity|apply law_int; eassumption] ];
  cbn [mbind exn_bind].
Lemma server_reads (c : ServerConfig) : server_fits c -> ParseServerConfig (Some (server_tree c)) = Ret c.
Proof. intros (H0 & H1 & H2 & H3 & H4). unfold ParseServerConfig, server_tree. repeat read_key. by destruct c. Qed.

Lemma storage_reads (c : StorageConfig) : ParseStorageConfig (Some (storage_tree c)) = Ret c.
Proof. unfold ParseStorageConfig, storage_tree. repeat read_key. by destruct c. Qed.

Lemma mysql_reads (c : MySQLConfig) : mysql_fits c -> ParseMySQLConfig (Some (mysql_tree c)) = Ret c.
Proof. intros (H0 & H1 & H2 & H3). unfold ParseMySQLConfig, mysql_tree. repeat read_key. by destruct c. Qed.

Lemma redis_reads (c : RedisConfig) : redis_fits c -> ParseRedisConfig (Some (redis_tree c)) = Ret c.
Proof. intros (H0 & H1 & H2 & H3 & H4). unfold ParseRedisConfig, redis_tree. repeat read_key. by destruct c. Qed.

Lemma auth_reads (c : AuthConfig) : ParseAuthConfig (Some (auth_tree c)) = Ret c.
Proof. unfold ParseAuthConfig, auth_tree. repeat read_key. by destruct c. Qed.

Lemma limits_reads (c : LimitsConfig) : limits_fits c -> ParseLimitsConfig (Some (limits_tree c)) = Ret c.
Proof. intros (H0 & H1 & H2 & H3 & H4 & H5). unfold ParseLimitsConfig, limits_tree. repeat read_key. by destruct c. Qed.

Lemma multipart_reads (c : MultipartConfig) : multipart_fits c -> ParseMultipartConfig (Some (multipart_tree c)) = Ret c.
Proof. intros (H0 & H1 & H2). unfold ParseMultipartConfig, multipart_tree. repeat read_key. by destruct c. Qed.

Lemma log_reads (c : LogConfig) : ParseLogConfig (Some (log_tree c)) = Ret c.
Proof. unfold ParseLogConfig, log_tree. repeat read_key. by destruct c. Qed.

Lemma metrics_reads (c : MetricsConfig) : metrics_fits c -> ParseMetricsConfig (Some (metrics_tree c)) = Ret c.
Proof. intros H0. unfold ParseMetricsConfig, metrics_tree. repeat read_key. by destruct c. Qed.

Lemma gc_reads (c : GCConfig) : gc_fits c -> ParseGCConfig (Some (gc_tree c)) = Ret c.
Proof. intros (H0 & H1). unfold ParseGCConfig, gc_tree. repeat read_key. by destruct c. Qed.

(** A configuration written out under the keys of the sample configuration is read
    back as it is, every field from its own key, and an empty document gives the
    defaults. *)
Theorem config_reads_back text c :
  yaml_load text = Ret (config_tree c) -> config_fits c ->
  LoadFromString text = Ret c /\ LoadFromNode (y_map []) = Ret default_config.
Proof.
  intros Hl (H0 & H1 & H2 & H3 & H4 & H5 & H6). split.
  - unfold LoadFromString. rewrite Hl. cbn [mbind exn_bind]. unfold LoadFromNode, config_tree.
    repeat (erewrite get_section; [|reflexivity]; cbn [mbind exn_bind];
      first [rewrite server_reads by done|rewrite storage_reads|rewrite mysql_reads by done|rewrite redis_reads by done
        |rewrite auth_reads|rewrite limits_reads by done|rewrite multipart_reads by done|rewrite log_reads
        |rewrite metrics_reads by done|rewrite gc_reads by done]; cbn [mbind exn_bind]).
    by destruct c.
  - unfold LoadFromNode. by repeat (rewrite law_get; cbn [assoc mbind exn_bind]).
Qed.
End trees.

(** ** A YAML library *)

Inductive tree : Type :=
  | TMap (l : list (string * tree))
  | TSeq (l : list tree)
  | TStr (s : string)
  | TBool (b : bool)
  | TInt (n : Z).

Definition tree_yaml (document : tree) : YamlLib := {|
  yaml := tree;
  yaml_load _ := Ret document;
  yaml_get k n := match n with
                  | TMap l => Ret (assoc k l)
                  | TSeq _ => Ret None
                  | _ => Throw "operator[] call on a scalar"
                  end;
  yaml_string n := match n with TStr s => Ret s | _ => Throw "bad conversion" end;
  yaml_bool n := match n with TBool b => Ret b | _ => Throw "bad conversion" end;
  yaml_int lo hi n := match n with
                      | TInt n => if (lo <=? n) && (n <=? hi) then Ret n else Throw "bad conversion"
                      | _ => Throw "bad conversion"
                      end;
  yaml_items n := match n with TSeq l => l | _ => [] end
|}.

Definition tree_yaml_laws (document : tree) : @YamlLaws (tree_yaml document).
Proof.
  refine (Build_YamlLaws (tree_yaml document) TMap TStr TBool TInt TSeq _ _ _ _ _); try done.
  intros lo hi n Hn. cbn. by rewrite (proj2 (Z.leb_le _ _)), (proj2 (Z.leb_le _ _)) by lia.
Defined.

(** Two tokens and a smaller body limit. *)
Definition sample_config : Config :=
  MkConfig default_server default_storage default_mysql default_redis (MkAuthConfig true ["alpha"; "beta"])
    (MkLimitsConfig 1048576 8192 100 500 60 3600) default_multipart default_log default_metrics default_gc.

Definition sample_document : tree :=
  @config_tree (tree_yaml (TMap [])) (tree_yaml_laws (TMap [])) sample_config.

Lemma config_reads_back_witness :
  @LoadFromString (tree_yaml sample_document) "" = Ret sample_config.
Proof.
  apply (@config_reads_back (tree_yaml sample_document) (tree_yaml_laws sample_document) "" sample_config);
    [reflexivity|vm_compute; intuition discriminate].
Defined.
