(* ===== verification/ConfigTypes.v ===== *)
(** * The types of a configuration (src/src/util/config.h, config.cpp)

    What is read has the integers of the C++ structs within their types: whatever
    the document, a configuration that is loaded fits, and every configuration that
    fits can be loaded. *)
From S2P Require Import Prelude RedisCache Config.

Open Scope Z_scope.

(** A conversion that succeeds gives a number of the type. *)
Class YamlTyped `{YamlLib} : Prop :=
  law_int_range lo hi (v : yaml) n : yaml_int lo hi v = Ret n -> lo <= n <= hi.

Lemma exn_bind_ret {A B} (m : exn A) (k : A -> exn B) b :
  m ≫= k = Ret b -> exists a, m = Ret a /\ k a = Ret b.
Proof. destruct m as [a|e]; [by exists a|discriminate]. Qed.

Section types.
Context {HY : YamlLib} {HT : YamlTyped}.

Lemma int_in_range lo hi (node : yaml) k d n :
  GetOrDefault (yaml_int lo hi) node k d = Ret n -> lo <= d <= hi -> lo <= n <= hi.
Proof.
  unfold GetOrDefault. intros (o & _ & E)%exn_bind_ret Hd. destruct o as [v|]; [by eapply law_int_range|].
  by injection E as <-.
Qed.

(** Takes a reading apart, keeping what is known of its integers. *)
Ltac read_fields :=
  repeat match goal with
  | H : _ ≫= _ = Ret _ |- _ =>
      let v := fresh "v" in let E := fresh "E" in
      apply exn_bind_ret in H as (v & E & H);
      first [apply int_in_range in E; [|cbn; lia] | clear E]
  end.

Ltac fits_tac :=
  match goal with
  | |- match ?n with Some _ => _ | None => _ end = _ -> _ => destruct n
  end; [intros Hread; read_fields; injection Hread as <-; cbn; auto 10|intros [= <-]; cbn; lia].

Lemma server_typed n c : ParseServerConfig n = Ret c -> server_fits c.
Proof. unfold ParseServerConfig, server_fits. fits_tac. Qed.

Lemma mysql_typed n c : ParseMySQLConfig n = Ret c -> mysql_fits c.
Proof. unfold ParseMySQLConfig, mysql_fits. fits_tac. Qed.

Lemma redis_typed n c : ParseRedisConfig n = Ret c -> redis_fits c.
Proof. unfold ParseRedisConfig, redis_fits. fits_tac. Qed.

Lemma limits_typed n c : ParseLimitsConfig n = Ret c -> limits_fits c.
Proof. unfold ParseLimitsConfig, limits_fits. fits_tac. Qed.

Lemma multipart_typed n c : ParseMultipartConfig n = Ret c -> multipart_fits c.
Proof. unfold ParseMultipartConfig, multipart_fits. fits_tac. Qed.

Lemma metrics_typed n c : ParseMetricsConfig n = Ret c -> metrics_fits c.
Proof. unfold ParseMetricsConfig, metrics_fits. fits_tac. Qed.

Lemma gc_typed n c : ParseGCConfig n = Ret c -> gc_fits c.
Proof. unfold ParseGCConfig, gc_fits. fits_tac. Qed.

Lemma node_typed root c : LoadFromNode root = Ret c -> config_fits c.
Proof.
  unfold LoadFromNode, config_fits. intros Hread.
  repeat match type of Hread with _ ≫= _ = Ret _ =>
    let v := fresh "v" in let E := fresh "E" in apply exn_bind_ret in Hread as (v & E & Hread) end.
  injection Hread as <-. cbn.
  split_and!; eauto using server_typed, mysql_typed, redis_typed, limits_typed, multipart_typed, metrics_typed, gc_typed.
Qed.
End types.

(** C40. A configuration is well typed: whatever the file holds, every integer of a
    configuration that is loaded fits the C++ type of its field, and conversely
    every configuration whose integers fit is what its document is read as, so
    these are the configurations the server can be started with. *)
Theorem config_well_typed {HY : YamlLib} {HL : YamlLaws} {HT : YamlTyped} c :
  (forall path content, LoadFromFile path content = Ret c -> config_fits c) /\
  (forall path text, config_fits c -> yaml_load text = Ret (config_tree c) -> LoadFromFile path (Some text) = Ret c).
Proof.
  split.
  - intros path [text|]; [|discriminate]. cbn. unfold LoadFromString. intros (root & _ & E)%exn_bind_ret.
    by eapply node_typed.
  - intros path text Hf Hl. by apply (config_reads_back text c).
Qed.

(** A value out of range is refused. *)
Lemma tree_yaml_typed (document : tree) : @YamlTyped (tree_yaml document).
Proof.
  intros lo hi [l|l|s|b|m] n; try discriminate. cbn. destruct (Z.leb_spec lo m), (Z.leb_spec m hi); try discriminate.
  by intros [= <-].
Qed.

Lemma config_well_typed_witness :
  @LoadFromFile (tree_yaml sample_document) "server.yaml" (Some "") = Ret sample_config /\ config_fits sample_config.
Proof.
  destruct (@config_well_typed (tree_yaml sample_document) (tree_yaml_laws sample_document) (tree_yaml_typed sample_document) sample_config)
    as [H1 H2].
  assert (Hf : config_fits sample_config) by (vm_compute; intuition discriminate).
  split; [apply H2; [exact Hf|reflexivity]|]. apply (H1 "server.yaml" (Some "")). apply H2; [exact Hf|reflexivity].
Defined.

(** A port of more than 16 bits. *)
Definition wide_port : tree := TMap [("server", TMap [("listen_port", TInt 70000)])].

Example wide_port_refused : @LoadFromFile (tree_yaml wide_port) "server.yaml" (Some "") = Throw "bad conversion".
Proof. reflexivity. Qed.
