(* ===== verification/MemServer.v ===== *)
(** * An in-memory server

    A concrete instance of the database interface, used to evaluate the
    metadata store and to show that its laws can hold: binary collation, one
    character per byte, decimal time stamps, tables in memory and a list of faults, one entry per statement;
    with it a pool, a Redis server and a JSON library to match. *)
From S2P Require Import Prelude Status Json Crypto Sql MySQLTx.

Open Scope Z_scope.

(** ** Dialect *)

(** [LIKE] with its two wildcards and the backslash escape. *)
Fixpoint like_binary (pat s : string) : bool :=
  match pat with
  | EmptyString => str_empty s
  | String "%" rest =>
      (fix any (s : string) : bool :=
         like_binary rest s || match s with EmptyString => false | String _ s' => any s' end) s
  | String "_" rest => match s with EmptyString => false | String _ s' => like_binary rest s' end
  | String "\" (String c rest) =>
      match s with String d s' => Ascii.eqb c d && like_binary rest s' | EmptyString => false end
  | String c rest =>
      match s with String d s' => Ascii.eqb c d && like_binary rest s' | EmptyString => false end
  end.

#[export] Instance binary_collation : Collation.
Proof.
  refine {| char_count := fun s => Some (Z.of_nat (String.length s)); coll := fun s => s; uk255 := str_take 255; like := like_binary |}.
  by intros a b ->.
Defined.

Definition read_decimal (s : string) : option Z :=
  match strto s with Some (neg, m) => Some (if neg then - m else m) | None => None end.

Lemma read_decimal_to_string t : read_decimal (to_string t) = Some t.
Proof.
  unfold read_decimal. rewrite strto_to_string_any. destruct (Z.ltb_spec t 0); f_equal; lia.
Qed.

#[export] Instance decimal_calendar : Calendar :=
  {| ts_text := to_string; ts_read := read_decimal; tz_offset := 0;
     ts_read_text := read_decimal_to_string |}.

(** ** Server *)

Record MemSrv : Type := MkMem {
  mem_tables : Tables;
  mem_tx : option Tables;
  mem_clock : Z;
  mem_faults : list (option string)
}.

Definition mem_view (s : MemSrv) : Tables := default (mem_tables s) (mem_tx s).

Definition mem_commit (t : Tables) (s : MemSrv) : MemSrv := MkMem t None (mem_clock s) (tail (mem_faults s)).

(** The tables of the session after a statement, inside or outside a transaction. *)
Definition mem_update (t : Tables) (s : MemSrv) : MemSrv :=
  match mem_tx s with
  | None => mem_commit t s
  | Some _ => MkMem (mem_tables s) (Some t) (mem_clock s) (tail (mem_faults s))
  end.

Definition mem_same (s : MemSrv) : MemSrv :=
  MkMem (mem_tables s) (mem_tx s) (mem_clock s) (tail (mem_faults s)).

Definition mem_fault (s : MemSrv) : option string :=
  match mem_faults s with
  | Some e :: _ => if IsDuplicateKeyError e then None else Some e
  | _ => None
  end.

Definition mem_run (s : MemSrv) (st : Stmt) : Reply * MemSrv :=
  match st, mem_fault s with
  | RollbackStmt, _ => (ROk [] 0 0, mem_commit (mem_tables s) s)
  | CommitStmt, Some e => (RErr e, mem_commit (mem_tables s) s)
  | CommitStmt, None => (ROk [] 0 0, mem_commit (mem_view s) s)
  | StartTransaction, _ =>
      (ROk [] 0 0, MkMem (mem_view s) (Some (mem_view s)) (mem_clock s) (tail (mem_faults s)))
  | _, Some e => (RErr e, mem_same s)
  | _, None =>
      match exec_stmt (mem_clock s) (mem_view s) st with
      | Done t rows aff ids => (ROk rows aff (default 0 (head ids)), mem_update t s)
      | Duplicate => (RErr "Duplicate entry", mem_same s)
      | Refused => (RErr "Cannot add or update a child row", mem_same s)
      end
  end.

#[export] Instance mem_mysql : MySQL :=
  {| srv := MemSrv; db_tables := mem_tables; db_tx := mem_tx; db_clock := mem_clock;
     db_run := mem_run |}.

Lemma mem_run_plain s st :
  is_tx_stmt st = false ->
  mem_run s st =
  match mem_fault s with
  | Some e => (RErr e, mem_same s)
  | None =>
      match exec_stmt (mem_clock s) (mem_view s) st with
      | Done t rows aff ids => (ROk rows aff (default 0 (head ids)), mem_update t s)
      | Duplicate => (RErr "Duplicate entry", mem_same s)
      | Refused => (RErr "Cannot add or update a child row", mem_same s)
      end
  end.
Proof. by destruct st. Qed.

Lemma mem_fault_not_dup s e : mem_fault s = Some e -> IsDuplicateKeyError e = false.
Proof.
  unfold mem_fault. destruct (mem_faults s) as [|[f|] l]; try done.
  destruct (IsDuplicateKeyError f) eqn:E; [done|]. by intros [= <-].
Qed.

(** Every executed statement offers at least one insert id. *)
Definition has_id (o : outcome) : Prop :=
  match o with Done _ _ _ ids => exists i l, ids = i :: l | _ => True end.

Lemma exec_has_id `{Collation, Calendar} now t st : has_id (exec_stmt now t st).
Proof.
  destruct st; cbn -[Z.ltb];
    unfold exec_insert_bucket, exec_delete_bucket, exec_insert_object, exec_delete_object,
      exec_inc_or_insert, exec_delete_cas, exec_delete_upload, exec_upsert_part, exec_set_ref,
      limited, rows_of;
    repeat case_match; cbn; eauto.
Qed.

#[export] Instance mem_laws : MySQLLaws.
Proof.
  split; cbn [db_run mem_mysql db_tables db_tx db_clock].
  - intros s st s' rows aff id Hst. rewrite mem_run_plain by done.
    destruct (mem_fault s); [done|].
    pose proof (exec_has_id (mem_clock s) (mem_view s) st) as Hid.
    destruct (exec_stmt (mem_clock s) (mem_view s) st) as [t r a ids| |] eqn:E; try done.
    intros [= <- <- <- <-]. destruct Hid as (i & l & ->).
    exists t, (i :: l). unfold db_view. cbn. split_and!; [exact E|left|].
    unfold mem_update. by destruct (mem_tx s).
  - intros s st s' e Hst. rewrite mem_run_plain by done.
    destruct (mem_fault s) as [f|] eqn:Ef.
    { intros [= <- <-]. cbn. split_and!; eauto. intros Hd.
      apply mem_fault_not_dup in Ef. congruence. }
    destruct (exec_stmt (mem_clock s) (mem_view s) st) as [t r a ids| |] eqn:E; try done;
      intros [= <- <-]; cbn; split_and!; eauto. by intros.
  - intros s r s' Htx. cbn. unfold mem_view. rewrite Htx. cbn.
    intros [= <- <-]; cbn; auto.
  - intros s r s'. cbn. destruct (mem_fault s); intros [= <- <-]; cbn; auto.
  - intros s r s'. cbn. intros [= <- <-]. auto.
Qed.

#[export] Instance mem_calm : CalmServer.
Proof.
  refine {| calm := fun s : srv => mem_faults s = [] |}.
  intros s st r s' Hc. change (db_run s st) with (mem_run s st).
  assert (Hf : mem_fault s = None) by (unfold mem_fault; by rewrite Hc).
  destruct (is_tx_stmt st) eqn:Hst.
  { destruct st; try done; cbn; rewrite ?Hf; intros [= <- <-]; cbn; rewrite Hc; eauto. }
  rewrite mem_run_plain, Hf by done. cbn [db_clock mem_mysql].
  change (db_view s) with (mem_view s).
  destruct (exec_stmt (mem_clock s) (mem_view s) st) as [t rr a ids| |];
    intros [= <- <-]; unfold mem_update, mem_commit, mem_same; cbn;
    [destruct (mem_tx s)|..]; cbn; rewrite Hc; eauto.
Defined.

Lemma mem_starts (s : srv) : starts s.
Proof. intros s' _. by eexists _, _, _, _. Qed.
#[export] Hint Resolve mem_starts : minis3.

(** ** Collaborators of the store *)

(** A pool that always has a connection. *)
#[export] Instance mem_pool : ConnPool :=
  {| pool := unit; pool_get _ := (true, tt); pool_put _ := tt |}.

(** A Redis map without expiry. *)
Record MemRedis : Type := MkRedis { mr_enabled : bool; mr_map : gmap string string }.

#[export] Instance mem_redis : Redis := {|
  redis := MemRedis;
  redis_enabled := mr_enabled;
  redis_ttl _ := 60;
  redis_get k r := (Ret (Ok (mr_map r !! k)), r);
  redis_setex k _ v r := (Status_OK, MkRedis (mr_enabled r) (<[k := v]> (mr_map r)));
  redis_del k r := (Status_OK, MkRedis (mr_enabled r) (delete k (mr_map r)))
|}.

#[export] Existing Instance tree_json.
#[export] Existing Instance tree_json_laws.
#[export] Existing Instance toy_digest.

Definition mem_world (t : Tables) (faults : list (option string)) : MetaW :=
  MkMeta mem_mysql mem_pool mem_redis (MkMem t None 1000 faults) tt ∅ None 1000.
