(* ===== verification/MetaStore.v ===== *)
(** * The metadata store (src/src/db/meta_store.h, .cpp)

    Every operation of the class on the state [MetaW] of MySQLTx: the rows it
    reads are texts it converts, conversions that fail throw, connections and
    transactions are released on every exit. The theorems about these definitions
    are in MetaStoreSpec. *)
From S2P Require Import Prelude Status Json Crypto Sql MySQLTx.

Open Scope Z_scope.

(** ** Data model *)

Record ObjectInfo : Type := MkObjectInfo {
  oi_id : Z; oi_bucket_id : Z; oi_key : string; oi_version_id : string;
  oi_is_latest : bool; oi_is_delete_marker : bool; oi_size : Z; oi_etag : string;
  oi_content_type : string; oi_storage_class : string; oi_sha256_hash : string;
  oi_metadata_json : string; oi_owner_id : string; oi_created_at : Z }.

Record CasBlobInfo : Type := MkCasBlobInfo {
  ci_id : Z; ci_sha256_hash : string; ci_size : Z; ci_ref_count : Z;
  ci_created_at : Z; ci_last_accessed : Z }.

Record MultipartUploadInfo : Type := MkUploadInfo {
  ui_id : Z; ui_upload_id : string; ui_bucket_id : Z; ui_key : string;
  ui_content_type : string; ui_metadata_json : string; ui_owner_id : string;
  ui_created_at : Z }.

Record MultipartPartInfo : Type := MkPartInfo {
  pi_id : Z; pi_upload_id : string; pi_part_number : Z; pi_sha256_hash : string;
  pi_size : Z; pi_etag : string; pi_created_at : Z }.

Record IdempotencyRecord : Type := MkIdemRecord {
  id_key : string; id_request_hash : string; id_response_status : Z;
  id_response_body : string; id_created_at : Z; id_expires_at : Z }.

Record ListObjectsResult : Type := MkListObjects {
  lo_objects : list ObjectInfo; lo_common_prefixes : list string; lo_is_truncated : bool;
  lo_next_continuation_token : string; lo_next_key_marker : string }.

Record ListPartsResult : Type := MkListParts {
  lp_parts : list MultipartPartInfo; lp_is_truncated : bool; lp_next_part_number_marker : Z }.

(** ** Rows *)

(** [row[i]], a null pointer for NULL. *)
Definition col (row : SqlRow) (i : nat) : option string := default None (row !! i).

(** [row[i] ? row[i] : d]. *)
Definition text_or (d : string) (row : SqlRow) (i : nat) : string := default d (col row i).

(** [std::stoll(row[i])]: building the string from a null pointer throws. *)
Definition col_ll (row : SqlRow) (i : nat) : exn Z :=
  match col row i with Some s => conv_exn (stoll s) | None => Throw "std::logic_error" end.

(** [row[i] ? std::stoll(row[i]) : 0], and with [stoi]. *)
Definition ll_or0 (row : SqlRow) (i : nat) : exn Z :=
  match col row i with Some s => conv_exn (stoll s) | None => Ret 0 end.
Definition int_or0 (row : SqlRow) (i : nat) : exn Z :=
  match col row i with Some s => conv_exn (stoi s) | None => Ret 0 end.

Definition DbErr {A} (message : string) : Result A := Err (MkStatus DatabaseError message).
Definition DbStatus (message : string) : Status := MkStatus DatabaseError message.
Definition no_connection : string := "No MySQL connection".

Section store.
Context `{Collation, Calendar, MySQL, ConnPool, Redis, JsonLib, Digest}.

(** [ParseMysqlTime]: the text is taken as local time. *)
Definition ParseMysqlTime (now : Z) (str : option string) : Z :=
  match str with
  | None => now
  | Some s => match ts_read s with Some t => t - tz_offset | None => now end
  end.

(** [TimePointToMySQL]: the text is written in UTC. *)
Definition TimePointToMySQL (tp : Z) : string := ts_text tp.

Definition ObjectMetaCacheKey (bucket_id : Z) (key : string) : string :=
  "objmeta:" +:+ to_string bucket_id +:+ ":" +:+ SHA256 key.

Definition SerializeObjectInfo (info : ObjectInfo) : exn string :=
  json_dump (JObj [
    ("id", JInt (oi_id info)); ("bucket_id", JInt (oi_bucket_id info));
    ("key", JStr (oi_key info)); ("cas_key", JStr (oi_sha256_hash info));
    ("size", JInt (oi_size info)); ("etag", JStr (oi_etag info));
    ("content_type", JStr (oi_content_type info)); ("created_at", JInt (oi_created_at info))]).

(** The [try] body of [DeserializeObjectInfo]. *)
Definition read_object_info (now : Z) (payload : string) : exn ObjectInfo :=
  j ← json_parse payload;
  id ← value_i64 "id" 0 j;
  bucket_id ← value_i64 "bucket_id" 0 j;
  key ← value_string "key" "" j;
  cas ← value_string "cas_key" "" j;
  size ← value_i64 "size" 0 j;
  etag ← value_string "etag" "" j;
  ctype ← value_string "content_type" "application/octet-stream" j;
  created ← value_i64 "created_at" 0 j;
  Ret (MkObjectInfo id bucket_id key "" true false size etag ctype "standard" cas "{}" ""
         (if 0 <? created then created else now)).

(** [None] when the function returns false. *)
Definition DeserializeObjectInfo (now : Z) (payload : string) : option ObjectInfo :=
  match read_object_info now payload with
  | Ret info => if str_empty (oi_sha256_hash info) then None else Some info
  | Throw _ => None
  end.

(** [redis_cache_ && redis_cache_->Enabled()]: the cache object to use. *)
Definition redis_live (w : MetaW) : option redis :=
  match redis_cache_ w with
  | Some r => if redis_enabled r then Some r else None
  | None => None
  end.

Definition SetRedisCache (r : option redis) : MM unit := put_world (set_redis r).

(** [if (redis_cache_ && Enabled()) SetEx(key, ttl, Serialize(info))]; the
    serialization may throw. *)
Definition cache_object (bucket_id : Z) (key : string) (info : ObjectInfo) : MM unit :=
  w ← get_world;
  match redis_live w with
  | None => mret tt
  | Some r =>
      payload ← lift_exn (SerializeObjectInfo info);
      put_world (set_redis (Some (snd (redis_setex (ObjectMetaCacheKey bucket_id key)
                                         (redis_ttl r) payload r))))
  end.

Definition uncache_object (bucket_id : Z) (key : string) : MM unit :=
  w ← get_world;
  match redis_live w with
  | None => mret tt
  | Some r => put_world (set_redis (Some (snd (redis_del (ObjectMetaCacheKey bucket_id key) r))))
  end.

(** ** Buckets *)

(** The row of [SELECT id, name, created_at FROM buckets]. *)
Definition bucket_of_row (now : Z) (row : SqlRow) : exn BucketInfo :=
  id ← col_ll row 0;
  let created := ParseMysqlTime now (col row 2) in
  Ret (MkBucketInfo id (text_or "" row 1) "" "default" "private" false created created).

Definition CreateBucket (name owner_id region acl : string) : MM (Result Z) :=
  with_conn (DbErr no_connection) (
    r ← conn_run (InsertBucket name);
    match r with
    | RErr err =>
        if str_contains "Duplicate" err then mret (Err (MkStatus BucketAlreadyExists err))
        else mret (DbErr err)
    | ROk _ _ insert_id =>
        w ← get_world;
        let info := MkBucketInfo insert_id name owner_id
          (if str_empty region then "default" else region)
          (if str_empty acl then "private" else acl) false (m_now w) (m_now w) in
        _ ← put_world (fun w => set_cache (<[name := info]> (bucket_cache_ w)) w);
        mret (Ok (bi_id info))
    end).

Definition GetBucket (name : string) : MM (Result BucketInfo) :=
  w ← get_world;
  match bucket_cache_ w !! name with
  | Some info => mret (Ok info)
  | None =>
      with_conn (DbErr no_connection) (
        r ← conn_run (SelectBucketByName name);
        match r with
        | RErr err => mret (DbErr err)
        | ROk [] _ _ => mret (Err (MkStatus NoSuchBucket "Bucket not found"))
        | ROk (row :: _) _ _ =>
            info ← lift_exn (bucket_of_row (m_now w) row);
            _ ← put_world (fun w => set_cache (<[bi_name info := info]> (bucket_cache_ w)) w);
            mret (Ok info)
        end)
  end.

Definition GetBucketById (id : Z) : MM (Result BucketInfo) :=
  with_conn (DbErr no_connection) (
    w ← get_world;
    r ← conn_run (SelectBucketById id);
    match r with
    | RErr err => mret (DbErr err)
    | ROk [] _ _ => mret (Err (MkStatus NoSuchBucket "Bucket not found"))
    | ROk (row :: _) _ _ =>
        info ← lift_exn (bucket_of_row (m_now w) row);
        mret (Ok info)
    end).

(** The fetch loops: the first row that cannot be read throws. *)
Fixpoint fetch_all {A} (f : SqlRow -> exn A) (rows : list SqlRow) : exn (list A) :=
  match rows with
  | [] => Ret []
  | row :: rest => x ← f row; xs ← fetch_all f rest; Ret (x :: xs)
  end.

Definition ListBuckets (owner_id : string) : MM (Result (list BucketInfo)) :=
  with_conn (DbErr no_connection) (
    w ← get_world;
    r ← conn_run SelectBuckets;
    match r with
    | RErr err => mret (DbErr err)
    | ROk rows _ _ =>
        found ← lift_exn (fetch_all (bucket_of_row (m_now w)) rows);
        _ ← put_world (fun w =>
              set_cache (fold_left (fun c b => <[bi_name b := b]> c) found (bucket_cache_ w)) w);
        mret (Ok found)
    end).

(** [Execute], then [AffectedRows() == 0] as an error of the given code. *)
Definition execute_one (st : Stmt) (code : ErrorCode) (message : string) : MM Status :=
  r ← conn_run st;
  match r with
  | RErr err => mret (DbStatus err)
  | ROk _ affected _ =>
      if affected =? 0 then mret (MkStatus code message) else mret Status_OK
  end.

Definition DeleteBucket (name : string) : MM Status :=
  with_conn (DbStatus no_connection) (
    s ← execute_one (DeleteBucketRow name) NoSuchBucket "Bucket not found";
    if status_ok s
    then _ ← put_world (fun w => set_cache (delete name (bucket_cache_ w)) w); mret s
    else mret s).

(** [row && row[0] ? std::stoll(row[0]) : 0] of the first row. *)
Definition first_count (rows : list SqlRow) : exn Z :=
  match rows with
  | row :: _ => ll_or0 row 0
  | [] => Ret 0
  end.

Definition IsBucketEmpty (bucket_id : Z) : MM (Result bool) :=
  with_conn (DbErr no_connection) (
    r ← conn_run (CountBucketObjects bucket_id);
    match r with
    | RErr err => mret (DbErr err)
    | ROk rows _ _ =>
        count ← lift_exn (first_count rows);
        mret (Ok (count =? 0))
    end).

(** ** Objects *)

Definition PutObject (bucket_id : Z) (key : string) (size : Z) (etag content_type sha256_hash
    owner_id metadata_json : string) : MM (Result Z) :=
  with_conn (DbErr no_connection) (
    r ← conn_run (UpsertObject bucket_id key sha256_hash size content_type etag);
    match r with
    | RErr err => mret (DbErr err)
    | ROk _ _ insert_id =>
        if negb (insert_id =? 0) then mret (Ok insert_id)
        else
          q ← conn_run (SelectObjectId bucket_id key);
          match q with
          | RErr err => mret (DbErr err)
          | ROk [] _ _ => mret (DbErr "Failed to fetch object id")
          | ROk (row :: _) _ _ => id ← lift_exn (col_ll row 0); mret (Ok id)
          end
    end).

Definition kMaxRetries : nat := 3.

(** The error branch inside the retry loops: [continue] on a retryable error
    with attempts left (after [RetryBackoff]), else return the error. *)
Definition on_err {A} (attempt : Z) (err : string) : flow (Result A) :=
  if (attempt + 1 <? Z.of_nat kMaxRetries) && IsRetryableTxnError err
  then Continue else Return (DbErr err).

Definition on_commit_err {A} (attempt : Z) (err : string) : flow (Result A) :=
  if (attempt + 1 <? Z.of_nat kMaxRetries) && IsRetryableTxnError err
  then Continue else Return (DbErr (if str_empty err then "Failed to commit transaction" else err)).

(** A step of a transaction body that may end the attempt. *)
Definition step {A R} (m : Tx (flow R + A)) (k : A -> Tx (flow R)) : Tx (flow R) :=
  x ← m; match x with inl f => mret f | inr a => k a end.

Definition GcKey : Type := Result (option string).

(** Fast path of PutObjectWithRefCount: count the content and insert the
    object; [None] falls through to the slow path on a duplicate key. *)
Definition put_fast (attempt bucket_id : Z) (key : string) (size : Z)
    (etag content_type sha256_hash : string) : MM (option (flow GcKey)) :=
  transaction (
    r ← tx_run (InsertOrIncCas sha256_hash size);
    match r with
    | RErr err => mret (Some (on_err attempt err))
    | ROk _ _ _ =>
        r ← tx_run (InsertObject bucket_id key sha256_hash size content_type etag);
        match r with
        | ROk _ _ _ =>
            c ← Commit;
            mret (Some (match c with
                        | None => Return (Ok None)
                        | Some err => on_commit_err attempt err
                        end))
        | RErr err =>
            if IsDuplicateKeyError err then mret None else mret (Some (on_err attempt err))
        end
    end).

(** The locked read of the old content key, empty when there is no row. *)
Definition select_old (attempt : Z) (st : Stmt) : Tx (flow GcKey + string) :=
  r ← tx_run st;
  match r with
  | RErr err => mret (inl (on_err attempt err))
  | ROk (row :: _) _ _ => mret (inr (text_or "" row 0))
  | ROk [] _ _ => mret (inr "")
  end.

(** Reference +1 on the new content unless the row already has it. *)
Definition inc_new (attempt : Z) (old_cas sha256_hash : string) (size : Z) : Tx (flow GcKey + unit) :=
  if str_empty old_cas || negb (String.eqb old_cas sha256_hash) then
    r ← tx_run (InsertOrIncCas sha256_hash size);
    match r with
    | RErr err => mret (inl (on_err attempt err))
    | ROk _ _ _ => mret (inr tt)
    end
  else mret (inr tt).

(** [row && row[0]]: the first cell of the first row. *)
Definition first_cell (rows : list SqlRow) : option string :=
  match rows with row :: _ => col row 0 | [] => None end.

(** [row && row[0] && std::stoi(row[0]) == 0]. *)
Definition count_is_zero (rows : list SqlRow) : exn bool :=
  match first_cell rows with
  | Some s => n ← conv_exn (stoi s); Ret (n =? 0)
  | None => Ret false
  end.

(** Reference -1 on the old content; the key is returned for collection when
    its count falls to zero. *)
Definition dec_old (attempt : Z) (old_cas sha256_hash : string) : Tx (flow GcKey + option string) :=
  if negb (str_empty old_cas) && negb (String.eqb old_cas sha256_hash) then
    r ← tx_run (DecCas old_cas);
    match r with
    | RErr err => mret (inl (on_err attempt err))
    | ROk _ _ _ =>
        q ← tx_run (SelectRefCount old_cas false);
        match q with
        | RErr err => mret (inl (on_err attempt err))
        | ROk rows _ _ =>
            z ← lift_exn (count_is_zero rows);
            mret (inr (if z : bool then Some old_cas else None))
        end
    end
  else mret (inr None).

(** The write of the row itself, the commit, and what follows it. *)
Definition write_and_commit (attempt : Z) (st : Stmt) (after : MM unit) (gc : option string)
    : Tx (flow GcKey) :=
  r ← tx_run st;
  match r with
  | RErr err => mret (on_err attempt err)
  | ROk _ _ _ =>
      c ← Commit;
      match c with
      | Some err => mret (on_commit_err attempt err)
      | None => _ ← in_tx after; mret (Return (Ok gc))
      end
  end.

(** Slow path: the object may exist. *)
Definition put_slow (attempt bucket_id : Z) (key : string) (size : Z)
    (etag content_type sha256_hash : string) : MM (flow GcKey) :=
  transaction (
    step (select_old attempt (SelectObjectCas bucket_id key)) (fun old_cas =>
    step (inc_new attempt old_cas sha256_hash size) (fun _ =>
    step (dec_old attempt old_cas sha256_hash) (fun gc_candidate =>
    write_and_commit attempt (UpsertObject bucket_id key sha256_hash size content_type etag)
      (w ← get_world;
       cache_object bucket_id key
         (MkObjectInfo 0 bucket_id key "" false false size etag content_type "" sha256_hash "" ""
            (m_now w)))
      gc_candidate)))).

Definition PutObjectWithRefCount (bucket_id : Z) (key : string) (size : Z)
    (etag content_type sha256_hash : string) : MM GcKey :=
  with_conn (DbErr no_connection)
    (retry kMaxRetries 0 (fun attempt =>
       f ← put_fast attempt bucket_id key size etag content_type sha256_hash;
       match f with
       | Some f => mret f
       | None => put_slow attempt bucket_id key size etag content_type sha256_hash
       end) (DbErr "Transaction retry exhausted")).

(** The row of the object SELECTs. *)
Definition object_of_row (now : Z) (row : SqlRow) : exn ObjectInfo :=
  id ← col_ll row 0;
  bucket_id ← col_ll row 1;
  size ← ll_or0 row 4;
  Ret (MkObjectInfo id bucket_id (text_or "" row 2) "" true false size (text_or "" row 5)
         (text_or "application/octet-stream" row 6) "standard" (text_or "" row 3) "{}" ""
         (ParseMysqlTime now (col row 7))).

(** The cache lookup of GetObject: an unreadable entry is dropped. *)
Definition cached_object (bucket_id : Z) (key : string) : MM (option ObjectInfo) :=
  w ← get_world;
  match redis_live w with
  | None => mret None
  | Some r =>
      let '(res, r) := redis_get (ObjectMetaCacheKey bucket_id key) r in
      _ ← put_world (set_redis (Some r));
      res ← lift_exn res;
      match res with
      | Ok (Some payload) =>
          match DeserializeObjectInfo (m_now w) payload with
          | Some info => mret (Some info)
          | None =>
              _ ← put_world (set_redis (Some (snd (redis_del (ObjectMetaCacheKey bucket_id key) r))));
              mret None
          end
      | _ => mret None
      end
  end.

Definition GetObject (bucket_id : Z) (key : string) : MM (Result ObjectInfo) :=
  c ← cached_object bucket_id key;
  match c with
  | Some info => mret (Ok info)
  | None =>
      with_conn (DbErr no_connection) (
        w ← get_world;
        r ← conn_run (SelectObject bucket_id key);
        match r with
        | RErr err => mret (DbErr err)
        | ROk [] _ _ => mret (Err (MkStatus NoSuchKey "Object not found"))
        | ROk (row :: _) _ _ =>
            info ← lift_exn (object_of_row (m_now w) row);
            _ ← cache_object bucket_id key info;
            mret (Ok info)
        end)
  end.

Definition GetObjectVersion (bucket_id : Z) (key version_id : string) : MM (Result ObjectInfo) :=
  GetObject bucket_id key.

(** The fetch loop of ListObjects: the row after [max_keys] only sets the
    continuation markers. *)
Fixpoint list_rows (now max_keys count : Z) (rows : list SqlRow) : exn ListObjectsResult :=
  match rows with
  | [] => Ret (MkListObjects [] [] false "" "")
  | row :: rest =>
      if max_keys <=? count
      then Ret (MkListObjects [] [] true (text_or "" row 2) (text_or "" row 2))
      else
        info ← object_of_row now row;
        l ← list_rows now max_keys (count + 1) rest;
        Ret (MkListObjects (info :: lo_objects l) (lo_common_prefixes l) (lo_is_truncated l)
               (lo_next_continuation_token l) (lo_next_key_marker l))
  end.

(** [n + 1] of an [int] that is printed into a statement: past the largest [int]
    it wraps around (the hardware's addition). *)
Definition int_succ (n : Z) : Z := if n <? 2147483647 then n + 1 else -2147483648.

Definition nonempty (s : string) : option string := if str_empty s then None else Some s.

Definition ListObjects (bucket_id : Z) (prefix delimiter start_after : string) (max_keys : Z)
    : MM (Result ListObjectsResult) :=
  with_conn (DbErr no_connection) (
    w ← get_world;
    r ← conn_run (SelectObjects bucket_id (nonempty prefix) (nonempty start_after) (int_succ max_keys));
    match r with
    | RErr err => mret (DbErr err)
    | ROk rows _ _ => l ← lift_exn (list_rows (m_now w) max_keys 0 rows); mret (Ok l)
    end).

Definition DeleteObject (bucket_id : Z) (key : string) : MM Status :=
  with_conn (DbStatus no_connection)
    (execute_one (DeleteObjectRow bucket_id key) NoSuchKey "Object not found").

(** Reference -1 on the content of a deleted object. *)
Definition release_cas (cas_key : string) : Tx (string + option string) :=
  if str_empty cas_key then mret (inr None)
  else
    r ← tx_run (DecCas cas_key);
    match r with
    | RErr err => mret (inl err)
    | ROk _ _ _ =>
        q ← tx_run (SelectRefCount cas_key false);
        match q with
        | RErr err => mret (inl err)
        | ROk rows _ _ =>
            z ← lift_exn (count_is_zero rows);
            mret (inr (if z : bool then Some cas_key else None))
        end
    end.

Definition DeleteObjectWithRefCount (bucket_id : Z) (key : string) : MM GcKey :=
  with_conn (DbErr no_connection) (transaction (
    r ← tx_run (SelectObjectCas bucket_id key);
    match r with
    | RErr err => mret (DbErr err)
    | ROk rows _ _ =>
        match first_cell rows with
        | None => mret (Err (MkStatus NoSuchKey "Object not found"))
        | Some cas_key =>
            d ← tx_run (DeleteObjectRow bucket_id key);
            match d with
            | RErr err => mret (DbErr err)
            | ROk _ _ _ =>
                g ← release_cas cas_key;
                match g with
                | inl err => mret (DbErr err)
                | inr gc_candidate =>
                    c ← Commit;
                    match c with
                    | Some _ => mret (DbErr "Failed to commit transaction")
                    | None => _ ← in_tx (uncache_object bucket_id key); mret (Ok gc_candidate)
                    end
                end
            end
        end
    end)).

Definition DeleteObjectVersion (bucket_id : Z) (key version_id : string) : MM Status :=
  DeleteObject bucket_id key.

(** ** CAS blobs *)

Definition RegisterCasBlob (sha256_hash : string) (size : Z) : MM (Result Z) :=
  with_conn (DbErr no_connection) (
    r ← conn_run (InsertOrIncCas sha256_hash size);
    match r with RErr err => mret (DbErr err) | ROk _ _ _ => mret (Ok 1) end).

Definition cas_of_row (now : Z) (row : SqlRow) : exn CasBlobInfo :=
  size ← ll_or0 row 1;
  refs ← int_or0 row 2;
  Ret (MkCasBlobInfo 0 (text_or "" row 0) size refs (ParseMysqlTime now (col row 3))
         (ParseMysqlTime now (col row 4))).

Definition GetCasBlob (sha256_hash : string) : MM (Result CasBlobInfo) :=
  with_conn (DbErr no_connection) (
    w ← get_world;
    r ← conn_run (SelectCas sha256_hash);
    match r with
    | RErr err => mret (DbErr err)
    | ROk [] _ _ => mret (Err (MkStatus NoSuchKey "CAS blob not found"))
    | ROk (row :: _) _ _ => info ← lift_exn (cas_of_row (m_now w) row); mret (Ok info)
    end).

Definition IncrementRefCount (sha256_hash : string) : MM Status :=
  with_conn (DbStatus no_connection)
    (execute_one (IncCas sha256_hash) NoSuchKey "CAS blob not found").

Definition DecrementRefCount (sha256_hash : string) : MM Status :=
  with_conn (DbStatus no_connection)
    (execute_one (DecCas sha256_hash) NoSuchKey "CAS blob not found").

Definition DecrementRefCountAndCheckZero (sha256_hash : string) : MM (Result bool) :=
  with_conn (DbErr no_connection) (
    r ← conn_run (DecCas sha256_hash);
    match r with
    | RErr err => mret (DbErr err)
    | ROk _ _ _ =>
        q ← conn_run (SelectRefCount sha256_hash false);
        match q with
        | RErr err => mret (DbErr err)
        | ROk rows _ _ =>
            match first_cell rows with
            | None => mret (Err (MkStatus NoSuchKey "CAS blob not found"))
            | Some s => n ← lift_exn (conv_exn (stoi s)); mret (Ok (n =? 0))
            end
        end
    end).

Definition DecreaseCasBlobRefCount (cas_key : string) : MM Status := DecrementRefCount cas_key.

Definition GetGarbageBlobs (min_age_seconds limit : Z) : MM (Result (list CasBlobInfo)) :=
  with_conn (DbErr no_connection) (
    w ← get_world;
    r ← conn_run (SelectGarbage min_age_seconds limit);
    match r with
    | RErr err => mret (DbErr err)
    | ROk rows _ _ => l ← lift_exn (fetch_all (cas_of_row (m_now w)) rows); mret (Ok l)
    end).

Definition DeleteCasBlob (sha256_hash : string) : MM Status :=
  with_conn (DbStatus no_connection) (
    r ← conn_run (DeleteCasRow sha256_hash);
    match r with RErr err => mret (DbStatus err) | ROk _ _ _ => mret Status_OK end).

(** Commit, then the given answer. *)
Definition commit_with (b : bool) : Tx (Result bool) :=
  c ← Commit;
  match c with
  | Some _ => mret (DbErr "Failed to commit transaction")
  | None => mret (Ok b)
  end.

Definition CanDeleteCasBlob (sha256_hash : string) : MM (Result bool) :=
  with_conn (DbErr no_connection) (transaction (
    lock ← tx_run (SelectRefCount sha256_hash true);
    match lock with
    | RErr err => mret (DbErr err)
    | ROk rows _ _ =>
        match first_cell rows with
        | None => commit_with false
        | Some s =>
            ref_count ← lift_exn (conv_exn (stoi s));
            if negb (ref_count =? 0) then commit_with false
            else
              o ← tx_run (CountObjectsByCas sha256_hash);
              match o with
              | RErr err => mret (DbErr err)
              | ROk orows _ _ =>
                  obj_count ← lift_exn (first_count orows);
                  if 0 <? obj_count then commit_with false
                  else
                    p ← tx_run (CountPartsByCas sha256_hash);
                    match p with
                    | RErr err => mret (DbErr err)
                    | ROk prows _ _ =>
                        part_count ← lift_exn (first_count prows);
                        commit_with (part_count =? 0)
                    end
              end
        end
    end)).

(** ** Multipart uploads *)

Definition CreateMultipartUpload (upload_id : string) (bucket_id : Z) (key content_type
    owner_id : string) (expires_at : Z) : MM (Result string) :=
  with_conn (DbErr no_connection) (
    r ← conn_run (InsertUpload upload_id bucket_id key content_type (TimePointToMySQL expires_at));
    match r with RErr err => mret (DbErr err) | ROk _ _ _ => mret (Ok upload_id) end).

Definition upload_of_row (now : Z) (row : SqlRow) : exn MultipartUploadInfo :=
  bucket_id ← ll_or0 row 1;
  Ret (MkUploadInfo 0 (text_or "" row 0) bucket_id (text_or "" row 2)
         (text_or "application/octet-stream" row 3) "{}" "" (ParseMysqlTime now (col row 4))).

Definition GetMultipartUpload (upload_id : string) : MM (Result MultipartUploadInfo) :=
  with_conn (DbErr no_connection) (
    w ← get_world;
    r ← conn_run (SelectUpload upload_id);
    match r with
    | RErr err => mret (DbErr err)
    | ROk [] _ _ => mret (Err (MkStatus NoSuchUpload "Upload not found"))
    | ROk (row :: _) _ _ => info ← lift_exn (upload_of_row (m_now w) row); mret (Ok info)
    end).

Definition DeleteMultipartUpload (upload_id : string) : MM Status :=
  with_conn (DbStatus no_connection)
    (execute_one (DeleteUploadRow upload_id) NoSuchUpload "Upload not found").

Definition ListMultipartUploads (bucket_id : Z) (prefix : string) (max_uploads : Z)
    : MM (Result (list MultipartUploadInfo)) :=
  with_conn (DbErr no_connection) (
    w ← get_world;
    r ← conn_run (SelectUploads bucket_id (nonempty prefix) max_uploads);
    match r with
    | RErr err => mret (DbErr err)
    | ROk rows _ _ => l ← lift_exn (fetch_all (upload_of_row (m_now w)) rows); mret (Ok l)
    end).

Definition CreateOrUpdatePart (upload_id : string) (part_number : Z) (sha256_hash : string)
    (size : Z) (etag : string) : MM (Result Z) :=
  with_conn (DbErr no_connection) (
    r ← conn_run (UpsertPart upload_id part_number sha256_hash size etag);
    match r with RErr err => mret (DbErr err) | ROk _ _ _ => mret (Ok 1) end).

Definition put_part_attempt (attempt : Z) (upload_id : string) (part_number : Z)
    (sha256_hash : string) (size : Z) (etag : string) : MM (flow GcKey) :=
  transaction (
    step (select_old attempt (SelectPartCas upload_id part_number)) (fun old_cas =>
    step (inc_new attempt old_cas sha256_hash size) (fun _ =>
    step (dec_old attempt old_cas sha256_hash) (fun gc_candidate =>
    write_and_commit attempt (UpsertPart upload_id part_number sha256_hash size etag)
      (mret tt) gc_candidate)))).

Definition PutPartWithRefCount (upload_id : string) (part_number : Z) (sha256_hash : string)
    (size : Z) (etag : string) : MM GcKey :=
  with_conn (DbErr no_connection)
    (retry kMaxRetries 0
       (fun attempt => put_part_attempt attempt upload_id part_number sha256_hash size etag)
       (DbErr "Transaction retry exhausted")).

Definition PutPart (upload_id : string) (part_number : Z) (sha256_hash : string) (size : Z)
    (etag : string) : MM (Result Z) :=
  CreateOrUpdatePart upload_id part_number sha256_hash size etag.

Definition part_of_row (now : Z) (row : SqlRow) : exn MultipartPartInfo :=
  number ← int_or0 row 1;
  size ← ll_or0 row 3;
  Ret (MkPartInfo 0 (text_or "" row 0) number (text_or "" row 2) size (text_or "" row 4)
         (ParseMysqlTime now (col row 5))).

Fixpoint part_rows (now max_parts count : Z) (rows : list SqlRow) : exn ListPartsResult :=
  match rows with
  | [] => Ret (MkListParts [] false 0)
  | row :: rest =>
      if max_parts <=? count
      then n ← int_or0 row 1; Ret (MkListParts [] true n)
      else
        info ← part_of_row now row;
        l ← part_rows now max_parts (count + 1) rest;
        Ret (MkListParts (info :: lp_parts l) (lp_is_truncated l) (lp_next_part_number_marker l))
  end.

Definition ListParts (upload_id : string) (part_number_marker max_parts : Z)
    : MM (Result ListPartsResult) :=
  with_conn (DbErr no_connection) (
    w ← get_world;
    r ← conn_run (SelectParts upload_id part_number_marker (int_succ max_parts));
    match r with
    | RErr err => mret (DbErr err)
    | ROk rows _ _ => l ← lift_exn (part_rows (m_now w) max_parts 0 rows); mret (Ok l)
    end).

Definition CompleteMultipartUpload (upload_id : string) : MM Status := DeleteMultipartUpload upload_id.
Definition AbortMultipartUpload (upload_id : string) : MM Status := DeleteMultipartUpload upload_id.

(** ** Idempotency *)

Definition idem_of_row (now : Z) (row : SqlRow) : exn IdempotencyRecord :=
  status ← int_or0 row 2;
  Ret (MkIdemRecord (text_or "" row 0) (text_or "" row 1) status (text_or "" row 3)
         (ParseMysqlTime now (col row 4)) (ParseMysqlTime now (col row 5))).

Definition CheckIdempotency (idempotency_key : string) : MM (Result (option IdempotencyRecord)) :=
  with_conn (DbErr no_connection) (
    w ← get_world;
    r ← conn_run (SelectIdem idempotency_key);
    match r with
    | RErr err => mret (DbErr err)
    | ROk [] _ _ => mret (Ok None)
    | ROk (row :: _) _ _ =>
        record ← lift_exn (idem_of_row (m_now w) row);
        if id_expires_at record <=? m_now w then mret (Ok None) else mret (Ok (Some record))
    end).

Definition RecordIdempotency (idempotency_key request_hash : string) (response_status : Z)
    (response_body : string) (ttl_seconds : Z) : MM Status :=
  with_conn (DbStatus no_connection) (
    w ← get_world;
    let expires_at := m_now w + ttl_seconds in
    r ← conn_run (UpsertIdem idempotency_key request_hash response_status response_body
                    (TimePointToMySQL expires_at));
    match r with RErr err => mret (DbStatus err) | ROk _ _ _ => mret Status_OK end).

Definition CleanupIdempotencyRecords : MM Status :=
  with_conn (DbStatus no_connection) (
    r ← conn_run DeleteExpiredIdem;
    match r with RErr err => mret (DbStatus err) | ROk _ _ _ => mret Status_OK end).
End store.
