(* ===== verification/Sessions.v ===== *)
(** * The metadata operations reach the server by statements alone

    Whatever an operation of MetaStore does to the session of the database it does
    by running statements ([runs]), so the session it leaves is a later one of the
    session it was given: what is assumed of a session from some moment on
    ([starts] of Sql) still holds when the operation has returned. *)
From S2P Require Import Prelude Status Json Crypto Sql MySQLTx MetaStore.

Open Scope Z_scope.

Section sessions.
Context `{HC : Collation, HCal : Calendar, HS : MySQL, HP : ConnPool, HR : Redis}.
Context `{HJ : JsonLib, HD : Digest}.

Lemma runs_cache_object b k info : runs (cache_object b k info).
Proof. unfold cache_object. runs_tac. Qed.
Lemma runs_uncache_object b k : runs (uncache_object b k).
Proof. unfold uncache_object. runs_tac. Qed.
#[local] Hint Resolve runs_cache_object runs_uncache_object : minis3.

Lemma runs_tx_step {A R} (m : Tx (flow R + A)) (k : A -> Tx (flow R)) :
  runs_tx m -> (forall a, runs_tx (k a)) -> runs_tx (step m k).
Proof. intros Hm Hk. apply runs_tx_bind; [done|]. intros [f|a]; [apply runs_tx_ret|apply Hk]. Qed.

Lemma runs_select_old attempt st : runs_tx (select_old attempt st).
Proof. unfold select_old. runs_tac. Qed.
Lemma runs_inc_new attempt old new size : runs_tx (inc_new attempt old new size).
Proof. unfold inc_new. runs_tac. Qed.
Lemma runs_dec_old attempt old new : runs_tx (dec_old attempt old new).
Proof. unfold dec_old. runs_tac. Qed.
Lemma runs_write_and_commit attempt st after gc : runs after -> runs_tx (write_and_commit attempt st after gc).
Proof. intros Ha. unfold write_and_commit. runs_tac. Qed.
Lemma runs_release_cas c : runs_tx (release_cas c).
Proof. unfold release_cas. runs_tac. Qed.
#[local] Hint Resolve runs_select_old runs_inc_new runs_dec_old runs_release_cas : minis3.

(** An attempt that moves a reference and writes a row. *)
Lemma runs_move attempt sel st after cas size : runs after ->
  runs (transaction (
        step (select_old attempt sel) (fun old_cas =>
        step (inc_new attempt old_cas cas size) (fun _ =>
        step (dec_old attempt old_cas cas) (fun gc =>
        write_and_commit attempt st after gc))))).
Proof.
  intros Ha. apply runs_transaction. apply runs_tx_step; [auto with minis3|intros old].
  apply runs_tx_step; [auto with minis3|intros _]. apply runs_tx_step; [auto with minis3|intros gc].
  by apply runs_write_and_commit.
Qed.

Lemma runs_put_fast attempt b k size etag ct cas : runs (put_fast attempt b k size etag ct cas).
Proof. unfold put_fast. runs_tac. Qed.
Lemma runs_put_slow attempt b k size etag ct cas : runs (put_slow attempt b k size etag ct cas).
Proof. apply runs_move. runs_tac. Qed.
Lemma runs_put_part_attempt attempt u n cas size etag : runs (put_part_attempt attempt u n cas size etag).
Proof. apply runs_move. runs_tac. Qed.
#[local] Hint Resolve runs_put_fast runs_put_slow runs_put_part_attempt : minis3.

(** One round of the retry loop of PutObjectWithRefCount. *)
Lemma runs_put_attempt attempt b k size etag ct cas :
  runs (f ← put_fast attempt b k size etag ct cas;
        match f with Some f => mret f | None => put_slow attempt b k size etag ct cas end).
Proof. runs_tac. Qed.

Lemma runs_PutObjectWithRefCount b k size etag ct cas : runs (PutObjectWithRefCount b k size etag ct cas).
Proof. unfold PutObjectWithRefCount. runs_tac. Qed.
Lemma runs_DeleteObjectWithRefCount b k : runs (DeleteObjectWithRefCount b k).
Proof. unfold DeleteObjectWithRefCount. runs_tac. Qed.
Lemma runs_PutPartWithRefCount u n cas size etag : runs (PutPartWithRefCount u n cas size etag).
Proof. unfold PutPartWithRefCount. runs_tac. Qed.
Lemma runs_CanDeleteCasBlob c : runs (CanDeleteCasBlob c).
Proof. unfold CanDeleteCasBlob, commit_with. runs_tac. Qed.

Lemma runs_execute_one st code m : runs (execute_one st code m).
Proof. unfold execute_one. runs_tac. Qed.
#[local] Hint Resolve runs_execute_one : minis3.

Lemma runs_CreateBucket name owner region acl : runs (CreateBucket name owner region acl).
Proof. unfold CreateBucket. runs_tac. Qed.
Lemma runs_GetBucket name : runs (GetBucket name).
Proof. unfold GetBucket. runs_tac. Qed.
Lemma runs_GetBucketById id : runs (GetBucketById id).
Proof. unfold GetBucketById. runs_tac. Qed.
Lemma runs_ListBuckets owner : runs (ListBuckets owner).
Proof. unfold ListBuckets. runs_tac. Qed.
Lemma runs_DeleteBucket name : runs (DeleteBucket name).
Proof. unfold DeleteBucket. runs_tac. Qed.
Lemma runs_IsBucketEmpty id : runs (IsBucketEmpty id).
Proof. unfold IsBucketEmpty. runs_tac. Qed.
Lemma runs_GetObject b k : runs (GetObject b k).
Proof. unfold GetObject, cached_object. runs_tac. Qed.
Lemma runs_ListObjects b prefix delimiter start n : runs (ListObjects b prefix delimiter start n).
Proof. unfold ListObjects. runs_tac. Qed.
Lemma runs_GetCasBlob c : runs (GetCasBlob c).
Proof. unfold GetCasBlob. runs_tac. Qed.
Lemma runs_GetGarbageBlobs age n : runs (GetGarbageBlobs age n).
Proof. unfold GetGarbageBlobs. runs_tac. Qed.
Lemma runs_DeleteCasBlob c : runs (DeleteCasBlob c).
Proof. unfold DeleteCasBlob. runs_tac. Qed.
Lemma runs_RegisterCasBlob c n : runs (RegisterCasBlob c n).
Proof. unfold RegisterCasBlob. runs_tac. Qed.
Lemma runs_IncrementRefCount c : runs (IncrementRefCount c).
Proof. unfold IncrementRefCount. runs_tac. Qed.
Lemma runs_DecrementRefCount c : runs (DecrementRefCount c).
Proof. unfold DecrementRefCount. runs_tac. Qed.
Lemma runs_DecrementRefCountAndCheckZero c : runs (DecrementRefCountAndCheckZero c).
Proof. unfold DecrementRefCountAndCheckZero. runs_tac. Qed.
Lemma runs_PutObject b k size etag ct h x y : runs (PutObject b k size etag ct h x y).
Proof. unfold PutObject. runs_tac. Qed.
Lemma runs_DeleteObject b k : runs (DeleteObject b k).
Proof. unfold DeleteObject. runs_tac. Qed.
Lemma runs_CreateOrUpdatePart u n c size etag : runs (CreateOrUpdatePart u n c size etag).
Proof. unfold CreateOrUpdatePart. runs_tac. Qed.
Lemma runs_ListMultipartUploads b prefix n : runs (ListMultipartUploads b prefix n).
Proof. unfold ListMultipartUploads. runs_tac. Qed.
Lemma runs_CreateMultipartUpload u b k ct expires ttl : runs (CreateMultipartUpload u b k ct expires ttl).
Proof. unfold CreateMultipartUpload. runs_tac. Qed.
Lemma runs_GetMultipartUpload u : runs (GetMultipartUpload u).
Proof. unfold GetMultipartUpload. runs_tac. Qed.
Lemma runs_DeleteMultipartUpload u : runs (DeleteMultipartUpload u).
Proof. unfold DeleteMultipartUpload. runs_tac. Qed.
Lemma runs_ListParts u marker n : runs (ListParts u marker n).
Proof. unfold ListParts. runs_tac. Qed.
Lemma runs_CheckIdempotency k : runs (CheckIdempotency k).
Proof. unfold CheckIdempotency. runs_tac. Qed.
Lemma runs_RecordIdempotency k h status body ttl : runs (RecordIdempotency k h status body ttl).
Proof. unfold RecordIdempotency. runs_tac. Qed.
Lemma runs_CleanupIdempotencyRecords : runs CleanupIdempotencyRecords.
Proof. unfold CleanupIdempotencyRecords. runs_tac. Qed.
End sessions.

#[export] Hint Resolve runs_PutObjectWithRefCount runs_DeleteObjectWithRefCount runs_PutPartWithRefCount
  runs_CanDeleteCasBlob runs_CreateBucket runs_GetBucket runs_GetBucketById runs_ListBuckets
  runs_DeleteBucket runs_IsBucketEmpty runs_GetObject runs_ListObjects runs_GetGarbageBlobs
  runs_GetCasBlob   runs_DeleteCasBlob runs_CreateMultipartUpload runs_GetMultipartUpload runs_DeleteMultipartUpload
  runs_RegisterCasBlob runs_IncrementRefCount runs_DecrementRefCount runs_DecrementRefCountAndCheckZero
  runs_PutObject runs_DeleteObject runs_CreateOrUpdatePart runs_ListMultipartUploads
  runs_ListParts runs_CheckIdempotency runs_RecordIdempotency runs_CleanupIdempotencyRecords : minis3.
