(* ===== verification/MetaStoreSpec.v ===== *)
(** * The metadata store against its contract

    The contract of reference counting is a pure store: counts per content key,
    objects per key, parts per upload. The transactional operations refine its
    operations on every outcome of the server, the operations keep the counts
    equal to the number of references, and what the collector may delete has
    none. *)
From S2P Require Import Prelude Status Json Crypto Sql MySQLTx MetaStore Sessions MemServer.

Open Scope Z_scope.

(** ** The abstract store *)

Record AObject : Type := MkAObject {
  ao_key : string; ao_cas : string; ao_size : Z; ao_type : string; ao_etag : string }.

Record AStore : Type := MkAStore {
  a_refs : gmap string Z;
  a_objs : gmap (Z * string) AObject;
  a_parts : gmap (string * Z) string
}.

Definition aobject (r : ObjectRow) : AObject :=
  MkAObject (or_key r) (or_cas r) (or_size r) (or_type r) (or_etag r).

(** The contract forgets ids, sizes of blobs and time stamps. *)
Definition abs (t : Tables) : AStore :=
  MkAStore (cr_ref <$> cas_blobs t) (aobject <$> objects t) (pr_cas <$> parts t).

Section contract.
Context `{HC : Collation}.

Definition a_inc (c : string) (a : AStore) : AStore :=
  MkAStore (<[coll c := default 0 (a_refs a !! coll c) + 1]> (a_refs a)) (a_objs a) (a_parts a).

Definition a_dec (c : string) (a : AStore) : AStore :=
  MkAStore (match a_refs a !! coll c with
            | Some n => <[coll c := if 0 <? n then n - 1 else 0]> (a_refs a)
            | None => a_refs a
            end) (a_objs a) (a_parts a).

(** The content to collect after a decrement. *)
Definition a_gc (c : string) (a : AStore) : option string :=
  match a_refs a !! coll c with Some n => if n =? 0 then Some c else None | None => None end.

Definition a_set_object (b : Z) (k : string) (o : AObject) (a : AStore) : AStore :=
  MkAStore (a_refs a) (<[(b, uk255 k) := o]> (a_objs a)) (a_parts a).

Definition a_find (b : Z) (k : string) (a : AStore) : option AObject :=
  match a_objs a !! (b, uk255 k) with
  | Some o => if sql_eq (ao_key o) k then Some o else None
  | None => None
  end.

(** Moving a reference from the content [old] ([""] for none) to [new]: the
    key to collect and the store. *)
Definition a_move (old new : string) (a : AStore) : option string * AStore :=
  let a := if str_empty old || negb (String.eqb old new) then a_inc new a else a in
  if negb (str_empty old) && negb (String.eqb old new)
  then (a_gc old (a_dec old a), a_dec old a) else (None, a).

(** The row an upsert writes keeps the key it was created with. *)
Definition a_upsert (b : Z) (k cas : string) (size : Z) (ctype etag : string) (a : AStore) : AStore :=
  a_set_object b k
    (MkAObject (match a_objs a !! (b, uk255 k) with Some o => ao_key o | None => k end)
       cas size ctype etag) a.

(** PutObject: store the object, move one reference. *)
Definition a_put (b : Z) (k cas : string) (size : Z) (ctype etag : string) (a : AStore)
    : option string * AStore :=
  let old := match a_find b k a with Some o => ao_cas o | None => "" end in
  let '(gc, a1) := a_move old cas a in
  (gc, a_upsert b k cas size ctype etag a1).

(** DeleteObject: drop the object and its reference. *)
Definition a_delete (b : Z) (k : string) (a : AStore) : option (option string * AStore) :=
  match a_find b k a with
  | None => None
  | Some o =>
      let a1 := MkAStore (a_refs a) (delete (b, uk255 k) (a_objs a)) (a_parts a) in
      if str_empty (ao_cas o) then Some (None, a1)
      else Some (a_gc (ao_cas o) (a_dec (ao_cas o) a1), a_dec (ao_cas o) a1)
  end.

(** PutPart: the same for the part of an upload. *)
Definition a_put_part (u : string) (n : Z) (cas : string) (a : AStore) : option string * AStore :=
  let old := default "" (a_parts a !! (coll u, n)) in
  let '(gc, a1) := a_move old cas a in
  (gc, MkAStore (a_refs a1) (a_objs a1) (<[(coll u, n) := cas]> (a_parts a1))).

(** ** Well-formed stores: every count is the number of references, every
    referenced content is counted, and no reference is the empty key. *)
Definition a_count (c : string) (a : AStore) : Z :=
  count_where (fun o => String.eqb (coll (ao_cas o)) c) (a_objs a) +
  count_where (fun p => String.eqb (coll p) c) (a_parts a).

Record counted (a : AStore) : Prop := MkCounted {
  counted_refs c : default 0 (a_refs a !! c) = a_count c a;
  counted_objs k o : a_objs a !! k = Some o -> ao_cas o <> "";
  counted_parts k p : a_parts a !! k = Some p -> p <> ""
}.

Definition delta (c d : string) : Z := Z.b2z (String.eqb (coll c) d).

Lemma ref_inc c d a :
  default 0 (a_refs (a_inc c a) !! d) = default 0 (a_refs a !! d) + delta c d.
Proof.
  unfold a_inc, delta. cbn. rewrite lookup_insert. case_decide as E.
  - subst d. by rewrite String.eqb_refl.
  - apply String.eqb_neq in E. rewrite E. cbn. lia.
Qed.

Lemma ref_dec c d a :
  0 < default 0 (a_refs a !! coll c) ->
  default 0 (a_refs (a_dec c a) !! d) = default 0 (a_refs a !! d) - delta c d.
Proof.
  unfold a_dec, delta. cbn. intros Hpos.
  destruct (a_refs a !! coll c) as [n|] eqn:E; cbn in Hpos; [|lia].
  rewrite lookup_insert. case_decide as F.
  - subst d. rewrite String.eqb_refl, E. cbn. destruct (Z.ltb_spec 0 n); lia.
  - apply String.eqb_neq in F. rewrite F. cbn. lia.
Qed.

(** The counts after moving a reference. *)
Lemma ref_move old new d a :
  (old = "" \/ 0 < default 0 (a_refs a !! coll old)) ->
  default 0 (a_refs (snd (a_move old new a)) !! d) =
  default 0 (a_refs a !! d) + delta new d - (if str_empty old then 0 else delta old d).
Proof.
  intros Hold. unfold a_move. destruct (str_empty old) eqn:Ee; cbn [orb negb andb snd].
  { rewrite ref_inc. lia. }
  destruct Hold as [->|Hold]; [done|].
  destruct (String.eqb_spec old new) as [->|Hne]; cbn [orb negb andb snd].
  { lia. }
  rewrite ref_dec; rewrite ref_inc; [lia|]. unfold delta. destruct (String.eqb _ _); cbn; lia.
Qed.

Lemma move_objs old new a : a_objs (snd (a_move old new a)) = a_objs a.
Proof. unfold a_move. repeat case_match; done. Qed.

Lemma move_parts old new a : a_parts (snd (a_move old new a)) = a_parts a.
Proof. unfold a_move. repeat case_match; done. Qed.

Lemma counted_object_pos a k o :
  counted a -> a_objs a !! k = Some o -> 0 < default 0 (a_refs a !! coll (ao_cas o)).
Proof.
  intros Ha Hk. rewrite (counted_refs _ Ha). unfold a_count.
  rewrite (count_delete _ _ _ _ Hk), String.eqb_refl. cbn.
  pose proof (count_nonneg (fun o0 => String.eqb (coll (ao_cas o0)) (coll (ao_cas o))) (delete k (a_objs a))).
  pose proof (count_nonneg (fun p => String.eqb (coll p) (coll (ao_cas o))) (a_parts a)). lia.
Qed.

Lemma counted_part_pos a k p :
  counted a -> a_parts a !! k = Some p -> 0 < default 0 (a_refs a !! coll p).
Proof.
  intros Ha Hk. rewrite (counted_refs _ Ha). unfold a_count.
  rewrite (count_delete _ (a_parts a) _ _ Hk), String.eqb_refl. cbn.
  pose proof (count_nonneg (fun o => String.eqb (coll (ao_cas o)) (coll p)) (a_objs a)).
  pose proof (count_nonneg (fun q => String.eqb (coll q) (coll p)) (delete k (a_parts a))). lia.
Qed.

Lemma a_find_Some b k a o :
  a_find b k a = Some o -> a_objs a !! (b, uk255 k) = Some o /\ sql_eq (ao_key o) k = true.
Proof. unfold a_find. repeat case_match; naive_solver. Qed.

(** No other object of the bucket shares the indexed prefix of [k]. *)
Definition no_prefix_clash (b : Z) (k : string) (a : AStore) : Prop :=
  forall o, a_objs a !! (b, uk255 k) = Some o -> sql_eq (ao_key o) k = true.

Lemma a_find_lookup b k a : no_prefix_clash b k a -> a_find b k a = a_objs a !! (b, uk255 k).
Proof.
  unfold no_prefix_clash, a_find. intros Hn. destruct (a_objs a !! (b, uk255 k)) as [o|]; [|done].
  by rewrite Hn.
Qed.

Lemma counted_put b k cas size ct etag a :
  cas <> "" -> no_prefix_clash b k a -> counted a ->
  counted (snd (a_put b k cas size ct etag a)).
Proof.
  intros Hcas Hclash Ha. unfold a_put. rewrite a_find_lookup by done.
  set (old := match a_objs a !! (b, uk255 k) with Some o => ao_cas o | None => "" end).
  destruct (a_move old cas a) as [gc a1] eqn:E. cbn.
  assert (Ea : a1 = snd (a_move old cas a)) by by rewrite E.
  assert (Hold : old = "" \/ 0 < default 0 (a_refs a !! coll old)).
  { subst old. destruct (a_objs a !! (b, uk255 k)) as [o|] eqn:F; [right|by left].
    by eapply counted_object_pos. }
  unfold a_upsert, a_set_object.
  split; cbn; rewrite ?Ea, ?move_objs, ?move_parts.
  - intros d. rewrite ref_move by done. rewrite (counted_refs _ Ha).
    unfold a_count. cbn. rewrite count_insert. cbn.
    subst old. destruct (a_objs a !! (b, uk255 k)) as [o|] eqn:F.
    + rewrite (count_delete _ (a_objs a) _ _ F).
      pose proof (counted_objs _ Ha _ _ F) as Hne. apply str_empty_false in Hne. rewrite Hne.
      unfold delta. lia.
    + rewrite (count_delete_none (a_objs a) _ F). cbn. unfold delta. lia.
  - intros k' o. rewrite lookup_insert. case_decide; [by intros [= <-]|apply (counted_objs _ Ha)].
  - apply (counted_parts _ Ha).
Qed.

Lemma counted_put_part u n cas a :
  cas <> "" -> counted a -> counted (snd (a_put_part u n cas a)).
Proof.
  intros Hcas Ha. unfold a_put_part. set (old := default "" (a_parts a !! (coll u, n))).
  destruct (a_move old cas a) as [gc a1] eqn:E. cbn.
  assert (Ea : a1 = snd (a_move old cas a)) by by rewrite E.
  assert (Hold : old = "" \/ 0 < default 0 (a_refs a !! coll old)).
  { subst old. destruct (a_parts a !! (coll u, n)) as [p|] eqn:F; [right|by left].
    by eapply counted_part_pos. }
  split; cbn; rewrite ?Ea, ?move_objs, ?move_parts.
  - intros d. rewrite ref_move by done. rewrite (counted_refs _ Ha).
    unfold a_count. cbn. rewrite count_insert.
    subst old. destruct (a_parts a !! (coll u, n)) as [p|] eqn:F; cbn.
    + rewrite (count_delete _ (a_parts a) _ _ F).
      pose proof (counted_parts _ Ha _ _ F) as Hne. apply str_empty_false in Hne. rewrite Hne.
      unfold delta. lia.
    + rewrite (count_delete_none (a_parts a) _ F). unfold delta. lia.
  - apply (counted_objs _ Ha).
  - intros k' p. rewrite lookup_insert. case_decide; [by intros [= <-]|apply (counted_parts _ Ha)].
Qed.

Lemma counted_delete b k gc a a' :
  a_delete b k a = Some (gc, a') -> counted a -> counted a'.
Proof.
  unfold a_delete. intros E Ha. destruct (a_find b k a) as [o|] eqn:F; [|done].
  apply a_find_Some in F as [F _]. pose proof (counted_objs _ Ha _ _ F) as Hne.
  apply str_empty_false in Hne. rewrite Hne in E. injection E as _ <-.
  split; cbn [a_objs a_parts a_dec].
  - intros d. rewrite ref_dec by (cbn; by eapply counted_object_pos). cbn [a_refs].
    rewrite (counted_refs _ Ha). unfold a_count. cbn. rewrite (count_delete _ (a_objs a) _ _ F).
    unfold delta. lia.
  - intros k' o'. rewrite lookup_delete_Some. intros [_ D]. by eapply counted_objs.
  - apply (counted_parts _ Ha).
Qed.
End contract.

(** ** The statements on the abstract store *)

Section statements.
Context `{HC : Collation, HCal : Calendar}.

Lemma exec_inc_abs now t c s t' rows aff ids :
  exec_stmt now t (InsertOrIncCas c s) = Done t' rows aff ids -> abs t' = a_inc c (abs t).
Proof.
  cbn. unfold exec_inc_or_insert, exec_set_ref. repeat case_match; try done;
    intros E; injection E as <- <- <- <-; unfold abs, a_inc; cbn;
    rewrite fmap_insert, lookup_fmap; repeat f_equal; by simplify_option_eq.
Qed.

Lemma exec_dec_abs now t c t' rows aff ids :
  exec_stmt now t (DecCas c) = Done t' rows aff ids -> abs t' = a_dec c (abs t).
Proof.
  cbn. unfold exec_set_ref, abs, a_dec. cbn. rewrite lookup_fmap.
  destruct (cas_blobs t !! coll c) as [r|] eqn:E; cbn.
  - case_match; [done|]. intros F. injection F as <- <- <- <-. cbn. by rewrite fmap_insert.
  - intros F. by injection F as <- <- <- <-.
Qed.

(** The result rows of the locked reads. *)
Lemma exec_select_ref now t c fu t' rows aff ids :
  exec_stmt now t (SelectRefCount c fu) = Done t' rows aff ids ->
  t' = t /\ rows = opt_rows (fun n => [num n]) (a_refs (abs t) !! coll c).
Proof.
  cbn. unfold rows_of. intros F. injection F as <- <- <- <-. split; [done|].
  rewrite lookup_fmap. by destruct (cas_blobs t !! coll c).
Qed.

Lemma exec_select_object_cas now t b k t' rows aff ids :
  exec_stmt now t (SelectObjectCas b k) = Done t' rows aff ids ->
  t' = t /\ rows = opt_rows (fun o => [Some (ao_cas o)]) (a_find b k (abs t)).
Proof.
  cbn. unfold rows_of, find_object, a_find. intros F. injection F as <- <- <- <-. split; [done|].
  cbn. rewrite lookup_fmap. destruct (objects t !! (b, uk255 k)) as [r|]; cbn; [|done].
  by destruct (sql_eq (or_key r) k).
Qed.

Lemma exec_select_part_cas now t u n t' rows aff ids :
  exec_stmt now t (SelectPartCas u n) = Done t' rows aff ids ->
  t' = t /\ rows = opt_rows (fun p => [Some p]) (a_parts (abs t) !! (coll u, n)).
Proof.
  cbn. unfold rows_of. intros F. injection F as <- <- <- <-. split; [done|].
  rewrite lookup_fmap. by destruct (parts t !! (coll u, n)).
Qed.

Lemma exec_insert_object_abs now t up b k cas s ct e t' rows aff ids :
  exec_insert_object now t up b k cas s ct e = Done t' rows aff ids ->
  abs t' = a_upsert b k cas s ct e (abs t) /\ (up = false -> a_find b k (abs t) = None).
Proof.
  unfold exec_insert_object, a_upsert, a_set_object, a_find, abs. case_match; [done|]. cbn.
  rewrite lookup_fmap. destruct (objects t !! (b, uk255 k)) as [r|]; cbn.
  - destruct up; [|done]. intros F. injection F as <- <- <- <-. cbn.
    rewrite fmap_insert. done.
  - intros F. injection F as <- <- <- <-. cbn. rewrite fmap_insert. done.
Qed.

Lemma exec_delete_object_abs now t b k t' rows aff ids o :
  exec_stmt now t (DeleteObjectRow b k) = Done t' rows aff ids -> a_find b k (abs t) = Some o ->
  abs t' = MkAStore (a_refs (abs t)) (delete (b, uk255 k) (a_objs (abs t))) (a_parts (abs t)).
Proof.
  cbn. unfold exec_delete_object, a_find, find_object, abs. cbn. rewrite lookup_fmap.
  destruct (objects t !! (b, uk255 k)) as [r|]; cbn; [|done].
  destruct (sql_eq (or_key r) k); [|done]. intros F _. injection F as <- <- <- <-. cbn.
  by rewrite fmap_delete.
Qed.

Lemma exec_upsert_part_abs now t u n cas s e t' rows aff ids :
  exec_stmt now t (UpsertPart u n cas s e) = Done t' rows aff ids ->
  abs t' = MkAStore (a_refs (abs t)) (a_objs (abs t)) (<[(coll u, n) := cas]> (a_parts (abs t))).
Proof.
  cbn. unfold exec_upsert_part, abs. repeat case_match; try done;
    intros F; injection F as <- <- <- <-; cbn; by rewrite fmap_insert.
Qed.

Lemma stoi_num n z : conv_exn (stoi (to_string n)) = Ret z -> z = n.
Proof.
  unfold stoi. rewrite sto_signed_to_string. case_match; cbn; [|done]. by intros [= ->].
Qed.

(** The test for a zero count reads back the count. *)
Lemma count_is_zero_rows c a z :
  count_is_zero (opt_rows (fun n => [num n]) (a_refs a !! coll c)) = Ret z ->
  (if z then Some c else None) = a_gc c a.
Proof.
  unfold count_is_zero, a_gc. destruct (a_refs a !! coll c) as [n|]; cbn; [|by intros [= <-]].
  destruct (conv_exn (stoi (to_string n))) as [m|] eqn:E; cbn; [|done].
  apply stoi_num in E as ->. by intros [= <-].
Qed.
End statements.

(** ** Refinement of the transactional operations *)

(** The result of an operation that commits the abstract step [spec] of the
    tables [T0] or nothing: success reports the step, a failure or an exception
    may come before or after the commit. *)
Definition gc_outcome (spec : option string * AStore) (T0 : Tables) (r : exn GcKey) (T : Tables) : Prop :=
  match r with
  | Ret (Ok gc) => (gc, abs T) = spec
  | _ => T = T0 \/ abs T = snd spec
  end.

(** The same for one attempt: going on means that nothing was committed. *)
Definition attempt_outcome (spec : option string * AStore) (T0 : Tables) (r : exn (flow GcKey))
    (T : Tables) : Prop :=
  match r with
  | Ret Continue => T = T0
  | Ret (Return x) => gc_outcome spec T0 (Ret x) T
  | Throw e => gc_outcome spec T0 (Throw e) T
  end.

Lemma outcome_on_err spec T0 attempt e : attempt_outcome spec T0 (Ret (on_err attempt e)) T0.
Proof. unfold on_err. case_match; cbn; auto. Qed.

Lemma outcome_on_commit_err spec T0 T attempt e :
  T = T0 \/ (abs T = snd spec /\ IsRetryableTxnError e = false) ->
  attempt_outcome spec T0 (Ret (on_commit_err attempt e)) T.
Proof.
  unfold on_commit_err. intros [->|[E1 E2]].
  - case_match; cbn; auto.
  - rewrite E2, andb_false_r. cbn. auto.
Qed.

(** An error never ends an attempt with success. *)
Lemma on_err_not_ok {A} attempt e (a : A) : on_err attempt e <> Return (Ok a).
Proof. unfold on_err. by case_match. Qed.

Lemma on_commit_err_not_ok {A} attempt e (a : A) : on_commit_err attempt e <> Return (Ok a).
Proof. unfold on_commit_err. by case_match. Qed.

#[export] Hint Resolve outcome_on_err : minis3.

Section refinement.
Context `{HC : Collation, HCal : Calendar, HS : MySQL, HP : ConnPool, HR : Redis}.
Context `{HJ : JsonLib, HD : Digest} `{HL : !MySQLLaws}.
Implicit Types (w : MetaW) (T : Tables).

(** [w] is inside a transaction that has reached [T] over [T0]. *)
Definition in_trans T0 T w : Prop := committed w = T0 /\ open_tx w = Some T.

Lemma wp_step {A R} (m : Tx (flow R + A)) (k : A -> Tx (flow R)) Q st :
  wp m (fun r st' => match r with
    | Ret (inl f) => Q (Ret f) st'
    | Ret (inr a) => wp (k a) Q st'
    | Throw e => Q (Throw e) st'
    end) st ->
  wp (step m k) Q st.
Proof. intros D. apply wp_bind. eapply wp_mono; [exact D|]. by intros [[f|a]|e] st'. Qed.

(** Both kinds of locked read agree with the abstract lookup [o]. *)
Definition reads_old (st : Stmt) T (o : option string) : Prop :=
  is_tx_stmt st = false /\
  forall now t' rows aff ids, exec_stmt now T st = Done t' rows aff ids ->
    t' = T /\ rows = opt_rows (fun c => [Some c]) o.

Lemma reads_old_object b k T : reads_old (SelectObjectCas b k) T (ao_cas <$> a_find b k (abs T)).
Proof.
  split; [done|]. intros now t' rows aff ids E.
  apply exec_select_object_cas in E as [-> ->]. split; [done|]. by destruct (a_find b k (abs T)).
Qed.

Lemma reads_old_part u n T : reads_old (SelectPartCas u n) T (a_parts (abs T) !! (coll u, n)).
Proof. split; [done|]. intros now t' rows aff ids E. by apply exec_select_part_cas in E. Qed.

Lemma wp_select_old attempt st T0 T o (R : exn (flow GcKey + string) -> MetaW * bool -> Prop) w :
  in_trans T0 T w -> reads_old st T o ->
  (forall w', in_trans T0 T w' -> R (Ret (inr (default "" o))) (w', false)) ->
  (forall w' e, committed w' = T0 -> R (Ret (inl (on_err attempt e))) (w', false)) ->
  wp (select_old attempt st) R (w, false).
Proof.
  intros [Hc Ho] [Hst Hrows] Hok Herr. apply wp_bind.
  eapply wp_tx_run; [done..| |]; cbn.
  - intros w' t' rows aff id ids _ E _ D1 D2. destruct (Hrows _ _ _ _ _ E) as [-> ->].
    destruct o; cbn; apply wp_ret, Hok; by split.
  - intros w' e _ D _ _. apply wp_ret. by apply Herr.
Qed.

Lemma wp_inc_new attempt old new size T0 T (R : exn (flow GcKey + unit) -> MetaW * bool -> Prop) w :
  in_trans T0 T w ->
  (forall w' T', in_trans T0 T' w' ->
     abs T' = (if str_empty old || negb (String.eqb old new) then a_inc new (abs T) else abs T) ->
     R (Ret (inr tt)) (w', false)) ->
  (forall w' e, committed w' = T0 -> R (Ret (inl (on_err attempt e))) (w', false)) ->
  wp (inc_new attempt old new size) R (w, false).
Proof.
  intros [Hc Ho] Hok Herr. unfold inc_new.
  destruct (str_empty old || negb (String.eqb old new)).
  - apply wp_bind. eapply wp_tx_run; [done..| |]; cbn.
    + intros w' t' rows aff id ids _ E _ D1 D2. apply wp_ret.
      apply (Hok w' t'); [done|]. by eapply exec_inc_abs.
    + intros w' e _ D _ _. apply wp_ret. by apply Herr.
  - apply wp_ret. by apply (Hok w T).
Qed.

Lemma wp_dec_old attempt old new T0 T (R : exn (flow GcKey + option string) -> MetaW * bool -> Prop) w :
  in_trans T0 T w ->
  (forall w' T' gc, in_trans T0 T' w' ->
     (gc, abs T') = (if negb (str_empty old) && negb (String.eqb old new)
                     then (a_gc old (a_dec old (abs T)), a_dec old (abs T)) else (None, abs T)) ->
     R (Ret (inr gc)) (w', false)) ->
  (forall w' e, committed w' = T0 -> R (Ret (inl (on_err attempt e))) (w', false)) ->
  (forall w' e, committed w' = T0 -> R (Throw e) (w', false)) ->
  wp (dec_old attempt old new) R (w, false).
Proof.
  intros [Hc Ho] Hok Herr Hthrow. unfold dec_old.
  destruct (negb (str_empty old) && negb (String.eqb old new)).
  - apply wp_bind. eapply wp_tx_run; [done..| |]; cbn.
    + intros w1 t1 rows aff id ids _ E _ D1 D2. apply exec_dec_abs in E.
      apply wp_bind. eapply wp_tx_run; [done..| |]; cbn.
      * intros w2 t2 rows2 aff2 id2 ids2 _ E2 _ D3 D4. apply (exec_select_ref 0 _ _ false) in E2 as [-> ->].
        apply wp_bind, wp_lift.
        destruct (count_is_zero _) as [z|e] eqn:Ez; [|by apply Hthrow].
        apply count_is_zero_rows in Ez. apply wp_ret. rewrite Ez.
        apply (Hok w2 t1); [done|]. by rewrite E.
      * intros w2 e _ D _ _. apply wp_ret. by apply Herr.
    + intros w' e _ D _ _. apply wp_ret. by apply Herr.
  - apply wp_ret. by apply (Hok w T).
Qed.

(** The last step: the row statement [st] reaches [spec]. *)
Lemma wp_write_and_commit attempt st after gc spec T0 T w :
  in_trans T0 T w -> is_tx_stmt st = false -> no_db after -> fst spec = gc ->
  (forall now t' rows aff ids, exec_stmt now T st = Done t' rows aff ids -> abs t' = snd spec) ->
  wp (write_and_commit attempt st after gc) (tx_done (attempt_outcome spec T0)) (w, false).
Proof.
  intros [Hc Ho] Hst Hafter Hgc Hspec. eapply wp_stmt; [done..| |].
  - intros w1 t1 rows aff id ids E _ D1 D2. eapply wp_commit_then; [done..| |].
    + intros w2 D3 D4. apply wp_in_tx_no_db; [done| | |done].
      * intros _ w3 D5 D6. apply wp_ret. split; cbn; [congruence|].
        rewrite D5, D3. specialize (Hspec _ _ _ _ _ E).
        destruct spec as [g a]. cbn in *. by subst.
      * intros e. cbn. right. rewrite D3. eauto.
    + intros w2 e D3 D4. apply wp_ret. split; [done|]. apply outcome_on_commit_err. cbn.
      destruct D3 as [->|[-> D3]]; eauto.
  - intros w1 e D _. apply wp_ret. split; [done|]. cbn [fst snd]. rewrite D. auto with minis3.
Qed.

Lemma no_db_cache b k info : no_db (w ← get_world; cache_object b k (info w)).
Proof.
  intros w. unfold cache_object, get_world, put_world, mbind, M_bind, lift_exn. cbn.
  destruct (redis_live w); [|done]. by destruct (SerializeObjectInfo (info w)).
Qed.

(** The slow path of PutObject, and PutPart: from [T0], one attempt either
    stops or commits the move of the reference and the row. *)
Lemma wp_move_attempt attempt sel st after old cas size T0 (upd : AStore -> AStore) w :
  starts (m_srv w) -> committed w = T0 -> open_tx w = None -> no_db after ->
  reads_old sel T0 old -> is_tx_stmt st = false ->
  (forall T now t' rows aff ids, a_objs (abs T) = a_objs (abs T0) -> a_parts (abs T) = a_parts (abs T0) ->
     exec_stmt now T st = Done t' rows aff ids -> abs t' = upd (abs T)) ->
  wp (transaction (
        step (select_old attempt sel) (fun old_cas =>
        step (inc_new attempt old_cas cas size) (fun _ =>
        step (dec_old attempt old_cas cas) (fun gc =>
        write_and_commit attempt st after gc)))))
     (db_done (attempt_outcome
        (let '(gc, a1) := a_move (default "" old) cas (abs T0) in (gc, upd a1)) T0)) w.
Proof.
  intros Hs Hc Ho Hafter Hsel Hst Hupd. eapply wp_transaction_tables; [done..|].
  intros w1 D1 D2. set (spec := let '(gc, a1) := _ in _).
  assert (Herr : forall (w' : MetaW) e, committed w' = T0 ->
    tx_done (attempt_outcome spec T0) (Ret (on_err attempt e)) (w', false)).
  { intros w' e E. split; [done|]. cbn [fst snd]. rewrite E. auto with minis3. }
  apply wp_step. eapply wp_select_old; [by split|done| |done].
  intros w2 Hw2. apply wp_step. eapply wp_inc_new; [done| |done].
  intros w3 T1 Hw3 E1. apply wp_step. eapply wp_dec_old; [done| |done|].
  2:{ intros w' e E. split; [done|]. cbn. auto. }
  intros w4 T2 gc Hw4 E2. set (old_cas := default "" old) in *.
  assert (Em : a_move old_cas cas (abs T0) = (gc, abs T2)).
  { rewrite E2. unfold a_move. rewrite E1. done. }
  assert (Es : spec = (gc, upd (abs T2))) by (subst spec; by rewrite Em).
  apply (wp_write_and_commit _ _ _ _ _ T0 T2); [done..|by rewrite Es|].
  intros now t' rows aff ids E. rewrite Es. cbn. eapply Hupd; [| |exact E].
  - change (abs T2) with (snd (gc, abs T2)). by rewrite <-Em, move_objs.
  - change (abs T2) with (snd (gc, abs T2)). by rewrite <-Em, move_parts.
Qed.

Lemma wp_put_slow attempt b k size etag ct cas T0 w :
  starts (m_srv w) -> committed w = T0 -> open_tx w = None ->
  wp (put_slow attempt b k size etag ct cas)
     (db_done (attempt_outcome (a_put b k cas size ct etag (abs T0)) T0)) w.
Proof.
  intros Hs Hc Ho. eapply wp_mono.
  - unfold put_slow.
    apply (wp_move_attempt _ _ _ _ (ao_cas <$> a_find b k (abs T0)) _ _ T0
             (a_upsert b k cas size ct etag)); [done..| | | |].
    + apply (no_db_cache b k (fun w => MkObjectInfo 0 b k "" false false size etag ct "" cas "" "" (m_now w))).
    + apply reads_old_object.
    + done.
    + intros T now t' rows aff ids _ _ E. by apply exec_insert_object_abs in E as [E _].
  - intros r w' D. unfold a_put. by destruct (a_find b k (abs T0)).
Qed.

Lemma wp_put_fast attempt b k size etag ct cas T0 w :
  starts (m_srv w) -> committed w = T0 -> open_tx w = None ->
  wp (put_fast attempt b k size etag ct cas)
     (db_done (fun r T => match r with
        | Ret None => T = T0
        | Ret (Some f) => attempt_outcome (a_put b k cas size ct etag (abs T0)) T0 (Ret f) T /\
            forall gc, f = Return (Ok gc) -> a_find b k (abs T0) = None
        | Throw e => False
        end)) w.
Proof.
  intros Hs Hc Ho. eapply wp_transaction_tables; [done..|]. intros w1 D1 D2.
  eapply wp_stmt; [done..| |].
  - intros w2 t2 rows aff id ids E2 _ D3 D4. apply exec_inc_abs in E2.
    eapply wp_stmt; [done..| |].
    + intros w3 t3 rows3 aff3 id3 ids3 E3 _ D5 D6.
      apply exec_insert_object_abs in E3 as [E3 Hnone].
      assert (Hn : a_find b k (abs T0) = None).
      { specialize (Hnone eq_refl). by rewrite E2 in Hnone. }
      assert (Hput : a_put b k cas size ct etag (abs T0) = (None, abs t3)).
      { unfold a_put. rewrite Hn. cbn. by rewrite E3, E2. }
      eapply wp_commit_then; [done..| |].
      * intros w4 D7 D8. apply wp_ret. split; [done|]. cbn. by rewrite D7, Hput.
      * intros w4 e D7 D8. apply wp_ret. split; [done|].
        split; [|by intros gc E%on_commit_err_not_ok]. apply outcome_on_commit_err.
        cbn [fst snd]. rewrite Hput. destruct D7 as [->|[-> D7]]; eauto.
    + intros w3 e D5 _. case_match; apply wp_ret; split; try done. cbn [fst snd].
      split; [rewrite D5; auto with minis3|by intros gc E%on_err_not_ok].
  - intros w2 e D3 _. apply wp_ret; split; [done|]. cbn [fst snd].
    split; [rewrite D3; auto with minis3|by intros gc E%on_err_not_ok].
Qed.

Lemma put_object_refines b k size etag ct cas w :
  starts (m_srv w) -> open_tx w = None ->
  wp (PutObjectWithRefCount b k size etag ct cas)
     (db_done (gc_outcome (a_put b k cas size ct etag (abs (committed w))) (committed w))) w.
Proof.
  intros Hs Ho. apply wp_with_conn_tables; [done|cbn; auto|]. intros w1 Hm D1 D2.
  eapply (wp_retry _ _ _ _ _ (committed w)); [by rewrite Hm|intros a; apply runs_put_attempt|done..|cbn; auto|].
  intros attempt w2 Hs2 D3 D4. apply wp_bind.
  eapply wp_mono.
  { apply wp_runs; [apply runs_put_fast|by apply (wp_put_fast _ _ _ _ _ _ _ (committed w))]. }
  intros [[f|]|e] w3 [[D5 D6] D7]; [apply wp_ret; by split; [|apply D6]| |done].
  pose proof (starts_later _ _ D7 Hs2) as Hs3.
  eapply wp_mono; [by apply (wp_put_slow _ _ _ _ _ _ _ (committed w))|].
  intros r w4 D. exact D.
Qed.

Lemma put_part_refines u n cas size etag w :
  starts (m_srv w) -> open_tx w = None ->
  wp (PutPartWithRefCount u n cas size etag)
     (db_done (gc_outcome (a_put_part u n cas (abs (committed w))) (committed w))) w.
Proof.
  intros Hs Ho. apply wp_with_conn_tables; [done|cbn; auto|]. intros w1 Hm D1 D2.
  eapply (wp_retry _ _ _ _ _ (committed w)); [by rewrite Hm|intros a; apply runs_put_part_attempt|done..|cbn; auto|].
  intros attempt w2 Hs2 D3 D4. eapply wp_mono.
  - unfold put_part_attempt.
    apply (wp_move_attempt _ _ _ _ (a_parts (abs (committed w)) !! (coll u, n)) _ _ (committed w)
             (fun a => MkAStore (a_refs a) (a_objs a) (<[(coll u, n) := cas]> (a_parts a)))); try done.
    + apply reads_old_part.
    + intros T now t' rows aff ids _ _ E. by apply exec_upsert_part_abs in E.
  - intros r w4 D. exact D.
Qed.

Lemma no_db_uncache b k : no_db (uncache_object b k).
Proof. intros w. unfold uncache_object, get_world, put_world, mbind, M_bind. cbn. by destruct (redis_live w). Qed.

(** A deletion commits the abstract deletion or nothing, and a missing key
    is reported only when there is none. *)
Definition delete_outcome (spec : option (option string * AStore)) (T0 : Tables) (r : exn GcKey)
    (T : Tables) : Prop :=
  match r with
  | Ret (Ok gc) => spec = Some (gc, abs T)
  | Ret (Err s) =>
      (code_ s = NoSuchKey -> spec = None) /\ (T = T0 \/ (exists gc, spec = Some (gc, abs T)))
  | Throw _ => T = T0 \/ (exists gc, spec = Some (gc, abs T))
  end.

Lemma delete_db_err spec T0 T e :
  T = T0 \/ (exists gc, spec = Some (gc, abs T)) -> delete_outcome spec T0 (Ret (DbErr e)) T.
Proof. by split. Qed.

Lemma wp_release_cas c T0 T (R : exn (string + option string) -> MetaW * bool -> Prop) w :
  in_trans T0 T w ->
  (forall w' T' gc, in_trans T0 T' w' ->
     (gc, abs T') = (if str_empty c then (None, abs T) else (a_gc c (a_dec c (abs T)), a_dec c (abs T))) ->
     R (Ret (inr gc)) (w', false)) ->
  (forall w' e, committed w' = T0 -> R (Ret (inl e)) (w', false)) ->
  (forall w' e, committed w' = T0 -> R (Throw e) (w', false)) ->
  wp (release_cas c) R (w, false).
Proof.
  intros [Hc Ho] Hok Herr Hthrow. unfold release_cas. destruct (str_empty c).
  { apply wp_ret. by apply (Hok w T). }
  apply wp_bind. eapply wp_tx_run; [done..| |]; cbn.
  - intros w1 t1 rows aff id ids _ E _ D1 D2. apply exec_dec_abs in E.
    apply wp_bind. eapply wp_tx_run; [done..| |]; cbn.
    + intros w2 t2 rows2 aff2 id2 ids2 _ E2 _ D3 D4.
      apply (exec_select_ref 0 _ _ false) in E2 as [-> ->]. apply wp_bind, wp_lift.
      destruct (count_is_zero _) as [z|e] eqn:Ez; [|by apply Hthrow].
      apply count_is_zero_rows in Ez. apply wp_ret. rewrite Ez.
      apply (Hok w2 t1); [done|]. by rewrite E.
    + intros w2 e _ D _ _. apply wp_ret. by apply Herr.
  - intros w' e _ D _ _. apply wp_ret. by apply Herr.
Qed.

Lemma delete_object_refines b k w :
  starts (m_srv w) -> open_tx w = None ->
  wp (DeleteObjectWithRefCount b k)
     (db_done (delete_outcome (a_delete b k (abs (committed w))) (committed w))) w.
Proof.
  intros Hs Ho. apply wp_with_conn_tables; [done|by apply delete_db_err; left|]. intros w1 Hm D1 D2.
  set (T0 := committed w) in *. eapply wp_transaction_tables; [by rewrite Hm|done..|]. intros w2 D3 D4.
  assert (Herr : forall (w' : MetaW) e, committed w' = T0 ->
    tx_done (delete_outcome (a_delete b k (abs T0)) T0) (Ret (DbErr e)) (w', false)).
  { intros w' e E. split; [done|]. apply delete_db_err. by left. }
  eapply wp_stmt; [done..| |]; [|intros w3 e E _; by apply wp_ret, Herr].
  intros w3 t3 rows aff id ids E3 _ D5 D6. apply exec_select_object_cas in E3 as [-> ->].
  destruct (a_find b k (abs T0)) as [o|] eqn:F; cbn [opt_rows first_cell col lookup].
  2:{ apply wp_ret. split; [done|]. cbn. split; [|by left]. unfold a_delete. by rewrite F. }
  eapply wp_stmt; [done..| |]; [|intros w4 e E _; by apply wp_ret, Herr].
  intros w4 t4 rows4 aff4 id4 ids4 E4 _ D7 D8.
  eapply exec_delete_object_abs in E4; [|exact F].
  apply wp_bind. eapply wp_release_cas; [by split| | |].
  - intros w5 T5 gc [D9 D10] Egc.
    assert (Hspec : a_delete b k (abs T0) = Some (gc, abs T5)).
    { unfold a_delete. rewrite F, Egc, E4. by destruct (str_empty (ao_cas o)). }
    eapply wp_commit_then; [done..| |].
    + intros w6 D11 D12. apply wp_in_tx_no_db; [apply no_db_uncache| | |done].
      * intros _ w7 D13 D14. apply wp_ret. split; cbn; [congruence|]. by rewrite D13, D11.
      * intros e. cbn. right. exists gc. by rewrite D11.
    + intros w6 e D11 D12. apply wp_ret. split; [done|]. apply delete_db_err. cbn.
      destruct D11 as [->|[-> _]]; eauto.
  - intros w5 e E. by apply wp_ret, Herr.
  - intros w5 e E. split; [done|]. cbn. by left.
Qed.

Lemma stoll_num n z : conv_exn (stoll (to_string n)) = Ret z -> z = n.
Proof. unfold stoll. rewrite sto_signed_to_string. case_match; cbn; [|done]. by intros [= ->]. Qed.

(** [true] only for a counted content with count zero and no reference; the
    check itself changes nothing. *)
Definition can_delete_outcome (c : string) (T0 : Tables) (r : exn (Result bool)) (T : Tables) : Prop :=
  T = T0 /\
  (r = Ret (Ok true) ->
   a_refs (abs T0) !! coll c = Some 0 /\ object_refs T0 c = 0 /\ part_refs T0 c = 0).

Lemma wp_commit_with c (v : bool) T0 w :
  in_trans T0 T0 w ->
  (v = true -> a_refs (abs T0) !! coll c = Some 0 /\ object_refs T0 c = 0 /\ part_refs T0 c = 0) ->
  wp (commit_with v) (tx_done (can_delete_outcome c T0)) (w, false).
Proof.
  intros [D1 D2] Hv. eapply wp_commit_then; [done..| |].
  - intros w' E1 E2. apply wp_ret. split; [done|]. split; [done|]. intros [= ->]. auto.
  - intros w' e E1 E2. apply wp_ret. split; [done|]. split; [|done].
    cbn. by destruct E1 as [->|[-> _]].
Qed.

Lemma can_delete_safe c w :
  starts (m_srv w) -> open_tx w = None ->
  wp (CanDeleteCasBlob c) (db_done (can_delete_outcome c (committed w))) w.
Proof.
  intros Hs Ho. apply wp_with_conn_tables; [done|by split|]. intros w1 Hm D1 D2.
  set (T0 := committed w) in *. eapply wp_transaction_tables; [by rewrite Hm|done..|]. intros w2 D3 D4.
  assert (Herr : forall (w' : MetaW) e, committed w' = T0 ->
    tx_done (can_delete_outcome c T0) (Ret (DbErr e)) (w', false)) by (by intros; split).
  assert (Hthrow : forall (w' : MetaW) e, committed w' = T0 ->
    tx_done (can_delete_outcome c T0) (Throw e) (w', false)) by (by intros; split).
  eapply wp_stmt; [done..| |]; [|intros w3 e E _; by apply wp_ret, Herr].
  intros w3 t3 rows aff id ids E3 _ D5 D6. apply (exec_select_ref 0 _ _ true) in E3 as [-> ->].
  destruct (a_refs (abs T0) !! coll c) as [n|] eqn:F; cbn [opt_rows first_cell col lookup].
  2:{ by apply wp_commit_with. }
  apply wp_bind, wp_lift. cbn [num default].
  destruct (conv_exn (stoi (to_string n))) as [m|e] eqn:En; [|by apply Hthrow].
  apply stoi_num in En as ->. destruct (Z.eqb_spec n 0) as [->|]; cbn [negb]; [|by apply wp_commit_with].
  eapply wp_stmt; [done..| |]; [|intros w4 e E _; by apply wp_ret, Herr].
  intros w4 t4 rows4 aff4 id4 ids4 E4 _ D7 D8. injection E4 as <- <- <- <-.
  apply wp_bind, wp_lift. cbn [first_count ll_or0 col lookup num default].
  destruct (ll_or0 _ _) as [m|e] eqn:Em; [|by apply Hthrow]. cbn in Em. apply stoll_num in Em as ->.
  destruct (Z.ltb_spec 0 (object_refs T0 c)); [by apply wp_commit_with|].
  eapply wp_stmt; [done..| |]; [|intros w5 e E _; by apply wp_ret, Herr].
  intros w5 t5 rows5 aff5 id5 ids5 E5 _ D9 D10. injection E5 as <- <- <- <-.
  apply wp_bind, wp_lift. cbn [first_count].
  destruct (ll_or0 _ _) as [m|e] eqn:Em; [|by apply Hthrow]. cbn in Em. apply stoll_num in Em as ->.
  apply wp_commit_with; [done|]. intros Hp. split_and!; [done| |by apply Z.eqb_eq].
  pose proof (count_nonneg (fun r => sql_eq (or_cas r) c) (objects T0)). unfold object_refs in *. lia.
Qed.
End refinement.

(** ** Success on an undisturbed server *)

Section progress.
Context `{HC : Collation, HCal : Calendar, HS : MySQL, HP : ConnPool, HR : Redis}.
Context `{HJ : JsonLib, HD : Digest} `{HL : !MySQLLaws} `{HK : !CalmServer}.
Implicit Types (w : MetaW) (T : Tables).

Definition kMaxRef : Z := 2147483647.

(** Every count leaves room for one more reference within an [int]. *)
Definition room T : Prop := forall c n, a_refs (abs T) !! c = Some n -> 0 <= n < kMaxRef.

Lemma accepts_inc T c s :
  0 <= s -> fits 64 c = true -> (forall n, a_refs (abs T) !! coll c = Some n -> n + 1 < kMaxU32) ->
  accepts (InsertOrIncCas c s) T.
Proof.
  intros Hs Hf Hn now. cbn. unfold exec_inc_or_insert, exec_set_ref.
  rewrite Hf. destruct (Z.leb_spec 0 s); [cbn|lia]. cbn in Hn. rewrite lookup_fmap in Hn.
  destruct (cas_blobs T !! coll c) as [r|]; [|eauto].
  specialize (Hn _ eq_refl). destruct (Z.leb_spec kMaxU32 (cr_ref r + 1)); [lia|eauto].
Qed.

Lemma accepts_dec T c :
  (forall n, a_refs (abs T) !! coll c = Some n -> n < kMaxU32) -> accepts (DecCas c) T.
Proof.
  intros Hn now. cbn. unfold exec_set_ref. cbn in Hn. rewrite lookup_fmap in Hn.
  destruct (cas_blobs T !! coll c) as [r|]; [|unfold rows_of; eauto].
  specialize (Hn _ eq_refl). unfold kMaxU32 in *. destruct (Z.ltb_spec 0 (cr_ref r));
    case_match eqn:E; eauto; apply Z.leb_le in E; lia.
Qed.

Lemma inc_buckets now T c s T' rows aff ids :
  exec_stmt now T (InsertOrIncCas c s) = Done T' rows aff ids -> buckets T' = buckets T.
Proof.
  cbn. unfold exec_inc_or_insert, exec_set_ref. repeat case_match; try done;
    intros E; injection E as <- <- <- <-; done.
Qed.

Lemma dec_buckets now T c T' rows aff ids :
  exec_stmt now T (DecCas c) = Done T' rows aff ids -> buckets T' = buckets T.
Proof.
  cbn. unfold exec_set_ref. repeat case_match; try done; intros E; injection E as <- <- <- <-; done.
Qed.

Lemma bucket_exists_eq T T' b : buckets T' = buckets T -> bucket_exists T' b = bucket_exists T b.
Proof. unfold bucket_exists. by intros ->. Qed.

(** The texts of an object row are within the columns. *)
Definition row_fits (k cas ct etag : string) : bool :=
  fits 1024 k && fits 64 cas && fits 255 ct && fits 64 etag.

(** The row statement is accepted when the bucket and the content exist. *)
Definition writable T b cas size : Prop :=
  bucket_exists T b = true /\ is_Some (a_refs (abs T) !! coll cas) /\ 0 <= size.

Lemma row_fits_cas k cas ct etag : row_fits k cas ct etag = true -> fits 64 cas = true.
Proof. unfold row_fits. rewrite !andb_true_iff. tauto. Qed.

Lemma writable_guard T b k cas size ct etag :
  writable T b cas size -> row_fits k cas ct etag = true ->
  negb (bucket_exists T b && cas_exists T cas && (0 <=? size) && fits 1024 k && fits 64 cas
        && fits 255 ct && fits 64 etag) = false.
Proof.
  intros (D1 & D2 & D3) Hf. unfold row_fits in Hf. rewrite !andb_true_iff in Hf.
  destruct Hf as (((F1 & F2) & F3) & F4). unfold cas_exists. cbn in D2.
  rewrite lookup_fmap, fmap_is_Some in D2.
  rewrite D1, F1, F2, F3, F4, bool_decide_true by done. destruct (Z.leb_spec 0 size); (done || lia).
Qed.

Lemma accepts_upsert T b k cas size ct etag :
  writable T b cas size -> row_fits k cas ct etag = true ->
  accepts (UpsertObject b k cas size ct etag) T.
Proof.
  intros D Hf now. cbn. unfold exec_insert_object. rewrite writable_guard by done.
  destruct (objects T !! (b, uk255 k)); eauto.
Qed.

Lemma inc_some c a : is_Some (a_refs (a_inc c a) !! coll c).
Proof. cbn. rewrite lookup_insert_eq. eauto. Qed.

Lemma dec_some c d a : is_Some (a_refs a !! coll d) -> is_Some (a_refs (a_dec c a) !! coll d).
Proof.
  cbn. intros Hd. destruct (a_refs a !! coll c); [|done]. rewrite lookup_insert. case_decide; eauto.
Qed.

Lemma inc_room T c a d n :
  room T -> a = a_inc c (abs T) -> a_refs a !! d = Some n -> 0 <= n <= kMaxRef.
Proof.
  intros Hr ->. cbn. rewrite lookup_insert. case_decide.
  - intros [= <-]. destruct (a_refs (abs T) !! coll c) as [m|] eqn:E; cbn in *; rewrite ?E; cbn.
    + apply Hr in E. lia.
    + unfold kMaxRef. lia.
  - intros E. apply Hr in E. lia.
Qed.

Lemma dec_range c a d n m :
  (forall d n, a_refs a !! d = Some n -> 0 <= n <= m) -> 0 <= m ->
  a_refs (a_dec c a) !! d = Some n -> 0 <= n <= m.
Proof.
  intros Ha Hm. cbn. destruct (a_refs a !! coll c) as [x|] eqn:E; [|apply Ha].
  rewrite lookup_insert. case_decide; [|apply Ha]. intros [= <-].
  apply Ha in E. destruct (Z.ltb_spec 0 x); lia.
Qed.

Lemma count_is_zero_total c a :
  (forall d n, a_refs a !! d = Some n -> 0 <= n <= kMaxRef) ->
  exists z, count_is_zero (opt_rows (fun n => [num n]) (a_refs a !! coll c)) = Ret z.
Proof.
  intros Ha. unfold count_is_zero. destruct (a_refs a !! coll c) as [n|] eqn:E; cbn; [|eauto].
  apply Ha in E. unfold stoi. rewrite sto_signed_to_string. unfold kMaxRef in *.
  destruct (Z.leb_spec (- (2147483648)) n), (Z.ltb_spec n 2147483648); [by eexists|lia..].
Qed.

Lemma insert_object_cases T b k cas size ct etag :
  writable T b cas size -> row_fits k cas ct etag = true ->
  accepts (InsertObject b k cas size ct etag) T \/
  (forall now, exec_stmt now T (InsertObject b k cas size ct etag) = Duplicate).
Proof.
  intros D Hf. unfold accepts. cbn. unfold exec_insert_object. rewrite writable_guard by done.
  destruct (objects T !! (b, uk255 k)); [right|left]; eauto.
Qed.

(** The first reference: accepted, and the row statement is accepted after it. *)
Lemma calm_inc {A} T0 T b cas size Q (k : Reply -> Tx A) w :
  calm_in T0 T w -> room T -> bucket_exists T b = true -> 0 <= size -> fits 64 cas = true ->
  (forall w' T' rows aff id, calm_in T0 T' w' -> same_rest w w' -> abs T' = a_inc cas (abs T) ->
     writable T' b cas size -> wp (k (ROk rows aff id)) Q (w', false)) ->
  wp (tx_run (InsertOrIncCas cas size) ≫= k) Q (w, false).
Proof.
  intros Hw Hr Hb Hs Hf Hk. eapply calm_stmt; [done|done| |].
  - apply accepts_inc; [done..|]. intros n Hn. apply Hr in Hn. unfold kMaxRef, kMaxU32 in *. lia.
  - intros w' now T' rows aff id ids E Hw' Hsame. pose proof (inc_buckets _ _ _ _ _ _ _ _ E) as Eb.
    apply exec_inc_abs in E. eapply Hk; [done..|]. split_and!; [|rewrite E; apply inc_some|done].
    by rewrite (bucket_exists_eq _ _ _ Eb).
Qed.

Lemma same_rest_trans (w1 w2 w3 : MetaW) : same_rest w1 w2 -> same_rest w2 w3 -> same_rest w1 w3.
Proof. unfold same_rest. intros (?&?&?&?&?) (?&?&?&?&?). split_and!; try congruence. by etransitivity. Qed.

Lemma calm_put_fast attempt b k size etag ct cas w :
  calm (m_srv w) -> open_tx w = None -> room (committed w) ->
  bucket_exists (committed w) b = true -> 0 <= size -> row_fits k cas ct etag = true ->
  wp (put_fast attempt b k size etag ct cas)
     (fun r w' => r = Ret (Some (Return (Ok None))) \/
        (r = Ret None /\ calm (m_srv w') /\ committed w' = committed w /\ open_tx w' = None /\
         same_rest w w')) w.
Proof.
  intros Hcalm Ho Hr Hb Hs Hf. eapply calm_transaction; [done..|]. intros w1 Hw1 S1.
  pose proof (row_fits_cas _ _ _ _ Hf). eapply calm_inc; [done..|]. intros w2 T2 rows aff id Hw2 S2 E2 Hwr.
  destruct (insert_object_cases T2 b k cas size ct etag Hwr Hf) as [Hacc|Hdup].
  - eapply calm_stmt; [done..|]. intros w3 now T3 rows3 aff3 id3 ids3 E3 Hw3 S3.
    eapply calm_commit; [done|]. intros w4 C4 D4 D5 S4. apply wp_ret. cbn. eauto.
  - eapply calm_duplicate; [done..|]. intros w3 e He Hw3 S3. rewrite He. apply wp_ret. cbn.
    destruct Hw3 as (C3 & D3 & D4). split_and!; [done..|]. intros w4 C4 E4 E5 S4. right.
    split_and!; [done|done|congruence|done|]. eauto using same_rest_trans.
Qed.

(** Counting the new content of the slow path; [old] is what the locked read
    of the object gave. *)
Lemma calm_inc_new attempt b k cas size T0 (Q : exn (flow GcKey + unit) -> MetaW * bool -> Prop) w :
  let old := default "" (ao_cas <$> a_find b k (abs T0)) in
  calm_in T0 T0 w -> room T0 -> counted (abs T0) -> bucket_exists T0 b = true -> 0 <= size ->
  fits 64 cas = true ->
  (forall w' T', calm_in T0 T' w' -> same_rest w w' ->
     (forall d n, a_refs (abs T') !! d = Some n -> 0 <= n <= kMaxRef) ->
     writable T' b cas size -> Q (Ret (inr tt)) (w', false)) ->
  wp (inc_new attempt old cas size) Q (w, false).
Proof.
  intros old Hw Hr Ha Hb Hs Hf HQ. unfold inc_new.
  destruct (str_empty old || negb (String.eqb old cas)) eqn:Eo.
  - eapply calm_inc; [done..|]. intros w3 T3 rows3 aff3 id3 Hw3 S3 E3 Hwr. apply wp_ret.
    apply (HQ w3 T3); eauto using same_rest_trans. intros d n. by eapply inc_room.
  - apply wp_ret. apply (HQ w T0); [done|by split_and!|..].
    { intros d n Hn. apply Hr in Hn. lia. }
    apply orb_false_iff in Eo as [Eo1 Eo2]. apply negb_false_iff, String.eqb_eq in Eo2.
    split_and!; [done| |done]. subst old.
    destruct (a_find b k (abs T0)) as [ob|] eqn:F; cbn in Eo1, Eo2; [|done].
    apply a_find_Some in F as [F _]. pose proof (counted_object_pos _ _ _ Ha F) as Hp.
    rewrite Eo2 in Hp. destruct (a_refs (abs T0) !! coll cas); [eauto|cbn in Hp; lia].
Qed.

Lemma calm_dec_old attempt old b cas size T0 T
    (Q : exn (flow GcKey + option string) -> MetaW * bool -> Prop) w :
  calm_in T0 T w -> (forall d n, a_refs (abs T) !! d = Some n -> 0 <= n <= kMaxRef) ->
  writable T b cas size ->
  (forall w' T' gc, calm_in T0 T' w' -> same_rest w w' -> writable T' b cas size ->
     Q (Ret (inr gc)) (w', false)) ->
  wp (dec_old attempt old cas) Q (w, false).
Proof.
  intros Hw Hrange Hwr HQ. unfold dec_old.
  case_match; [|apply wp_ret; apply (HQ w T); [done|by split_and!|done]].
  eapply calm_stmt; [done|done| |].
  { apply accepts_dec. intros n Hn. apply Hrange in Hn. unfold kMaxRef, kMaxU32 in *. lia. }
  intros w4 now4 T4 rows4 aff4 id4 ids4 E4 Hw4 S4.
  pose proof (dec_buckets _ _ _ _ _ _ _ E4) as Eb. apply exec_dec_abs in E4.
  eapply calm_stmt; [done|done|intros now5; cbn; unfold rows_of; eauto|].
  intros w5 now5 T5 rows5 aff5 id5 ids5 E5 Hw5 S5.
  apply (exec_select_ref now5 _ _ false) in E5 as [-> ->]. apply wp_bind, wp_lift.
  destruct (count_is_zero_total old (abs T4)) as [z ->].
  { intros d n. rewrite E4. apply dec_range; [done|]. unfold kMaxRef. lia. }
  apply wp_ret. apply (HQ w5 T4); [done|eauto using same_rest_trans|].
  destruct Hwr as (B1 & B2 & B3). split_and!; [|rewrite E4; by apply dec_some|done].
  by rewrite (bucket_exists_eq _ _ _ Eb).
Qed.

Lemma calm_put_slow attempt b k size etag ct cas w :
  calm (m_srv w) -> open_tx w = None -> room (committed w) -> counted (abs (committed w)) ->
  bucket_exists (committed w) b = true -> 0 <= size -> row_fits k cas ct etag = true ->
  redis_live w = None ->
  wp (put_slow attempt b k size etag ct cas)
     (fun r w' => exists gc, r = Ret (Return (Ok gc))) w.
Proof.
  intros Hcalm Ho Hr Ha Hb Hs Hf Hred. pose proof (row_fits_cas _ _ _ _ Hf). set (T0 := committed w) in *.
  eapply calm_transaction; [done..|]. intros w1 Hw1 S1.
  apply wp_step. unfold select_old. eapply calm_stmt; [done|done|intros now; cbn; unfold rows_of; eauto|].
  intros w2 now T2 rows aff id ids E2 Hw2 S2. apply exec_select_object_cas in E2 as [-> ->].
  eapply (wp_mono _ (fun r st => r = Ret (inr (default "" (ao_cas <$> a_find b k (abs T0)))) /\
                                 st = (w2, false))).
  { fold T0. destruct (a_find b k (abs T0)); by split. }
  intros r0 st [-> ->]. apply wp_step.
  apply (calm_inc_new attempt b k cas size T0); [done..|]. intros w3 T3 Hw3 S3 Hrange Hwr3.
  apply wp_step. eapply calm_dec_old; [done..|]. intros w4 T4 gc Hw4 S4 Hwr4.
  eapply calm_stmt; [done|done|by apply accepts_upsert|].
  intros w5 now5 T5 rows5 aff5 id5 ids5 E5 Hw5 S5.
  eapply calm_commit; [done|]. intros w6 C6 D6 D7 S6.
  assert (Hred6 : redis_live w6 = None).
  { unfold redis_live in *.
    destruct S1 as (_&_&R1&_), S2 as (_&_&R2&_), S3 as (_&_&R3&_), S4 as (_&_&R4&_),
      S5 as (_&_&R5&_), S6 as (_&_&R6&_).
    by rewrite R6, R5, R4, R3, R2, R1. }
  apply wp_bind. unfold wp at 1, in_tx, cache_object, get_world, mbind, M_bind. cbn.
  rewrite Hred6. cbn. split_and!; [done..|]. eauto.
Qed.

Lemma put_object_progress b k size etag ct cas w :
  calm (m_srv w) -> open_tx w = None -> fst (pool_get (m_pool w)) = true ->
  room (committed w) -> counted (abs (committed w)) ->
  bucket_exists (committed w) b = true -> 0 <= size -> row_fits k cas ct etag = true ->
  redis_live w = None ->
  exists gc, fst (PutObjectWithRefCount b k size etag ct cas w) = Ret (Ok gc).
Proof.
  intros Hcalm Ho Hp Hr Ha Hb Hs Hf Hred. unfold PutObjectWithRefCount, with_conn.
  destruct (pool_get (m_pool w)) as [ok p]. cbn in Hp. subst ok.
  assert (Hloop : wp (retry kMaxRetries 0 (fun attempt =>
       f ← put_fast attempt b k size etag ct cas;
       match f with
       | Some f => mret f
       | None => put_slow attempt b k size etag ct cas
       end) (DbErr "Transaction retry exhausted"))
      (fun r _ => exists gc, r = Ret (Ok gc)) (set_pool p w)).
  { apply wp_bind, wp_bind. eapply wp_mono; [by apply calm_put_fast|].
    intros r w' [->|(-> & C & D & O & S)]; [apply wp_ret, wp_ret; eauto|].
    eapply wp_mono; [apply calm_put_slow; try done; try (by rewrite D)|].
    - destruct S as (_&_&R&_). unfold redis_live in *. rewrite R. done.
    - intros r w'' [gc ->]. apply wp_ret. eauto. }
  unfold wp in Hloop. by destruct (retry _ _ _ _ _) as [r w'].
Qed.
End progress.
