(* ===== verification/MetaStoreProps.v ===== *)
(** * Properties of the metadata store

    Reference counting on every outcome of the server, success on an undisturbed
    server, safety of the collector's test, and the listing and key-prefix
    behaviour of the queries. *)
From S2P Require Import Prelude Status Json Crypto Sql MySQLTx MetaStore MetaStoreSpec MemServer.

Open Scope Z_scope.

(** ** Sample data *)

(** A store with one bucket and nothing in it. *)
Definition one_bucket : Tables := set_buckets {["b" := MkBucketRow 1 "b" 0]} (set_counters 2 1 empty_tables).

Lemma counted_no_refs t :
  cas_blobs t = ∅ -> objects t = ∅ -> parts t = ∅ -> counted (abs t).
Proof.
  unfold abs. intros -> -> ->. rewrite !fmap_empty. split; cbn.
  - intros c. rewrite lookup_empty. unfold a_count. cbn. by rewrite !count_empty.
  - intros k o. by rewrite lookup_empty.
  - intros k p. by rewrite lookup_empty.
Qed.

Lemma no_clash_empty b k t : objects t = ∅ -> no_prefix_clash b k (abs t).
Proof. unfold abs, no_prefix_clash. cbn. intros ->. by rewrite fmap_empty, lookup_empty. Qed.

Section properties.
Context `{HC : Collation, HCal : Calendar, HS : MySQL, HP : ConnPool, HR : Redis}.
Context `{HJ : JsonLib, HD : Digest} `{HL : !MySQLLaws}.
Implicit Types (w : MetaW) (T : Tables).

(** C9. PutObjectWithRefCount is atomic and keeps the reference counts exact, however
    often it retries, on a session that accepts START TRANSACTION ([starts]) and
    whatever the server answers to every other statement, the COMMIT included: it
    commits one put of the abstract store or nothing, reports the content to
    collect exactly when its count falls to zero, leaves no transaction open,
    and afterwards every count is again the number of objects and parts that
    refer to the content. The key must not share its first 255 characters with
    another object of the bucket ([no_prefix_clash]), and the counts were exact before. *)
Theorem put_object_refcount b k size etag ct cas w r w' :
  starts (m_srv w) -> open_tx w = None -> cas <> "" ->
  no_prefix_clash b k (abs (committed w)) -> counted (abs (committed w)) ->
  PutObjectWithRefCount b k size etag ct cas w = (r, w') ->
  open_tx w' = None /\ counted (abs (committed w')) /\
  gc_outcome (a_put b k cas size ct etag (abs (committed w))) (committed w) r (committed w').
Proof.
  intros Hs Ho Hcas Hclash Ha E.
  destruct (wp_run _ _ _ _ _ E (put_object_refines b k size etag ct cas w Hs Ho)) as [D1 D2].
  split_and!; [done| |done].
  pose proof (counted_put b k cas size ct etag _ Hcas Hclash Ha) as Hnew.
  unfold gc_outcome in D2. destruct r as [[gc| s]| e].
  - by rewrite <-D2 in Hnew.
  - by destruct D2 as [-> | ->].
  - by destruct D2 as [-> | ->].
Qed.

(** C10. DeleteObjectWithRefCount removes the object and exactly its reference, or
    nothing, on a session that accepts START TRANSACTION ([starts]): whatever every
    other statement answers the counts stay exact and no transaction stays open,
    success hands the content over for collection exactly when its count is zero,
    and NoSuchKey is answered only when there is no such object. *)
Theorem delete_object_refcount b k w r w' :
  starts (m_srv w) -> open_tx w = None -> counted (abs (committed w)) ->
  DeleteObjectWithRefCount b k w = (r, w') ->
  open_tx w' = None /\ counted (abs (committed w')) /\
  delete_outcome (a_delete b k (abs (committed w))) (committed w) r (committed w').
Proof.
  intros Hs Ho Ha E.
  destruct (wp_run _ _ _ _ _ E (delete_object_refines b k w Hs Ho)) as [D1 D2].
  split_and!; [done| |done].
  assert (Hd : forall gc, a_delete b k (abs (committed w)) = Some (gc, abs (committed w')) ->
    counted (abs (committed w'))) by (intros gc D; by eapply counted_delete).
  unfold delete_outcome in D2. destruct r as [[gc| s]| e]; [eauto| |].
  - destruct D2 as [_ [-> | [gc D2]]]; eauto.
  - destruct D2 as [-> | [gc D2]]; eauto.
Qed.

(** PutPartWithRefCount keeps the counts exact on a session that accepts START
    TRANSACTION, whatever every other statement answers: replacing a part moves one
    reference from the old content to the new one. *)
Theorem put_part_refcount u n cas size etag w r w' :
  starts (m_srv w) -> open_tx w = None -> cas <> "" -> counted (abs (committed w)) ->
  PutPartWithRefCount u n cas size etag w = (r, w') ->
  open_tx w' = None /\ counted (abs (committed w')) /\
  gc_outcome (a_put_part u n cas (abs (committed w))) (committed w) r (committed w').
Proof.
  intros Hs Ho Hcas Ha E.
  destruct (wp_run _ _ _ _ _ E (put_part_refines u n cas size etag w Hs Ho)) as [D1 D2].
  split_and!; [done| |done].
  pose proof (counted_put_part u n cas _ Hcas Ha) as Hnew.
  unfold gc_outcome in D2. destruct r as [[gc| s]| e].
  - by rewrite <-D2 in Hnew.
  - by destruct D2 as [-> | ->].
  - by destruct D2 as [-> | ->].
Qed.

(** C14. What the collector may delete is garbage: CanDeleteCasBlob answers true, on
    a session that accepts START TRANSACTION, only for a content whose count is zero
    and to which no object and no part refers, and the check leaves the tables as
    they are. *)
Theorem can_delete_unreferenced c w r w' :
  starts (m_srv w) -> open_tx w = None -> CanDeleteCasBlob c w = (r, w') ->
  open_tx w' = None /\ committed w' = committed w /\
  (r = Ret (Ok true) ->
   a_refs (abs (committed w)) !! coll c = Some 0 /\
   object_refs (committed w) c = 0 /\ part_refs (committed w) c = 0).
Proof.
  intros Hs Ho E. by destruct (wp_run _ _ _ _ _ E (can_delete_safe c w Hs Ho)) as [D1 [D2 D3]].
Qed.

(** C25. On an undisturbed server PutObjectWithRefCount succeeds, for a new key
    as for an existing one: the bucket exists, key, content key, type and tag are
    within the widths of their columns ([row_fits]), counts are exact and have room,
    the pool yields a connection and no Redis cache is live. *)
Theorem put_object_succeeds `{!CalmServer} b k size etag ct cas w :
  calm (m_srv w) -> open_tx w = None -> fst (pool_get (m_pool w)) = true ->
  room (committed w) -> counted (abs (committed w)) ->
  bucket_exists (committed w) b = true -> 0 <= size -> row_fits k cas ct etag = true ->
  redis_live w = None ->
  exists gc, fst (PutObjectWithRefCount b k size etag ct cas w) = Ret (Ok gc).
Proof. apply put_object_progress. Qed.

(** Keys that share their first 255 characters overwrite each other: the
    unique key of the table indexes that prefix only, so storing [k2] beside an
    object [k1] with the same prefix answers success, leaves no object [k2],
    and gives [k1] the content of [k2]; the old content of [k1] is neither
    released nor handed to the collector. *)
Theorem put_object_prefix_clash b k1 k2 o size etag ct cas w gc w' :
  starts (m_srv w) -> open_tx w = None -> a_find b k1 (abs (committed w)) = Some o ->
  uk255 k2 = uk255 k1 -> sql_eq (ao_key o) k2 = false ->
  PutObjectWithRefCount b k2 size etag ct cas w = (Ret (Ok gc), w') ->
  a_find b k2 (abs (committed w')) = None /\ gc = None /\
  (exists o', a_find b k1 (abs (committed w')) = Some o' /\ ao_cas o' = cas) /\
  default 0 (a_refs (abs (committed w)) !! coll (ao_cas o)) <=
  default 0 (a_refs (abs (committed w')) !! coll (ao_cas o)).
Proof.
  intros Hs Ho Hf Hu Hne E.
  destruct (wp_run _ _ _ _ _ E (put_object_refines b k2 size etag ct cas w Hs Ho)) as [_ D].
  apply a_find_Some in Hf as [Hf Hk]. cbn in D. unfold a_put in D.
  replace (a_find b k2 (abs (committed w))) with (@None AObject) in D
    by (unfold a_find; by rewrite Hu, Hf, Hne).
  unfold a_move in D. cbn [str_empty orb negb andb] in D. pose proof (f_equal fst D) as Dgc.
  apply (f_equal snd) in D. cbn [fst snd] in D, Dgc. rewrite D, Dgc.
  unfold a_upsert, a_set_object, a_find. cbn. cbn in Hf. rewrite Hu, lookup_insert_eq, Hf. cbn.
  rewrite Hne, Hk. split_and!; [done|done|eauto|].
  pose proof (ref_inc cas (coll (ao_cas o)) (abs (committed w))) as Hr.
  eapply Z.le_trans; [|apply Z.eq_le_incl; symmetry; exact Hr].
  unfold delta. destruct (String.eqb _ _); cbn; lia.
Qed.
End properties.

(** ** Witnesses *)

Definition put_sample (w : MetaW) : exn GcKey * MetaW :=
  PutObjectWithRefCount 1 "k" 5 "e" "t" "c0" w.

Lemma put_object_refcount_witness :
  exists gc w', put_sample (mem_world one_bucket [None; Some "Deadlock found"]) = (Ret (Ok gc), w') /\
    counted (abs (committed w')).
Proof.
  destruct (put_sample (mem_world one_bucket [None; Some "Deadlock found"])) as [r w'] eqn:E.
  assert (Hr : r = Ret (Ok None)).
  { change r with (fst (r, w')). rewrite <-E. vm_compute. reflexivity. }
  exists None, w'. split; [by rewrite Hr|].
  apply (put_object_refcount 1 "k" 5 "e" "t" "c0" _ r w') in E as (_ & D & _).
  - exact D.
  - apply mem_starts.
  - reflexivity.
  - discriminate.
  - by apply no_clash_empty.
  - by apply counted_no_refs.
Defined.

(** A store with one object. *)
Definition one_object : Tables :=
  set_objects {[(1, "k") := MkObjectRow 1 1 "k" "c0" 5 "t" "e" 0]}
    (set_cas {["c0" := MkCasRow "c0" 5 1 0 0]} one_bucket).

Lemma counted_one_object : counted (abs one_object).
Proof.
  unfold abs, one_object. cbn. rewrite !map_fmap_singleton, fmap_empty. split; cbn.
  - intros c. unfold a_count. cbn. rewrite count_empty.
    rewrite <-(insert_empty (M := gmap (Z * string))), count_insert, delete_empty, count_empty. cbn [aobject ao_cas or_cas].
    destruct (String.eqb_spec "c0" c) as [<-|Hc].
    + by rewrite lookup_singleton_eq.
    + by rewrite lookup_singleton_ne.
  - intros k o [<- <-]%lookup_singleton_Some. done.
  - intros k o. by rewrite lookup_empty.
Qed.

(** The object goes and its content is handed over; when the count cannot be
    changed it stays. *)
Lemma delete_object_refcount_witness :
  (exists w', DeleteObjectWithRefCount 1 "k" (mem_world one_object []) = (Ret (Ok (Some "c0")), w') /\
     counted (abs (committed w')) /\ a_delete 1 "k" (abs one_object) = Some (Some "c0", abs (committed w'))) /\
  (exists r w', DeleteObjectWithRefCount 1 "k" (mem_world one_object [None; None; None; Some "gone"]) = (r, w') /\
     counted (abs (committed w')) /\ bool_decide (is_Some (a_find 1 "k" (abs (committed w')))) = true).
Proof.
  split.
  - destruct (DeleteObjectWithRefCount 1 "k" (mem_world one_object [])) as [r w'] eqn:E.
    assert (Hr : r = Ret (Ok (Some "c0"))).
    { change r with (fst (r, w')). rewrite <-E. vm_compute. reflexivity. }
    subst r. exists w'. split; [reflexivity|].
    apply (delete_object_refcount 1 "k" _ _ w') in E as (_ & D1 & D2);
      [exact (conj D1 D2)|apply mem_starts|reflexivity|apply counted_one_object].
  - destruct (DeleteObjectWithRefCount 1 "k" (mem_world one_object [None; None; None; Some "gone"]))
      as [r w'] eqn:E.
    assert (Hf : bool_decide (is_Some (a_find 1 "k" (abs (committed w')))) = true).
    { change w' with (snd (r, w')). rewrite <-E. vm_compute. reflexivity. }
    exists r, w'. split; [reflexivity|].
    apply (delete_object_refcount 1 "k" _ r w') in E as (_ & D & _);
      [exact (conj D Hf)|apply mem_starts|reflexivity|apply counted_one_object].
Defined.

Lemma put_part_refcount_witness :
  exists r w', PutPartWithRefCount "u" 1 "c0" 5 "e" (mem_world one_bucket []) = (r, w') /\
    counted (abs (committed w')).
Proof.
  destruct (PutPartWithRefCount "u" 1 "c0" 5 "e" (mem_world one_bucket [])) as [r w'] eqn:E.
  exists r, w'. split; [reflexivity|].
  apply (put_part_refcount "u" 1 "c0" 5 "e" _ r w') in E as (_ & D & _).
  - exact D.
  - apply mem_starts.
  - reflexivity.
  - discriminate.
  - by apply counted_no_refs.
Defined.

Definition garbage_tables : Tables := set_cas {["c0" := MkCasRow "c0" 5 0 1 1]} one_bucket.

Lemma can_delete_unreferenced_witness :
  fst (CanDeleteCasBlob "c0" (mem_world garbage_tables [])) = Ret (Ok true) /\
  object_refs garbage_tables "c0" = 0 /\ part_refs garbage_tables "c0" = 0.
Proof.
  destruct (CanDeleteCasBlob "c0" (mem_world garbage_tables [])) as [r w'] eqn:E.
  assert (Hr : r = Ret (Ok true)).
  { change r with (fst (r, w')). rewrite <-E. vm_compute. reflexivity. }
  split; [exact Hr|]. apply (can_delete_unreferenced "c0" _ r w') in E as (_ & _ & D).
  - exact (proj2 (D Hr)).
  - apply mem_starts.
  - reflexivity.
Defined.

Lemma put_object_succeeds_witness :
  exists gc, fst (put_sample (mem_world one_bucket [])) = Ret (Ok gc).
Proof.
  apply (put_object_succeeds 1 "k" 5 "e" "t" "c0" (mem_world one_bucket [])); try reflexivity.
  - intros c n. discriminate.
  - by apply counted_no_refs.
  - discriminate.
Defined.

(** Two keys of 256 characters. *)
Definition long_key (c : ascii) : string := string_of (replicate 255 "a"%char ++ [c]).

Definition long_tables : Tables :=
  set_objects {[(1, uk255 (long_key "1")) := MkObjectRow 1 1 (long_key "1") "c1" 5 "t" "e" 0]}
    (set_cas {["c1" := MkCasRow "c1" 5 1 0 0]} one_bucket).

Lemma put_object_prefix_clash_witness :
  exists w', PutObjectWithRefCount 1 (long_key "2") 5 "e" "t" "c2" (mem_world long_tables []) =
      (Ret (Ok None), w') /\
    a_find 1 (long_key "2") (abs (committed w')) = None.
Proof.
  destruct (PutObjectWithRefCount 1 (long_key "2") 5 "e" "t" "c2" (mem_world long_tables []))
    as [r w'] eqn:E.
  assert (Hr : r = Ret (Ok None)).
  { change r with (fst (r, w')). rewrite <-E. vm_compute. reflexivity. }
  subst r. exists w'. split; [reflexivity|].
  refine (proj1 (put_object_prefix_clash 1 (long_key "1") (long_key "2")
    (MkAObject (long_key "1") "c1" 5 "t" "e") 5 "e" "t" "c2" _ None w' _ _ _ _ _ E));
    [apply mem_starts|vm_compute; reflexivity..].
Defined.
