(* ===== verification/MetaStoreQueries.v ===== *)
(** * Properties of the metadata queries

    Listing pages, the unique-key prefix, and the life time of idempotency
    records. *)
From Stdlib Require Import Sorted.
From stdpp Require Import sorting.
From S2P Require Import Prelude Status Json Crypto Sql MySQLTx MetaStore MetaStoreSpec MemServer.

Open Scope Z_scope.

Section queries.
Context `{HC : Collation, HCal : Calendar, HS : MySQL, HP : ConnPool, HR : Redis}.
Context `{HJ : JsonLib, HD : Digest} `{HL : !MySQLLaws}.
Implicit Types (w : MetaW) (T : Tables).

(** ** Rows read back *)

Definition object_info (now : Z) (r : ObjectRow) : ObjectInfo :=
  MkObjectInfo (or_id r) (or_bucket r) (or_key r) "" true false (or_size r) (or_etag r)
    (or_type r) "standard" (or_cas r) "{}" "" (or_created r - tz_offset).

Lemma stoll_text n z : conv_exn (stoll (to_string n)) = Ret z -> z = n.
Proof. unfold stoll. rewrite sto_signed_to_string. case_match; cbn; [|done]. by intros [= ->]. Qed.

Lemma object_of_row_text now r info :
  object_of_row now (object_text r) = Ret info -> info = object_info now r.
Proof.
  unfold object_of_row, col_ll, ll_or0, object_text, col, num. cbn.
  destruct (conv_exn (stoll (to_string (or_id r)))) as [i|] eqn:E1; cbn; [|done].
  destruct (conv_exn (stoll (to_string (or_bucket r)))) as [b|] eqn:E2; cbn; [|done].
  destruct (conv_exn (stoll (to_string (or_size r)))) as [s|] eqn:E3; cbn; [|done].
  apply stoll_text in E1, E2, E3. subst. intros [= <-]. unfold object_info.
  by rewrite ts_read_text.
Qed.

(** The fetch loop of a page, from the [count]-th row on. *)
Lemma list_rows_text now max count rows l :
  0 <= count <= max ->
  list_rows now max count (object_text <$> rows) = Ret l ->
  let n := Z.to_nat (max - count) in
  lo_objects l = object_info now <$> take n rows /\
  match rows !! n with
  | Some r => lo_is_truncated l = true /\ lo_next_key_marker l = or_key r /\
              lo_next_continuation_token l = or_key r
  | None => lo_is_truncated l = false /\ lo_next_key_marker l = "" /\
            lo_next_continuation_token l = ""
  end.
Proof.
  revert count l. induction rows as [|r rows IH]; intros count l Hc; cbn [list_rows fmap list_fmap].
  { intros [= <-]. cbn. by rewrite take_nil. }
  destruct (Z.leb_spec max count) as [Hm|Hm].
  { intros [= <-]. cbn. by replace (Z.to_nat (max - count)) with 0%nat by lia. }
  destruct (object_of_row now (object_text r)) as [info|] eqn:E; cbn; [|done].
  apply object_of_row_text in E as ->.
  destruct (list_rows now max (count + 1) (object_text <$> rows)) as [l'|] eqn:E2; cbn; [|done].
  intros [= <-]. destruct (IH (count + 1) l') as [H1 H2]; [lia|done|].
  replace (Z.to_nat (max - count)) with (S (Z.to_nat (max - (count + 1)))) by lia. cbn.
  split; [by f_equal|done].
Qed.

(** One page of a listing over the tables [T]. *)
Definition page_of T (now b : Z) (prefix start : string) (max : Z) (l : ListObjectsResult) : Prop :=
  let rows := listed_objects T b (nonempty prefix) (nonempty start) in
  lo_objects l = object_info now <$> take (Z.to_nat max) rows /\
  match rows !! Z.to_nat max with
  | Some r => lo_is_truncated l = true /\ lo_next_key_marker l = or_key r /\
              lo_next_continuation_token l = or_key r
  | None => lo_is_truncated l = false /\ lo_next_key_marker l = "" /\
            lo_next_continuation_token l = ""
  end.

Lemma wp_list_objects b prefix delim start max w :
  open_tx w = None -> 0 <= max ->
  wp (ListObjects b prefix delim start max)
     (fun r w' => committed w' = committed w /\ open_tx w' = None /\ m_now w' = m_now w /\
        match r with
        | Ret (Ok l) => page_of (committed w) (m_now w) b prefix start max l
        | Ret (Err s) => code_ s = DatabaseError
        | Throw _ => True
        end) w.
Proof.
  intros Ho Hm. apply wp_with_conn; intros p; [done|].
  apply wp_bind. unfold wp at 1, get_world. cbn [fst snd].
  apply wp_bind. apply wp_conn_run; [done|done| |].
  - intros w' t' rows aff id ids (_ & _ & _ & Hnow & _) E _ D1 D2. cbn in E. unfold limited in E.
    unfold int_succ in E. destruct (Z.ltb_spec max 2147483647); [|done].
    destruct (Z.ltb_spec (max + 1) 0); [lia|]. injection E as <- <- <- <-.
    apply wp_bind, wp_lift. change (committed (set_pool p w)) with (committed w) in *.
    rewrite <-fmap_take.
    destruct (list_rows _ _ _ _) as [l|e] eqn:El; [|intros p'; by split_and!].
    apply wp_ret. intros p'. split_and!; [done..|].
    apply list_rows_text in El; [|lia]. change (m_now (set_pool p w)) with (m_now w) in El.
    rewrite Z.sub_0_r in El. unfold page_of.
    replace (Z.to_nat (max + 1)) with (S (Z.to_nat max)) in El by lia.
    destruct El as [E1 E2]. rewrite take_take, Nat.min_l in E1 by lia.
    rewrite lookup_take_lt in E2 by lia. done.
  - intros w' e (_ & _ & _ & Hnow & _) D1 D2 _. apply wp_ret. intros p'. by split_and!.
Qed.

Lemma listed_after T b prefix s r :
  r ∈ listed_objects T b prefix (Some s) -> sql_leb (or_key r) s = false.
Proof.
  unfold listed_objects. rewrite order_by_elem. unfold rows_where.
  rewrite list_elem_of_filter, !andb_true_iff. intros [[_ Hs] _]. cbn in Hs.
  unfold sql_gt in Hs. by apply negb_true_iff in Hs.
Qed.

Lemma listed_sorted T b prefix start :
  StronglySorted (fun x y => sql_leb (or_key x) (or_key y) = true) (listed_objects T b prefix start).
Proof.
  apply order_by_sorted; unfold sql_leb; intros; [by eapply str_leb_trans|apply str_leb_total].
Qed.

Lemma sql_leb_refl s : sql_leb s s = true.
Proof. unfold sql_leb. by destruct (str_leb_total (coll s) (coll s)). Qed.

(** ** Properties *)

(** C26. A page of ListObjects lists, in key order, the first [max_keys] objects
    of the bucket that match the prefix and lie after the start key, with the
    metadata stored for them; it is truncated exactly when there are more, and
    its marker is the first key that was left out. *)
Theorem list_objects_page b prefix delim start max w l w' :
  open_tx w = None -> 0 <= max ->
  ListObjects b prefix delim start max w = (Ret (Ok l), w') ->
  committed w' = committed w /\ page_of (committed w) (m_now w) b prefix start max l /\
  StronglySorted (fun x y => sql_leb (or_key x) (or_key y) = true)
    (listed_objects (committed w) b (nonempty prefix) (nonempty start)).
Proof.
  intros Ho Hm E.
  destruct (wp_run _ _ _ _ _ E (wp_list_objects b prefix delim start max w Ho Hm)) as (D1 & _ & _ & D2).
  split_and!; [done..|apply listed_sorted].
Qed.

(** Following the continuation marker loses an object: when a page is
    truncated, the page requested with its marker as the start key contains no
    object with that key, which the first page left out as well. *)
Theorem list_objects_skips_marker b prefix delim start max w l1 w1 l2 w2 :
  open_tx w = None -> 0 <= max ->
  ListObjects b prefix delim start max w = (Ret (Ok l1), w1) ->
  lo_is_truncated l1 = true -> lo_next_key_marker l1 <> "" ->
  ListObjects b prefix delim (lo_next_key_marker l1) max w1 = (Ret (Ok l2), w2) ->
  (exists r, r ∈ listed_objects (committed w) b (nonempty prefix) (nonempty start) /\
     or_key r = lo_next_key_marker l1) /\
  forall info, info ∈ lo_objects l2 -> oi_key info <> lo_next_key_marker l1.
Proof.
  intros Ho Hm E1 Ht Hne E2.
  destruct (wp_run _ _ _ _ _ E1 (wp_list_objects b prefix delim start max w Ho Hm))
    as (D1 & D2 & _ & _ & D3).
  destruct (wp_run _ _ _ _ _ E2 (wp_list_objects b prefix delim _ max w1 D2 Hm))
    as (_ & _ & _ & F1 & _).
  split.
  - destruct (_ !! Z.to_nat max) as [r|] eqn:El.
    + exists r. split; [by eapply list_elem_of_lookup_2|by destruct D3 as (_ & -> & _)].
    + destruct D3 as [D3 _]. congruence.
  - intros info Hin. rewrite F1 in Hin. apply list_elem_of_fmap in Hin as (r & -> & Hr).
    apply elem_of_take in Hr as (i & Hr & _). apply list_elem_of_lookup_2 in Hr.
    unfold nonempty in Hr. apply str_empty_false in Hne. rewrite Hne in Hr.
    apply listed_after in Hr. cbn. intros Heq. rewrite Heq, sql_leb_refl in Hr. done.
Qed.

Lemma stoi_text n z : conv_exn (stoi (to_string n)) = Ret z -> z = n.
Proof. unfold stoi. rewrite sto_signed_to_string. case_match; cbn; [|done]. by intros [= ->]. Qed.

(** The record [RecordIdempotency] leaves in the tables. *)
Definition idem_row_for (h : string) (st : Z) (body : string) (e : Z) (row : IdemRow) : Prop :=
  ir_hash row = h /\ ir_status row = st /\ ir_body row = body /\ ir_expires row = e.

Lemma wp_record_idempotency k h st body ttl w :
  open_tx w = None ->
  wp (RecordIdempotency k h st body ttl)
     (fun r w' => open_tx w' = None /\ m_now w' = m_now w /\
        (r = Ret Status_OK -> exists row, idem (committed w') !! coll k = Some row /\
           idem_row_for h st body (m_now w + ttl) row)) w.
Proof.
  intros Ho. apply wp_with_conn; intros p; [done|].
  apply wp_bind. unfold wp at 1, get_world. cbn [fst snd]. apply wp_bind.
  apply wp_conn_run; [done|done| |].
  - intros w' t' rows aff id ids (_ & _ & _ & Hnow & _) E _ D1 D2. cbn in E.
    unfold TimePointToMySQL in E. rewrite ts_read_text in E. case_match; [done|]. injection E as <- <- <- <-.
    apply wp_ret. intros p'. split_and!; [done|done|]. intros _.
    change (committed (set_pool p' w')) with (committed w'). rewrite D1. cbn.
    rewrite lookup_insert_eq. eexists. split; [done|]. by case_match.
  - intros w' e (_ & _ & _ & Hnow & _) D1 D2 _. apply wp_ret. intros p'. by split_and!.
Qed.

Lemma wp_check_idempotency k row w :
  open_tx w = None -> idem (committed w) !! coll k = Some row ->
  wp (CheckIdempotency k)
     (fun r w' => forall res, r = Ret (Ok res) ->
        if ir_expires row - tz_offset <=? m_now w then res = None
        else exists rec, res = Some rec /\ id_request_hash rec = ir_hash row /\
               id_response_status rec = ir_status row /\ id_response_body rec = ir_body row) w.
Proof.
  intros Ho Hrow. apply wp_with_conn; intros p; [done|].
  apply wp_bind. unfold wp at 1, get_world. cbn [fst snd]. apply wp_bind.
  apply wp_conn_run; [done|done| |].
  - intros w' t' rows aff id ids _ E _ D1 D2. cbn in E. unfold rows_of in E.
    change (committed (set_pool p w)) with (committed w) in E.
    rewrite Hrow in E. injection E as <- <- <- <-. cbn [opt_rows]. apply wp_bind, wp_lift.
    destruct (idem_of_row _ _) as [rec|e] eqn:Er; [|done].
    unfold idem_of_row, int_or0, col in Er. cbn in Er.
    destruct (conv_exn (stoi (to_string (ir_status row)))) as [z|] eqn:Ez; cbn in Er; [|done].
    apply stoi_text in Ez as ->. rewrite ts_read_text in Er. injection Er as <-. cbn.
    change (m_now (set_pool p w)) with (m_now w).
    rewrite ts_read_text. destruct (ir_expires row - tz_offset <=? m_now w); apply wp_ret; intros _ res [= <-]; eauto 10.
  - intros w' e _ D1 D2 _. by apply wp_ret.
Qed.

(** An idempotency record lives for its time to live less the offset of
    local time from UTC: the expiry is written as UTC text and read back as
    local time, so a check in the same second already misses the record when
    [ttl <= tz_offset], and otherwise returns the recorded hash, status and
    body. *)
Theorem idempotency_lifetime k h st body ttl w w1 res w2 :
  open_tx w = None ->
  RecordIdempotency k h st body ttl w = (Ret Status_OK, w1) ->
  CheckIdempotency k w1 = (Ret (Ok res), w2) ->
  if ttl <=? tz_offset then res = None
  else exists rec, res = Some rec /\ id_request_hash rec = h /\
         id_response_status rec = st /\ id_response_body rec = body.
Proof.
  intros Ho E1 E2.
  destruct (wp_run _ _ _ _ _ E1 (wp_record_idempotency k h st body ttl w Ho)) as (D1 & D2 & D3).
  destruct (D3 eq_refl) as (row & Hrow & F1 & F2 & F3 & F4).
  pose proof (wp_run _ _ _ _ _ E2 (wp_check_idempotency k row w1 D1 Hrow) res eq_refl) as D.
  rewrite F1, F2, F3, F4, D2 in D.
  replace (m_now w + ttl - tz_offset <=? m_now w) with (ttl <=? tz_offset) in D; [done|].
  destruct (Z.leb_spec ttl tz_offset), (Z.leb_spec (m_now w + ttl - tz_offset) (m_now w)); (done || lia).
Qed.
End queries.

(** ** Evaluation on the in-memory server *)

Definition two_objects : Tables :=
  MkTables {["b" := MkBucketRow 1 "b" 0]} {["c0" := MkCasRow "c0" 5 3 0 0]}
    (list_to_map ((fun k => ((1, k), MkObjectRow 1 1 k "c0" 5 "t" "e" 0)) <$> ["a"; "k"; "z"]))
    ∅ ∅ ∅ 2 4.

Lemma list_objects_page_witness :
  exists l w', ListObjects 1 "" "" "" 2 (mem_world two_objects []) = (Ret (Ok l), w') /\
    oi_key <$> lo_objects l = ["a"; "k"] /\
    page_of two_objects 1000 1 "" "" 2 l.
Proof.
  destruct (ListObjects 1 "" "" "" 2 (mem_world two_objects [])) as [r w'] eqn:E.
  assert (Hr : exists l, r = Ret (Ok l) /\ oi_key <$> lo_objects l = ["a"; "k"]).
  { change r with (fst (r, w')). rewrite <-E. eexists. vm_compute. split; reflexivity. }
  destruct Hr as (l & -> & Hl). exists l, w'. split; [reflexivity|]. split; [exact Hl|].
  apply (list_objects_page 1 "" "" "" 2 (mem_world two_objects []) l w') in E as (_ & D & _).
  - exact D.
  - reflexivity.
  - discriminate.
Defined.

(** Three objects in pages of one: the second page starts after ["k"]. *)
Lemma list_objects_skips_marker_witness :
  exists l1 l2, fst (ListObjects 1 "" "" "" 1 (mem_world two_objects [])) = Ret (Ok l1) /\
    lo_next_key_marker l1 = "k" /\ oi_key <$> lo_objects l2 = ["z"] /\
    (forall info, info ∈ lo_objects l2 -> oi_key info <> "k").
Proof.
  destruct (ListObjects 1 "" "" "" 1 (mem_world two_objects [])) as [r1 w1] eqn:E1.
  destruct (ListObjects 1 "" "" "k" 1 w1) as [r2 w2] eqn:E2.
  assert (H1 : exists l, r1 = Ret (Ok l) /\ lo_next_key_marker l = "k" /\ lo_is_truncated l = true).
  { change r1 with (fst (r1, w1)). rewrite <-E1. eexists. vm_compute. split_and!; reflexivity. }
  destruct H1 as (l1 & -> & Hm & Ht).
  assert (H2 : exists l, r2 = Ret (Ok l) /\ oi_key <$> lo_objects l = ["z"]).
  { change r2 with (fst (r2, w2)). rewrite <-E2. change w1 with (snd (@Ret (Result ListObjectsResult) (Ok l1), w1)).
    rewrite <-E1. eexists. vm_compute. split_and!; reflexivity. }
  destruct H2 as (l2 & -> & Hl). exists l1, l2. split_and!; [reflexivity|exact Hm|exact Hl|].
  rewrite <-Hm in E2 |- *.
  apply (list_objects_skips_marker 1 "" "" "" 1 (mem_world two_objects []) l1 w1 l2 w2).
  - reflexivity.
  - discriminate.
  - exact E1.
  - exact Ht.
  - rewrite Hm. discriminate.
  - exact E2.
Defined.

Lemma idempotency_lifetime_witness :
  exists res w2, snd (RecordIdempotency "k" "h" 200 "{}" 60 (mem_world empty_tables [])) = w2 /\
    fst (CheckIdempotency "k" w2) = Ret (Ok (Some res)) /\ id_request_hash res = "h".
Proof.
  destruct (RecordIdempotency "k" "h" 200 "{}" 60 (mem_world empty_tables [])) as [r1 w1] eqn:E1.
  destruct (CheckIdempotency "k" w1) as [r2 w2] eqn:E2.
  assert (H1 : r1 = Ret Status_OK).
  { change r1 with (fst (r1, w1)). rewrite <-E1. vm_compute. reflexivity. }
  subst r1.
  assert (H2 : exists o, r2 = Ret (Ok o)).
  { change r2 with (fst (r2, w2)). rewrite <-E2. change w1 with (snd (Ret Status_OK, w1)).
    rewrite <-E1. eexists. vm_compute. reflexivity. }
  destruct H2 as [o ->].
  pose proof (idempotency_lifetime "k" "h" 200 "{}" 60 (mem_world empty_tables []) w1 o w2
                eq_refl E1 E2) as (rec & -> & D & _).
  exists rec, w1. cbn [fst snd]. rewrite E2. split_and!; [reflexivity|reflexivity|exact D].
Defined.
