(* ===== verification/MetaCache.v ===== *)
(** * The object cache of the metadata store (src/src/db/meta_store.cpp)

    GetObject answers from Redis when it can; PutObjectWithRefCount and
    DeleteObjectWithRefCount write or remove the entry after their commit. Here:
    when what it answers is the current row of the database, and when it is not. *)
From S2P Require Import Prelude Status Json Crypto Sql MySQLTx MetaStore Sessions MetaStoreSpec MetaStoreProps.
From S2P Require Import MetaStoreQueries MemServer.

Open Scope Z_scope.

(** ** What the cache and the JSON library have to do *)

(** A cache whose commands succeed: a replaced or removed entry is gone. *)
Class RedisReliable `{RedisLaws} : Prop := {
  setex_replaces k ttl v r : cache_ok r ->
    forall v', cached (snd (redis_setex k ttl v r)) !! k = Some v' -> v' = v;
  del_removes k r : cache_ok r -> cached (snd (redis_del k r)) !! k = None
}.

(** A value that a field keeps through [dump] and [parse]: text, or an integer of 64 bits. *)
Definition scalar (v : Json) : Prop :=
  match v with JStr _ => True | JInt z => - two63 <= z < two63 | _ => False end.

(** Parsing what was printed gives an object with the same fields, in some order. *)
Class JsonRoundtrip `{JsonLib} : Prop :=
  parse_dump fs s : json_dump (JObj fs) = Ret s ->
    exists fs', json_parse s = Ret (JObj fs') /\
      forall k v, obj_lookup k fs = Some v -> scalar v -> obj_lookup k fs' = Some v.

(** ** Computations that leave a part of the state alone *)

Definition leaves {W C A} (f : W -> C) (m : M W A) : Prop := forall w, f (snd (m w)) = f w.

Section leaves.
Context {W C : Type} (f : W -> C).

Lemma leaves_ret {A} (a : A) : leaves f (mret a).
Proof. done. Qed.

Lemma leaves_lift {A} (m : exn A) : leaves f (lift_exn m).
Proof. done. Qed.

Lemma leaves_bind {A B} (m : M W A) (k : A -> M W B) :
  leaves f m -> (forall a, leaves f (k a)) -> leaves f (m ≫= k).
Proof.
  intros Hm Hk w. unfold mbind, M_bind. specialize (Hm w). destruct (m w) as [[a|e] w']; cbn in *; [|done].
  by rewrite Hk.
Qed.

Lemma wp_leaves {A} (m : M W A) (Q : exn A -> W -> Prop) w :
  leaves f m -> (forall r w', f w' = f w -> Q r w') -> wp m Q w.
Proof. intros Hm Hq. apply Hq, Hm. Qed.

Lemma leaves_wp {A} (m : M W A) w : leaves f m -> wp m (fun _ w' => f w' = f w) w.
Proof. intros Hm. apply Hm. Qed.

End leaves.

Section cache.
Context `{HC : Collation, HCal : Calendar, HS : MySQL, HP : ConnPool, HR : Redis}.
Context `{HJ : JsonLib, HD : Digest}.
Implicit Types (w : MetaW) (T : Tables).

(** ** Where Redis is not touched *)

Definition tx_redis (st : MetaW * bool) : option redis := redis_cache_ (fst st).

Lemma leaves_conn_run st : leaves redis_cache_ (conn_run st).
Proof. intros w. unfold conn_run. by destruct (db_run (m_srv w) st). Qed.

Lemma leaves_tx_run st : leaves tx_redis (tx_run st).
Proof.
  intros [w []]; [done|]. unfold tx_run, tx_redis. pose proof (leaves_conn_run st w) as E.
  destruct (conn_run st w). exact E.
Qed.

Lemma leaves_commit : leaves tx_redis Commit.
Proof.
  intros [w []]; [done|]. unfold Commit, tx_redis. pose proof (leaves_conn_run CommitStmt w) as E.
  destruct (conn_run CommitStmt w) as [[[rows aff id|e]|e] w']; exact E.
Qed.

Lemma leaves_step {A R} (m : Tx (flow R + A)) (k : A -> Tx (flow R)) :
  leaves tx_redis m -> (forall a, leaves tx_redis (k a)) -> leaves tx_redis (step m k).
Proof. intros Hm Hk. apply leaves_bind; [done|]. by intros [f|a]. Qed.

(** A transaction around a body that may touch it. *)
Lemma wp_transaction_redis {A} (body : Tx A) (Q : exn A -> option redis -> Prop) w :
  (forall w1, redis_cache_ w1 = redis_cache_ w -> wp body (fun r st => Q r (tx_redis st)) (w1, false)) ->
  wp (transaction body) (fun r w' => Q r (redis_cache_ w')) w.
Proof.
  intros Hb. unfold wp, transaction. pose proof (leaves_conn_run StartTransaction w) as E.
  destruct (conn_run StartTransaction w) as [x w1]. specialize (Hb w1 E). unfold wp, tx_redis in Hb.
  destruct (body (w1, false)) as [r [w2 f]]. unfold Rollback. destruct f; [exact Hb|].
  pose proof (leaves_conn_run RollbackStmt w2) as E2. destruct (conn_run RollbackStmt w2) as [y w3].
  cbn in *. by rewrite E2.
Qed.

Lemma leaves_transaction {A} (body : Tx A) : leaves tx_redis body -> leaves redis_cache_ (transaction body).
Proof.
  intros Hb w. apply (wp_transaction_redis body (fun _ o => o = redis_cache_ w) w).
  intros w1 E. unfold wp. by rewrite Hb.
Qed.
End cache.

(** Goes through a computation made of statements, tests and conversions. *)
Ltac leaves_tac :=
  repeat first
    [ apply leaves_ret | apply leaves_lift | apply leaves_tx_run | apply leaves_commit | apply leaves_conn_run
    | apply leaves_bind; [|intro] | apply leaves_step; [|intro] | apply leaves_transaction | case_match ].

(** ** Entries *)

Section entries.
Context `{HC : Collation, HCal : Calendar, HS : MySQL, HP : ConnPool, HR : Redis}.
Context `{HJ : JsonLib, HD : Digest}.
Implicit Types (w : MetaW) (T : Tables).

(** The metadata tells the content, its size, its tag and its type. *)
Definition shows (info : ObjectInfo) (o : AObject) : Prop :=
  oi_sha256_hash info = ao_cas o /\ oi_size info = ao_size o /\
  oi_etag info = ao_etag o /\ oi_content_type info = ao_type o.

(** What is read from the entry, if anything, tells the object. *)
Definition entry_ok (o : AObject) (payload : string) : Prop :=
  forall now info, DeserializeObjectInfo now payload = Some info -> shows info o.

Lemma serialized_ok `{!JsonLaws} `{!JsonRoundtrip} info payload o :
  SerializeObjectInfo info = Ret payload -> - two63 <= oi_size info < two63 -> shows info o -> entry_ok o payload.
Proof.
  intros Es Hsize (S1 & S2 & S3 & S4) now info' Ed. apply parse_dump in Es as (fs' & Ep & Hf).
  unfold DeserializeObjectInfo, read_object_info in Ed. rewrite Ep in Ed. cbn in Ed.
  unfold value_i64, value_string in Ed.
  rewrite (Hf "key" _ eq_refl I), (Hf "cas_key" _ eq_refl I), (Hf "size" _ eq_refl Hsize), (Hf "etag" _ eq_refl I),
    (Hf "content_type" _ eq_refl I), !get_string_str, get_i64_int in Ed by done.
  destruct (match obj_lookup "id" fs' with Some v => _ | None => _ end); cbn in Ed; [|done].
  destruct (match obj_lookup "bucket_id" fs' with Some v => _ | None => _ end); cbn in Ed; [|done].
  destruct (match obj_lookup "created_at" fs' with Some v => _ | None => _ end); cbn in Ed; [|done].
  case_match; [done|]. injection Ed as <-. by split_and!.
Qed.

(** The entry of an object is set to [info], when there is a cache. *)
Definition live (o : option redis) : option redis :=
  match o with Some r => if redis_enabled r then Some r else None | None => None end.

Definition entry_set (b : Z) (k : string) (info : ObjectInfo) (o o' : option redis) : Prop :=
  match live o with
  | None => o' = o
  | Some r => exists payload, SerializeObjectInfo info = Ret payload /\
      o' = Some (snd (redis_setex (ObjectMetaCacheKey b k) (redis_ttl r) payload r))
  end.

Definition entry_del (b : Z) (k : string) (o o' : option redis) : Prop :=
  match live o with
  | None => o' = o
  | Some r => o' = Some (snd (redis_del (ObjectMetaCacheKey b k) r))
  end.

Lemma wp_cache_object b k info (Q : exn unit -> MetaW -> Prop) w :
  (forall w', m_srv w' = m_srv w -> entry_set b k info (redis_cache_ w) (redis_cache_ w') -> Q (Ret tt) w') ->
  (forall e, Q (Throw e) w) ->
  wp (cache_object b k info) Q w.
Proof.
  intros Hr Ht. unfold wp, cache_object, entry_set, redis_live, live, get_world, put_world, mbind, M_bind, lift_exn in *.
  cbn. destruct (redis_cache_ w) as [r|] eqn:E; [|by apply Hr]. destruct (redis_enabled r); [|by apply Hr].
  destruct (SerializeObjectInfo info) as [p|e] eqn:Es; cbn; [|apply Ht]. apply Hr; [done|]. by exists p.
Qed.

Lemma wp_uncache_object b k (Q : exn unit -> MetaW -> Prop) w :
  (forall w', m_srv w' = m_srv w -> entry_del b k (redis_cache_ w) (redis_cache_ w') -> Q (Ret tt) w') ->
  wp (uncache_object b k) Q w.
Proof.
  intros Hr. unfold wp, uncache_object, entry_del, redis_live, live, get_world, put_world, mbind, M_bind in *.
  cbn. destruct (redis_cache_ w) as [r|] eqn:E; [|by apply Hr]. destruct (redis_enabled r); by apply Hr.
Qed.

(** The key of an entry tells the bucket and the digest of the key. *)
Lemma to_string_inj x y : to_string x = to_string y -> x = y.
Proof.
  intros E. pose proof (strto_to_string_any x) as Hx. rewrite E, strto_to_string_any in Hx. injection Hx as Hn Ha.
  destruct (Z.ltb_spec x 0), (Z.ltb_spec y 0); (done || lia).
Qed.

Lemma no_colon z : str_free ":" (to_string z) = true.
Proof.
  assert (Hd : forall n, 0 <= n -> str_free ":" (to_string n) = true).
  { intros n Hn. eapply str_all_impl; [|by apply to_string_digits]. intros c Hc.
    destruct (Ascii.eqb_spec ":" c) as [<-|]; [done|]. done. }
  destruct (Z.ltb_spec z 0); [|by apply Hd].
  replace (to_string z) with (String "-" (to_string (- z))) by (destruct z; (done || lia)).
  rewrite str_free_cons, Hd by lia. done.
Qed.

Lemma cache_key_inj b k b' k' :
  ObjectMetaCacheKey b k = ObjectMetaCacheKey b' k' -> b = b' /\ SHA256 k = SHA256 k'.
Proof.
  unfold ObjectMetaCacheKey. intros E%(f_equal (str_drop 8)). cbn [str_drop String.append] in E.
  pose proof (f_equal (str_find ":") E) as El. rewrite !str_find_app in El by apply no_colon. injection El as El.
  pose proof (f_equal (str_take (String.length (to_string b))) E) as Et. rewrite El in Et at 2. rewrite !str_take_app in Et.
  apply to_string_inj in Et. subst b'. split; [done|].
  apply (f_equal (str_drop (S (String.length (to_string b))))) in E. by rewrite !str_drop_app_S in E.
Qed.
End entries.

(** ** What the operations do to the cache *)

Section operations.
Context `{HC : Collation, HCal : Calendar, HS : MySQL, HP : ConnPool, HR : Redis}.
Context `{HJ : JsonLib, HD : Digest} `{HL : !MySQLLaws}.
Implicit Types (w : MetaW) (T : Tables).

Lemma wp_in_tx {A} (m : MM A) (Q : exn A -> MetaW * bool -> Prop) w f :
  wp m (fun r w' => Q r (w', f)) w -> wp (in_tx m) Q (w, f).
Proof. unfold wp, in_tx. by destruct (m w). Qed.

(** A step of an attempt that leaves the cache alone and does not end the attempt
    with success. *)
Definition quiet {A} (m : Tx (flow GcKey + A)) : Prop :=
  forall st, tx_redis (snd (m st)) = tx_redis st /\ forall gc, fst (m st) <> Ret (inl (Return (Ok gc))).

Lemma quiet_bind {A B} (m : Tx B) (k : B -> Tx (flow GcKey + A)) :
  leaves tx_redis m -> (forall b, quiet (k b)) -> quiet (m ≫= k).
Proof.
  intros Hm Hk st. unfold mbind, M_bind. specialize (Hm st). destruct (m st) as [[b|e] st']; cbn in *; [|done].
  destruct (Hk b st') as [E Hn]. by rewrite E, Hm.
Qed.

Lemma quiet_inr {A} (a : A) : quiet (mret (inr a)).
Proof. done. Qed.

Lemma quiet_err {A} attempt e : quiet (A := A) (mret (inl (on_err attempt e))).
Proof. intros st. split; [done|]. intros gc [=E]. by apply on_err_not_ok in E. Qed.

Ltac quiet_tac :=
  repeat first [ apply quiet_inr | apply quiet_err | apply quiet_bind; [solve [leaves_tac]|intro] | case_match ].

Lemma quiet_select_old attempt st : quiet (select_old attempt st).
Proof. unfold select_old. quiet_tac. Qed.

Lemma quiet_inc_new attempt old new size : quiet (inc_new attempt old new size).
Proof. unfold inc_new. quiet_tac. Qed.

Lemma quiet_dec_old attempt old new : quiet (dec_old attempt old new).
Proof. unfold dec_old. quiet_tac. Qed.

Lemma wp_step_quiet {A} (m : Tx (flow GcKey + A)) (k : A -> Tx (flow GcKey)) (Q : exn (flow GcKey) -> option redis -> Prop) st :
  quiet m -> (forall r, (forall gc, r <> Ret (Return (Ok gc))) -> Q r (tx_redis st)) ->
  (forall a st', tx_redis st' = tx_redis st -> wp (k a) (fun r s => Q r (tx_redis s)) st') ->
  wp (step m k) (fun r s => Q r (tx_redis s)) st.
Proof.
  intros Hm Hq Hk. apply wp_step. unfold wp at 1. destruct (Hm st) as [E Hn].
  destruct (m st) as [[[f|a]|e] st']; cbn in *.
  - rewrite E. apply Hq. intros gc [= ->]. by apply (Hn gc).
  - by apply Hk.
  - rewrite E. by apply Hq.
Qed.

(** An attempt of PutObjectWithRefCount: [o] and [o'] are the cache before and after. *)
Definition put_redis b k size etag ct cas (o : option redis) (r : exn (flow GcKey)) (o' : option redis) : Prop :=
  match r with
  | Ret (Return (Ok _)) => exists info, shows info (MkAObject k cas size ct etag) /\ entry_set b k info o o'
  | _ => o' = o
  end.

Lemma put_redis_not_ok b k size etag ct cas o r :
  (forall gc, r <> Ret (Return (Ok gc))) -> put_redis b k size etag ct cas o r o.
Proof. intros Hn. destruct r as [[|[gc|s]]|e]; try done. by destruct (Hn gc). Qed.

Lemma put_slow_redis attempt b k size etag ct cas w :
  wp (put_slow attempt b k size etag ct cas)
     (fun r w' => put_redis b k size etag ct cas (redis_cache_ w) r (redis_cache_ w')) w.
Proof.
  apply (wp_transaction_redis _ (put_redis b k size etag ct cas (redis_cache_ w))). intros w1 E1.
  change (tx_redis (w1, false) = redis_cache_ w) in E1.
  assert (Hn : forall st r, tx_redis st = redis_cache_ w -> (forall gc, r <> Ret (Return (Ok gc))) ->
    put_redis b k size etag ct cas (redis_cache_ w) r (tx_redis st)) by (intros st r ->; apply put_redis_not_ok).
  apply wp_step_quiet; [apply quiet_select_old|intros r; by apply Hn|]. intros old st2 E2.
  apply wp_step_quiet; [apply quiet_inc_new|intros r Hr; apply Hn; [congruence|done]|]. intros [] st3 E3.
  apply wp_step_quiet; [apply quiet_dec_old|intros r Hr; apply Hn; [congruence|done]|]. intros gc st4 E4.
  apply wp_bind. eapply (wp_leaves tx_redis); [apply leaves_tx_run|]. intros [[rows aff id|e]|e] st5 E5.
  3: apply Hn; [congruence|done].
  2: { apply wp_ret, Hn; [congruence|]. intros g [=E]. by apply on_err_not_ok in E. }
  apply wp_bind. eapply (wp_leaves tx_redis); [apply leaves_commit|]. intros [[e|]|e] [w6 f6] E6.
  3: apply Hn; [congruence|done].
  { apply wp_ret, Hn; [congruence|]. intros g [=E]. by apply on_commit_err_not_ok in E. }
  assert (E : redis_cache_ w6 = redis_cache_ w) by (unfold tx_redis in *; cbn in *; congruence).
  apply wp_bind, wp_in_tx, wp_bind. unfold wp at 1. cbn [get_world fst snd]. apply wp_cache_object.
  - intros w7 _ Hset. apply wp_ret. eexists. split; [|rewrite <-E; exact Hset]. by split_and!.
  - intros e. exact E.
Qed.

Lemma put_fast_redis attempt b k size etag ct cas : leaves redis_cache_ (put_fast attempt b k size etag ct cas).
Proof. unfold put_fast. leaves_tac. Qed.
(** A connection in scope: the pool is no part of what [Q] looks at. *)
Lemma wp_with_conn_view {A} (nul : A) (body : MM A) (Q : exn A -> srv -> option redis -> Prop) w :
  Q (Ret nul) (m_srv w) (redis_cache_ w) ->
  (forall w1, m_srv w1 = m_srv w -> redis_cache_ w1 = redis_cache_ w ->
     wp body (fun r w' => Q r (m_srv w') (redis_cache_ w')) w1) ->
  wp (with_conn nul body) (fun r w' => Q r (m_srv w') (redis_cache_ w')) w.
Proof.
  intros Hn Hb. apply wp_with_conn; intros p; [done|].
  eapply wp_mono; [apply (Hb (set_pool p w)); done|]. by intros r w' Hq p'.
Qed.

(** Retrying, with an invariant of the attempts that go on. *)
Lemma wp_retry_inv {A} n attempt (body : Z -> MM (flow A)) exhausted (I : MetaW -> Prop) (Q : exn A -> MetaW -> Prop) w :
  I w -> (forall w1, I w1 -> Q (Ret exhausted) w1) ->
  (forall a w1, I w1 -> wp (body a) (fun r w2 => match r with
     | Ret Continue => I w2
     | Ret (Return x) => Q (Ret x) w2
     | Throw e => Q (Throw e) w2
     end) w1) ->
  wp (retry n attempt body exhausted) Q w.
Proof.
  intros Hi Hx Hb. revert attempt w Hi. induction n as [|n IH]; intros attempt w Hi; cbn; [by apply wp_ret, Hx|].
  apply wp_bind. eapply wp_mono; [by apply Hb|]. intros [[|a]|e] w'; [by apply IH|done|done].
Qed.

(** PutObjectWithRefCount sets the entry, or the object is new and the cache as it
    was; without success the cache is as it was. *)
Definition put_cached b k size etag ct cas w (r : exn GcKey) (o' : option redis) : Prop :=
  match r with
  | Ret (Ok _) =>
      (o' = redis_cache_ w /\ a_find b k (abs (committed w)) = None) \/
      exists info, shows info (MkAObject k cas size ct etag) /\ entry_set b k info (redis_cache_ w) o'
  | _ => o' = redis_cache_ w
  end.

Lemma put_object_redis b k size etag ct cas w :
  starts (m_srv w) -> open_tx w = None ->
  wp (PutObjectWithRefCount b k size etag ct cas)
     (fun r w' => put_cached b k size etag ct cas w r (redis_cache_ w')) w.
Proof.
  intros Hs Ho. apply (wp_with_conn_view _ _ (fun r _ o => put_cached b k size etag ct cas w r o)); [done|]. intros w0 Es Er.
  apply (wp_retry_inv _ _ _ _ (fun w1 => starts (m_srv w1) /\ committed w1 = committed w /\ open_tx w1 = None /\ redis_cache_ w1 = redis_cache_ w));
    [unfold committed, open_tx in *; by rewrite Es|by intros w1 (_ & _ & _ & E)|].
  intros attempt w1 (S1 & C1 & O1 & R1). apply wp_bind.
  eapply wp_mono; [apply wp_both; [apply wp_runs; [apply runs_put_fast|by apply (wp_put_fast _ _ _ _ _ _ _ (committed w))]|
    apply (leaves_wp redis_cache_), put_fast_redis]|].
  intros [[f|]|e] w2 [[[O2 D2] S2] R2]; rewrite R1 in R2; cbn in D2; [| |done]; apply (starts_later _ _ S2) in S1.
  - apply wp_ret. destruct D2 as [D2 Hnew]. destruct f as [|[gc|s]]; [by split_and!| |done].
    left. split; [done|]. by apply (Hnew gc).
  - eapply wp_mono; [apply wp_both; [apply wp_runs; [apply runs_put_slow|by apply (wp_put_slow _ _ _ _ _ _ _ (committed w))]|
      apply put_slow_redis]|].
    intros [[|[gc|s]]|e] w3 [[[O3 D3] S3] R3]; cbn in D3, R3; rewrite R2 in R3; [|by right|done|done].
    split_and!; [by eapply starts_later|done..].
Qed.

(** DeleteObjectWithRefCount removes the entry when it succeeds. *)
Definition delete_cached b k (o : option redis) (r : exn GcKey) (o' : option redis) : Prop :=
  match r with Ret (Ok _) => entry_del b k o o' | _ => o' = o end.

Lemma leaves_release_cas c : leaves tx_redis (release_cas c).
Proof. unfold release_cas. leaves_tac. Qed.

Lemma delete_object_redis b k w :
  wp (DeleteObjectWithRefCount b k) (fun r w' => delete_cached b k (redis_cache_ w) r (redis_cache_ w')) w.
Proof.
  apply (wp_with_conn_view _ _ (fun r _ o => delete_cached b k (redis_cache_ w) r o)); [done|]. intros w0 _ E0.
  rewrite <-E0. apply (wp_transaction_redis _ (delete_cached b k (redis_cache_ w0))). intros w1 E1.
  change (tx_redis (w1, false) = redis_cache_ w0) in E1.
  apply wp_bind. eapply (wp_leaves tx_redis); [apply leaves_tx_run|]. intros [[rows aff id|e]|e] st2 E2.
  2: apply wp_ret. 2,3: by rewrite E2, E1.
  destruct (first_cell rows) as [c|]; [|apply wp_ret; by rewrite E2, E1].
  apply wp_bind. eapply (wp_leaves tx_redis); [apply leaves_tx_run|]. intros [[? ? ?|e]|e] st3 E3.
  2: apply wp_ret. 2,3: by rewrite E3, E2, E1.
  apply wp_bind. eapply (wp_leaves tx_redis); [apply leaves_release_cas|]. intros [[e|gc]|e] st4 E4.
  1: apply wp_ret. 1,3: by rewrite E4, E3, E2, E1.
  apply wp_bind. eapply (wp_leaves tx_redis); [apply leaves_commit|]. intros [[e|]|e] [w5 f5] E5.
  1: apply wp_ret. 1,3: by rewrite E5, E4, E3, E2, E1.
  assert (E : redis_cache_ w5 = redis_cache_ w0) by (change (tx_redis (w5, f5) = redis_cache_ w0); congruence).
  apply wp_bind, wp_in_tx, wp_uncache_object. intros w6 _ Hd. apply wp_ret. rewrite <-E. exact Hd.
Qed.
End operations.

(** ** Coherence *)

Section coherence.
Context `{HC : Collation, HCal : Calendar, HS : MySQL, HP : ConnPool, HR : Redis}.
Context `{HJ : JsonLib, HD : Digest} `{HL : !MySQLLaws}.
Context `{HJL : !JsonLaws} `{HJR : !JsonRoundtrip} `{HRL : !RedisLaws} `{HRR : !RedisReliable}.
Implicit Types (w : MetaW) (T : Tables).

(** The keys in use: no two of them have the same digest, and no two fall in the
    same row of the table. *)
Context (keys : string -> Prop).
Hypothesis digest_apart : forall k k', keys k -> keys k' -> SHA256 k = SHA256 k' -> k = k'.
Hypothesis rows_apart : forall k k', keys k -> keys k' -> uk255 k = uk255 k' -> k = k'.

(** Rows hold the key they are found by, and an entry of the cache belongs to an
    object and tells it. *)
Record coherent w : Prop := MkCoherent {
  co_idle : open_tx w = None;
  co_rows b k o : keys k -> a_objs (abs (committed w)) !! (b, uk255 k) = Some o -> ao_key o = k;
  co_ok r : live (redis_cache_ w) = Some r -> cache_ok r;
  co_entry r b k p : live (redis_cache_ w) = Some r -> keys k -> cached r !! ObjectMetaCacheKey b k = Some p ->
    exists o, a_find b k (abs (committed w)) = Some o /\ entry_ok o p
}.

Lemma entry_key b k b' k' :
  keys k -> keys k' -> ObjectMetaCacheKey b k = ObjectMetaCacheKey b' k' -> b = b' /\ k = k'.
Proof. intros Hk Hk' [-> E]%cache_key_inj. split; [done|]. by apply digest_apart. Qed.

Lemma live_live o r : live o = Some r -> live (Some r) = Some r.
Proof. unfold live. destruct o as [r0|]; [|done]. destruct (redis_enabled r0) eqn:E; [|done]. intros [= <-]. by rewrite E. Qed.

Lemma live_some r r' : live (Some r) = Some r' -> r' = r.
Proof. unfold live. case_match; congruence. Qed.

(** Looking up the same tables. *)
Lemma coherent_same w w' :
  coherent w -> m_srv w' = m_srv w -> redis_cache_ w' = redis_cache_ w -> coherent w'.
Proof. intros [H1 H2 H3 H4] Es Er. unfold open_tx, committed in *. split; unfold open_tx, committed; rewrite ?Es, ?Er; eauto. Qed.

(** The cache may lose entries. *)
Lemma coherent_less w w' r r' :
  coherent w -> open_tx w' = None -> committed w' = committed w -> live (redis_cache_ w) = Some r ->
  redis_cache_ w' = Some r' -> cache_ok r' -> cached r' ⊆ cached r -> coherent w'.
Proof.
  intros [H1 H2 H3 H4] Ho Et El Er Hok Hsub. split; [done|by rewrite Et| |]; rewrite Er.
  - by intros r1 ->%live_some.
  - intros r1 b k p ->%live_some Hk Hp. rewrite Et. eapply H4; [done..|]. by eapply lookup_weaken.
Qed.

(** An entry is set for the object that has been written, or that was read: [T']
    are the new tables, which have it and agree with the old ones elsewhere. *)
Lemma coherent_set w w' b k o info :
  coherent w -> open_tx w' = None -> keys k ->
  (forall b' k' o', keys k' -> a_objs (abs (committed w')) !! (b', uk255 k') = Some o' -> ao_key o' = k') ->
  a_find b k (abs (committed w')) = Some o ->
  (forall b' k', keys k' -> (b', k') <> (b, k) -> a_find b' k' (abs (committed w')) = a_find b' k' (abs (committed w))) ->
  - two63 <= oi_size info < two63 -> shows info o ->
  entry_set b k info (redis_cache_ w) (redis_cache_ w') -> coherent w'.
Proof.
  intros [H1 H2 H3 H4] Ho Hk Hrows Hf Hother Hsize Hs Hset. unfold entry_set in Hset.
  destruct (live (redis_cache_ w)) as [r|] eqn:El.
  2: { rewrite <-Hset in El. split; [done|done|congruence..]. }
  destruct Hset as (p & Ep & Ew'). specialize (H3 _ eq_refl).
  pose proof (law_setex (ObjectMetaCacheKey b k) (redis_ttl r) p r H3) as Hl.
  pose proof (setex_replaces (ObjectMetaCacheKey b k) (redis_ttl r) p r H3) as Hr.
  destruct (redis_setex _ _ p r) as [s r']; cbn in *. destruct Hl as [Hok Hc].
  split; [done|done|rewrite Ew'; by intros r1 ->%live_some|rewrite Ew'].
  intros r1 b' k' p' ->%live_some Hk' Hp'. destruct (decide ((b', k') = (b, k))) as [[= -> ->]|Hne].
  - apply Hr in Hp' as ->. exists o. split; [done|]. by eapply serialized_ok.
  - rewrite Hother by done. eapply H4; [done..|]. destruct (Hc _ _ Hp') as [|[E _]]; [done|].
    apply entry_key in E as [-> ->]; done.
Qed.

(** An entry that may no longer hold is gone: the tables agree but for the object. *)
Lemma coherent_drop w w' b k r r' :
  coherent w -> open_tx w' = None -> keys k ->
  (forall b' k' o', keys k' -> a_objs (abs (committed w')) !! (b', uk255 k') = Some o' -> ao_key o' = k') ->
  (forall b' k', keys k' -> (b', k') <> (b, k) -> a_find b' k' (abs (committed w')) = a_find b' k' (abs (committed w))) ->
  live (redis_cache_ w) = Some r -> redis_cache_ w' = Some r' -> cache_ok r' -> cached r' ⊆ cached r ->
  cached r' !! ObjectMetaCacheKey b k = None -> coherent w'.
Proof.
  intros [H1 H2 H3 H4] Ho Hk Hrows Hother El Ew' Hok Hsub Hnone. split; [done|done|rewrite Ew'; by intros r1 ->%live_some|].
  rewrite Ew'. intros r1 b' k' p' ->%live_some Hk' Hp'. destruct (decide ((b', k') = (b, k))) as [[= -> ->]|Hne]; [congruence|].
  rewrite Hother by done. eapply H4; [done..|]. by eapply lookup_weaken.
Qed.

(** ** The tables after the operations *)

Lemma find_other b k b' k' (a a' : AStore) :
  keys k -> keys k' -> (b', k') <> (b, k) ->
  (forall i, i <> (b, uk255 k) -> a_objs a' !! i = a_objs a !! i) -> a_find b' k' a' = a_find b' k' a.
Proof.
  intros Hk Hk' Hne Ha. unfold a_find. rewrite Ha; [done|]. intros [= -> E]. apply Hne.
  by rewrite (rows_apart k' k).
Qed.

Lemma a_put_objs b k size etag ct cas w :
  coherent w -> keys k ->
  a_objs (snd (a_put b k cas size ct etag (abs (committed w)))) =
  <[(b, uk255 k) := MkAObject k cas size ct etag]> (a_objs (abs (committed w))).
Proof.
  intros Hw Hk. unfold a_put. pose proof (move_objs (match a_find b k (abs (committed w)) with Some o => ao_cas o | None => "" end)
    cas (abs (committed w))) as Em.
  destruct (a_move _ _ _) as [gc a1]. cbn in *. rewrite Em. f_equal. f_equal.
  case_match eqn:E; [|done]. by apply (co_rows _ Hw) in E.
Qed.

Lemma put_coherent b k size etag ct cas w gc w' :
  starts (m_srv w) -> coherent w -> keys k -> - two63 <= size < two63 ->
  PutObjectWithRefCount b k size etag ct cas w = (Ret (Ok gc), w') -> coherent w'.
Proof.
  intros Hst Hw Hk Hsize E. pose proof (co_idle _ Hw) as Hidle.
  destruct (wp_run _ _ _ _ _ E (put_object_refines b k size etag ct cas w Hst Hidle)) as [Ho Ht].
  pose proof (wp_run _ _ _ _ _ E (put_object_redis b k size etag ct cas w Hst Hidle)) as Hr. cbn in Ht, Hr.
  apply (f_equal snd) in Ht. cbn in Ht.
  assert (Eo : a_objs (abs (committed w')) = <[(b, uk255 k) := MkAObject k cas size ct etag]> (a_objs (abs (committed w))))
    by (rewrite Ht; by apply a_put_objs).
  assert (Hrows : forall b' k' o', keys k' -> a_objs (abs (committed w')) !! (b', uk255 k') = Some o' -> ao_key o' = k').
  { intros b' k' o' Hk' Hl. rewrite Eo in Hl. apply lookup_insert_Some in Hl as [[[= <- Eu] <-]|[_ Hl]].
    - cbn. by apply rows_apart.
    - by eapply co_rows. }
  assert (Hother : forall b' k', keys k' -> (b', k') <> (b, k) ->
    a_find b' k' (abs (committed w')) = a_find b' k' (abs (committed w))).
  { intros b' k' Hk' Hne. eapply find_other; [exact Hk|done..|]. intros i Hi. rewrite Eo. by apply lookup_insert_ne. }
  destruct Hr as [[Er Hnew]|(info & Hs & Hset)].
  - destruct (live (redis_cache_ w)) as [r|] eqn:El.
    + assert (Ew : redis_cache_ w' = Some r).
      { rewrite Er. unfold live in El. by repeat case_match; simplify_eq. }
      eapply (coherent_drop w w' b k r r); eauto using co_ok.
      destruct (cached r !! _) as [p|] eqn:Ep; [|done].
      destruct (co_entry _ Hw _ _ _ _ El Hk Ep) as (o & F & _). congruence.
    + rewrite <-Er in El. split; [done|done|congruence..].
  - eapply coherent_set; eauto.
    + unfold a_find. rewrite Eo, lookup_insert_eq. cbn. unfold sql_eq. by rewrite String.eqb_refl.
    + destruct Hs as (_ & -> & _). done.
Qed.

Lemma a_delete_objs b k a gc a' :
  a_delete b k a = Some (gc, a') -> a_objs a' = delete (b, uk255 k) (a_objs a).
Proof. unfold a_delete, a_dec. intros E. repeat case_match; by simplify_eq. Qed.

Lemma delete_coherent b k w gc w' :
  starts (m_srv w) -> coherent w -> keys k -> DeleteObjectWithRefCount b k w = (Ret (Ok gc), w') -> coherent w'.
Proof.
  intros Hst Hw Hk E. destruct (wp_run _ _ _ _ _ E (delete_object_refines b k w Hst (co_idle _ Hw))) as [Ho Ht].
  pose proof (wp_run _ _ _ _ _ E (delete_object_redis b k w)) as Hr. cbn in Ht, Hr. apply a_delete_objs in Ht.
  assert (Hrows : forall b' k' o', keys k' -> a_objs (abs (committed w')) !! (b', uk255 k') = Some o' -> ao_key o' = k').
  { intros b' k' o' Hk' Hl. rewrite Ht in Hl. apply lookup_delete_Some in Hl as [_ Hl]. by eapply co_rows. }
  unfold entry_del in Hr. destruct (live (redis_cache_ w)) as [r|] eqn:El.
  - pose proof (law_del (ObjectMetaCacheKey b k) r (co_ok _ Hw _ El)) as Hl.
    pose proof (del_removes (ObjectMetaCacheKey b k) r (co_ok _ Hw _ El)) as Hd.
    destruct (redis_del _ r) as [s r']. cbn [fst snd] in *. destruct Hl as [Hok Hsub].
    eapply (coherent_drop w w' b k r r'); eauto. intros b' k' Hk' Hne. eapply find_other; [exact Hk|done..|].
    intros i Hi. rewrite Ht. by apply lookup_delete_ne.
  - rewrite <-Hr in El. split; [done|done|congruence..].
Qed.

(** ** GetObject *)

Lemma exec_select_object now t b k t' rows aff ids :
  exec_stmt now t (SelectObject b k) = Done t' rows aff ids ->
  t' = t /\ rows = opt_rows object_text (find_object t b k) /\ a_find b k (abs t) = aobject <$> find_object t b k.
Proof.
  cbn [exec_stmt]. unfold rows_of. intros F. injection F as <- <- <- <-. split_and!; [done..|].
  unfold a_find, find_object, abs. cbn. rewrite lookup_fmap. destruct (objects t !! _) as [r|]; cbn; [|done].
  by destruct (sql_eq (or_key r) k).
Qed.

Lemma row_size_range now r info :
  object_of_row now (object_text r) = Ret info -> - two63 <= or_size r < two63.
Proof.
  unfold object_of_row, col_ll, ll_or0, object_text, col, num. cbn.
  destruct (conv_exn (stoll (to_string (or_id r)))); cbn; [|done].
  destruct (conv_exn (stoll (to_string (or_bucket r)))); cbn; [|done]. unfold stoll. rewrite sto_signed_to_string.
  destruct (Z.leb_spec (- two63) (or_size r)), (Z.ltb_spec (or_size r) two63); cbn; (done || lia).
Qed.

(** What an answer of GetObject says of the tables [T]. *)
Definition current b k T (r : exn (Result ObjectInfo)) : Prop :=
  match r with
  | Ret (Ok info) => exists o, a_find b k (abs T) = Some o /\ shows info o
  | Ret (Err s) => code_ s = NoSuchKey -> a_find b k (abs T) = None
  | Throw _ => True
  end.

Definition read_post b k T (r : exn (Result ObjectInfo)) w : Prop :=
  coherent w /\ committed w = T /\ current b k T r.

Lemma wp_cached_object b k w :
  coherent w -> keys k ->
  wp (cached_object b k) (fun r w' => coherent w' /\ m_srv w' = m_srv w /\
    match r with
    | Ret (Some info) => exists o, a_find b k (abs (committed w)) = Some o /\ shows info o
    | Ret None => True
    | Throw _ => False
    end) w.
Proof.
  intros Hw Hk. unfold wp, cached_object, get_world, put_world, lift_exn, mbind, M_bind. cbn [fst snd].
  change (redis_live w) with (live (redis_cache_ w)).
  destruct (live (redis_cache_ w)) as [r|] eqn:El; [|by cbn].
  pose proof (co_ok _ Hw _ El) as Hok. pose proof (law_get (ObjectMetaCacheKey b k) r Hok) as Hg.
  destruct (redis_get _ r) as [x r1]. destruct Hg as (Hok1 & Hsub & res & -> & Hres). cbn [fst snd].
  assert (Hw1 : coherent (set_redis (Some r1) w)) by (eapply coherent_less; [exact Hw|by destruct Hw|done|exact El|done..]).
  destruct res as [[p|]|s]; cbn [fst snd]; [|by split..].
  destruct (DeserializeObjectInfo (m_now w) p) as [info|] eqn:Ed; cbn [fst snd mret M_ret].
  - split_and!; [done|done|]. destruct (co_entry _ Hw _ _ _ _ El Hk (Hres _ eq_refl)) as (o & F & Ho).
    exists o. split; [done|]. by eapply Ho.
  - pose proof (law_del (ObjectMetaCacheKey b k) r1 Hok1) as Hd. destruct (redis_del _ r1) as [s r2]. cbn [fst snd].
    destruct Hd as [Hok2 Hsub2]. split_and!; [|done|done].
    eapply (coherent_less w); [exact Hw|by destruct Hw|done|exact El|done..|by etrans].
Qed.

Lemma get_object_reads b k w : coherent w -> keys k -> wp (GetObject b k) (read_post b k (committed w)) w.
Proof.
  intros Hw Hk. apply wp_bind. eapply wp_mono; [by apply wp_cached_object|].
  intros [[info|]|e] w1 (Hw1 & Es & Hr); [apply wp_ret; split_and!; [done|unfold committed; congruence|done]| |done].
  assert (Et : committed w1 = committed w) by (unfold committed; congruence). rewrite <-Et. clear dependent w.
  apply wp_with_conn; intros p; [split_and!; [by eapply coherent_same|done|done]|].
  assert (Hp : coherent (set_pool p w1)) by (by eapply coherent_same).
  eapply (wp_mono _ (read_post b k (committed w1))).
  2: { intros r w' (D1 & D2 & D3) p'. split_and!; [by eapply coherent_same|done|done]. }
  change (committed w1) with (committed (set_pool p w1)). generalize dependent (set_pool p w1). clear dependent w1.
  intros w Hw. apply wp_bind. unfold wp at 1. cbn [get_world fst snd]. apply wp_bind.
  apply wp_conn_run; [done|by apply co_idle| |].
  - intros w2 t' rows aff id ids (_ & _ & Er & _) Ex _ Et Ho. apply exec_select_object in Ex as (-> & -> & F).
    assert (Hw2 : coherent w2).
    { destruct Hw as [H1 H2 H3 H4]. split; rewrite ?Er, ?Et; eauto. }
    destruct (find_object (committed w) b k) as [row|]; cbn [opt_rows].
    2: { apply wp_ret. split_and!; [done..|intros _; exact F]. }
    apply wp_bind, wp_lift. destruct (object_of_row (m_now w) (object_text row)) as [info|e] eqn:Ei; [|by split_and!].
    pose proof (row_size_range _ _ _ Ei) as Hsize. apply object_of_row_text in Ei as ->.
    assert (Hs : shows (object_info (m_now w) row) (aobject row)) by (by split_and!).
    apply wp_bind, wp_cache_object.
    + intros w3 Es Hset. apply wp_ret. split_and!; [|unfold committed in *; congruence|by eexists].
      assert (E3 : committed w3 = committed w2) by (unfold committed; congruence).
      eapply (coherent_set w2 w3 b k (aobject row)); rewrite ?E3; eauto using co_rows.
      * unfold open_tx in *. congruence.
      * by rewrite Et.
      * exact Hsize.
    + intros e. by split_and!.
  - intros w2 e (_ & _ & Er & _) Et Ho _. apply wp_ret. split_and!; [|done|done].
    destruct Hw as [H1 H2 H3 H4]. split; rewrite ?Er, ?Et; eauto.
Qed.

(** ** Runs of operations *)

(** The cache and the tables as they were. *)
Lemma coherent_tables w w' :
  coherent w -> open_tx w' = None -> committed w' = committed w -> redis_cache_ w' = redis_cache_ w -> coherent w'.
Proof. intros [H1 H2 H3 H4] Ho Et Er. split; rewrite ?Et, ?Er; eauto. Qed.

(** The operation succeeded, or it has not changed the tables. *)
Definition answered (r : exn GcKey) w w' : Prop := (exists gc, r = Ret (Ok gc)) \/ committed w' = committed w.

Inductive object_step w w' : Prop :=
  | did_get b k r : keys k -> GetObject b k w = (r, w') -> object_step w w'
  | did_put b k size etag ct cas r :
      keys k -> - two63 <= size < two63 -> PutObjectWithRefCount b k size etag ct cas w = (r, w') ->
      answered r w w' -> object_step w w'
  | did_delete b k r :
      keys k -> DeleteObjectWithRefCount b k w = (r, w') -> answered r w w' -> object_step w w'.

Lemma object_step_later w w' : object_step w w' -> later (m_srv w) (m_srv w').
Proof.
  assert (Hl : forall A (op : MM A) r, runs op -> op w = (r, w') -> later (m_srv w) (m_srv w')).
  { intros A op r Hr E. specialize (Hr w). by rewrite E in Hr. }
  intros [b k r _ E|b k size etag ct cas r _ _ E _|b k r _ E _]; (eapply Hl; [|exact E]); auto with minis3.
Qed.

Lemma object_step_coherent w w' :
  starts (m_srv w) -> coherent w -> object_step w w' -> coherent w'.
Proof.
  intros Hst Hw Hstep. pose proof (co_idle _ Hw) as Hi.
  destruct Hstep as [b k r Hk E|b k size etag ct cas r Hk Hs E Ha|b k r Hk E Ha].
  - by destruct (wp_run _ _ _ _ _ E (get_object_reads b k w Hw Hk)).
  - destruct (wp_run _ _ _ _ _ E (put_object_refines b k size etag ct cas w Hst Hi)) as [Ho _].
    pose proof (wp_run _ _ _ _ _ E (put_object_redis b k size etag ct cas w Hst Hi)) as Hr.
    destruct r as [[gc|s]|e]; [by eapply put_coherent| |];
      (destruct Ha as [[gc [=]]|Et]; by eapply coherent_tables).
  - destruct (wp_run _ _ _ _ _ E (delete_object_refines b k w Hst Hi)) as [Ho _].
    pose proof (wp_run _ _ _ _ _ E (delete_object_redis b k w)) as Hr.
    destruct r as [[gc|s]|e]; [by eapply delete_coherent| |];
      (destruct Ha as [[gc [=]]|Et]; by eapply coherent_tables).
Qed.

(** C15. What GetObject answers is the content, the size, the tag and the type of the
    current row of the database, from the cache as from a query, and NoSuchKey only
    when there is no row, after any run of puts, deletes and reads, on a session that
    accepts START TRANSACTION, in which the commands to Redis succeed and an operation
    that reports a failure has not committed ([answered]). The keys in use must differ in
    their digest and fall in different rows of the table: two keys of one row break it
    ([one_row_stale_entry]). *)
Theorem cached_reads_current w0 w b k r w' :
  starts (m_srv w0) -> coherent w0 -> rtc object_step w0 w -> keys k -> GetObject b k w = (r, w') ->
  committed w' = committed w /\ current b k (committed w) r.
Proof.
  intros Hs H0 Hr Hk E. assert (Hw : starts (m_srv w) /\ coherent w).
  { eapply (rtc_ind_r (fun w => starts (m_srv w) /\ coherent w)); [done| |exact Hr].
    intros w1 w2 _ Hst [Hs1 Hok]. split; [|by eapply object_step_coherent].
    eapply starts_later; [by apply object_step_later|done]. }
  destruct Hw as [_ Hw].
  by destruct (wp_run _ _ _ _ _ E (get_object_reads b k w Hw Hk)) as (_ & D1 & D2).
Qed.
End coherence.

(** ** Witness *)

(** Text from the bits of a number, and back. *)
Fixpoint bits (p : positive) : string :=
  match p with
  | xH => ""
  | xO p => String "0" (bits p)
  | xI p => String "1" (bits p)
  end.

Fixpoint of_bits (s : string) : positive :=
  match s with
  | EmptyString => xH
  | String c s => if Ascii.eqb c "0" then xO (of_bits s) else xI (of_bits s)
  end.

Lemma of_bits_bits p : of_bits (bits p) = p.
Proof. by induction p as [p IH|p IH|]; cbn; rewrite ?IH. Qed.

(** A JSON library for flat objects. *)
Definition flat_field (kv : string * Json) : option (string * (Z + string)) :=
  match snd kv with
  | JInt z => Some (fst kv, inl z)
  | JStr s => Some (fst kv, inr s)
  | _ => None
  end.

Definition json_value (kv : string * (Z + string)) : string * Json :=
  (fst kv, match snd kv with inl z => JInt z | inr s => JStr s end).

Definition flat_json : JsonLib := {|
  json_dump j :=
    match j with
    | JObj fs => match mapM flat_field fs with Some l => Ret (bits (encode l)) | None => Throw "type_error" end
    | _ => Throw "type_error"
    end;
  json_parse s := match decode (of_bits s) with Some l => Ret (JObj (json_value <$> l)) | None => Throw "parse_error" end;
  json_get_int j := match j with JInt z => Ret z | _ => Throw "type_error" end;
  json_get_i64 j := match j with JInt z => Ret z | _ => Throw "type_error" end;
  json_get_string j := match j with JStr s => Ret s | _ => Throw "type_error" end
|}.

#[local] Existing Instance flat_json.

#[local] Instance flat_json_laws : JsonLaws.
Proof. split; cbn; eauto. Qed.

Lemma flat_fields fs l : mapM flat_field fs = Some l -> json_value <$> l = fs.
Proof.
  intros H%mapM_Some. induction H as [|[k v] [k' x] fs l Hx _ IH]; [done|]. cbn. rewrite IH. f_equal.
  destruct v; cbn in Hx; simplify_eq; done.
Qed.

#[local] Instance flat_json_roundtrip : JsonRoundtrip.
Proof.
  intros fs s. cbn. destruct (mapM flat_field fs) as [l|] eqn:E; [|done]. intros [= <-]. exists fs.
  rewrite of_bits_bits, decode_encode. by apply flat_fields in E as ->.
Qed.

#[local] Program Instance mem_redis_laws : RedisLaws := {| cache_ok _ := True; cached := mr_map |}.
Next Obligation. intros k r _. cbn. split_and!; [done..|]. eexists. split; [done|]. by intros v [= ->]. Qed.
Next Obligation.
  intros k ttl v r _. cbn. split; [done|]. intros k' v' [[<- <-]|[_ Hl]]%lookup_insert_Some; auto.
Qed.
Next Obligation. intros k r _. cbn. split; [done|]. apply delete_subseteq. Qed.

#[local] Instance mem_redis_reliable : RedisReliable.
Proof.
  split; cbn.
  - intros k ttl v r _ v'. rewrite lookup_insert_eq. congruence.
  - intros k r _. apply lookup_delete_eq.
Qed.

Definition cached_world (t : Tables) : MetaW := set_redis (Some (MkRedis true ∅)) (mem_world t []).

Definition two_keys (k : string) : Prop := k = "a" \/ k = "b".

Lemma two_keys_digests k k' : two_keys k -> two_keys k' -> SHA256 k = SHA256 k' -> k = k'.
Proof. intros [-> | ->] [-> | ->] E; [done|vm_compute in E; discriminate..|done]. Qed.

Lemma two_keys_rows k k' : two_keys k -> two_keys k' -> uk255 k = uk255 k' -> k = k'.
Proof. intros [-> | ->] [-> | ->] E; [done|discriminate..|done]. Qed.

Lemma cached_world_coherent keys t : objects t = ∅ -> coherent keys (cached_world t).
Proof.
  intros Ht. split; [done|..].
  - intros b k o _ Hl. cbn in Hl. by rewrite Ht, fmap_empty, lookup_empty in Hl.
  - done.
  - intros r b k p [= <-] _ Hl. cbn in Hl. discriminate Hl.
Qed.

(** An object is written twice; the second content is read from the cache. *)
Definition put_once : MetaW := snd (PutObjectWithRefCount 1 "a" 5 "e" "t" "c0" (cached_world one_bucket)).
Definition put_twice : MetaW := snd (PutObjectWithRefCount 1 "a" 6 "e" "t" "c1" put_once).

Lemma fst_pair {A B} (p : A * B) a : fst p = a -> p = (a, snd p).
Proof. destruct p. cbn. by intros ->. Qed.

Lemma first_put : PutObjectWithRefCount 1 "a" 5 "e" "t" "c0" (cached_world one_bucket) = (Ret (Ok None), put_once).
Proof. unfold put_twice, put_once. apply fst_pair. vm_compute. reflexivity. Qed.

Lemma second_put : PutObjectWithRefCount 1 "a" 6 "e" "t" "c1" put_once = (Ret (Ok (Some "c0")), put_twice).
Proof. unfold put_twice, put_once. apply fst_pair. vm_compute. reflexivity. Qed.

Lemma put_twice_run : rtc (object_step two_keys) (cached_world one_bucket) put_twice.
Proof.
  apply (rtc_l _ _ put_once); [|apply rtc_once].
  - apply (did_put _ _ _ 1 "a" 5 "e" "t" "c0" (Ret (Ok None))); [by left|done|exact first_put|left; by exists None].
  - apply (did_put _ _ _ 1 "a" 6 "e" "t" "c1" (Ret (Ok (Some "c0")))); [by left|done|exact second_put|].
    left. by exists (Some "c0").
Qed.

Lemma cached_reads_current_witness :
  exists o, a_find 1 "a" (abs (committed put_twice)) = Some o /\ ao_cas o = "c1".
Proof.
  assert (Hget : exists info w', GetObject 1 "a" put_twice = (Ret (Ok info), w') /\ oi_sha256_hash info = "c1").
  { destruct (GetObject 1 "a" put_twice) as [r w'] eqn:E. assert (Er : r = fst (GetObject 1 "a" put_twice)) by (by rewrite E).
    vm_compute in Er. eexists _, w'. rewrite Er. split; reflexivity. }
  destruct Hget as (info & w' & E & Ei).
  destruct (cached_reads_current two_keys two_keys_digests two_keys_rows
    (cached_world one_bucket) put_twice 1 "a" (Ret (Ok info)) w') as [_ (o & F & Ho & _)].
  - apply mem_starts.
  - apply cached_world_coherent. reflexivity.
  - exact put_twice_run.
  - left. reflexivity.
  - exact E.
  - exists o. split; [exact F|]. rewrite <-Ho. exact Ei.
Defined.

(** A digest of the last bytes, which tells long keys apart. *)
Definition tail_digest : Digest :=
  {| sha256_raw l := pad32 (rev l); hmac_raw k d := pad32 (rev (k ++ d));
     sha256_length l := pad32_length (rev l); hmac_length k d := pad32_length (rev (k ++ d)) |}.

#[local] Existing Instance tail_digest.

(** Two keys that fall in one row: the second put writes the row of the first, and
    the entry of the first stays. GetObject then answers what is not in the table. *)
Example one_row_stale_entry :
  let put k cas w := snd (PutObjectWithRefCount 1 k 5 "e" "t" cas w) in
  let w := put (long_key "2") "c2" (put (long_key "1") "c1" (put (long_key "1") "c0" (cached_world one_bucket))) in
  match fst (GetObject 1 (long_key "1") w) with Ret (Ok info) => oi_sha256_hash info | _ => "" end = "c1" /\
  (ao_cas <$> a_find 1 (long_key "1") (abs (committed w))) = Some "c2".
Proof. vm_compute. split; reflexivity. Qed.
