(* ===== verification/Uuid.v ===== *)
(** * Identifiers (src/src/util/uuid.h, .cpp)

    The identifier the program makes when libuuid is absent and the test of the
    format. *)
From S2P Require Import Prelude Crypto.

Local Open Scope Z_scope.

(** The generator behind [rand32] (a [std::mt19937_64] and a uniform
    distribution over 32 bits). *)
Class Rand32 (W : Type) : Type := {
  rand32 : W -> Z * W;
  rand32_range w : 0 <= fst (rand32 w) < 2 ^ 32
}.

(** [UUID::Generate] as its callers see it: libuuid or the fallback. *)
Class UuidGen (W : Type) : Type := uuid_generate : W -> string * W.

(** [oss << std::hex << std::setfill('0') << std::setw(w) << n] of a number
    that fits in [w] digits. *)
Fixpoint hex_setw (w : nat) (n : Z) : string :=
  match w with
  | O => ""
  | S w' => String (hex_digit (Z.to_nat ((n / 16 ^ Z.of_nat w') mod 16))) (hex_setw w' n)
  end.

Definition uuid_version (d3 : Z) : Z := Z.lor (Z.land d3 0x0FFF) 0x4000.
Definition uuid_variant (d4 : Z) : Z := Z.lor (Z.land d4 0x3FFF) 0x8000.

(** The text of the fallback from its six draws, [uint16_t] casts included. *)
Definition uuid_of_words (d1 d2 d3 d4 d5 d6 : Z) : string :=
  hex_setw 8 d1 +:+ "-" +:+ hex_setw 4 (d2 mod 2 ^ 16) +:+ "-" +:+
  hex_setw 4 (uuid_version (d3 mod 2 ^ 16)) +:+ "-" +:+
  hex_setw 4 (uuid_variant (d4 mod 2 ^ 16)) +:+ "-" +:+
  hex_setw 8 d5 +:+ hex_setw 4 (Z.land d6 0xFFFF).

Definition UUID_Generate_fallback {W} `{Rand32 W} : UuidGen W := fun w =>
  let '(d1, w) := rand32 w in
  let '(d2, w) := rand32 w in
  let '(d3, w) := rand32 w in
  let '(d4, w) := rand32 w in
  let '(d5, w) := rand32 w in
  let '(d6, w) := rand32 w in
  (uuid_of_words d1 d2 d3 d4 d5 d6, w).

(** The class [[0-9a-f]] of a case-insensitive expression. *)
Definition is_hex_icase (c : ascii) : bool := is_hex (tolower c).

(** [n] hexadecimal digits, then what [k] accepts. *)
Fixpoint hex_run (n : nat) (k : string -> bool) (s : string) : bool :=
  match n with
  | O => k s
  | S n' => match s with String c r => is_hex_icase c && hex_run n' k r | EmptyString => false end
  end.

Definition dash (k : string -> bool) (s : string) : bool :=
  match s with String c r => Ascii.eqb c "-" && k r | EmptyString => false end.

Definition UUID_IsValid (uuid : string) : bool :=
  hex_run 8 (dash (hex_run 4 (dash (hex_run 4 (dash (hex_run 4 (dash (hex_run 12 str_empty)))))))) uuid.

(** ** Lemmas *)

Lemma hex_digit_is_hex n : (n < 16)%nat -> is_hex_icase (hex_digit n) = true.
Proof. intros H. by do 16 (destruct n as [|n]; [done|]); lia. Qed.

Lemma hex_run_setw w n k s : hex_run w k (hex_setw w n +:+ s) = k s.
Proof.
  induction w as [|w IH]; [done|]. cbn [hex_setw hex_run String.append].
  rewrite hex_digit_is_hex, IH; [done|].
  pose proof (Z.mod_pos_bound (n / 16 ^ Z.of_nat w) 16). lia.
Qed.

Lemma hex_setw_split a b n :
  hex_setw (a + b) n = hex_setw a (n / 16 ^ Z.of_nat b) +:+ hex_setw b n.
Proof.
  induction a as [|a IH]; [done|]. cbn [Nat.add hex_setw String.append].
  f_equal; [|done]. do 3 f_equal. rewrite Z.div_div by lia.
  f_equal. rewrite <-Z.pow_add_r by lia. f_equal. lia.
Qed.

Lemma hex_run_app a b k s : hex_run (a + b) k s = hex_run a (hex_run b k) s.
Proof. revert s. induction a as [|a IH]; intros s; [done|]. destruct s; [done|]. cbn. by rewrite IH. Qed.

Lemma high_nibble v : v / 16 ^ Z.of_nat 3 = Z.shiftr v 12.
Proof. by rewrite Z.shiftr_div_pow2. Qed.

Lemma uuid_version_nibble d : uuid_version d / 16 ^ Z.of_nat 3 = 4.
Proof.
  rewrite high_nibble. unfold uuid_version.
  rewrite Z.shiftr_lor, Z.shiftr_land. change (Z.shiftr 0x0FFF 12) with 0.
  by rewrite Z.land_0_r.
Qed.

Lemma uuid_variant_nibble d : uuid_variant d / 16 ^ Z.of_nat 3 ∈ [8; 9; 10; 11].
Proof.
  rewrite high_nibble. unfold uuid_variant.
  rewrite Z.shiftr_lor, Z.shiftr_land. change (Z.shiftr 0x3FFF 12) with (Z.ones 2).
  rewrite Z.land_ones by lia. pose proof (Z.mod_pos_bound (Z.shiftr d 12) (2 ^ 2)).
  assert (Hx : Z.shiftr d 12 mod 2 ^ 2 ∈ [0; 1; 2; 3]).
  { destruct (Z.shiftr d 12 mod 2 ^ 2) as [|[[]|[]|]|]; try lia; set_solver. }
  revert Hx. generalize (Z.shiftr d 12 mod 2 ^ 2). intros x Hx. set_unfold.
  destruct Hx as [-> | [-> | [-> | [-> | []]]]]; auto.
Qed.

(** A text of the shape the fallback builds passes the test of the format. *)
Lemma uuid_of_words_valid d1 d2 d3 d4 d5 d6 : UUID_IsValid (uuid_of_words d1 d2 d3 d4 d5 d6) = true.
Proof.
  unfold UUID_IsValid, uuid_of_words.
  repeat (rewrite hex_run_setw; cbn [dash String.append Ascii.eqb Bool.eqb andb]).
  change 12%nat with (8 + 4)%nat. rewrite hex_run_app, hex_run_setw.
  rewrite <-(str_app_nil_r (hex_setw 4 _)). by rewrite hex_run_setw.
Qed.

Definition uuid_char (c : ascii) : bool := is_hex_icase c || Ascii.eqb c "-".

Lemma hex_run_chars n k s :
  (forall t, k t = true -> str_all uuid_char t = true) ->
  hex_run n k s = true -> str_all uuid_char s = true.
Proof.
  intros Hk. revert s. induction n as [|n IH]; intros s; [apply Hk|].
  destruct s as [|c s]; [done|]. cbn. intros [Hc Hs]%andb_true_iff.
  unfold uuid_char at 1. by rewrite Hc, IH.
Qed.

Lemma dash_chars k s :
  (forall t, k t = true -> str_all uuid_char t = true) ->
  dash k s = true -> str_all uuid_char s = true.
Proof.
  intros Hk. destruct s as [|c s]; [done|]. cbn. intros [Hc Hs]%andb_true_iff.
  unfold uuid_char at 1. by rewrite Hc, orb_true_r, Hk.
Qed.

Lemma uuid_valid_chars u : UUID_IsValid u = true -> str_all uuid_char u = true.
Proof.
  unfold UUID_IsValid.
  assert (Hend : forall t, str_empty t = true -> str_all uuid_char t = true) by (by intros []).
  do 4 (apply hex_run_chars; intros ?; apply dash_chars; intros ?).
  by apply hex_run_chars.
Qed.

(** No dot, and not the word [blob]. *)
Lemma uuid_valid_plain u : UUID_IsValid u = true -> str_free "." u = true /\ u <> "blob".
Proof.
  intros H%uuid_valid_chars. split; [|by intros ->].
  eapply str_all_impl; [|exact H]. intros c Hc. destruct (Ascii.eqb_spec "." c) as [<-|]; done.
Qed.

(** ** Properties *)

(** C39. The identifiers the program makes itself are version 4 identifiers: they
    pass its test of the format, their version digit is 4 and their variant digit
    is one of 8, 9, a, b. *)
Theorem uuid_fallback_valid {W} `{Rand32 W} (w : W) :
  let uuid := fst (UUID_Generate_fallback w) in
  UUID_IsValid uuid = true /\ String.get 14 uuid = Some "4"%char /\
  exists c, String.get 19 uuid = Some c /\ c ∈ ["8"; "9"; "a"; "b"]%char.
Proof.
  unfold UUID_Generate_fallback.
  destruct (rand32 w) as [d1 w1], (rand32 w1) as [d2 w2], (rand32 w2) as [d3 w3],
    (rand32 w3) as [d4 w4], (rand32 w4) as [d5 w5], (rand32 w5) as [d6 w6].
  cbv zeta. cbn [fst]. split_and!; [apply uuid_of_words_valid| |].
  - unfold uuid_of_words. cbn [hex_setw String.append String.get].
    by rewrite uuid_version_nibble.
  - unfold uuid_of_words. cbn [hex_setw String.append String.get].
    eexists; split; [reflexivity|]. pose proof (uuid_variant_nibble (d4 mod 2 ^ 16)) as Hv.
    revert Hv. generalize (uuid_variant (d4 mod 2 ^ 16) / 16 ^ Z.of_nat 3). intros x Hx.
    set_unfold. destruct Hx as [-> | [-> | [-> | [-> | []]]]]; cbn; auto.
Qed.
