(* ===== verification/FileSys.v ===== *)
(** * The file system (src/src/util/fs.h, .cpp)

    The POSIX calls are the interface [Posix] with the laws the program relies
    on; the [FileSystem] helpers and path functions over it are modelled. *)
From S2P Require Import Prelude Status Uuid.

(** ** Paths *)

Fixpoint str_last (s : string) : option ascii :=
  match s with
  | EmptyString => None
  | String c EmptyString => Some c
  | String _ r => str_last r
  end.

Definition ends_with_slash (s : string) : bool :=
  match str_last s with Some c => Ascii.eqb c "/" | None => false end.

Definition starts_with_slash (s : string) : bool :=
  match s with String c _ => Ascii.eqb c "/" | EmptyString => false end.

(** [(std::filesystem::path(base) / sub).string()] on POSIX. *)
Definition JoinPath (base sub : string) : string :=
  if starts_with_slash sub then sub
  else if str_empty base || ends_with_slash base then base +:+ sub
  else base +:+ "/" +:+ sub.

(** The characters before the last slash, [None] without one. *)
Fixpoint before_last_slash (s : string) : option string :=
  match s with
  | EmptyString => None
  | String c r =>
      match before_last_slash r with
      | Some p => Some (String c p)
      | None => if Ascii.eqb c "/" then Some "" else None
      end
  end.

(** Without trailing slashes. *)
Fixpoint strip_slashes (s : string) : string :=
  match s with
  | EmptyString => EmptyString
  | String c r =>
      let r' := strip_slashes r in
      if Ascii.eqb c "/" && str_empty r' then EmptyString else String c r'
  end.

(** [std::filesystem::path(p).parent_path()]. *)
Definition parent_path (p : string) : string :=
  match before_last_slash p with
  | None => ""
  | Some d => let d' := strip_slashes d in if str_empty d' then "/" else d'
  end.

(** ** System calls *)

Inductive sys_result (A : Type) : Type :=
  | SysOk (a : A)
  | SysEintr
  | SysErr (strerror : string).
Arguments SysOk {A} a.
Arguments SysEintr {A}.
Arguments SysErr {A} strerror.

Inductive unlink_result : Type := Unlinked | NoEntry | UnlinkErr (strerror : string).

(** One process's view of the file system. An open descriptor is named by the
    path it was opened at; reads carry their offset, writes append (the program
    writes each file once, sequentially). [os_patience] bounds the interruptions
    still to come; [os_uuid] draws on the random source. *)
Class Posix : Type := {
  os : Type;
  os_file : os -> string -> option (list ascii);
  os_patience : os -> nat;
  sys_create_excl : string -> os -> sys_result unit * os;
  sys_open_read : string -> os -> sys_result unit * os;
  sys_fstat : string -> os -> sys_result Z * os;
  sys_seek : string -> Z -> os -> sys_result unit * os;
  sys_read : string -> nat -> nat -> os -> sys_result (list ascii) * os;
  sys_write : string -> list ascii -> os -> sys_result nat * os;
  sys_sync : bool -> string -> os -> bool * os;
  sys_close : string -> os -> os;
  sys_unlink : string -> os -> unlink_result * os;
  sys_rename : string -> string -> os -> option string * os;
  sys_is_regular : string -> os -> bool;
  sys_stat_size : string -> os -> sys_result Z;
  sys_mkdirs : string -> os -> option string * os;
  os_uuid : os -> string * os
}.

(** A call that leaves every file as it was. *)
Definition same_files `{Posix} (s s' : os) : Prop := forall p, os_file s' p = os_file s p.

(** Every file but [q] is as it was. *)
Definition same_but `{Posix} (q : string) (s s' : os) : Prop :=
  forall p, p <> q -> os_file s' p = os_file s p.

(** Documented behaviour of the calls. A call never adds to the interruptions
    to come, and an interrupted one uses one up. *)
Class PosixLaws `{Posix} : Prop := {
  create_law p s r s' : sys_create_excl p s = (r, s') -> os_patience s' <= os_patience s /\
    match r with
    | SysOk _ => os_file s p = None /\ os_file s' p = Some [] /\ same_but p s s'
    | _ => same_files s s'
    end;
  open_law p s r s' : sys_open_read p s = (r, s') -> os_patience s' <= os_patience s /\ same_files s s' /\
    (r = SysOk tt -> is_Some (os_file s p));
  fstat_law p s r s' : sys_fstat p s = (r, s') -> os_patience s' <= os_patience s /\ same_files s s' /\
    forall n c, r = SysOk n -> os_file s p = Some c -> n = Z.of_nat (length c);
  seek_law p n s r s' : sys_seek p n s = (r, s') -> os_patience s' <= os_patience s /\ same_files s s';
  read_law p off n s r s' : sys_read p off n s = (r, s') -> same_files s s' /\
    match r with
    | SysOk d => os_patience s' <= os_patience s /\ length d <= n /\
        forall c, os_file s p = Some c ->
          d = take (length d) (drop off c) /\ (d = [] -> n = 0 \/ length c <= off)
    | SysEintr => os_patience s' < os_patience s
    | SysErr _ => os_patience s' <= os_patience s
    end;
  write_law p d s r s' : d <> [] -> sys_write p d s = (r, s') ->
    match r with
    | SysOk n => os_patience s' <= os_patience s /\ 0 < n <= length d /\ same_but p s s' /\
        forall c, os_file s p = Some c -> os_file s' p = Some (c ++ take n d)
    | SysEintr => os_patience s' < os_patience s /\ same_files s s'
    | SysErr _ => os_patience s' <= os_patience s /\ same_files s s'
    end;
  sync_law b p s r s' : sys_sync b p s = (r, s') -> os_patience s' <= os_patience s /\ same_files s s';
  close_law p s : os_patience (sys_close p s) <= os_patience s /\ same_files s (sys_close p s);
  unlink_law p s r s' : sys_unlink p s = (r, s') -> os_patience s' <= os_patience s /\
    match r with
    | Unlinked => os_file s' p = None /\ same_but p s s'
    | NoEntry => os_file s p = None /\ same_files s s'
    | UnlinkErr _ => same_files s s'
    end;
  rename_law a b s r s' : a <> b -> sys_rename a b s = (r, s') -> os_patience s' <= os_patience s /\
    match r with
    | None => os_file s' b = os_file s a /\ os_file s' a = None /\
              forall p, p <> a -> p <> b -> os_file s' p = os_file s p
    | Some _ => same_files s s'
    end;
  regular_law p s : sys_is_regular p s = true -> is_Some (os_file s p);
  mkdirs_law p s r s' : sys_mkdirs p s = (r, s') -> os_patience s' <= os_patience s /\ same_files s s';
  uuid_law s u s' : os_uuid s = (u, s') -> os_patience s' <= os_patience s /\ same_files s s' /\
    UUID_IsValid u = true
}.

(** ** FileSystem *)

Section filesystem.
Context `{Posix}.

Definition storage_error (m : string) : Status := MkStatus StorageError m.

Definition CreateDirectories (path : string) : M os Status := fun s =>
  let '(r, s) := sys_mkdirs path s in
  (Ret (match r with
        | None => Status_OK
        | Some what => storage_error ("Failed to create directory: " +:+ what)
        end), s).

(** A missing file counts as removed. *)
Definition RemoveFile (path : string) : M os Status := fun s =>
  let '(r, s) := sys_unlink path s in
  (Ret (match r with
        | Unlinked | NoEntry => Status_OK
        | UnlinkErr e => storage_error ("Failed to remove file: " +:+ e)
        end), s).

Definition rename_file (src dst : string) : M os Status := fun s =>
  let '(r, s) := sys_rename src dst s in
  (Ret (match r with
        | None => Status_OK
        | Some e => storage_error ("Failed to rename file: " +:+ e)
        end), s).

Definition AtomicRename (src dst : string) : M os Status :=
  let parent := parent_path dst in
  if str_empty parent then rename_file src dst
  else
    status ← CreateDirectories parent;
    if status_ok status then rename_file src dst else mret status.

Definition FileExists (path : string) (s : os) : bool := sys_is_regular path s.

Definition GetFileSize (path : string) (s : os) : Result Z :=
  match sys_stat_size path s with
  | SysOk n => Ok n
  | SysErr e => Err (storage_error ("Failed to get file size: " +:+ e))
  | SysEintr => Err (storage_error "Failed to get file size: Interrupted system call")
  end.
End filesystem.
