(* ===== verification/TempFiles.v ===== *)
(** * Temporary files (src/src/util/fs.h, .cpp: [TempFile])

    An object owns a descriptor and a path; it can be moved, released and closed,
    and its destructor closes and removes what it still owns. The objects of a
    program with the descriptors and the files behind them, as a step relation. *)
From S2P Require Import Prelude FileSys.

(** [path_], empty when there is none, and [fd_], [None] for -1. *)
Record TempFile : Type := MkTempFile { tf_path : string; tf_fd : option Z }.

Definition moved_from : TempFile := MkTempFile "" None.

(** The objects by name, the open descriptors, the files in place, and the paths
    that [Release] gave away. *)
Record Temps : Type := MkTemps {
  tp_objects : gmap nat TempFile;
  tp_open : gset Z;
  tp_files : gset string;
  tp_released : gset string
}.

Definition no_temps : Temps := MkTemps ∅ ∅ ∅ ∅.

Section operations.
Implicit Types (s : Temps) (t : TempFile).

(** [if (fd_ >= 0) ::close(fd_); if (!path_.empty()) ::unlink(path_);] *)
Definition dispose t s : Temps :=
  MkTemps (tp_objects s)
    (match tf_fd t with Some fd => tp_open s ∖ {[fd]} | None => tp_open s end)
    (if str_empty (tf_path t) then tp_files s else tp_files s ∖ {[tf_path t]}) (tp_released s).

Definition set_object (id : nat) t s : Temps :=
  MkTemps (<[id := t]> (tp_objects s)) (tp_open s) (tp_files s) (tp_released s).

(** The constructor, once the directory is made: [::open] with [O_CREAT] and
    [O_EXCL] of the name made of the prefix and a UUID has returned [fd]. *)
Definition construct (id : nat) (dir prefix uuid : string) (fd : Z) s : Temps :=
  let path := JoinPath dir (prefix +:+ uuid) in
  MkTemps (<[id := MkTempFile path (Some fd)]> (tp_objects s)) ({[fd]} ∪ tp_open s) ({[path]} ∪ tp_files s) (tp_released s).

Definition destroy (id : nat) s : Temps :=
  match tp_objects s !! id with
  | Some t =>
      let s' := dispose t s in
      MkTemps (delete id (tp_objects s')) (tp_open s') (tp_files s') (tp_released s')
  | None => s
  end.

(** The move constructor. *)
Definition move_construct (id other : nat) s : Temps :=
  match tp_objects s !! other with
  | Some t => set_object other moved_from (set_object id t s)
  | None => s
  end.

(** The move assignment: nothing for [this == &other]. *)
Definition move_assign (id other : nat) s : Temps :=
  if (id =? other)%nat then s
  else
    match tp_objects s !! id, tp_objects s !! other with
    | Some t, Some t' => set_object other moved_from (set_object id t' (dispose t s))
    | _, _ => s
    end.

(** [Release]: the path goes to the caller, the descriptor stays. *)
Definition Release (id : nat) s : string * Temps :=
  match tp_objects s !! id with
  | Some t =>
      let s' := set_object id (MkTempFile "" (tf_fd t)) s in
      (tf_path t, MkTemps (tp_objects s') (tp_open s') (tp_files s')
                    (if str_empty (tf_path t) then tp_released s' else {[tf_path t]} ∪ tp_released s'))
  | None => ("", s)
  end.

Definition Close (id : nat) s : Temps :=
  match tp_objects s !! id with
  | Some t =>
      match tf_fd t with
      | Some fd => let s' := set_object id (MkTempFile (tf_path t) None) s in
                   MkTemps (tp_objects s') (tp_open s' ∖ {[fd]}) (tp_files s') (tp_released s')
      | None => s
      end
  | None => s
  end.

(** What a program does with its objects. A name is new when an object is built;
    the descriptor was not open, and the file not in place. *)
Inductive temp_step s : Temps -> Prop :=
  | Step_construct id dir prefix uuid fd :
      tp_objects s !! id = None -> fd ∉ tp_open s -> JoinPath dir (prefix +:+ uuid) <> "" ->
      JoinPath dir (prefix +:+ uuid) ∉ tp_files s -> temp_step s (construct id dir prefix uuid fd s)
  | Step_destroy id : temp_step s (destroy id s)
  | Step_move_construct id other : tp_objects s !! id = None -> temp_step s (move_construct id other s)
  | Step_move_assign id other : temp_step s (move_assign id other s)
  | Step_release id : temp_step s (snd (Release id s))
  | Step_close id : temp_step s (Close id s).
End operations.

(** ** Ownership *)

(** A resource of an object, if it has one: its descriptor or its path. *)
Definition fd_of (t : TempFile) : option Z := tf_fd t.
Definition path_of (t : TempFile) : option string := if str_empty (tf_path t) then None else Some (tf_path t).

Section ownership.
Context {R : Type} `{HR : Countable R} (f : TempFile -> option R).
Implicit Types (m : gmap nat TempFile) (X : gset R).

(** Every resource of [X] has one owner, and the objects own nothing else. *)
Record owns m X : Prop := MkOwns {
  owned x : x ∈ X <-> exists id t, m !! id = Some t /\ f t = Some x;
  owned_once id1 id2 t1 t2 x :
    m !! id1 = Some t1 -> m !! id2 = Some t2 -> f t1 = Some x -> f t2 = Some x -> id1 = id2
}.

Definition opt_set (o : option R) : gset R := match o with Some x => {[x]} | None => ∅ end.

Lemma owns_empty : owns ∅ ∅.
Proof. split; [set_solver|done]. Qed.

Lemma owns_add m X id t :
  m !! id = None -> (forall x, f t = Some x -> x ∉ X) -> owns m X -> owns (<[id := t]> m) (opt_set (f t) ∪ X).
Proof.
  intros Hid Hx [Ho H1]. assert (Hnew : forall id' t' x, m !! id' = Some t' -> f t' = Some x -> f t <> Some x).
  { intros id' t' x Hl Hf Ht. apply (Hx x Ht), Ho. eauto. }
  split.
  - intros x. rewrite elem_of_union, Ho. split.
    + intros [Hl|(id' & t' & Hl & Hf)].
      * exists id, t. rewrite lookup_insert_eq. destruct (f t); cbn in *; set_solver.
      * exists id', t'. split; [|done]. apply lookup_insert_Some. right. split; [congruence|done].
    + intros (id' & t' & [[<- <-]|[_ Hl]]%lookup_insert_Some & Hf); [left; rewrite Hf; set_solver|right; eauto].
  - intros id1 id2 t1 t2 x [[<- <-]|[N1 L1]]%lookup_insert_Some [[<- <-]|[N2 L2]]%lookup_insert_Some F1 F2.
    + done.
    + by destruct (Hnew _ _ _ L2 F2).
    + by destruct (Hnew _ _ _ L1 F1).
    + by eapply H1.
Qed.

Lemma owns_delete m X id t :
  m !! id = Some t -> owns m X -> owns (delete id m) (X ∖ opt_set (f t)).
Proof.
  intros Hid [Ho H1]. split.
  - intros x. rewrite elem_of_difference, Ho. split.
    + intros [(id' & t' & Hl & Hf) Hn]. exists id', t'. split; [|done]. apply lookup_delete_Some. split; [|done].
      intros <-. rewrite Hid in Hl. injection Hl as <-. apply Hn. rewrite Hf. cbn. set_solver.
    + intros (id' & t' & [Hne Hl]%lookup_delete_Some & Hf). split; [eauto|]. intros Hx.
      assert (Hft : f t = Some x) by (destruct (f t); cbn in Hx; set_solver). apply Hne. by eapply H1.
  - intros id1 id2 t1 t2 x [_ L1]%lookup_delete_Some [_ L2]%lookup_delete_Some. by apply H1.
Qed.

Lemma owns_in m X id t : m !! id = Some t -> owns m X -> opt_set (f t) ⊆ X.
Proof. intros Hid [Ho _]. destruct (f t) as [x|] eqn:E; cbn; [|set_solver]. apply singleton_subseteq_l, Ho. eauto. Qed.

(** Another object takes the place of [t] and what it owned. *)
Lemma owns_replace m X id t t' :
  m !! id = Some t -> f t' = f t -> owns m X -> owns (<[id := t']> m) X.
Proof.
  intros Hid Hf Ho. pose proof (owns_in _ _ _ _ Hid Ho) as Hin.
  rewrite <-insert_delete_eq. replace X with (opt_set (f t') ∪ X ∖ opt_set (f t)).
  - apply owns_add; [apply lookup_delete_eq| |by apply owns_delete]. intros x Hx. rewrite Hf in Hx. rewrite Hx. set_solver.
  - rewrite Hf. apply set_eq. intros x. destruct (decide (x ∈ opt_set (f t))); set_solver.
Qed.

(** An object that owns nothing any more. *)
Lemma owns_clear m X id t t' :
  m !! id = Some t -> f t' = None -> owns m X -> owns (<[id := t']> m) (X ∖ opt_set (f t)).
Proof.
  intros Hid Hf Ho. rewrite <-insert_delete_eq.
  replace (X ∖ opt_set (f t)) with (opt_set (f t') ∪ X ∖ opt_set (f t)) by (rewrite Hf; set_solver).
  apply owns_add; [apply lookup_delete_eq|by rewrite Hf|by apply owns_delete].
Qed.

(** A move between two objects: the target is new, or has been cleared. *)
Lemma owns_move m X id other t t0 :
  m !! other = Some t -> id <> other -> f t0 = None -> (forall t', m !! id = Some t' -> f t' = None) ->
  owns m X -> owns (<[other := t0]> (<[id := t]> m)) X.
Proof.
  intros Ho Hne Ht0 Hid Hw. pose proof (owns_in _ _ _ _ Ho Hw) as Hin.
  assert (Hclear : owns (delete id (<[other := t0]> m)) (X ∖ opt_set (f t))).
  { pose proof (owns_clear _ _ _ _ t0 Ho Ht0 Hw) as Hc. destruct (m !! id) as [t'|] eqn:E.
    - replace (X ∖ opt_set (f t)) with ((X ∖ opt_set (f t)) ∖ opt_set (f t')) by (rewrite (Hid t' eq_refl); set_solver).
      apply owns_delete; [by rewrite lookup_insert_ne|done].
    - rewrite delete_id; [done|by rewrite lookup_insert_ne]. }
  rewrite insert_insert_ne, <-insert_delete_eq by done.
  replace X with (opt_set (f t) ∪ X ∖ opt_set (f t)).
  - apply owns_add; [apply lookup_delete_eq| |done]. intros x Hx. rewrite Hx. set_solver.
  - apply set_eq. intros x. destruct (decide (x ∈ opt_set (f t))); set_solver.
Qed.
End ownership.

(** ** The invariant *)

Record temps_ok (s : Temps) : Prop := MkTempsOk {
  to_fds : owns fd_of (tp_objects s) (tp_open s);
  to_paths : owns path_of (tp_objects s) (tp_files s ∖ tp_released s);
  to_released : tp_released s ⊆ tp_files s
}.

Lemma no_temps_ok : temps_ok no_temps.
Proof. split; [apply owns_empty| |done]. replace (_ ∖ _) with (∅ : gset string) by set_solver. apply owns_empty. Qed.

Section steps.
Implicit Types (s : Temps) (t : TempFile).

(** Disposing of an object that is then gone or replaced by one that owns nothing. *)
Lemma dispose_fds t s : tp_open (dispose t s) = tp_open s ∖ opt_set (fd_of t).
Proof. unfold dispose, fd_of. cbn. destruct (tf_fd t); cbn; set_solver. Qed.

Lemma dispose_paths id t s :
  temps_ok s -> tp_objects s !! id = Some t ->
  tp_files (dispose t s) ∖ tp_released s = (tp_files s ∖ tp_released s) ∖ opt_set (path_of t) /\
  tp_released s ⊆ tp_files (dispose t s).
Proof.
  intros [_ Hp Hr] Hid. pose proof (owns_in _ _ _ _ _ Hid Hp) as Hin. unfold dispose, path_of in *. cbn.
  destruct (str_empty (tf_path t)); cbn in *; set_solver.
Qed.

Lemma construct_ok id dir prefix uuid fd s :
  tp_objects s !! id = None -> fd ∉ tp_open s -> JoinPath dir (prefix +:+ uuid) <> "" ->
  JoinPath dir (prefix +:+ uuid) ∉ tp_files s -> temps_ok s -> temps_ok (construct id dir prefix uuid fd s).
Proof.
  intros Hid Hfd Hne Hp [H1 H2 H3]. unfold construct. set (path := JoinPath _ _) in *. split; cbn.
  - apply (owns_add fd_of _ _ id (MkTempFile path (Some fd))); [done| |done]. by intros x [= <-].
  - apply str_empty_false in Hne.
    replace (({[path]} ∪ tp_files s) ∖ tp_released s) with (opt_set (path_of (MkTempFile path (Some fd))) ∪ tp_files s ∖ tp_released s).
    + apply owns_add; [done| |done]. unfold path_of. cbn. rewrite Hne. intros x [= <-]. set_solver.
    + unfold path_of. cbn. rewrite Hne. cbn. set_solver.
  - set_solver.
Qed.

Lemma destroy_ok id s : temps_ok s -> temps_ok (destroy id s).
Proof.
  intros Hs. unfold destroy. destruct (tp_objects s !! id) as [t|] eqn:E; [|done].
  destruct (dispose_paths id t s Hs E) as [Ep Hr]. destruct Hs as [H1 H2 H3]. split.
  - cbn [tp_objects tp_open]. rewrite dispose_fds. by apply owns_delete.
  - cbn [tp_objects tp_files tp_released]. change (tp_released (dispose t s)) with (tp_released s). rewrite Ep. by apply owns_delete.
  - exact Hr.
Qed.

Lemma move_construct_ok id other s :
  tp_objects s !! id = None -> temps_ok s -> temps_ok (move_construct id other s).
Proof.
  intros Hid [H1 H2 H3]. unfold move_construct. destruct (tp_objects s !! other) as [t|] eqn:E; [|done].
  assert (Hne : id <> other) by congruence.
  split; cbn; [by apply owns_move; try done; rewrite Hid..|done].
Qed.

Lemma move_assign_ok id other s : temps_ok s -> temps_ok (move_assign id other s).
Proof.
  intros Hs. unfold move_assign. destruct (Nat.eqb_spec id other) as [|Hne]; [done|].
  destruct (tp_objects s !! id) as [t|] eqn:E; [|done]. destruct (tp_objects s !! other) as [t'|] eqn:E'; [|done].
  destruct (dispose_paths id t s Hs E) as [Ep Hr]. destruct Hs as [H1 H2 H3].
  assert (Hcl : forall {R} `{Countable R} (f : TempFile -> option R) X, f moved_from = None -> owns f (tp_objects s) X ->
    owns f (<[other := moved_from]> (<[id := t']> (tp_objects s))) (X ∖ opt_set (f t))).
  { intros R ? ? f X Hf Ho. pose proof (owns_clear f _ _ id t moved_from E Hf Ho) as Hc.
    rewrite <-(insert_insert_eq (tp_objects s) id t' moved_from).
    apply owns_move; [by rewrite lookup_insert_ne|done|done| |done]. intros t0. rewrite lookup_insert_eq. by intros [= <-]. }
  split; cbn [tp_objects tp_open tp_files tp_released set_object].
  - rewrite dispose_fds. by apply Hcl.
  - change (tp_released (dispose t s)) with (tp_released s). rewrite Ep. by apply Hcl.
  - exact Hr.
Qed.

Lemma release_ok id s : temps_ok s -> temps_ok (snd (Release id s)).
Proof.
  intros [H1 H2 H3]. unfold Release. destruct (tp_objects s !! id) as [t|] eqn:E; [|done]. cbn.
  pose proof (owns_in _ _ _ _ _ E H2) as Hin. pose proof (owns_clear path_of _ _ id t (MkTempFile "" (tf_fd t)) E eq_refl H2) as Hc.
  unfold path_of at 2 in Hc. unfold path_of in Hin. split; cbn.
  - by apply (owns_replace fd_of _ _ id t).
  - destruct (str_empty (tf_path t)); cbn in *.
    + replace (tp_files s ∖ tp_released s) with ((tp_files s ∖ tp_released s) ∖ ∅) by set_solver. exact Hc.
    + replace (tp_files s ∖ ({[tf_path t]} ∪ tp_released s)) with ((tp_files s ∖ tp_released s) ∖ {[tf_path t]}) by set_solver. exact Hc.
  - destruct (str_empty (tf_path t)); cbn in *; set_solver.
Qed.

Lemma temp_close_ok id s : temps_ok s -> temps_ok (Close id s).
Proof.
  intros [H1 H2 H3]. unfold Close. destruct (tp_objects s !! id) as [t|] eqn:E; [|done].
  destruct (tf_fd t) as [fd|] eqn:Ef; [|done]. split; cbn; [| |done].
  - pose proof (owns_clear fd_of _ _ id t (MkTempFile (tf_path t) None) E eq_refl H1) as Hc.
    unfold fd_of at 2 in Hc. by rewrite Ef in Hc.
  - by apply (owns_replace path_of _ _ id t).
Qed.

Lemma temp_step_ok s s' : temps_ok s -> temp_step s s' -> temps_ok s'.
Proof. destruct 2; eauto using construct_ok, destroy_ok, move_construct_ok, move_assign_ok, release_ok, temp_close_ok. Qed.
End steps.

(** Temporary files do not leak and are not closed or removed twice: whatever a
    program does with its objects, every open descriptor and every file that was not
    released has one owner, and when the last object is destroyed no descriptor is
    open and no file is left but those that were released. *)
Theorem temp_files_sound s :
  rtc temp_step no_temps s ->
  owns fd_of (tp_objects s) (tp_open s) /\ owns path_of (tp_objects s) (tp_files s ∖ tp_released s) /\
  (tp_objects s = ∅ -> tp_open s = ∅ /\ tp_files s = tp_released s).
Proof.
  intros Hr. assert (Hok : temps_ok s).
  { eapply (rtc_ind_r temps_ok); [exact no_temps_ok| |exact Hr]. intros s1 s2 _ Hst Hok. by eapply temp_step_ok. }
  destruct Hok as [H1 H2 H3]. split_and!; [done..|]. intros He. rewrite He in H1, H2.
  assert (Hempty : forall {R} `{Countable R} (f : TempFile -> option R) (X : gset R), owns f ∅ X -> X = ∅).
  { intros R ? ? f X [Ho _]. apply elem_of_equiv_empty_L. intros x (id & t & Hl & _)%Ho. by rewrite lookup_empty in Hl. }
  apply Hempty in H1, H2. split; [done|].
  apply set_eq. intros x. split; [|apply H3]. intros Hx. destruct (decide (x ∈ tp_released s)) as [|Hn]; [done|].
  assert (Hd : x ∈ tp_files s ∖ tp_released s) by by apply elem_of_difference. rewrite H2 in Hd. by apply not_elem_of_empty in Hd.
Qed.

(** A file is moved to another object, released there and its objects destroyed. *)
Lemma temp_files_sound_witness :
  exists s, tp_open s = ∅ /\ tp_files s = tp_released s /\ tp_released s = {["/tmp/up_1"]}.
Proof.
  pose (s1 := construct 0 "/tmp" "up_" "1" 7 no_temps).
  pose (s2 := move_construct 1 0 s1). pose (s3 := snd (Release 1 s2)).
  pose (s4 := destroy 0 (destroy 1 s3)). exists s4.
  destruct (temp_files_sound s4) as (_ & _ & D).
  - eapply rtc_l; [apply (Step_construct _ 0 "/tmp" "up_" "1" 7); [done|apply not_elem_of_empty|done|apply not_elem_of_empty]|].
    eapply rtc_l; [by apply (Step_move_construct _ 1 0)|]. eapply rtc_l; [apply (Step_release _ 1)|].
    eapply rtc_l; [apply (Step_destroy _ 1)|]. apply rtc_once, (Step_destroy _ 0).
  - assert (Hobj : tp_objects s4 = ∅) by reflexivity. destruct (D Hobj) as [E1 E2].
    split; [exact E1|]. split; [exact E2|]. reflexivity.
Defined.
