(* ===== verification/Paths.v ===== *)
(** * Paths and directories (src/src/util/fs.h, .cpp)

    The helpers of [FileSystem] that the data store does not use: directories, free
    space, and the test that a path stays below a directory, with what that test
    accepts. The canonical form of a path and the directory calls are parameters. *)
From S2P Require Import Prelude Status FileSys.

(** [weakly_canonical] may throw; [statvfs] returns [f_bavail] and [f_frsize]. *)
Class PosixDirs `{Posix} : Type := {
  sys_remove_all : string -> os -> option string * os;
  sys_is_directory : string -> os -> bool;
  sys_statvfs : string -> os -> sys_result (Z * Z);
  weakly_canonical : string -> os -> exn string
}.

Section filesystem.
Context `{PosixDirs}.

Definition RemoveDirectory (path : string) : M os Status := fun s =>
  let '(r, s) := sys_remove_all path s in
  (Ret (match r with
        | None => Status_OK
        | Some what => storage_error ("Failed to remove directory: " +:+ what)
        end), s).

Definition DirectoryExists (path : string) (s : os) : bool := sys_is_directory path s.

(** The product is a [size_t]. *)
Definition GetAvailableSpace (path : string) (s : os) : Result Z :=
  match sys_statvfs path s with
  | SysOk (bavail, frsize) => Ok (u64 (u64 bavail * frsize))
  | SysErr e => Err (storage_error ("Failed to get available space: " +:+ e))
  | SysEintr => Err (storage_error "Failed to get available space: Interrupted system call")
  end.

(** [full_str.compare(0, base_str.length(), base_str) == 0]. *)
Definition compare_prefix (full base : string) : bool :=
  String.eqb (str_take (String.length base) full) base.

Definition IsPathSafe (base_path path : string) (s : os) : exn bool :=
  base_str ← weakly_canonical base_path s;
  full_str ← weakly_canonical (JoinPath base_path path) s;
  if (String.length full_str <? String.length base_str)%nat then Ret false
  else Ret (compare_prefix full_str base_str).

Definition NormalizePath (path : string) (s : os) : exn string := weakly_canonical path s.
End filesystem.

(** ** What the test accepts *)

(** A canonical path from its components. *)
Fixpoint path_text (l : list string) : string :=
  match l with
  | [] => ""
  | c :: l => "/" +:+ c +:+ path_text l
  end.

(** A component is a nonempty name without a slash. *)
Definition component (c : string) : Prop := c <> "" /\ str_free "/" c = true.

Lemma compare_prefix_true full base :
  compare_prefix full base = true <-> exists rest, full = base +:+ rest.
Proof.
  unfold compare_prefix. rewrite String.eqb_eq. split.
  - intros E. exists (str_drop (String.length base) full). rewrite <-E at 1. symmetry. apply str_take_drop.
  - intros [rest ->]. by rewrite str_take_app.
Qed.

Lemma path_text_app a b : path_text (a ++ b) = path_text a +:+ path_text b.
Proof. induction a as [|c a IH]; [done|]. cbn [path_text app]. by rewrite IH, !str_app_assoc. Qed.

(** A name is followed by a slash or by nothing. *)
Lemma first_component c x rest :
  str_free "/" c = true -> str_free "/" x = true ->
  forall l, x +:+ path_text l = c +:+ rest ->
  (exists ext, x = c +:+ ext /\ rest = ext +:+ path_text l).
Proof.
  revert x. induction c as [|a c IH]; intros x Hc Hx l E; [by exists x|].
  rewrite str_free_cons in Hc. apply andb_true_iff in Hc as [Ha Hc].
  destruct x as [|b x].
  - exfalso. destruct l as [|d l]; cbn in E; [done|]. injection E as <- _. done.
  - rewrite str_free_cons in Hx. apply andb_true_iff in Hx as [_ Hx]. cbn in E. injection E as <- E.
    destruct (IH x Hc Hx l E) as (ext & -> & ->). by exists ext.
Qed.

Lemma prefix_components base : forall full,
  Forall component base -> Forall component full ->
  (exists rest, path_text full = path_text base +:+ rest) <->
  (base = [] \/ exists pre c ext more, base = pre ++ [c] /\ full = pre ++ (c +:+ ext) :: more).
Proof.
  induction base as [|b base IH]; intros full Hb Hf.
  { split; [by left|]. intros _. by exists (path_text full). }
  apply Forall_cons in Hb as [[Hne Hb] Hbs]. split.
  - intros [rest E]. right. destruct full as [|f full]; [done|].
    apply Forall_cons in Hf as [[_ Hf] Hfs]. cbn [path_text] in E. injection E as E. rewrite str_app_assoc in E.
    destruct (first_component b f (path_text base +:+ rest) Hb Hf full E) as (ext & -> & E2).
    destruct base as [|b2 base].
    + by exists [], b, ext, full.
    + destruct ext as [|a ext].
      * destruct (proj1 (IH full Hbs Hfs)) as [|(pre & c & x & more & -> & ->)]; [by exists rest|done|].
        exists (b :: pre), c, x, more. by rewrite str_app_nil_r.
      * exfalso. cbn in E2. injection E2 as <- _. rewrite str_free_app, str_free_cons in Hf.
        by rewrite andb_false_r in Hf.
  - intros [|(pre & c & ext & more & -> & ->)]; [done|].
    exists (ext +:+ path_text more). rewrite !path_text_app. cbn. by rewrite !str_app_assoc, str_app_nil_r.
Qed.

Section safety.
Context `{HX : Posix} {HD : PosixDirs}.
Implicit Types (s : os).

(** What the path test accepts, on canonical paths given by their components:
    the paths below the base directory, and, with it, those below a sibling whose
    name only begins with the base's name. *)
Theorem path_safe_accepts base path s lb lf :
  Forall component lb -> Forall component lf -> lb <> [] ->
  weakly_canonical base s = Ret (path_text lb) ->
  weakly_canonical (JoinPath base path) s = Ret (path_text lf) ->
  IsPathSafe base path s = Ret true <->
  exists pre c ext more, lb = pre ++ [c] /\ lf = pre ++ (c +:+ ext) :: more.
Proof.
  intros Hb Hf Hne Eb Ef. unfold IsPathSafe. rewrite Eb, Ef. cbn [mbind exn_bind].
  assert (Hp : (exists rest, path_text lf = path_text lb +:+ rest) <->
    exists pre c ext more, lb = pre ++ [c] /\ lf = pre ++ (c +:+ ext) :: more).
  { rewrite (prefix_components lb lf Hb Hf). split; [by intros [|?]|by right]. }
  rewrite <-Hp, <-compare_prefix_true.
  destruct (Nat.ltb_spec (String.length (path_text lf)) (String.length (path_text lb))) as [Hl|Hl]; [|split; congruence].
  split; [done|]. intros [rest E]%compare_prefix_true. rewrite E, str_length_app in Hl. lia.
Qed.
End safety.

(** ** Witness *)

(** Canonical forms without symbolic links, for paths that are given with [..] at
    one place only. *)
Definition toy_canonical (p : string) : exn string :=
  if String.eqb p "/data/cas/../cas2/x" then Ret "/data/cas2/x" else Ret p.

#[local] Instance toy_dirs `{HX : Posix} : PosixDirs := {|
  sys_remove_all _ s := (None, s);
  sys_is_directory _ _ := true;
  sys_statvfs _ _ := SysOk (1, 4096)%Z;
  weakly_canonical p _ := toy_canonical p
|}.

(** [../cas2/x] passes the test for the base [/data/cas]. *)
Lemma path_safe_accepts_witness `{HX : Posix} (s : os) : IsPathSafe "/data/cas" "../cas2/x" s = Ret true.
Proof.
  apply (path_safe_accepts _ _ s ["data"; "cas"] ["data"; "cas2"; "x"]).
  - repeat constructor; done.
  - repeat constructor; done.
  - discriminate.
  - reflexivity.
  - reflexivity.
  - exists ["data"], "cas", "2", ["x"]. split; reflexivity.
Defined.
