(* ===== verification/DataStore.v ===== *)
(** * Content-addressed storage (src/src/storage/cas_layout.h, .cpp and
    data_store.h, .cpp)

    The layout of content keys on disk, write sessions, and the operations of
    the data store as computations over the file system. Loops around system
    calls run on fuel: a step either makes progress in the data or uses up one of
    the interruptions still to come, so [length data + os_patience] is enough. *)
From S2P Require Import Prelude Status Crypto Uuid FileSys.

(** ** CasLayout *)

Definition GetCasDir (base_dir cas_key : string) : string :=
  if (String.length cas_key <? 4)%nat then JoinPath base_dir "cas/00/00"
  else JoinPath (JoinPath (JoinPath base_dir "cas") (substr cas_key 0 2)) (substr cas_key 2 2).

Definition GetCasPath (base_dir cas_key : string) : string :=
  JoinPath (GetCasDir base_dir cas_key) (cas_key +:+ ".blob").

Definition IsValidCasKey (cas_key : string) : bool :=
  (String.length cas_key =? 64)%nat && str_all is_hex cas_key.

(** ** Sync modes *)

Inductive SyncMode : Type := FSYNC | FDATASYNC | NONE.

Definition ParseSyncMode (mode : string) : SyncMode :=
  if String.eqb mode "none" then NONE
  else if String.eqb mode "fdatasync" then FDATASYNC
  else FSYNC.

Definition SyncModeToString (mode : SyncMode) : string :=
  match mode with FSYNC => "fsync" | FDATASYNC => "fdatasync" | NONE => "none" end.

(** ** Write sessions *)

Record WriteSession : Type := MkSession {
  ws_tmp_path : string;
  ws_fd_open : bool;
  ws_bytes_written : Z;
  ws_sha256_ctx : SHA256Context;
  ws_finished : bool
}.

Definition new_session (tmp_path : string) : WriteSession :=
  MkSession tmp_path true 0 new_context false.

(** The data directory, the temporary directory and the sync mode. *)
Record StoreConfig : Type := MkConfig { base_dir_ : string; tmp_dir_ : string; sync_mode_ : SyncMode }.

Definition kChunk : nat := Z.to_nat 65536.

Definition out_of_fuel : string := "out of fuel".

Section datastore.
Context `{Posix, Digest} (cfg : StoreConfig).

Definition write_failed (e : string) : Status := storage_error ("Write failed: " +:+ e).
Definition read_failed (e : string) : Status := storage_error ("Read failed: " +:+ e).

Definition sys {A} (f : os -> A * os) : M os A := fun s => let '(a, s') := f s in (Ret a, s').

(** [while (written < len) ::write(..)], retrying on EINTR. *)
Fixpoint write_loop (fuel : nat) (path : string) (data : list ascii) : M os Status :=
  match data with
  | [] => mret Status_OK
  | _ =>
      match fuel with
      | O => lift_exn (Throw out_of_fuel)
      | S fuel =>
          r ← sys (sys_write path data);
          match r with
          | SysOk n => write_loop fuel path (drop n data)
          | SysEintr => write_loop fuel path data
          | SysErr e => mret (write_failed e)
          end
      end
  end.

Definition write_all (path : string) (data : list ascii) : M os Status := fun s =>
  write_loop (length data + os_patience s) path data s.

(** [WriteSession::Write]. *)
Definition session_Write (ws : WriteSession) (data : list ascii) : M os (Status * WriteSession) :=
  if ws_finished ws then mret (MkStatus InternalError "WriteSession already finished", ws)
  else
    st ← write_all (ws_tmp_path ws) data;
    if status_ok st
    then mret (st, MkSession (ws_tmp_path ws) (ws_fd_open ws)
                     (u64 (ws_bytes_written ws + Z.of_nat (length data)))
                     (Update (ws_sha256_ctx ws) data) false)
    else mret (st, ws).

(** [WriteSession::Finish]: a failed sync is only logged. *)
Definition Finish (sync_mode : SyncMode) (ws : WriteSession) : M os (Result string * WriteSession) :=
  if ws_finished ws
  then mret (Err (MkStatus InternalError "WriteSession already finished"), ws)
  else
    _ ← match sync_mode with
        | FSYNC => _ ← sys (sys_sync true (ws_tmp_path ws)); mret tt
        | FDATASYNC => _ ← sys (sys_sync false (ws_tmp_path ws)); mret tt
        | NONE => mret tt
        end;
    _ ← sys (fun s => (tt, sys_close (ws_tmp_path ws) s));
    mret (Ok (Final (ws_sha256_ctx ws)),
          MkSession (ws_tmp_path ws) false (ws_bytes_written ws) (ws_sha256_ctx ws) true).

(** [WriteSession::Abort], and the destructor that calls it. *)
Definition Abort_session (ws : WriteSession) : M os WriteSession :=
  _ ← (if ws_fd_open ws then sys (fun s => (tt, sys_close (ws_tmp_path ws) s)) else mret tt);
  _ ← (if str_empty (ws_tmp_path ws) then mret tt
       else _ ← sys (sys_unlink (ws_tmp_path ws)); mret tt);
  mret (MkSession "" false (ws_bytes_written ws) (ws_sha256_ctx ws) true).

Definition destroy_session (ws : WriteSession) : M os unit :=
  if negb (ws_finished ws) && ws_fd_open ws then _ ← Abort_session ws; mret tt else mret tt.

(** ** DataStore *)

Definition cas_path (cas_key : string) : string := GetCasPath (base_dir_ cfg) cas_key.
Definition GetFilePath (cas_key : string) : string := cas_path cas_key.

(** Runs the steps until one fails. *)
Fixpoint all_ok (steps : list (M os Status)) : M os Status :=
  match steps with
  | [] => mret Status_OK
  | m :: rest => st ← m; if status_ok st then all_ok rest else mret st
  end.

Definition Init : M os Status :=
  all_ok [ CreateDirectories (base_dir_ cfg);
           CreateDirectories (JoinPath (base_dir_ cfg) "cas");
           CreateDirectories (JoinPath (tmp_dir_ cfg) "upload");
           CreateDirectories (JoinPath (tmp_dir_ cfg) "merge");
           CreateDirectories (JoinPath (tmp_dir_ cfg) "multipart") ].

(** A fresh temporary file below [tmp_dir/sub]. *)
Definition create_temp (sub what : string) : M os (Result string) :=
  u ← sys os_uuid;
  let tmp_path := JoinPath (JoinPath (tmp_dir_ cfg) sub) (u +:+ ".part") in
  r ← sys (sys_create_excl tmp_path);
  mret (match r with
        | SysOk _ => Ok tmp_path
        | SysEintr => Err (storage_error (what +:+ "Interrupted system call"))
        | SysErr e => Err (storage_error (what +:+ e))
        end).

Definition BeginWrite : M os (Result WriteSession) :=
  r ← create_temp "upload" "Failed to create temp file: ";
  mret (new_session <$> r).

(** Moves a finished temporary file to its place unless the content is there
    already; [RemoveFile] of the temporary file on every other exit. *)
Definition place_file (tmp_path cas_key : string) : M os (Result string) :=
  let final_path := cas_path cas_key in
  exists_ ← (fun s => (Ret (FileExists final_path s), s));
  if exists_ : bool then _ ← RemoveFile tmp_path; mret (Ok cas_key)
  else
    status ← CreateDirectories (GetCasDir (base_dir_ cfg) cas_key);
    if negb (status_ok status) then _ ← RemoveFile tmp_path; mret (Err status)
    else
      status ← AtomicRename tmp_path final_path;
      if negb (status_ok status) then _ ← RemoveFile tmp_path; mret (Err status)
      else mret (Ok cas_key).

Definition CommitWrite (ws : WriteSession) (expected_sha256 : string) : M os (Result string) :=
  '(result, ws) ← Finish (sync_mode_ cfg) ws;
  match result with
  | Err st => mret (Err st)
  | Ok cas_key =>
      if negb (str_empty expected_sha256) && negb (String.eqb cas_key expected_sha256) then
        _ ← RemoveFile (ws_tmp_path ws);
        mret (Err (MkStatus ChecksumMismatch
                ("SHA256 mismatch: expected " +:+ expected_sha256 +:+ ", got " +:+ cas_key)))
      else place_file (ws_tmp_path ws) cas_key
  end.

(** [DataStore::Write]. *)
Definition Write (data : list ascii) : M os (Result string) :=
  session ← BeginWrite;
  match session with
  | Err st => mret (Err st)
  | Ok ws =>
      '(st, ws) ← session_Write ws data;
      if status_ok st then CommitWrite ws ""
      else _ ← destroy_session ws; mret (Err st)
  end.

Definition not_found (cas_key : string) : Status := MkStatus NoSuchKey ("CAS not found: " +:+ cas_key).

Definition close (path : string) : M os unit := sys (fun s => (tt, sys_close path s)).

(** [while (total_read < st_size) ::read(..)]: the bytes read. *)
Fixpoint read_loop (fuel : nat) (path : string) (total size : nat) : M os (Status + list ascii) :=
  if (size <=? total)%nat then mret (inr [])
  else match fuel with
  | O => lift_exn (Throw out_of_fuel)
  | S fuel =>
      r ← sys (sys_read path total (size - total));
      match r with
      | SysErr e => mret (inl (read_failed e))
      | SysEintr => read_loop fuel path total size
      | SysOk [] => mret (inr [])
      | SysOk d =>
          rest ← read_loop fuel path (total + length d) size;
          match rest with
          | inl e => mret (inl e)
          | inr k => mret (inr (d ++ k))
          end
      end
  end.

Definition Read (cas_key : string) : M os (Result (list ascii)) :=
  let path := cas_path cas_key in
  o ← sys (sys_open_read path);
  match o with
  | SysOk _ =>
      st ← sys (sys_fstat path);
      match st with
      | SysOk size =>
          r ← (fun s => read_loop (Z.to_nat size + os_patience s) path 0 (Z.to_nat size) s);
          _ ← close path;
          mret (match r with inl e => Err e | inr d => Ok d end)
      | SysEintr => _ ← close path; mret (Err (storage_error "Failed to stat file: Interrupted system call"))
      | SysErr e => _ ← close path; mret (Err (storage_error ("Failed to stat file: " +:+ e)))
      end
  | _ => mret (Err (not_found cas_key))
  end.

(** The bytes a file has left: the fuel of the loops that read to its end. *)
Definition file_fuel (path : string) (s : os) : nat :=
  S (match os_file s path with Some c => length c | None => 0 end + os_patience s).

(** The chunk loop of StreamRead at offset [off]; [length = 0] reads to the
    end, and the callback stops the loop by returning false. *)
Fixpoint stream_loop {C} (fuel : nat) (path : string) (off length remaining : nat)
    (callback : C -> list ascii -> bool * C) (c : C) : M os (Status * C) :=
  if (length =? 0)%nat || (0 <? remaining)%nat then
    match fuel with
    | O => lift_exn (Throw out_of_fuel)
    | S fuel =>
        let to_read := if (0 <? length)%nat && (remaining <? kChunk)%nat then remaining else kChunk in
        r ← sys (sys_read path off to_read);
        match r with
        | SysErr e => mret (read_failed e, c)
        | SysEintr => stream_loop fuel path off length remaining callback c
        | SysOk [] => mret (Status_OK, c)
        | SysOk d =>
            let '(go, c) := callback c d in
            if go : bool then
              stream_loop fuel path (off + List.length d) length
                (if (0 <? length)%nat then remaining - List.length d else remaining) callback c
            else mret (Status_OK, c)
        end
    end
  else mret (Status_OK, c).

Definition StreamRead {C} (cas_key : string) (offset length : nat)
    (callback : C -> list ascii -> bool * C) (c : C) : M os (Status * C) :=
  let path := cas_path cas_key in
  o ← sys (sys_open_read path);
  match o with
  | SysOk _ =>
      k ← (if (0 <? offset)%nat then sys (sys_seek path (Z.of_nat offset)) else mret (SysOk tt));
      match k with
      | SysOk _ =>
          r ← (fun s => stream_loop (file_fuel path s) path offset length length callback c s);
          _ ← close path; mret r
      | SysEintr => _ ← close path; mret (storage_error "Seek failed: Interrupted system call", c)
      | SysErr e => _ ← close path; mret (storage_error ("Seek failed: " +:+ e), c)
      end
  | _ => mret (not_found cas_key, c)
  end.

Definition Exists (cas_key : string) (s : os) : bool := FileExists (cas_path cas_key) s.
Definition GetSize (cas_key : string) (s : os) : Result Z := GetFileSize (cas_path cas_key) s.
Definition Delete (cas_key : string) : M os Status := RemoveFile (cas_path cas_key).

(** Copies the rest of [src] to the end of [dst], feeding the digest: the error
    that stopped it, or the digest context and the bytes copied. *)
Fixpoint copy_loop (fuel : nat) (src dst : string) (off : nat) (ctx : SHA256Context) (total : Z)
    : M os (Status + SHA256Context * Z) :=
  match fuel with
  | O => lift_exn (Throw out_of_fuel)
  | S fuel =>
      r ← sys (sys_read src off kChunk);
      match r with
      | SysErr e => mret (inl (read_failed e))
      | SysEintr => copy_loop fuel src dst off ctx total
      | SysOk [] => mret (inr (ctx, total))
      | SysOk d =>
          st ← write_all dst d;
          if status_ok st
          then copy_loop fuel src dst (off + length d) (Update ctx d) (u64 (total + Z.of_nat (length d)))
          else mret (inl st)
      end
  end.

(** The loop over the contents to merge; a source that cannot be opened or
    read ends it. *)
Fixpoint merge_loop (tmp_path : string) (cas_keys : list string) (ctx : SHA256Context) (total : Z)
    : M os (Status + SHA256Context * Z) :=
  match cas_keys with
  | [] => mret (inr (ctx, total))
  | cas_key :: rest =>
      let src_path := cas_path cas_key in
      o ← sys (sys_open_read src_path);
      match o with
      | SysOk _ =>
          r ← (fun s => copy_loop (file_fuel src_path s) src_path tmp_path 0 ctx total s);
          _ ← close src_path;
          match r with
          | inl e => mret (inl e)
          | inr (ctx, total) => merge_loop tmp_path rest ctx total
          end
      | _ => mret (inl (not_found cas_key))
      end
  end.

Definition Merge (cas_keys : list string) : M os (Result string) :=
  match cas_keys with
  | [] => mret (Err (MkStatus InvalidArgument "No CAS keys to merge"))
  | _ =>
      t ← create_temp "merge" "Failed to create merge file: ";
      match t with
      | Err st => mret (Err st)
      | Ok tmp_path =>
          r ← merge_loop tmp_path cas_keys new_context 0;
          match r with
          | inl e =>
              _ ← close tmp_path;
              _ ← sys (sys_unlink tmp_path);
              mret (Err e)
          | inr (ctx, _) =>
              _ ← sys (sys_sync true tmp_path);
              _ ← close tmp_path;
              place_file tmp_path (Final ctx)
          end
      end
  end.
End datastore.
