(* ===== verification/DataStoreSpec.v ===== *)
(** * The data store against its contract

    Stored contents hash to their keys, a write stores exactly its data under
    the digest of the data, a merge stores the concatenation of its sources, reads
    give back the bytes asked for, and no loop runs out of fuel. *)
From S2P Require Import Prelude Status Crypto FileSys DataStore.

Open Scope nat_scope.

(** ** Paths *)

Lemma join_suffix base sub : exists p, JoinPath base sub = p +:+ sub.
Proof.
  unfold JoinPath. repeat case_match; [by exists ""|by exists base|].
  exists (base +:+ "/"). by rewrite str_app_assoc.
Qed.

Lemma str_last_app a c b : str_last (a +:+ String c b) = str_last (String c b).
Proof.
  induction a as [|d a IH]; [done|]. cbn [String.append str_last]. rewrite IH.
  destruct a; done.
Qed.

Lemma join_last base sub c b :
  sub = c +:+ b -> b <> "" -> str_last (JoinPath base sub) = str_last b.
Proof.
  intros -> Hb. destruct (join_suffix base (c +:+ b)) as [p ->]. destruct b as [|d b]; [done|].
  by rewrite <-str_app_assoc, str_last_app.
Qed.

Lemma part_not_blob a u b k : JoinPath a (u +:+ ".part") <> JoinPath b (k +:+ ".blob").
Proof.
  intros E. apply (f_equal str_last) in E.
  rewrite (join_last a _ u ".part"), (join_last b _ k ".blob") in E by done. done.
Qed.

Lemma str_app_inj_length a b c d :
  String.length a = String.length b -> a +:+ c = b +:+ d -> a = b /\ c = d.
Proof.
  revert b. induction a as [|x a IH]; intros [|y b]; cbn; try done.
  intros [= Hl] [= -> E]. by destruct (IH b Hl E) as [-> ->].
Qed.

Lemma str_app_inj_r a b c d :
  String.length c = String.length d -> a +:+ c = b +:+ d -> a = b /\ c = d.
Proof.
  intros Hl E. apply str_app_inj_length; [|done].
  apply (f_equal String.length) in E. rewrite !str_length_app in E. lia.
Qed.

(** Content paths determine the key, for keys of one length. *)
Lemma cas_path_inj base k1 k2 :
  String.length k1 = String.length k2 -> GetCasPath base k1 = GetCasPath base k2 -> k1 = k2.
Proof.
  intros Hl E. unfold GetCasPath in E.
  destruct (join_suffix (GetCasDir base k1) (k1 +:+ ".blob")) as [p1 E1].
  destruct (join_suffix (GetCasDir base k2) (k2 +:+ ".blob")) as [p2 E2].
  rewrite E1, E2 in E. apply str_app_inj_r in E as [_ E]; [|rewrite !str_length_app; lia].
  by apply str_app_inj_r in E as [E _].
Qed.

Lemma valid_key_length k : IsValidCasKey k = true -> String.length k = 64.
Proof. unfold IsValidCasKey. rewrite andb_true_iff. intros [E _]. by apply Nat.eqb_eq in E. Qed.

Lemma final_valid `{Digest} ctx : IsValidCasKey (Final ctx) = true.
Proof.
  unfold IsValidCasKey, Final. rewrite to_hex_length, to_hex_digits, sha256_length. done.
Qed.

Section store_spec.
Context `{HP : Posix, HD : Digest} `{HL : !PosixLaws} (cfg : StoreConfig).
Implicit Types (s : os).

Lemma same_files_refl s : same_files s s.
Proof. done. Qed.

Lemma same_files_trans s1 s2 s3 : same_files s1 s2 -> same_files s2 s3 -> same_files s1 s3.
Proof. intros A B p. by rewrite B, A. Qed.

Lemma same_but_trans q s1 s2 s3 : same_but q s1 s2 -> same_but q s2 s3 -> same_but q s1 s3.
Proof. intros A B p Hp. by rewrite B, A. Qed.

Lemma same_files_but q s1 s2 : same_files s1 s2 -> same_but q s1 s2.
Proof. intros A p _. apply A. Qed.

Lemma wp_sys {A} (f : os -> A * os) (Q : exn A -> os -> Prop) s :
  (forall a s', f s = (a, s') -> Q (Ret a) s') -> wp (sys f) Q s.
Proof. intros Hf. unfold wp, sys. destruct (f s) as [a s'] eqn:E. by apply Hf. Qed.

(** The store invariant: a content on disk hashes to the key it is filed under. *)
Definition cas_ok s : Prop :=
  forall k c, IsValidCasKey k = true -> os_file s (cas_path cfg k) = Some c -> Final c = k.

(** The contents filed under any key are as before. *)
Definition same_cas s s' : Prop := forall k, os_file s' (cas_path cfg k) = os_file s (cas_path cfg k).

Definition is_temp (p : string) : Prop := forall k, p <> cas_path cfg k.

Lemma same_but_cas q s s' : is_temp q -> same_but q s s' -> same_cas s s'.
Proof. intros Hq Hs k. apply Hs. intros E. by apply (Hq k). Qed.

Lemma same_files_cas s s' : same_files s s' -> same_cas s s'.
Proof. intros Hs k. apply Hs. Qed.

Lemma same_cas_trans s1 s2 s3 : same_cas s1 s2 -> same_cas s2 s3 -> same_cas s1 s3.
Proof. intros A B k. by rewrite B, A. Qed.

Lemma same_cas_ok s s' : same_cas s s' -> cas_ok s -> cas_ok s'.
Proof. intros Hs Hc k c Hk. rewrite Hs. by apply Hc. Qed.

(** ** Writing *)

Lemma wp_write_loop fuel path data c s :
  length data + os_patience s <= fuel -> os_file s path = Some c ->
  wp (write_loop fuel path data) (fun r s' => same_but path s s' /\ os_patience s' <= os_patience s /\
    exists st, r = Ret st /\ exists c', os_file s' path = Some c' /\
      (status_ok st = true -> c' = c ++ data)) s.
Proof.
  revert data c s. induction fuel as [|fuel IH]; intros data c s Hf Hc.
  { destruct data; [|cbn in Hf; lia]. cbn. apply wp_ret. split_and!; [done..|].
    eexists. split; [done|]. exists c. by rewrite app_nil_r. }
  destruct data as [|x data]; cbn [write_loop].
  { apply wp_ret. split_and!; [done..|]. eexists. split; [done|]. exists c. by rewrite app_nil_r. }
  apply wp_bind, wp_sys. intros r s' E.
  pose proof (write_law path (x :: data) s r s' ltac:(discriminate) E) as Hw.
  destruct r as [n| |e].
  - destruct Hw as (Hp & Hn & Hs & Hc'). specialize (Hc' _ Hc).
    eapply wp_mono; [apply (IH _ (c ++ take n (x :: data)) s'); [|done]|].
    { rewrite length_drop. cbn in *. lia. }
    intros r s2 (Hs2 & Hp2 & st & -> & c' & D1 & D2). split_and!; [by eapply same_but_trans|lia|].
    eexists. split; [done|]. exists c'. split; [done|]. intros Hst.
    rewrite (D2 Hst), <-app_assoc, take_drop. done.
  - destruct Hw as [Hp Hs]. eapply wp_mono; [apply (IH _ c s'); [cbn in *; lia|by rewrite Hs]|].
    intros r s2 (Hs2 & Hp2 & D). split_and!; [|lia|done].
    eapply same_but_trans; [by apply same_files_but|done].
  - destruct Hw as [Hp Hs]. apply wp_ret. split_and!; [by apply same_files_but|lia|].
    eexists. split; [done|]. exists c. split; [by rewrite Hs|]. done.
Qed.

Lemma wp_write_all path data c s :
  os_file s path = Some c ->
  wp (write_all path data) (fun r s' => same_but path s s' /\ os_patience s' <= os_patience s /\
    exists st, r = Ret st /\ exists c', os_file s' path = Some c' /\
      (status_ok st = true -> c' = c ++ data)) s.
Proof. intros Hc. unfold write_all, wp. apply (wp_write_loop _ _ _ c); [lia|done]. Qed.

(** A write of a session: the hash context and the file grow together unless the
    write fails. *)
Lemma wp_session_write ws data s :
  ws_finished ws = false -> os_file s (ws_tmp_path ws) = Some (ws_sha256_ctx ws) ->
  wp (session_Write ws data) (fun r s' => same_but (ws_tmp_path ws) s s' /\ exists st ws', r = Ret (st, ws') /\
    (status_ok st = true -> ws_tmp_path ws' = ws_tmp_path ws /\ ws_finished ws' = false /\
      ws_sha256_ctx ws' = ws_sha256_ctx ws ++ data /\ os_file s' (ws_tmp_path ws) = Some (ws_sha256_ctx ws ++ data))) s.
Proof.
  intros Hf Hc. unfold session_Write. rewrite Hf. apply wp_bind. eapply wp_mono; [by apply wp_write_all|].
  intros r s' (Hs & _ & st & -> & c' & Hc' & Hst). destruct (status_ok st) eqn:Es; apply wp_ret;
    (split; [done|]); eexists _, _; (split; [done|]); rewrite Es; [|done].
  intros _. rewrite Hc', (Hst eq_refl). done.
Qed.

Lemma temp_path_is_temp sub u :
  is_temp (JoinPath (JoinPath (tmp_dir_ cfg) sub) (u +:+ ".part")).
Proof. intros k. apply part_not_blob. Qed.

(** A fresh temporary file is empty and no content file. *)
Lemma wp_create_temp sub what s :
  wp (create_temp cfg sub what) (fun r s' => same_cas s s' /\ exists res, r = Ret res /\
    match res with
    | Ok p => is_temp p /\ os_file s' p = Some [] /\ p <> ""
    | Err _ => True
    end) s.
Proof.
  unfold create_temp. apply wp_bind, wp_sys. intros u s1 E1. apply wp_bind, wp_sys.
  intros r s2 E2. apply wp_ret. apply uuid_law in E1 as (_ & E1 & _). apply create_law in E2 as [_ E2].
  destruct r as [[]| |e].
  - destruct E2 as (D1 & D2 & D3). split.
    + eapply same_cas_trans; [by apply same_files_cas|].
      eapply same_but_cas; [apply (temp_path_is_temp sub u)|done].
    + eexists. split; [done|]. split_and!; [apply temp_path_is_temp|done|].
      destruct (join_suffix (JoinPath (tmp_dir_ cfg) sub) (u +:+ ".part")) as [p ->].
      destruct p; [|done]. by destruct u.
  - split; [|by eexists]. eapply same_cas_trans; by apply same_files_cas.
  - split; [|by eexists]. eapply same_cas_trans; by apply same_files_cas.
Qed.

(** Removing a temporary file. *)
Lemma wp_remove_temp p s :
  is_temp p -> wp (RemoveFile p) (fun r s' => same_cas s s' /\ exists st, r = Ret st) s.
Proof.
  intros Hp. unfold wp, RemoveFile. destruct (sys_unlink p s) as [r s'] eqn:E.
  apply unlink_law in E as [_ E]. cbn. split; [|eauto].
  destruct r; [destruct E as [_ E]; by eapply same_but_cas|destruct E; by apply same_files_cas|by apply same_files_cas].
Qed.

Lemma wp_mkdirs p s :
  wp (CreateDirectories p) (fun r s' => same_files s s' /\ exists st, r = Ret st) s.
Proof.
  unfold wp, CreateDirectories. destruct (sys_mkdirs p s) as [r s'] eqn:E.
  apply mkdirs_law in E as [_ E]. cbn. eauto.
Qed.

(** A rename that succeeds moves the file, one that fails moves nothing. *)
Lemma wp_rename a b s :
  a <> b ->
  wp (AtomicRename a b) (fun r s' => exists st, r = Ret st /\
    if status_ok st then os_file s' b = os_file s a /\ os_file s' a = None /\
                         (forall p, p <> a -> p <> b -> os_file s' p = os_file s p)
    else same_files s s') s.
Proof.
  intros Hab.
  assert (Hren : forall s1, same_files s s1 -> wp (rename_file a b) (fun r s' => exists st, r = Ret st /\
    if status_ok st then os_file s' b = os_file s a /\ os_file s' a = None /\
                         (forall p, p <> a -> p <> b -> os_file s' p = os_file s p)
    else same_files s s') s1).
  { intros s1 S1. unfold wp, rename_file. destruct (sys_rename a b s1) as [r s'] eqn:E.
    apply rename_law in E as [_ E]; [|done]. cbn. destruct r; cbn.
    - eexists. split; [done|]. cbn. by eapply same_files_trans.
    - eexists. split; [done|]. cbn. destruct E as (D1 & D2 & D3).
      split_and!; [by rewrite D1|done|]. intros p Hp1 Hp2. by rewrite D3. }
  unfold AtomicRename. destruct (str_empty (parent_path b)); [by apply Hren|].
  apply wp_bind. eapply wp_mono; [apply wp_mkdirs|]. intros r s1 [S1 [st ->]].
  destruct (status_ok st) eqn:Es; [by apply Hren|]. apply wp_ret. eexists. split; [done|].
  by rewrite Es.
Qed.

(** The outcome of storing the content [c] under its digest [key]. *)
Definition stored (key : string) (c : list ascii) s (r : exn (Result string)) s' : Prop :=
  cas_ok s' /\
  (forall k, IsValidCasKey k = true -> k <> key -> os_file s' (cas_path cfg k) = os_file s (cas_path cfg k)) /\
  exists res, r = Ret res /\
    match res with
    | Ok k => k = key /\ exists c', os_file s' (cas_path cfg key) = Some c' /\ Final c' = key /\
              (os_file s (cas_path cfg key) = None -> c' = c) /\
              (forall c0, os_file s (cas_path cfg key) = Some c0 -> c' = c0 \/ c' = c)
    | Err _ => os_file s' (cas_path cfg key) = os_file s (cas_path cfg key)
    end.

Lemma stored_err key c s s' e : cas_ok s -> IsValidCasKey key = true -> same_cas s s' ->
  stored key c s (Ret (Err e)) s'.
Proof.
  intros Hok Hk Hs. split; [by eapply same_cas_ok|]. split; [intros k Hv _; by apply Hs|].
  eexists. split; [done|]. by apply Hs.
Qed.

Lemma stored_after key c s s' r s'' :
  same_cas s s' -> IsValidCasKey key = true -> stored key c s' r s'' -> stored key c s r s''.
Proof.
  intros Hs Hk (D1 & D2 & res & -> & D3). split; [done|]. split; [intros k Hv Hne; by rewrite D2, Hs|].
  eexists. split; [done|]. by rewrite Hs in D3.
Qed.

Lemma wp_place_file tmp c s :
  let key := Final c in
  is_temp tmp -> os_file s tmp = Some c -> cas_ok s ->
  wp (place_file cfg tmp key) (stored key c s) s.
Proof.
  intros key Ht Hc Hok. pose proof (final_valid c : IsValidCasKey key = true) as Hv.
  unfold place_file. apply wp_bind. unfold wp at 1, FileExists. cbn [fst snd].
  destruct (sys_is_regular (cas_path cfg key) s) eqn:Ereg.
  - apply regular_law in Ereg as [c0 Hc0].
    apply wp_bind. eapply wp_mono; [by apply wp_remove_temp|]. intros r s' [S [st ->]].
    apply wp_ret. split; [by eapply same_cas_ok|]. split; [intros k Hk _; by apply S|].
    eexists. split; [done|]. split; [done|]. exists c0. rewrite S, Hc0 by done.
    split_and!; [done|by apply (Hok key)|done|]. intros c1 [= ->]. by left.
  - apply wp_bind. eapply wp_mono; [apply wp_mkdirs|]. intros r s1 [S1 [st ->]].
    assert (Hfail : forall s2 e, same_files s s2 ->
      wp (_ ← RemoveFile tmp; mret (Err e)) (stored key c s) s2).
    { intros s2 e S2. apply wp_bind. eapply wp_mono; [by apply wp_remove_temp|].
      intros r s3 [S3 [st' ->]]. apply wp_ret. apply stored_err; [done|done|].
      eapply same_cas_trans; [by apply same_files_cas|done]. }
    destruct (status_ok st); cbn [negb]; [|by apply Hfail].
    apply wp_bind. eapply wp_mono; [by apply wp_rename|]. intros r s2 [st2 [-> D]].
    destruct (status_ok st2); cbn [negb]; [|apply Hfail; by eapply same_files_trans].
    destruct D as (D1 & D2 & D3). rewrite S1, Hc in D1.
    assert (Hother : forall k, IsValidCasKey k = true -> k <> key ->
      os_file s2 (cas_path cfg k) = os_file s (cas_path cfg k)).
    { intros k Hk Hne. rewrite D3; [apply S1| |].
      - intros E. by apply (Ht k).
      - intros E. apply Hne. eapply cas_path_inj; [|exact E].
        by rewrite !valid_key_length. }
    apply wp_ret. split; [|split; [done|]].
    + intros k c1 Hk Hc1. destruct (decide (k = key)) as [->|Hne].
      * rewrite D1 in Hc1. injection Hc1 as <-. done.
      * rewrite Hother in Hc1 by done. by apply (Hok k).
    + eexists. split; [done|]. split; [done|]. exists c. split_and!; auto.
Qed.

Lemma wp_finish mode ws s :
  ws_finished ws = false ->
  wp (Finish mode ws) (fun r s' => same_files s s' /\
    r = Ret (Ok (Final (ws_sha256_ctx ws)),
             MkSession (ws_tmp_path ws) false (ws_bytes_written ws) (ws_sha256_ctx ws) true)) s.
Proof.
  intros Hf. unfold Finish. rewrite Hf. apply wp_bind.
  eapply (wp_mono _ (fun r s' => same_files s s' /\ r = Ret tt)).
  - destruct mode; [| |by apply wp_ret];
      (apply wp_bind, wp_sys; intros b s1 E; apply sync_law in E as [_ E]; by apply wp_ret).
  - intros r s1 [S1 ->]. apply wp_bind, wp_sys. intros [] s2 [= <-].
    apply wp_ret. split; [|done]. eapply same_files_trans; [done|apply close_law].
Qed.

Lemma wp_commit_write ws s :
  ws_finished ws = false -> is_temp (ws_tmp_path ws) -> cas_ok s ->
  os_file s (ws_tmp_path ws) = Some (ws_sha256_ctx ws) ->
  forall expected,
  wp (CommitWrite cfg ws expected) (stored (Final (ws_sha256_ctx ws)) (ws_sha256_ctx ws) s) s.
Proof.
  intros Hf Ht Hok Hc expected. unfold CommitWrite. apply wp_bind.
  eapply wp_mono; [by apply wp_finish|]. intros r s1 [S1 ->]. cbn [ws_tmp_path].
  pose proof (final_valid (ws_sha256_ctx ws)) as Hv.
  case_match.
  - apply wp_bind. eapply wp_mono; [by apply wp_remove_temp|]. intros r s2 [S2 [st ->]].
    apply wp_ret, stored_err; [done..|]. eapply same_cas_trans; [by apply same_files_cas|done].
  - eapply wp_mono; [apply wp_place_file; [done|by rewrite S1|]|].
    + eapply same_cas_ok; [by apply same_files_cas|done].
    + intros r s2 Hst. eapply stored_after; [by apply same_files_cas|done|done].
Qed.

Lemma wp_destroy ws s :
  is_temp (ws_tmp_path ws) ->
  wp (destroy_session ws) (fun r s' => same_cas s s' /\ r = Ret tt) s.
Proof.
  intros Ht. unfold destroy_session. case_match; [|by apply wp_ret].
  apply wp_bind. unfold Abort_session. apply wp_bind.
  eapply (wp_mono _ (fun r s' => same_files s s' /\ r = Ret tt)).
  { case_match; [|by apply wp_ret]. apply wp_sys. intros [] s1 [= <-]. split; [apply close_law|done]. }
  intros r s1 [S1 ->]. apply wp_bind.
  eapply (wp_mono _ (fun r s' => same_cas s s' /\ r = Ret tt)).
  { case_match; [apply wp_ret; split; [by apply same_files_cas|done]|].
    apply wp_bind, wp_sys. intros u s2 E. apply unlink_law in E as [_ E]. apply wp_ret.
    split; [|done]. eapply same_cas_trans; [by apply same_files_cas|].
    destruct u; [destruct E as [_ E]; by eapply same_but_cas|destruct E; by apply same_files_cas|by apply same_files_cas]. }
  intros r s2 [S2 ->]. apply wp_ret, wp_ret. done.
Qed.

Lemma wp_data_write data s :
  cas_ok s -> wp (Write cfg data) (stored (Final data) data s) s.
Proof.
  intros Hok. pose proof (final_valid data) as Hv. unfold Write, BeginWrite.
  apply wp_bind, wp_bind. eapply wp_mono; [apply wp_create_temp|].
  intros r s1 [S1 (res & -> & Hres)]. apply wp_ret. destruct res as [p|e]; cbn.
  2:{ apply wp_ret. by apply stored_err. }
  destruct Hres as (Ht & Hc & _). apply wp_bind. unfold session_Write. cbn [ws_finished new_session].
  apply wp_bind. eapply wp_mono; [apply wp_write_all; exact Hc|].
  intros r s2 (S2 & _ & st & -> & c' & Hc' & Hst). cbn [ws_tmp_path new_session] in *.
  assert (S12 : same_cas s s2) by (eapply same_cas_trans; [done|by eapply same_but_cas]).
  destruct (status_ok st) eqn:Es; apply wp_ret; cbn [fst snd]; rewrite Es.
  - specialize (Hst eq_refl) as ->. eapply wp_mono; [apply wp_commit_write; try done|].
    + by eapply same_cas_ok.
    + intros r s3 Hres. by eapply stored_after.
  - apply wp_bind. eapply wp_mono; [by apply wp_destroy|]. intros r s3 [S3 ->].
    apply wp_ret, stored_err; [done..|]. by eapply same_cas_trans.
Qed.

(** ** Reading *)

(** A chunk the kernel returned, within the content. *)
Lemma chunk_split (d c : list ascii) off :
  d = take (length d) (drop off c) -> off <= length c ->
  off + length d <= length c /\ drop off c = d ++ drop (off + length d) c.
Proof.
  intros Hd Ho. split.
  - pose proof (f_equal length Hd) as Hl. rewrite length_take, length_drop in Hl. lia.
  - rewrite <-(take_drop (length d) (drop off c)) at 1. by rewrite <-Hd, drop_drop.
Qed.

Lemma wp_read_loop fuel path total c s :
  length c - total + os_patience s <= fuel -> os_file s path = Some c -> total <= length c ->
  wp (read_loop fuel path total (length c)) (fun r s' => same_files s s' /\ exists res, r = Ret res /\
    forall d, res = inr d -> d = drop total c) s.
Proof.
  revert total s. induction fuel as [|fuel IH]; intros total s Hf Hc Ht; cbn [read_loop].
  all: destruct (Nat.leb_spec (length c) total) as [Hle|Hlt].
  1, 3: apply wp_ret; split; [done|]; eexists; split; [done|]; intros d [= <-];
        by rewrite drop_ge.
  { lia. }
  apply wp_bind, wp_sys. intros r s1 E. apply read_law in E as [S1 E].
  destruct r as [d| |e].
  - destruct E as (Hp & _ & Hd). destruct (Hd _ Hc) as [Hd1 Hd2].
    destruct (chunk_split d c total Hd1 Ht) as [Hl Hsplit].
    destruct d as [|x d].
    { destruct (Hd2 eq_refl); lia. }
    apply wp_bind. eapply wp_mono; [apply (IH _ s1); [|by rewrite S1|done]|].
    { cbn in *. lia. }
    intros r s2 (S2 & res & -> & Hres). destruct res as [e|k]; apply wp_ret;
      (split; [by eapply same_files_trans|]; eexists; split; [done|]); [done|].
    intros d' [= <-]. by rewrite Hsplit, (Hres k eq_refl).
  - eapply wp_mono; [apply (IH total s1); [lia|by rewrite S1|done]|].
    intros r s2 (S2 & D). split; [by eapply same_files_trans|done].
  - apply wp_ret. split; [done|]. eexists. split; [done|]. done.
Qed.

(** Reading a content: the bytes of the file, or an error. *)
Lemma wp_read k s :
  wp (Read cfg k) (fun r s' => same_files s s' /\ exists res, r = Ret res /\
    forall d, res = Ok d -> os_file s (cas_path cfg k) = Some d) s.
Proof.
  unfold Read. apply wp_bind, wp_sys. intros o s1 E. apply open_law in E as (_ & S1 & Ho).
  destruct o as [[]| |e].
  2, 3: apply wp_ret; split; [done|]; eexists; split; [done|]; done.
  destruct (Ho eq_refl) as [c Hc]. apply wp_bind, wp_sys. intros st s2 E2.
  apply fstat_law in E2 as (_ & S2 & Hst). rewrite S1 in Hst.
  assert (S12 : same_files s s2) by by eapply same_files_trans.
  assert (Hclose : forall s3 (res : Result (list ascii)), same_files s s3 ->
    (forall d, res = Ok d -> os_file s (cas_path cfg k) = Some d) ->
    wp (_ ← close (cas_path cfg k); mret res) (fun r s' => same_files s s' /\ exists res, r = Ret res /\
      forall d, res = Ok d -> os_file s (cas_path cfg k) = Some d) s3).
  { intros s3 res S3 Hres. apply wp_bind, wp_sys. intros [] s4 [= <-]. apply wp_ret.
    split; [|eauto]. eapply same_files_trans; [done|apply close_law]. }
  destruct st as [n| |e]; [|by apply Hclose..]. rewrite (Hst n c eq_refl Hc), Nat2Z.id.
  apply wp_bind. unfold wp at 1.
  pose proof (wp_read_loop (length c + os_patience s2) (cas_path cfg k) 0 c s2) as Hl.
  destruct Hl as (S3 & res & Hr & Hres); [lia|by rewrite S12|lia|]. rewrite Hr.
  apply Hclose; [by eapply same_files_trans|]. intros d. destruct res as [e|d']; [done|].
  intros [= <-]. by rewrite (Hres d' eq_refl), drop_0.
Qed.

(** The callback that collects what it is given. *)
Definition collect (acc d : list ascii) : bool * list ascii := (true, acc ++ d).

Definition range_from (c : list ascii) (off length : nat) : list ascii :=
  if length =? 0 then drop off c else take length (drop off c).

Lemma wp_stream_loop fuel path off len remaining c acc s :
  length c - off + os_patience s < fuel -> os_file s path = Some c -> off <= length c ->
  wp (stream_loop fuel path off len remaining collect acc)
     (fun r s' => same_files s s' /\ exists st acc', r = Ret (st, acc') /\
        (status_ok st = true ->
         acc' = acc ++ (if len =? 0 then drop off c else take remaining (drop off c)))) s.
Proof.
  revert off remaining acc s. induction fuel as [|fuel IH]; intros off remaining acc s Hf Hc Ho; [lia|].
  cbn [stream_loop]. destruct ((len =? 0) || (0 <? remaining)) eqn:Eg.
  2:{ apply orb_false_iff in Eg as [E1 E2]. rewrite E1. apply Nat.ltb_ge in E2.
      apply wp_ret. split; [done|]. eexists _, _. split; [done|]. intros _.
      replace remaining with 0 by lia. by rewrite take_0, app_nil_r. }
  set (to_read := if (0 <? len) && (remaining <? kChunk) then remaining else kChunk).
  assert (Hpos : 0 < to_read).
  { subst to_read. destruct (Nat.ltb_spec 0 len), (Nat.ltb_spec remaining kChunk); cbn;
      try (unfold kChunk; lia).
    apply orb_true_iff in Eg as [E|E]; [apply Nat.eqb_eq in E; lia|by apply Nat.ltb_lt in E]. }
  apply wp_bind, wp_sys. intros r s1 E. apply read_law in E as [S1 E].
  destruct r as [d| |e].
  - destruct E as (Hp & Hlen & Hd). destruct (Hd _ Hc) as [Hd1 Hd2].
    destruct (chunk_split d c off Hd1 Ho) as [Hl Hsplit].
    destruct d as [|x d].
    { apply wp_ret. split; [done|]. eexists _, _. split; [done|]. intros _.
      destruct (Hd2 eq_refl); [lia|]. rewrite !drop_ge by done.
      rewrite take_nil. destruct (len =? 0); by rewrite app_nil_r. }
    cbn [collect]. eapply wp_mono; [apply (IH _ _ _ s1); [|by rewrite S1|done]|].
    { cbn in *. lia. }
    intros r s2 (S2 & st & acc' & -> & Hres). split; [by eapply same_files_trans|].
    eexists _, _. split; [done|]. intros Hst. rewrite (Hres Hst), Hsplit, <-app_assoc. f_equal.
    destruct (Nat.eqb_spec len 0) as [->|Hn]; [done|].
    assert (Hpl : (0 <? len) = true) by (apply Nat.ltb_lt; lia). rewrite Hpl.
    assert (Hle : length (x :: d) <= remaining).
    { etrans; [exact Hlen|]. subst to_read. rewrite Hpl. cbn [andb].
      destruct (Nat.ltb_spec remaining kChunk); [done|lia]. }
    rewrite take_app, (take_ge (x :: d)) by exact Hle. done.
  - eapply wp_mono; [apply (IH off _ _ s1); [lia|by rewrite S1|done]|].
    intros r s2 (S2 & D). split; [by eapply same_files_trans|done].
  - apply wp_ret. split; [done|]. eexists _, _. split; [done|]. done.
Qed.

Lemma wp_stream_read k off len s :
  (forall c, os_file s (cas_path cfg k) = Some c -> off <= length c) ->
  wp (StreamRead cfg k off len collect []) (fun r s' => same_files s s' /\
    exists st acc, r = Ret (st, acc) /\
      (status_ok st = true -> exists c, os_file s (cas_path cfg k) = Some c /\ acc = range_from c off len)) s.
Proof.
  intros Hoff. unfold StreamRead. apply wp_bind, wp_sys. intros o s1 E.
  apply open_law in E as (_ & S1 & Ho). destruct o as [[]| |e].
  2, 3: apply wp_ret; split; [done|]; eexists _, _; split; [done|]; done.
  destruct (Ho eq_refl) as [c Hc]. specialize (Hoff c Hc).
  set (Q := fun (r : exn (Status * list ascii)) s' => _).
  assert (Hclose : forall s3 (res : Status * list ascii), same_files s s3 ->
    (status_ok (fst res) = true -> exists c, os_file s (cas_path cfg k) = Some c /\ snd res = range_from c off len) ->
    wp (_ ← close (cas_path cfg k); mret res) Q s3).
  { intros s3 [st acc] S3 Hres. apply wp_bind, wp_sys. intros [] s4 [= <-]. apply wp_ret.
    split; [|eauto]. eapply same_files_trans; [done|apply close_law]. }
  apply wp_bind.
  eapply (wp_mono _ (fun r s2 => same_files s s2 /\ exists kk, r = Ret kk)).
  { case_match; [|apply wp_ret; eauto]. apply wp_sys. intros kk s2 E2.
    apply seek_law in E2 as [_ S2]. split; [by eapply same_files_trans|eauto]. }
  intros r s2 [S2 [kk ->]]. destruct kk as [[]| |e]; [|by apply Hclose..].
  apply wp_bind. unfold wp at 1.
  assert (Hl : wp (stream_loop (file_fuel (cas_path cfg k) s2) (cas_path cfg k) off len len collect [])
     (fun r s' => same_files s2 s' /\ exists st acc', r = Ret (st, acc') /\
        (status_ok st = true ->
         acc' = [] ++ (if len =? 0 then drop off c else take len (drop off c)))) s2).
  { apply wp_stream_loop; [|by rewrite S2|done]. unfold file_fuel. rewrite S2, Hc. lia. }
  destruct Hl as (S3 & st & acc & Hr & Hres). rewrite Hr.
  apply Hclose; [by eapply same_files_trans|]. cbn. intros Hst. exists c. split; [done|].
  by rewrite (Hres Hst).
Qed.

(** ** Merging *)

Lemma wp_copy_loop fuel src dst off c ctx total s :
  length c - off + os_patience s < fuel -> src <> dst -> off <= length c ->
  os_file s src = Some c -> os_file s dst = Some ctx ->
  wp (copy_loop fuel src dst off ctx total) (fun r s' => same_but dst s s' /\
    exists res, r = Ret res /\ exists d, os_file s' dst = Some d /\
      (forall ctx' t', res = inr (ctx', t') -> ctx' = ctx ++ drop off c /\ d = ctx')) s.
Proof.
  intros Hf Hne. revert off ctx total s Hf. induction fuel as [|fuel IH];
    intros off ctx total s Hf Ho Hc Hd; [lia|]. cbn [copy_loop].
  apply wp_bind, wp_sys. intros r s1 E. apply read_law in E as [S1 E].
  destruct r as [d| |e].
  - destruct E as (Hp & Hlen & Hrd). destruct (Hrd _ Hc) as [Hd1 Hd2].
    destruct (chunk_split d c off Hd1 Ho) as [Hl Hsplit].
    destruct d as [|x d].
    { apply wp_ret. split; [by apply same_files_but|]. eexists. split; [done|]. exists ctx.
      split; [by rewrite S1|]. intros ctx' t' [= <- <-]. split; [|done].
      destruct (Hd2 eq_refl) as [E|E]; [unfold kChunk in E; lia|].
      by rewrite drop_ge, app_nil_r. }
    apply wp_bind. eapply wp_mono; [apply wp_write_all; by rewrite S1|].
    intros r s2 (S2 & Hp2 & st & -> & d' & Hd' & Hst).
    assert (S02 : same_but dst s s2) by (eapply same_but_trans; [by apply same_files_but|done]).
    destruct (status_ok st).
    + specialize (Hst eq_refl) as ->. eapply wp_mono; [apply (IH _ _ _ s2)|].
      * cbn in *. lia.
      * done.
      * by rewrite S02.
      * done.
      * intros r s3 (S3 & res & -> & d2 & D1 & D2). split; [by eapply same_but_trans|].
        eexists. split; [done|]. exists d2. split; [done|]. intros ctx' t' ->.
        destruct (D2 _ _ eq_refl) as [-> ->]. split; [|done].
        unfold Update. by rewrite Hsplit, app_assoc.
    + apply wp_ret. split; [done|]. eexists. split; [done|]. by exists d'.
  - eapply wp_mono; [apply (IH off ctx total s1); [lia|done|by rewrite S1|by rewrite S1]|].
    intros r s2 (S2 & D). split; [|done]. eapply same_but_trans; [by apply same_files_but|done].
  - apply wp_ret. split; [by apply same_files_but|]. eexists. split; [done|]. exists ctx.
    split; [by rewrite S1|done].
Qed.

(** The contents filed under a list of keys. *)
Definition contents_of s (keys : list string) (l : list (list ascii)) : Prop :=
  Forall2 (fun k c => os_file s (cas_path cfg k) = Some c) keys l.

Lemma wp_merge_loop tmp keys ctx total s :
  is_temp tmp -> os_file s tmp = Some ctx ->
  wp (merge_loop cfg tmp keys ctx total) (fun r s' => same_but tmp s s' /\
    exists res, r = Ret res /\ is_Some (os_file s' tmp) /\
      (forall ctx' t', res = inr (ctx', t') -> os_file s' tmp = Some ctx' /\
         exists l, contents_of s keys l /\ ctx' = ctx ++ mjoin l)) s.
Proof.
  intros Ht. revert ctx total s. induction keys as [|k keys IH]; intros ctx total s Hc; cbn [merge_loop].
  { apply wp_ret. split; [done|]. eexists. split; [done|]. split; [eauto|].
    intros ctx' t' [= <- <-]. split; [done|]. exists []. split; [constructor|].
    cbn. by rewrite app_nil_r. }
  apply wp_bind, wp_sys. intros o s1 E. apply open_law in E as (_ & S1 & Ho).
  destruct o as [[]| |e].
  2, 3: apply wp_ret; split; [by apply same_files_but|]; eexists; split; [done|];
        split; [rewrite S1; eauto|done].
  destruct (Ho eq_refl) as [c Hk]. apply wp_bind. unfold wp at 1.
  destruct (wp_copy_loop (file_fuel (cas_path cfg k) s1) (cas_path cfg k) tmp 0 c ctx total s1)
    as (S2 & res & Hr & d & Hd & Hres).
  { unfold file_fuel. rewrite S1, Hk. lia. }
  { intros E. by apply (Ht k). }
  { lia. }
  { by rewrite S1. }
  { by rewrite S1. }
  rewrite Hr. apply wp_bind, wp_sys. intros [] s3 [= <-].
  set (s2 := snd (copy_loop _ _ _ _ _ _ s1)) in *.
  pose proof (proj2 (close_law (cas_path cfg k) s2)) as S3.
  assert (S03 : same_but tmp s (sys_close (cas_path cfg k) s2)).
  { intros p Hp. by rewrite S3, S2, S1. }
  destruct res as [e|[ctx1 t1]].
  { apply wp_ret. split; [done|]. eexists. split; [done|]. split; [rewrite S3, Hd; eauto|done]. }
  destruct (Hres _ _ eq_refl) as [-> ->]. eapply wp_mono; [apply IH; by rewrite S3|].
  intros r s4 (S4 & res & -> & D1 & D2). split; [by eapply same_but_trans|].
  eexists. split; [done|]. split; [done|]. intros ctx' t' ->.
  destruct (D2 _ _ eq_refl) as [D3 (l & Hl & ->)]. split; [done|]. exists (c :: l). split.
  - constructor; [done|]. eapply Forall2_impl; [exact Hl|]. cbn. intros k' c' Hk'.
    rewrite <-Hk'. symmetry. apply S03. intros E. by apply (Ht k').
  - cbn. by rewrite drop_0, app_assoc.
Qed.

(** A merge stores the concatenation of the contents of its keys, or fails
    and leaves every content as it was. *)
Lemma wp_merge keys s :
  cas_ok s ->
  wp (Merge cfg keys) (fun r s' =>
    (exists e, r = Ret (Err e) /\ same_cas s s') \/
    (exists l, contents_of s keys l /\ stored (Final (mjoin l)) (mjoin l) s r s')) s.
Proof.
  intros Hok. unfold Merge. destruct keys as [|k0 keys0]; [apply wp_ret; left; by eexists|].
  set (keys := k0 :: keys0). apply wp_bind. eapply wp_mono; [apply wp_create_temp|].
  intros r s1 [S1 (res & -> & Hres)]. destruct res as [tmp|e]; [|apply wp_ret; left; by eexists].
  destruct Hres as (Ht & Hc & _). apply wp_bind. eapply wp_mono; [by apply wp_merge_loop|].
  intros r s2 (S2 & res & -> & _ & Hres).
  assert (S02 : same_cas s s2) by (eapply same_cas_trans; [done|by eapply same_but_cas]).
  destruct res as [e|[ctx t]].
  - left. apply wp_bind, wp_sys. intros [] s3 [= <-]. apply wp_bind, wp_sys. intros u s4 E.
    apply unlink_law in E as [_ E]. apply wp_ret. eexists. split; [done|].
    pose proof (proj2 (close_law tmp s2)) as S3.
    eapply same_cas_trans; [exact S02|]. eapply same_cas_trans; [by apply same_files_cas|].
    destruct u; [destruct E as [_ E]; by eapply same_but_cas|destruct E; by apply same_files_cas|by apply same_files_cas].
  - destruct (Hres _ _ eq_refl) as [Hctx (l & Hl & ->)]. cbn [app] in *.
    apply wp_bind, wp_sys. intros b s3 E3. apply sync_law in E3 as [_ S3].
    apply wp_bind, wp_sys. intros [] s4 [= <-]. pose proof (proj2 (close_law tmp s3)) as S4.
    assert (S04 : same_cas s (sys_close tmp s3)).
    { eapply same_cas_trans; [exact S02|]. apply same_files_cas. by eapply same_files_trans. }
    eapply wp_mono; [apply wp_place_file; [done|by rewrite S4, S3|by eapply same_cas_ok]|].
    intros r s5 (D1 & D2 & res & -> & D3). right. exists l. split.
    + eapply Forall2_impl; [exact Hl|]. cbn. intros k c Hk. by rewrite <-(S1 k).
    + split; [done|]. split.
      { intros k Hk Hne. by rewrite D2, S04. }
      eexists. split; [done|]. rewrite S04 in D3 by apply final_valid. exact D3.
Qed.
End store_spec.
