(* ===== verification/DataStoreProps.v ===== *)
(** * Properties of the data store, and an in-memory file system

    The properties of writes, reads, ranges and merges, evaluated on a file
    system in memory that interrupts calls and cuts writes short. *)
From S2P Require Import Prelude Status Crypto Uuid FileSys DataStore DataStoreSpec.

Open Scope nat_scope.

(** ** A file system in memory: the first [mo_eintr] reads and writes are
    interrupted, and a write takes at most three bytes. *)
Record MemOs : Type := MkOs { mo_files : gmap string (list ascii); mo_eintr : nat; mo_uuid : nat }.

Definition mo_set (f : gmap string (list ascii)) (s : MemOs) : MemOs := MkOs f (mo_eintr s) (mo_uuid s).

(** Runs a call unless it is interrupted. *)
Definition mo_call {A} (s : MemOs) (f : MemOs -> sys_result A * MemOs) : sys_result A * MemOs :=
  match mo_eintr s with
  | O => f s
  | S n => (SysEintr, MkOs (mo_files s) n (mo_uuid s))
  end.

#[export] Instance mem_posix : Posix := {|
  os := MemOs;
  os_file s p := mo_files s !! p;
  os_patience := mo_eintr;
  sys_create_excl p s :=
    match mo_files s !! p with
    | Some _ => (SysErr "File exists", s)
    | None => (SysOk tt, mo_set (<[p := []]> (mo_files s)) s)
    end;
  sys_open_read p s :=
    match mo_files s !! p with
    | Some _ => (SysOk tt, s)
    | None => (SysErr "No such file or directory", s)
    end;
  sys_fstat p s := (SysOk (Z.of_nat (length (default [] (mo_files s !! p)))), s);
  sys_seek p n s := (SysOk tt, s);
  sys_read p off n s := mo_call s (fun s => (SysOk (take n (drop off (default [] (mo_files s !! p)))), s));
  sys_write p d s := mo_call s (fun s =>
    (SysOk (min 3 (length d)), mo_set (<[p := default [] (mo_files s !! p) ++ take (min 3 (length d)) d]> (mo_files s)) s));
  sys_sync b p s := (true, s);
  sys_close p s := s;
  sys_unlink p s :=
    match mo_files s !! p with
    | Some _ => (Unlinked, mo_set (delete p (mo_files s)) s)
    | None => (NoEntry, s)
    end;
  sys_rename a b s :=
    match mo_files s !! a with
    | Some c => (None, mo_set (<[b := c]> (delete a (mo_files s))) s)
    | None => (Some "No such file or directory", s)
    end;
  sys_is_regular p s := bool_decide (is_Some (mo_files s !! p));
  sys_stat_size p s :=
    match mo_files s !! p with
    | Some c => SysOk (Z.of_nat (length c))
    | None => SysErr "No such file or directory"
    end;
  sys_mkdirs p s := (None, s);
  os_uuid s := (uuid_of_words (Z.of_nat (mo_uuid s)) 0 0 0 0 0, MkOs (mo_files s) (mo_eintr s) (S (mo_uuid s)))
|}.

Lemma take_self {A} n (l : list A) : take n l = take (length (take n l)) l.
Proof.
  rewrite length_take. destruct (Nat.le_gt_cases n (length l)).
  - by rewrite Nat.min_l.
  - by rewrite Nat.min_r, !take_ge by lia.
Qed.

#[export] Instance mem_posix_laws : PosixLaws.
Proof.
  split; cbn; unfold same_files, same_but; cbn.
  - intros p s r s'. destruct (mo_files s !! p) eqn:E; intros [= <- <-]; cbn; [by split|].
    split; [done|]. split_and!; [done|by rewrite lookup_insert_eq|].
    intros q Hq. by rewrite lookup_insert_ne.
  - intros p s r s'. destruct (mo_files s !! p) eqn:E; intros [= <- <-]; split_and!; try done; eauto.
  - intros p s r s' [= <- <-]. split_and!; [done..|]. intros n c [= <-]. by intros ->.
  - by intros p n s r s' [= <- <-].
  - intros p off n s r s'. unfold mo_call. destruct (mo_eintr s) as [|k] eqn:E; intros [= <- <-];
      (split; [done|]); [|cbn; lia]. split; [cbn; lia|]. split; [rewrite length_take; lia|].
    intros c ->. cbn. split; [apply take_self|]. intros Hn.
    apply (f_equal length) in Hn. rewrite length_take, length_drop in Hn.
    change (length []) with 0 in Hn. lia.
  - intros p d s r s' Hd. unfold mo_call. destruct (mo_eintr s) as [|k] eqn:E; intros [= <- <-]; cbn -[Nat.min];
      [|split; [lia|done]].
    split; [lia|]. split; [destruct d as [|x [|y [|z d]]]; cbn; (done || lia)|]. split.
    + intros q Hq. by rewrite lookup_insert_ne.
    + intros c ->. by rewrite lookup_insert_eq.
  - by intros b p s r s' [= <- <-].
  - done.
  - intros p s r s'. destruct (mo_files s !! p) eqn:E; intros [= <- <-]; cbn; [|by split_and!].
    split; [done|]. split; [by rewrite lookup_delete_eq|]. intros q Hq. by rewrite lookup_delete_ne.
  - intros a b s r s' Hab. destruct (mo_files s !! a) eqn:E; intros [= <- <-]; cbn; [|by split_and!].
    split; [done|]. split_and!; [by rewrite lookup_insert_eq| |].
    + rewrite lookup_insert_ne by done. by rewrite lookup_delete_eq.
    + intros p Hp1 Hp2. by rewrite lookup_insert_ne, lookup_delete_ne.
  - intros p s E. by apply bool_decide_eq_true in E.
  - by intros p s r s' [= <- <-].
  - intros s u s' [= <- <-]. split_and!; [done..|]. apply uuid_of_words_valid.
Qed.

(** ** Properties *)

Section properties.
Context `{HP : Posix, HD : Digest} `{HL : !PosixLaws} (cfg : StoreConfig).
Implicit Types (s : os).

(** C16. A write always ends, despite short writes and interruptions, and stores
    its data under the digest of the data: on success the returned key is the
    digest, the content filed under it hashes to it and is the data itself
    unless the content was there already; every other content is untouched, a
    failed write changes no content, and the store stays consistent. *)
Theorem write_stores data s r s' :
  cas_ok cfg s -> Write cfg data s = (r, s') -> stored cfg (Final data) data s r s'.
Proof. intros Hok E. exact (wp_run _ _ _ _ _ E (wp_data_write cfg data s Hok)). Qed.

(** C20. Reading back: from a store without the content, what a successful write
    stored is what a later read of its key returns; reads always end and change
    no file. *)
Theorem write_read_roundtrip data s key s1 r s2 :
  cas_ok cfg s -> os_file s (cas_path cfg (Final data)) = None ->
  Write cfg data s = (Ret (Ok key), s1) -> Read cfg key s1 = (r, s2) ->
  same_files s1 s2 /\ exists res, r = Ret res /\ forall d, res = Ok d -> d = data.
Proof.
  intros Hok Hnew E1 E2.
  destruct (wp_run _ _ _ _ _ E1 (wp_data_write cfg data s Hok)) as (_ & _ & res1 & Hres1 & D1).
  injection Hres1 as <-. destruct D1 as (-> & c & Hc & _ & Hc' & _).
  destruct (wp_run _ _ _ _ _ E2 (wp_read cfg (Final data) s1)) as (D2 & res & -> & D3).
  split; [done|]. eexists. split; [done|]. intros d Hd. specialize (D3 d Hd).
  rewrite Hc in D3. injection D3 as <-. by apply Hc'.
Qed.

(** Range reads: StreamRead always ends and, when it reports success, has
    passed to its callback exactly the [length] bytes of the content from
    [offset] on (all of them when [length] is zero), in order, cut at the end of
    the file. *)
Theorem stream_read_range key off len s r s' :
  (forall c, os_file s (cas_path cfg key) = Some c -> off <= length c) ->
  StreamRead cfg key off len collect [] s = (r, s') ->
  same_files s s' /\ exists st acc, r = Ret (st, acc) /\
    (status_ok st = true ->
     exists c, os_file s (cas_path cfg key) = Some c /\ acc = range_from c off len).
Proof. intros Hoff E. exact (wp_run _ _ _ _ _ E (wp_stream_read cfg key off len s Hoff)). Qed.

(** C21. A merge always ends, and either fails without touching a content or
    stores, under its digest, the concatenation of the contents of its keys in
    the order given. *)
Theorem merge_concatenates keys s r s' :
  cas_ok cfg s -> Merge cfg keys s = (r, s') ->
  (exists e, r = Ret (Err e) /\ same_cas cfg s s') \/
  (exists l, contents_of cfg s keys l /\ stored cfg (Final (mjoin l)) (mjoin l) s r s').
Proof. intros Hok E. exact (wp_run _ _ _ _ _ E (wp_merge cfg keys s Hok)). Qed.
End properties.

(** ** Witnesses *)

#[export] Existing Instance toy_digest.

Definition sample_cfg : StoreConfig := MkConfig "/data" "/tmp" FSYNC.
Definition sample_os : @os mem_posix := MkOs ∅ 2 0.

Lemma sample_cas_ok : cas_ok sample_cfg sample_os.
Proof. intros k c _ E. cbn in E. by rewrite lookup_empty in E. Qed.

Lemma write_stores_witness :
  exists key s', Write sample_cfg (bytes_of "hello") sample_os = (Ret (Ok key), s') /\
    key = Final (bytes_of "hello").
Proof.
  destruct (Write sample_cfg (bytes_of "hello") sample_os) as [r s'] eqn:E.
  assert (Hr : exists key, r = Ret (Ok key)).
  { change r with (fst (r, s')). rewrite <-E. eexists. vm_compute. reflexivity. }
  destruct Hr as [key ->]. exists key, s'. split; [reflexivity|].
  apply (write_stores sample_cfg _ _ _ _ sample_cas_ok) in E as (_ & _ & res & Hres & D).
  injection Hres as <-. exact (proj1 D).
Defined.

Lemma write_read_roundtrip_witness :
  exists key s1 s2 d, Write sample_cfg (bytes_of "hello") sample_os = (Ret (Ok key), s1) /\
    Read sample_cfg key s1 = (Ret (Ok d), s2) /\ d = bytes_of "hello".
Proof.
  destruct (Write sample_cfg (bytes_of "hello") sample_os) as [r s1] eqn:E.
  assert (Hr : r = Ret (Ok (Final (bytes_of "hello")))).
  { change r with (fst (r, s1)). rewrite <-E. vm_compute. reflexivity. }
  subst r. destruct (Read sample_cfg (Final (bytes_of "hello")) s1) as [r2 s2] eqn:E2.
  assert (Hr2 : exists d, r2 = Ret (Ok d)).
  { change r2 with (fst (r2, s2)). rewrite <-E2.
    change s1 with (snd (@Ret (Result string) (Ok (Final (bytes_of "hello"))), s1)). rewrite <-E.
    eexists. vm_compute. reflexivity. }
  destruct Hr2 as [d ->]. exists (Final (bytes_of "hello")), s1, s2, d.
  split; [reflexivity|]. split; [exact E2|].
  destruct (write_read_roundtrip sample_cfg (bytes_of "hello") sample_os _ s1 _ s2 sample_cas_ok eq_refl E E2)
    as (_ & res & Hres & D). injection Hres as <-. apply D. reflexivity.
Defined.

Definition stored_os : @os mem_posix :=
  MkOs {[cas_path sample_cfg "abcd" := bytes_of "0123456789"]} 2 0.

Lemma stream_read_range_witness :
  exists acc s', StreamRead sample_cfg "abcd" 2 5 collect [] stored_os = (Ret (Status_OK, acc), s') /\
    exists c, os_file stored_os (cas_path sample_cfg "abcd") = Some c /\ acc = range_from c 2 5.
Proof.
  destruct (StreamRead sample_cfg "abcd" 2 5 collect [] stored_os) as [r s'] eqn:E.
  assert (Hr : exists acc, r = Ret (Status_OK, acc)).
  { change r with (fst (r, s')). rewrite <-E. eexists. vm_compute. reflexivity. }
  destruct Hr as [acc ->]. exists acc, s'. split; [reflexivity|].
  apply stream_read_range in E as (_ & st & acc' & Hacc & D).
  - injection Hacc as <- <-. apply D. reflexivity.
  - vm_compute. intros c [= <-]. cbn. lia.
Defined.

Lemma merge_concatenates_witness :
  exists key s' l, Merge sample_cfg ["abcd"; "abcd"] stored_os = (Ret (Ok key), s') /\
    contents_of sample_cfg stored_os ["abcd"; "abcd"] l.
Proof.
  destruct (Merge sample_cfg ["abcd"; "abcd"] stored_os) as [r s'] eqn:E.
  assert (Hr : exists key, r = Ret (Ok key)).
  { change r with (fst (r, s')). rewrite <-E. eexists. vm_compute. reflexivity. }
  destruct Hr as [key ->]. exists key, s'.
  apply merge_concatenates in E as [(e & He & _)|(l & Hl & _)].
  - discriminate.
  - exists l. split; [reflexivity|exact Hl].
  - intros k c Hk Hc. exfalso.
    pose proof (proj1 (lookup_singleton_Some (M := gmap string) (cas_path sample_cfg "abcd")
      (cas_path sample_cfg k) (bytes_of "0123456789") c) Hc) as [Hp _].
    change (cas_path sample_cfg k) with (JoinPath (GetCasDir "/data" k) (k +:+ ".blob")) in Hp.
    destruct (join_suffix (GetCasDir "/data" k) (k +:+ ".blob")) as [p Ep]. rewrite Ep in Hp.
    apply (f_equal String.length) in Hp. rewrite !str_length_app, (valid_key_length k Hk) in Hp.
    change (String.length (cas_path sample_cfg "abcd")) with 25 in Hp. lia.
Defined.
