(* ===== verification/HttpRouter.v ===== *)
(** * Routing (src/src/net/http/http_router.h, .cpp)

    Route patterns are compiled to the fragments of the regular expression the
    code builds: a literal character, a group of non-slash characters for a
    parameter, a group of any text for a star; matching is the greedy,
    backtracking match of the whole path. Handlers run on a world [W] and may
    throw. *)
From S2P Require Import Prelude Json HttpRequest HttpResponse.

(** A handler. It reads the request it is given; its callers may have changed it. *)
Definition HttpHandler (W : Type) : Type := HttpRequest -> M W HttpResponse.

(** The rest of a chain: it takes the request by reference, so it answers with the
    request as it leaves it and the response. *)
Definition Chain (W : Type) : Type := HttpRequest -> M W (HttpRequest * HttpResponse).

(** A handler at the end of a chain. *)
Definition chain_end {W} (handler : HttpHandler W) : Chain W := fun request =>
  response ← handler request; mret (request, response).

Definition Middleware (W : Type) : Type := HttpRequest -> Chain W -> M W (HttpRequest * HttpResponse).

(** Fragments of the compiled expression. The characters the code escapes and
    those it copies are literals ([|] and the backslash, which it copies although
    they are operators, do not occur in the patterns of the server). *)
Inductive Fragment : Type :=
  | Lit (c : ascii)
  | Param
  | Star.

(** [CompilePattern], inside a parameter name when [name] is given. *)
Fixpoint compile_from (name : option string) (pattern : string)
    : exn (list Fragment * list string) :=
  match pattern with
  | EmptyString =>
      match name with
      | None => Ret ([], [])
      | Some _ => Throw "Invalid route pattern: unmatched '{'"
      end
  | String c r =>
      match name with
      | Some n =>
          if Ascii.eqb c "}" then
            '(fs, ns) ← compile_from None r; Ret (Param :: fs, n :: ns)
          else compile_from (Some (n +:+ String c "")) r
      | None =>
          if Ascii.eqb c "{" then compile_from (Some "") r
          else
            '(fs, ns) ← compile_from None r;
            Ret ((if Ascii.eqb c "*" then Star else Lit c) :: fs, ns)
      end
  end.

Definition CompilePattern (pattern : string) : exn (list Fragment * list string) :=
  compile_from None pattern.

(** As many characters of the class [p] as the continuation allows: what they
    are and the groups of the continuation. *)
Fixpoint greedy (p : ascii -> bool) (k : string -> option (list string)) (s : string)
    : option (string * list string) :=
  match s with
  | EmptyString => (fun g => ("", g)) <$> k s
  | String c r =>
      match (if p c then greedy p k r else None) with
      | Some (w, g) => Some (String c w, g)
      | None => (fun g => ("", g)) <$> k s
      end
  end.

Definition not_slash (c : ascii) : bool := negb (Ascii.eqb c "/").

(** [.] of ECMAScript: anything but a line terminator. *)
Definition not_newline (c : ascii) : bool := negb (Ascii.eqb c LF) && negb (Ascii.eqb c CR).

(** [std::regex_match] of a whole path: the texts of the groups. *)
Fixpoint regex_match (fs : list Fragment) (s : string) : option (list string) :=
  match fs with
  | [] => if str_empty s then Some [] else None
  | Lit c :: fs =>
      match s with
      | String d r => if Ascii.eqb c d then regex_match fs r else None
      | EmptyString => None
      end
  | Param :: fs =>
      match s with
      | String d r =>
          if not_slash d then
            (fun wg => String d (fst wg) :: snd wg) <$> greedy not_slash (regex_match fs) r
          else None
      | EmptyString => None
      end
  | Star :: fs => (fun wg => fst wg :: snd wg) <$> greedy not_newline (regex_match fs) s
  end.

Record RouteEntry (W : Type) : Type := MkRoute {
  rt_method : HttpMethod;
  rt_pattern : string;
  rt_regex : list Fragment;
  rt_param_names : list string;
  rt_handler : HttpHandler W
}.
Arguments MkRoute {W} _ _ _ _ _.
Arguments rt_method {W} _.
Arguments rt_regex {W} _.
Arguments rt_param_names {W} _.
Arguments rt_handler {W} _.

Record HttpRouter (W : Type) : Type := MkRouter {
  routes_ : list (RouteEntry W);
  middlewares_ : list (Middleware W);
  not_found_handler_ : option (HttpHandler W)
}.
Arguments MkRouter {W} _ _ _.
Arguments routes_ {W} _.
Arguments middlewares_ {W} _.
Arguments not_found_handler_ {W} _.

Definition new_router (W : Type) : HttpRouter W := MkRouter [] [] None.

Section router.
Context {W : Type} `{JsonLib}.

Definition Route (method : HttpMethod) (pattern : string) (handler : HttpHandler W)
    (r : HttpRouter W) : exn (HttpRouter W) :=
  '(fs, names) ← CompilePattern pattern;
  Ret (MkRouter (routes_ r ++ [MkRoute method pattern fs names handler]) (middlewares_ r)
         (not_found_handler_ r)).

Definition Use (m : Middleware W) (r : HttpRouter W) : HttpRouter W :=
  MkRouter (routes_ r) (middlewares_ r ++ [m]) (not_found_handler_ r).

Definition SetNotFoundHandler (h : HttpHandler W) (r : HttpRouter W) : HttpRouter W :=
  MkRouter (routes_ r) (middlewares_ r) (Some h).

(** The request with the groups stored under the parameter names. *)
Definition set_params (names groups : list string) (request : HttpRequest) : HttpRequest :=
  fold_left (fun req kv => SetPathParam (fst kv) (snd kv) req) (zip names groups) request.

(** The middlewares wrapped from the last one in. *)
Definition wrap (ms : list (Middleware W)) (handler : Chain W) : Chain W :=
  foldr (fun m h req => m req h) handler ms.

(** The route loop: the first route of the method whose expression matches. *)
Fixpoint find_route (routes : list (RouteEntry W)) (request : HttpRequest)
    : option (RouteEntry W * list string) :=
  match routes with
  | [] => None
  | route :: rest =>
      if bool_decide (rt_method route = method_ request) then
        match regex_match (rt_regex route) (path_ request) with
        | Some groups => Some (route, groups)
        | None => find_route rest request
        end
      else find_route rest request
  end.

(** The request as the router, the middlewares and the handler leave it (the caller
    passes it by reference), and the response. *)
Definition Handle (r : HttpRouter W) : Chain W := fun request =>
  match find_route (routes_ r) request with
  | Some (route, groups) =>
      wrap (middlewares_ r) (chain_end (rt_handler route)) (set_params (rt_param_names route) groups request)
  | None =>
      match not_found_handler_ r with
      | Some h => chain_end h request
      | None =>
          response ← lift_exn (Resp_NotFound ("Route not found: " +:+ path_ request) (trace_id_ request));
          mret (request, response)
      end
  end.
End router.

(** ** Lemmas *)

(** A path spelled by fragments and the texts of their parameters. *)
Fixpoint instantiate (fs : list Fragment) (vs : list string) : string :=
  match fs, vs with
  | Lit c :: fs, _ => String c (instantiate fs vs)
  | Param :: fs, v :: vs => v +:+ instantiate fs vs
  | _, _ => ""
  end.

(** Parameters are whole segments: each is followed by a slash or the end. *)
Fixpoint segmented (fs : list Fragment) : bool :=
  match fs with
  | [] => true
  | Lit _ :: fs => segmented fs
  | Param :: fs =>
      match fs with
      | [] => true
      | Lit c :: _ => Ascii.eqb c "/" && segmented fs
      | _ => false
      end
  | Star :: _ => false
  end.

Fixpoint n_params (fs : list Fragment) : nat :=
  match fs with
  | [] => 0
  | Param :: fs => S (n_params fs)
  | _ :: fs => n_params fs
  end.

Definition segment (v : string) : Prop := v <> "" /\ str_all not_slash v = true.

(** A class run that must stop where it does: nothing shorter is tried when the
    longest run succeeds. *)
Lemma greedy_run p k v s g :
  str_all p v = true ->
  match s with String c _ => p c = false | EmptyString => True end ->
  k s = Some g -> greedy p k (v +:+ s) = Some (v, g).
Proof.
  intros Hv Hs Hk. induction v as [|c v IH]; cbn in *.
  - destruct s as [|c s]; cbn; [by rewrite Hk|]. rewrite Hs. by rewrite Hk.
  - apply andb_true_iff in Hv as [Hc Hv]. rewrite Hc. by rewrite IH.
Qed.

Lemma regex_match_instantiate fs vs :
  segmented fs = true -> length vs = n_params fs -> Forall segment vs ->
  regex_match fs (instantiate fs vs) = Some vs.
Proof.
  revert vs. induction fs as [|[c| |] fs IH]; intros vs Hseg Hlen Hvs; cbn in *.
  - by destruct vs.
  - rewrite Ascii.eqb_refl. by apply IH.
  - destruct vs as [|v vs]; [done|]. apply Forall_cons_1 in Hvs as [[Hne Hall] Hvs].
    destruct v as [|d v]; [done|]. cbn in Hall |- *. apply andb_true_iff in Hall as [Hd Hall].
    rewrite Hd. cbn in Hlen. injection Hlen as Hlen.
    assert (Hfs : segmented fs = true) by (destruct fs as [|[] fs']; [done| |done|done]; by apply andb_true_iff in Hseg as [_ ?]).
    rewrite (greedy_run _ _ v (instantiate fs vs) vs); [done|done| |by apply IH].
    destruct fs as [|[c| |] fs']; cbn in *; [done| |done|done].
    apply andb_true_iff in Hseg as [Hc _]. unfold not_slash. by rewrite Hc.
  - done.
Qed.

Lemma find_route_skip {W} (r1 r2 : list (RouteEntry W)) request :
  Forall (fun rt => rt_method rt <> method_ request \/ regex_match (rt_regex rt) (path_ request) = None) r1 ->
  find_route (r1 ++ r2) request = find_route r2 request.
Proof.
  induction 1 as [|rt r1 [Hm|Hm] _ IH]; cbn; [done| |].
  - by rewrite bool_decide_false.
  - rewrite Hm, IH. by case_bool_decide.
Qed.

Lemma wrap_app {W} (a b : list (Middleware W)) h : wrap (a ++ b) h = wrap a (wrap b h).
Proof. unfold wrap. by rewrite foldr_app. Qed.

(** ** Properties *)

(** No route of the list takes the request. *)
Definition passed_over {W} (request : HttpRequest) (routes : list (RouteEntry W)) : Prop :=
  Forall (fun rt => rt_method rt <> method_ request \/ regex_match (rt_regex rt) (path_ request) = None) routes.

(** C23. Routing. When the earlier routes do not match and the path spells the
    pattern of a route with nonempty segments for its parameters, the handler of
    that route runs, behind all the middlewares in the order they were
    registered, on the request with each parameter bound to its segment. When no
    route matches, none of the middlewares runs: the request goes as it is to the
    not-found handler, or without one is answered 404 with its path. *)
Theorem handle_dispatch {W} `{JsonLib} (r : HttpRouter W) request :
  (forall r1 route r2 vs, routes_ r = r1 ++ route :: r2 -> passed_over request r1 ->
     rt_method route = method_ request ->
     segmented (rt_regex route) = true -> length vs = n_params (rt_regex route) -> Forall segment vs ->
     path_ request = instantiate (rt_regex route) vs ->
     Handle r request =
       wrap (middlewares_ r) (chain_end (rt_handler route)) (set_params (rt_param_names route) vs request)) /\
  (passed_over request (routes_ r) ->
     Handle r request =
       match not_found_handler_ r with
       | Some h => chain_end h request
       | None => chain_end (fun q => lift_exn (Resp_NotFound ("Route not found: " +:+ path_ q) (trace_id_ q))) request
       end).
Proof.
  split.
  - intros r1 route r2 vs Hr Hskip Hm Hseg Hlen Hvs Hpath. unfold Handle.
    rewrite Hr, find_route_skip by done. cbn [find_route].
    rewrite bool_decide_true by done. by rewrite Hpath, regex_match_instantiate.
  - intros Hskip. unfold Handle. rewrite <-(app_nil_r (routes_ r)), find_route_skip by done. done.
Qed.

Definition echo (name : string) : HttpHandler unit := fun req =>
  mret (Resp_Ok (name +:+ ":" +:+ GetPathParam "bucket" req +:+ "/" +:+ GetPathParam "object" req)).

Definition sample_list_route : RouteEntry unit :=
  MkRoute GET "/buckets" (Lit <$> bytes_of "/buckets") [] (echo "list").

Definition sample_get_route : RouteEntry unit :=
  MkRoute GET "/buckets/{bucket}/objects/{object}"
    ((Lit <$> bytes_of "/buckets/") ++ [Param] ++ (Lit <$> bytes_of "/objects/") ++ [Param])
    ["bucket"; "object"] (echo "get").

Definition sample_router : HttpRouter unit :=
  MkRouter [sample_list_route; sample_get_route] [] None.

Definition sample_request : HttpRequest := SetPath "/buckets/b/objects/o" (SetMethod GET new_request).

(** A path of no route, with and without a not-found handler. *)
Definition lost_request : HttpRequest := SetPath "/nowhere" (SetMethod GET new_request).

Definition answer_of {W} (run : exn (HttpRequest * HttpResponse) * W) : exn HttpResponse :=
  match fst run with Ret (_, response) => Ret response | Throw e => Throw e end.

Lemma handle_dispatch_witness :
  answer_of (@Handle unit tree_json sample_router sample_request tt) = Ret (Resp_Ok "get:b/o") /\
  @Handle unit tree_json (SetNotFoundHandler (echo "lost") sample_router) lost_request tt =
    (Ret (lost_request, Resp_Ok "lost:/"), tt) /\
  answer_of (@Handle unit tree_json sample_router lost_request tt) =
    @Resp_NotFound tree_json "Route not found: /nowhere" "" /\
  CompilePattern "/buckets/{bucket}/objects/{object}" =
    Ret ((Lit <$> bytes_of "/buckets/") ++ [Param] ++ (Lit <$> bytes_of "/objects/") ++ [Param],
         ["bucket"; "object"]).
Proof.
  assert (Hlost : passed_over lost_request (routes_ sample_router)).
  { repeat (constructor; [right; vm_compute; reflexivity|]). constructor. }
  split; [|split; [|split; [|vm_compute; reflexivity]]].
  - rewrite (proj1 (handle_dispatch sample_router sample_request) [sample_list_route] sample_get_route [] ["b"; "o"]).
    + vm_compute. reflexivity.
    + reflexivity.
    + constructor; [right; vm_compute; reflexivity|constructor].
    + reflexivity.
    + reflexivity.
    + reflexivity.
    + repeat constructor; discriminate.
    + vm_compute. reflexivity.
  - rewrite (proj2 (handle_dispatch (SetNotFoundHandler (echo "lost") sample_router) lost_request) Hlost). reflexivity.
  - rewrite (proj2 (handle_dispatch sample_router lost_request) Hlost). vm_compute. reflexivity.
Defined.
