(* ===== verification/Auth.v ===== *)
(** * Authentication and presigned URLs (src/src/service/auth_service.h, .cpp,
    service/presign_service.h, .cpp, api/middleware/auth_middleware.h, .cpp,
    api/handlers/presign_handlers.h, .cpp)

    The token checks, the signature of a presigned URL, its creation and its
    verification, and the middleware that lets a request through or refuses it.
    The world of the handlers has a clock. *)
From S2P Require Import Prelude Status Json Crypto HttpResponse HttpRouter HttpRequest.

Open Scope Z_scope.

(** [std::chrono::system_clock::now()] in whole seconds. *)
Class ClockOf (W : Type) : Type := clock_now : W -> Z.

Definition GetWorld {W} : M W W := fun w => (Ret w, w).

(** [std::find(v.begin(), v.end(), s) != v.end()]. *)
Fixpoint found_in (s : string) (v : list string) : bool :=
  match v with
  | [] => false
  | t :: r => if String.eqb t s then true else found_in s r
  end.

(** ** The authentication service *)

Section service.
Context `{Digest}.

Definition AuthService : Type := list string.

Definition AuthService_ValidateToken (static_tokens_ : AuthService) (token : string) : bool :=
  found_in token static_tokens_.

Definition AuthService_ValidateApiKey (static_tokens_ : AuthService) (key_id key_secret : string) : bool :=
  AuthService_ValidateToken static_tokens_ (key_id +:+ ":" +:+ key_secret).

(** [method + "\n" + path + "\n" + std::to_string(expires)]. *)
Definition string_to_sign (method path : string) (expires : Z) : string :=
  method +:+ String LF (path +:+ String LF (to_string expires)).

Definition GeneratePresignSignature (static_tokens_ : AuthService) (method path : string)
    (expires : Z) : string :=
  match static_tokens_ with
  | [] => ""
  | token :: _ => HMAC_SHA256 token (string_to_sign method path expires)
  end.

Definition ValidatePresign (static_tokens_ : AuthService) (now : Z) (method path : string)
    (expires : Z) (signature : string) : bool :=
  if expires <? now then false
  else String.eqb (GeneratePresignSignature static_tokens_ method path expires) signature.

(** ** The presign service *)

Record PresignService : Type := MkPresignService {
  auth_service_ : AuthService;
  base_url_ : string
}.

Definition BuildPresignUrl (s : PresignService) (method path : string) (expires : Z)
    (signature : string) : string :=
  base_url_ s +:+ path +:+ "?X-Method=" +:+ method +:+ "&X-Expires=" +:+ to_string expires +:+
  "&X-Signature=" +:+ signature.

(** [GenerateGetUrl] and [GeneratePutUrl]: the status and the URL. *)
Definition generate_url (method : string) (s : PresignService) (now : Z) (bucket key : string)
    (expires_seconds : Z) : Status * string :=
  let path := "/" +:+ bucket +:+ "/" +:+ key in
  let expires := now + expires_seconds in
  let signature := GeneratePresignSignature (auth_service_ s) method path expires in
  (Status_OK, BuildPresignUrl s method path expires signature).

Definition GenerateGetUrl : PresignService -> Z -> string -> string -> Z -> Status * string :=
  generate_url "GET".
Definition GeneratePutUrl : PresignService -> Z -> string -> string -> Z -> Status * string :=
  generate_url "PUT".

Definition ValidatePresignUrl (s : PresignService) (now : Z) (method path expires_str
    signature : string) : Status :=
  match stoll expires_str with
  | Conv expires =>
      if ValidatePresign (auth_service_ s) now method path expires signature then Status_OK
      else Status_Unauthorized "Invalid or expired signature"
  | _ => Status_InvalidArgument "Invalid expires parameter"
  end.

(** ** The presign handlers *)

Definition GenerateSignature (secret method path : string) (expires : Z) : string :=
  HMAC_SHA256 secret (string_to_sign method path expires).

Fixpoint any_secret (method path sig : string) (expires : Z) (secrets : list string) : bool :=
  match secrets with
  | [] => false
  | secret :: r =>
      if String.eqb (GenerateSignature secret method path expires) sig then true
      else any_secret method path sig expires r
  end.

(** The answer and the request with its query parsed. *)
Definition VerifyPresignUrl (now : Z) (request : HttpRequest) (secrets : list string)
    : bool * HttpRequest :=
  let '(expires_str, request) := GetQueryParam "expires" request in
  let '(sig, request) := GetQueryParam "sig" request in
  let '(method, request) := GetQueryParam "method" request in
  if str_empty expires_str || str_empty sig then (false, request)
  else
    let method := if str_empty method then "GET" else method in
    match stoll expires_str with
    | Conv expires =>
        if expires <? now then (false, request)
        else if negb (String.eqb (HttpMethodToString (method_ request)) method) then (false, request)
        else (any_secret method (path_ request) sig expires secrets, request)
    | _ => (false, request)
    end.
End service.

Section handlers.
Context {W : Type} `{Digest, JsonLib, ClockOf W}.
Implicit Types (request : HttpRequest).

(** [HttpResponse::..] error constructors inside a handler. *)
Definition refuse (r : exn HttpResponse) : M W HttpResponse := lift_exn r.

(** Parsing the method of the body: only GET goes on. *)
Definition presign_method (body : Json) : exn (option string) :=
  match json_field "method" body with
  | None => Ret (Some "GET")
  | Some v =>
      method ← json_get_string v;
      Ret (if String.eqb method "GET" then Some method else None)
  end.

(** The time to live in seconds, [None] out of bounds. *)
Definition presign_ttl (body : Json) : exn (option Z) :=
  match json_field "ttl_seconds" body with
  | None => Ret (Some 600)
  | Some v =>
      ttl ← json_get_int v;
      Ret (if (ttl <? 1) || (7 * 24 * 3600 <? ttl) then None else Some ttl)
  end.

Definition presigned_url (secret method path : string) (expires : Z) : string :=
  path +:+ "?expires=" +:+ to_string expires +:+ "&sig=" +:+
  GenerateSignature secret method path expires +:+ "&method=" +:+ method.

Definition CreatePresignUrl (secrets : list string) : HttpHandler W := fun request =>
  match json_parse (body_ request) with
  | Throw _ => refuse (Resp_BadRequest "Invalid JSON body" "")
  | Ret body =>
      match json_field "bucket" body, json_field "object" body with
      | Some b, Some o =>
          bucket ← lift_exn (json_get_string b);
          object ← lift_exn (json_get_string o);
          method ← lift_exn (presign_method body);
          match method with
          | None => refuse (Resp_BadRequest "Only GET method is supported for presigned URLs" "")
          | Some method =>
              ttl ← lift_exn (presign_ttl body);
              match ttl with
              | None => refuse (Resp_BadRequest "TTL must be between 1 and 604800 seconds" "")
              | Some ttl =>
                  w ← GetWorld;
                  let expires := clock_now w + ttl in
                  let path := "/buckets/" +:+ bucket +:+ "/objects/" +:+ object in
                  match secrets with
                  | [] => refuse (Resp_InternalError "No signing key configured" "")
                  | secret :: _ =>
                      text ← lift_exn (json_dump (JObj [
                        ("url", JStr (presigned_url secret method path expires));
                        ("expires_at", JInt expires); ("bucket", JStr bucket);
                        ("object", JStr object); ("method", JStr method)]));
                      mret (Resp_OK text)
                  end
              end
          end
      | _, _ => refuse (Resp_BadRequest "Missing bucket or object" "")
      end
  end.

(** ** The middleware *)

Definition public_paths : list string := ["/healthz"; "/readyz"; "/metrics"].

Definition RequiresAuth (path : string) : bool := negb (found_in path public_paths).

Definition ValidateBearerToken (auth_header : string) (valid_tokens : list string) : bool :=
  let prefix := "Bearer " in
  if (String.length auth_header <=? String.length prefix)%nat then false
  else if negb (String.eqb (str_take (String.length prefix) auth_header) prefix) then false
  else found_in (str_drop (String.length prefix) auth_header) valid_tokens.

Definition ValidateApiKey (api_key : string) (valid_tokens : list string) : bool :=
  found_in api_key valid_tokens.

Definition AuthMiddleware_Handle (valid_tokens : list string) : Middleware W := fun request next =>
  if negb (RequiresAuth (path_ request)) then next request
  else
    let '(sig, request) := GetQueryParam "sig" request in
    if negb (str_empty sig) then
      w ← GetWorld;
      let '(valid, request) := VerifyPresignUrl (clock_now w) request valid_tokens in
      if valid : bool then next (SetHeader "X-Auth-Method" "presign" request)
      else response ← refuse (Resp_Forbidden "Invalid or expired signature" ""); mret (request, response)
    else
      let auth_header := GetHeader "Authorization" request in
      if negb (str_empty auth_header) && ValidateBearerToken auth_header valid_tokens
      then next (SetHeader "X-Auth-Method" "bearer" request)
      else
        let api_key := GetHeader "X-API-Key" request in
        if negb (str_empty api_key) && ValidateApiKey api_key valid_tokens
        then next (SetHeader "X-Auth-Method" "apikey" request)
        else response ← refuse (Resp_Unauthorized "Authentication required" ""); mret (request, response).
End handlers.

(** ** Lemmas *)

Lemma found_in_In s v : found_in s v = true <-> s ∈ v.
Proof.
  induction v as [|t v IH]; cbn; [split; [done|by intros ?%elem_of_nil]|].
  rewrite elem_of_cons. destruct (String.eqb_spec t s) as [->|Hne]; [by split; auto|].
  rewrite IH. split; [auto|]. by intros [->|?].
Qed.

Lemma any_secret_In `{Digest} method path sig expires secrets :
  any_secret method path sig expires secrets = true <->
  exists secret, secret ∈ secrets /\ GenerateSignature secret method path expires = sig.
Proof.
  induction secrets as [|s r IH]; cbn.
  { split; [done|]. intros (s & Hs & _). by apply elem_of_nil in Hs. }
  destruct (String.eqb_spec (GenerateSignature s method path expires) sig) as [E|E].
  { split; [|done]. intros _. exists s. split; [by left|done]. }
  rewrite IH. split; intros (t & Ht & Et); exists t.
  - split; [by right|done].
  - apply elem_of_cons in Ht as [->|Ht]; done.
Qed.

Lemma bearer_iff h valid_tokens :
  ValidateBearerToken h valid_tokens = true <->
  exists token, h = "Bearer " +:+ token /\ token <> "" /\ token ∈ valid_tokens.
Proof.
  unfold ValidateBearerToken. split.
  - intros H. destruct (Nat.leb_spec (String.length h) (String.length "Bearer ")) as [|Hl]; [done|].
    destruct (String.eqb_spec (str_take (String.length "Bearer ") h) "Bearer ") as [E|]; [|done].
    cbn [negb] in H. exists (str_drop (String.length "Bearer ") h). split_and!.
    + rewrite <-E at 1. by rewrite str_take_drop.
    + intros Hd. rewrite <-(str_take_drop (String.length "Bearer ") h), E, Hd in Hl. cbn in Hl. lia.
    + by apply found_in_In.
  - intros (token & -> & Hne & Hin). rewrite str_length_app, str_take_app, str_drop_app.
    destruct (Nat.leb_spec (String.length "Bearer " + String.length token) (String.length "Bearer ")) as [Hl|_].
    { destruct token; [done|]. cbn in Hl. lia. }
    cbn [String.eqb negb]. by apply found_in_In.
Qed.

(** A printed number has no line feed. *)
Lemma str_all_digit_free c s : is_digit c = false -> str_all is_digit s = true -> str_free c s = true.
Proof.
  intros Hc. apply str_all_impl. intros d Hd. destruct (Ascii.eqb_spec c d) as [->|]; [congruence|done].
Qed.

Lemma to_string_free c n : is_digit c = false -> c <> "-"%char -> str_free c (to_string n) = true.
Proof.
  intros Hc Hm. destruct (Z.leb_spec 0 n) as [Hn|Hn].
  - apply str_all_digit_free; [done|]. by apply to_string_digits.
  - assert (E : to_string n = String "-" (to_string (- n))) by (destruct n; (done || lia)).
    rewrite E, str_free_cons, str_all_digit_free by (done || (apply to_string_digits; lia)).
    destruct (Ascii.eqb_spec c "-"); done.
Qed.

(** The text after the last occurrence of a character is determined. *)
Lemma app_last_inj c x y a b :
  str_free c x = true -> str_free c y = true ->
  a +:+ String c x = b +:+ String c y -> a = b /\ x = y.
Proof.
  intros Hx Hy. revert b. induction a as [|d a IH]; intros [|e b]; cbn.
  - by intros [= ->].
  - intros [= -> ->]. exfalso. revert Hx. rewrite str_free_app, str_free_cons, Ascii.eqb_refl.
    by rewrite andb_false_r.
  - intros [= -> <-]. exfalso. revert Hy. rewrite str_free_app, str_free_cons, Ascii.eqb_refl.
    by rewrite andb_false_r.
  - intros [= -> E]. by destruct (IH b E) as [-> ->].
Qed.

(** And the text before the first one. *)
Lemma app_first_inj c a b x y :
  str_free c a = true -> str_free c b = true ->
  a +:+ String c x = b +:+ String c y -> a = b /\ x = y.
Proof.
  intros Ha Hb E. pose proof (str_find_app c a x Ha) as F.
  rewrite E, str_find_app in F by done. injection F as F.
  assert (Eab : a = b).
  { rewrite <-(str_take_app a (String c x)), E, <-F. apply str_take_app. }
  split; [done|]. subst b. rewrite <-(str_drop_app_S a c x), E. apply str_drop_app_S.
Qed.

Lemma string_to_sign_inj m1 p1 e1 m2 p2 e2 :
  str_free LF m1 = true -> str_free LF m2 = true ->
  string_to_sign m1 p1 e1 = string_to_sign m2 p2 e2 -> m1 = m2 /\ p1 = p2 /\ e1 = e2.
Proof.
  intros H1 H2 E. unfold string_to_sign in E.
  apply app_first_inj in E as [-> E]; [|done..].
  apply app_last_inj in E as [-> E]; [|by apply to_string_free..].
  split_and!; [done..|]. by apply (inj pretty).
Qed.

Lemma method_free m : str_free LF (HttpMethodToString m) = true.
Proof. by destruct m. Qed.

(** Query parsing changes only the query cache. *)
Definition same_request (a b : HttpRequest) : Prop :=
  method_ b = method_ a /\ path_ b = path_ a /\ HttpRequest.headers_ b = HttpRequest.headers_ a /\
  body_ b = body_ a /\ query_params_ (ParseQueryString b) = query_params_ (ParseQueryString a) /\
  path_params_ b = path_params_ a /\ trace_id_ b = trace_id_ a.

Lemma parse_query_same r : same_request r (ParseQueryString r).
Proof.
  unfold same_request, ParseQueryString. destruct (query_parsed_ r || str_empty (query_ r)); done.
Qed.

Lemma same_request_trans a b c : same_request a b -> same_request b c -> same_request a c.
Proof.
  intros (A1 & A2 & A3 & A4 & A5 & A6 & A7) (B1 & B2 & B3 & B4 & B5 & B6 & B7).
  split_and!; congruence.
Qed.

(** The value a query parameter has, an empty string when absent. *)
Definition query_value (k : string) (r : HttpRequest) : string := fst (GetQueryParam k r).

Lemma get_query_param k r : GetQueryParam k r = (query_value k r, ParseQueryString r).
Proof. done. Qed.

Lemma query_value_same k a b : same_request a b -> query_value k b = query_value k a.
Proof. intros (_ & _ & _ & _ & E & _). unfold query_value, GetQueryParam. cbn. by rewrite E. Qed.

Section presign_spec.
Context `{Digest}.

(** What a presigned request must carry: a signature under one of the secrets of
    its own method and path and of an expiry that has not passed. *)
Inductive presign_grants (now : Z) (secrets : list string) (r : HttpRequest) : Prop :=
  Presigned (secret : string) (expires : Z) :
    secret ∈ secrets ->
    stoll (query_value "expires" r) = Conv expires ->
    now <= expires ->
    query_value "method" r = HttpMethodToString (method_ r) \/
      (query_value "method" r = "" /\ method_ r = GET) ->
    query_value "sig" r =
      GenerateSignature secret (HttpMethodToString (method_ r)) (path_ r) expires ->
    presign_grants now secrets r.

Lemma signature_nonempty secret method path expires :
  GenerateSignature secret method path expires <> "".
Proof.
  intros E. apply (f_equal String.length) in E. revert E.
  unfold GenerateSignature, HMAC_SHA256. by rewrite to_hex_length, hmac_length.
Qed.

Lemma method_empty m : HttpMethodToString m <> "".
Proof. by destruct m. Qed.

Lemma method_string_inj a b : HttpMethodToString a = HttpMethodToString b -> a = b.
Proof. by destruct a, b. Qed.

Lemma verify_request now r secrets :
  snd (VerifyPresignUrl now r secrets) = ParseQueryString (ParseQueryString (ParseQueryString r)).
Proof.
  unfold VerifyPresignUrl. rewrite !get_query_param.
  destruct (_ || _); [done|]. destruct (stoll _); try done.
  destruct (_ <? _); [done|]. destruct (negb _); done.
Qed.

Lemma verify_iff now r secrets :
  fst (VerifyPresignUrl now r secrets) = true <-> presign_grants now secrets r.
Proof.
  pose proof (parse_query_same r) as S1.
  pose proof (same_request_trans _ _ _ S1 (parse_query_same _)) as S2.
  pose proof (same_request_trans _ _ _ S2 (parse_query_same _)) as S3.
  unfold VerifyPresignUrl. rewrite !get_query_param.
  rewrite (query_value_same "sig" _ _ S1), (query_value_same "method" _ _ S2).
  destruct S3 as (Em & Ep & _). rewrite Em, Ep. clear Em Ep S1 S2.
  set (meth := if str_empty (query_value "method" r) then "GET" else query_value "method" r).
  assert (Hmeth : HttpMethodToString (method_ r) = meth <->
    query_value "method" r = HttpMethodToString (method_ r) \/
    (query_value "method" r = "" /\ method_ r = GET)).
  { unfold meth. destruct (str_empty (query_value "method" r)) eqn:E.
    - apply str_empty_spec in E. rewrite E. split.
      + intros D. right. split; [done|]. by apply (method_string_inj _ GET).
      + intros [D|[_ ->]]; [|done]. by destruct (method_empty (method_ r)).
    - apply str_empty_false in E. split; [by left|]. by intros [->|[? _]]. }
  destruct (str_empty (query_value "expires" r) || str_empty (query_value "sig" r)) eqn:E1; cbn [fst].
  { split; [done|]. intros [s e _ Hr _ _ Hs]. exfalso. apply orb_true_iff in E1 as [E1|E1].
    - apply str_empty_spec in E1. by rewrite E1 in Hr.
    - apply str_empty_spec in E1. rewrite E1 in Hs. by eapply signature_nonempty. }
  destruct (stoll (query_value "expires" r)) as [expires| |] eqn:E2; cbn [fst].
  2,3: split; [done|]; by intros [s e _ Hr _ _ _]; rewrite E2 in Hr.
  destruct (Z.ltb_spec expires now) as [Hlt|Hle]; cbn [fst].
  { split; [done|]. intros [s e _ Hr Hf _ _]. rewrite E2 in Hr. injection Hr as <-. lia. }
  destruct (String.eqb_spec (HttpMethodToString (method_ r)) meth) as [Hm|Hm]; cbn [fst negb].
  2: { split; [done|]. intros [s e _ _ _ Hmm _]. by apply Hmeth in Hmm. }
  rewrite any_secret_In, <-Hm. split.
  - intros (s & Hs & E). exists s expires; try done. by apply Hmeth.
  - intros [s e Hin Hr _ _ Hs]. rewrite E2 in Hr. injection Hr as <-. by exists s.
Qed.

(** A request's credential and how the middleware names it. *)
Inductive Credential (now : Z) (valid_tokens : list string) (r : HttpRequest) : string -> Prop :=
  | Cred_presign :
      query_value "sig" r <> "" -> presign_grants now valid_tokens r ->
      Credential now valid_tokens r "presign"
  | Cred_bearer token :
      query_value "sig" r = "" -> GetHeader "Authorization" r = "Bearer " +:+ token ->
      token <> "" -> token ∈ valid_tokens -> Credential now valid_tokens r "bearer"
  | Cred_apikey :
      query_value "sig" r = "" -> GetHeader "X-API-Key" r <> "" ->
      GetHeader "X-API-Key" r ∈ valid_tokens -> Credential now valid_tokens r "apikey".

Lemma get_header_same k a b : same_request a b -> GetHeader k b = GetHeader k a.
Proof. intros (_ & _ & E & _). unfold GetHeader. by rewrite E. Qed.
End presign_spec.

(** The refusals of the middleware. *)
Definition refusal `{JsonLib} (r : exn HttpResponse) : Prop :=
  r = Resp_Unauthorized "Authentication required" "" \/
  r = Resp_Forbidden "Invalid or expired signature" "".

(** The request as the middleware leaves it, with its answer. *)
Definition left_with (request : HttpRequest) (r : exn HttpResponse) : exn (HttpRequest * HttpResponse) :=
  match r with Ret response => Ret (request, response) | Throw e => Throw e end.

Lemma refuse_leaves {W} request r (w : W) :
  (response ← refuse r; mret (request, response)) w = (left_with request r, w).
Proof. by destruct r. Qed.

Lemma hmac_free `{Digest} c secret data :
  is_hex c = false -> str_free c (HMAC_SHA256 secret data) = true.
Proof.
  intros Hc. eapply str_all_impl; [|apply to_hex_digits]. intros d Hd.
  destruct (Ascii.eqb_spec c d) as [->|]; [congruence|done].
Qed.

(** Reading the query of a presigned URL. *)
Lemma presigned_query `{Digest} r expires sig method :
  query_parsed_ r = false -> query_params_ r = ∅ -> str_free "&" sig = true -> method <> "" ->
  str_free "&" method = true ->
  query_ r = "expires=" +:+ to_string expires +:+ "&sig=" +:+ sig +:+ "&method=" +:+ method ->
  query_value "expires" r = to_string expires /\ query_value "sig" r = sig /\
  query_value "method" r = method.
Proof.
  intros Hp Hq Hs Hm Hmf Eq. unfold query_value, GetQueryParam, ParseQueryString.
  rewrite Hp, Hq, Eq. cbn [orb str_empty String.append fst query_params_ set_query_params].
  assert (Hg : getlines "&" ("expires=" +:+ to_string expires +:+ "&sig=" +:+ sig +:+ "&method=" +:+ method)
    = ["expires=" +:+ to_string expires; "sig=" +:+ sig; "method=" +:+ method]).
  { unfold getlines.
    change ("&sig=" +:+ sig +:+ "&method=" +:+ method)
      with (String "&" (("sig=" +:+ sig) +:+ String "&" ("method=" +:+ method))).
    rewrite <-str_app_assoc, split_on_app, split_on_app, split_on_free; [done| | |].
    - done.
    - done.
    - change (str_free "&" (to_string expires) = true). by apply to_string_free. }
  cbn [String.append] in Hg |- *. rewrite Hg. cbn [fold_left].
  pose proof (query_pair_kv "expires" (to_string expires)) as Q1.
  pose proof (query_pair_kv "sig" sig) as Q2.
  pose proof (query_pair_kv "method" method) as Q3.
  cbn [String.append] in Q1, Q2, Q3. rewrite Q1, Q2, Q3 by done.
  split_and!; [|rewrite lookup_insert_ne by done|by rewrite lookup_insert_eq].
  - do 2 rewrite lookup_insert_ne by done. by rewrite lookup_insert_eq.
  - by rewrite lookup_insert_eq.
Qed.

Lemma presigned_url_split `{Digest} secret method path expires p q :
  str_free "?" path = true -> str_free "?" p = true ->
  p +:+ "?" +:+ q = presigned_url secret method path expires ->
  p = path /\
  q = "expires=" +:+ to_string expires +:+ "&sig=" +:+ GenerateSignature secret method path expires +:+
      "&method=" +:+ method.
Proof.
  intros H1 H2 E. unfold presigned_url in E.
  change (p +:+ String "?" q = path +:+ String "?" ("expires=" +:+ to_string expires +:+ "&sig=" +:+
    GenerateSignature secret method path expires +:+ "&method=" +:+ method)) in E.
  by apply app_first_inj in E.
Qed.

Lemma create_presign_run {W} `{Digest, JsonLib, ClockOf W} secret secrets request (w : W) body b o bucket object ttl :
  json_parse (body_ request) = Ret body ->
  json_field "bucket" body = Some b -> json_get_string b = Ret bucket ->
  json_field "object" body = Some o -> json_get_string o = Ret object ->
  presign_method body = Ret (Some "GET") -> presign_ttl body = Ret (Some ttl) ->
  let path := "/buckets/" +:+ bucket +:+ "/objects/" +:+ object in
  let expires := clock_now w + ttl in
  CreatePresignUrl (secret :: secrets) request w =
  (text ← json_dump (JObj [
      ("url", JStr (presigned_url secret "GET" path expires));
      ("expires_at", JInt expires); ("bucket", JStr bucket); ("object", JStr object);
      ("method", JStr "GET")]);
   Ret (Resp_OK text), w).
Proof.
  intros Hp Hb Eb Ho Eo Hm Ht. unfold CreatePresignUrl. rewrite Hp, Hb, Ho.
  unfold mbind, M_bind, lift_exn. rewrite Eb, Eo, Hm, Ht. unfold GetWorld.
  cbv zeta. by destruct (json_dump _).
Qed.

Lemma presign_ttl_bounds `{JsonLib} body ttl : presign_ttl body = Ret (Some ttl) -> 1 <= ttl <= 604800.
Proof.
  unfold presign_ttl. destruct (json_field _ _) as [v|]; [|by intros [= <-]].
  unfold mbind, exn_bind. destruct (json_get_int v) as [t|]; [|done].
  destruct (Z.ltb_spec t 1), (Z.ltb_spec (7 * 24 * 3600) t); cbn; intros [= <-]; lia.
Qed.

(** ** Properties *)

Lemma grants_same `{Digest, JsonLib} now valid_tokens r r' :
  same_request r r' -> presign_grants now valid_tokens r' <-> presign_grants now valid_tokens r.
Proof.
  intros S. destruct S as (Em & Ep & S') eqn:?. split; intros [s e G1 G2 G3 G4 G5]; exists s e;
    rewrite ?Em, ?Ep, ?(query_value_same _ _ _ S) in *; done.
Qed.

(** Neither of the two headers is accepted: there is no credential but a signature. *)
Lemma headers_refused `{Digest, JsonLib} now valid_tokens r kind :
  query_value "sig" r = "" ->
  negb (str_empty (GetHeader "Authorization" r)) && ValidateBearerToken (GetHeader "Authorization" r) valid_tokens = false ->
  negb (str_empty (GetHeader "X-API-Key" r)) && ValidateApiKey (GetHeader "X-API-Key" r) valid_tokens = false ->
  ~ Credential now valid_tokens r kind.
Proof.
  intros Es Eb Ek Hc. destruct Hc as [Hs _|token _ Ht Hne Hin|_ Hne Hin]; [done| |].
  - assert (Hv : ValidateBearerToken (GetHeader "Authorization" r) valid_tokens = true) by (apply bearer_iff; eauto).
    rewrite Hv, Ht in Eb. discriminate.
  - apply str_empty_false in Hne. apply found_in_In in Hin.
    unfold ValidateApiKey in Ek. rewrite Hne, Hin in Ek. discriminate.
Qed.

(** C17. The authentication gate: outside the three health paths a request runs
    the rest of the chain exactly when it carries a valid credential: a presigned
    signature of its own method and path that has not expired, a known bearer
    token, or a known API key. Any other request is answered 401 or 403 and
    nothing after the middleware runs. *)
Theorem auth_gate {W} `{Digest, JsonLib, ClockOf W} valid_tokens request (next : Chain W) (w : W) :
  (path_ request ∈ ["/healthz"; "/readyz"; "/metrics"] ->
   AuthMiddleware_Handle valid_tokens request next w = next request w) /\
  (path_ request ∉ ["/healthz"; "/readyz"; "/metrics"] ->
   (exists kind req', Credential (clock_now w) valid_tokens request kind /\
      same_request request req' /\
      AuthMiddleware_Handle valid_tokens request next w =
        next (SetHeader "X-Auth-Method" kind req') w) \/
   ((forall kind, ~ Credential (clock_now w) valid_tokens request kind) /\
    exists r req', refusal r /\ same_request request req' /\
      AuthMiddleware_Handle valid_tokens request next w = (left_with req' r, w))).
Proof.
  unfold AuthMiddleware_Handle, RequiresAuth. rewrite negb_involutive.
  destruct (found_in (path_ request) public_paths) eqn:Ef.
  { apply found_in_In in Ef. split; [done|]. by intros ?. }
  split. { intros Hin. apply found_in_In in Hin. unfold public_paths in Ef. congruence. }
  intros _. rewrite get_query_param.
  pose proof (parse_query_same request) as S1. set (q := ParseQueryString request) in *.
  destruct (str_empty (query_value "sig" request)) eqn:Es; cbn [negb].
  - apply str_empty_spec in Es.
    destruct (negb (str_empty (GetHeader "Authorization" q)) &&
              ValidateBearerToken (GetHeader "Authorization" q) valid_tokens) eqn:Eb.
    { apply andb_true_iff in Eb as [_ Eb]. apply bearer_iff in Eb as (token & Et & Hne & Hin).
      rewrite (get_header_same _ _ _ S1) in Et.
      left. exists "bearer", q. split_and!; [by econstructor|done|done]. }
    destruct (negb (str_empty (GetHeader "X-API-Key" q)) &&
              ValidateApiKey (GetHeader "X-API-Key" q) valid_tokens) eqn:Ek.
    { apply andb_true_iff in Ek as [Hne Ek]. apply negb_true_iff, str_empty_false in Hne.
      apply found_in_In in Ek. rewrite (get_header_same _ _ _ S1) in Hne.
      rewrite (get_header_same _ _ _ S1) in Ek.
      left. exists "apikey", q. split_and!; [by constructor|done|done]. }
    right. split; [|eexists _, q; split; [by left|split; [done|apply refuse_leaves]]].
    rewrite !(get_header_same _ _ _ S1) in Eb. rewrite !(get_header_same _ _ _ S1) in Ek.
    intros kind. by apply headers_refused.
  - apply str_empty_false in Es. unfold GetWorld, mbind, M_bind.
    pose proof (verify_iff (clock_now w) q valid_tokens) as Hv.
    pose proof (verify_request (clock_now w) q valid_tokens) as Hr.
    pose proof (grants_same (clock_now w) valid_tokens _ _ S1) as Hg.
    assert (S2 : same_request request (ParseQueryString (ParseQueryString (ParseQueryString q)))).
    { repeat (eapply same_request_trans; [|apply parse_query_same]). done. }
    destruct (VerifyPresignUrl (clock_now w) q valid_tokens) as [[] req']; cbn in Hv, Hr; subst req'.
    + left. exists "presign". eexists. split_and!; [|exact S2|done].
      constructor; [done|]. apply Hg. by apply Hv.
    + right. split; [|eexists _, _; split; [by right|split; [exact S2|apply refuse_leaves]]].
      intros kind Hc. destruct Hc as [_ G|? Hs|Hs]; [|done..]. by apply Hg, Hv in G.
Qed.

(** A signature is good for one method, path and expiry: equal signatures
    under a secret sign the same request, or two different messages with the same
    HMAC are at hand. *)
Theorem presign_binds `{Digest} secret m1 p1 e1 m2 p2 e2 :
  GenerateSignature secret (HttpMethodToString m1) p1 e1 =
  GenerateSignature secret (HttpMethodToString m2) p2 e2 ->
  (m1 = m2 /\ p1 = p2 /\ e1 = e2) \/
  exists a b, a <> b /\ hmac_raw (bytes_of secret) a = hmac_raw (bytes_of secret) b.
Proof.
  unfold GenerateSignature, HMAC_SHA256. intros E%to_hex_inj.
  destruct (decide (string_to_sign (HttpMethodToString m1) p1 e1 =
                    string_to_sign (HttpMethodToString m2) p2 e2)) as [D|D].
  - apply string_to_sign_inj in D as (D1 & D2 & D3); [|apply method_free..].
    left. apply method_string_inj in D1. done.
  - right. eexists _, _. split; [|exact E]. by intros ?%bytes_inj.
Qed.


(** ** Witnesses *)

#[local] Instance z_clock : ClockOf Z := fun w => w.
#[local] Instance z_digest : Digest := toy_digest.

(** The tree library with a body the handler reads. *)
Definition presign_body : Json := JObj [("bucket", JStr "b"); ("object", JStr "o"); ("ttl_seconds", JInt 60)].

#[local] Instance presign_json : JsonLib := {|
  json_dump := @json_dump tree_json;
  json_parse s := if String.eqb s "body" then Ret presign_body else Throw "parse_error";
  json_get_int := @json_get_int tree_json;
  json_get_i64 := @json_get_i64 tree_json;
  json_get_string := @json_get_string tree_json
|}.

Definition presign_request : HttpRequest := SetBody "body" (SetMethod POST new_request).

Definition follow_request (url : string) : HttpRequest :=
  match split_on "?" url with
  | p :: q :: _ => SetQuery q (SetPath p (SetMethod GET new_request))
  | _ => new_request
  end.

Definition sample_url : string := presigned_url "secret" "GET" "/buckets/b/objects/o" 1060.


Lemma presign_binds_witness :
  GenerateSignature "s" (HttpMethodToString GET) "/p" 7 =
    GenerateSignature "s" (HttpMethodToString GET) "/p" 7 /\
  ((GET = GET /\ "/p" = "/p" /\ 7 = 7) \/
   exists a b, a <> b /\ hmac_raw (bytes_of "s") a = hmac_raw (bytes_of "s") b).
Proof. split; [reflexivity|]. apply (presign_binds "s" GET "/p" 7 GET "/p" 7). reflexivity. Defined.

Definition reached : HttpHandler Z := fun _ w => (Ret (Resp_Ok "in"), w + 1).

Lemma auth_gate_witness :
  AuthMiddleware_Handle ["t"] (SetPath "/healthz" new_request) (chain_end reached) 0 =
    (Ret (SetPath "/healthz" new_request, Resp_Ok "in"), 1) /\
  AuthMiddleware_Handle ["t"] (SetPath "/buckets" new_request) (chain_end reached) 0 =
    (left_with (ParseQueryString (SetPath "/buckets" new_request)) (Resp_Unauthorized "Authentication required" ""), 0).
Proof.
  split.
  - rewrite (proj1 (auth_gate ["t"] (SetPath "/healthz" new_request) (chain_end reached) 0)); [reflexivity|].
    cbn. left.
  - vm_compute. reflexivity.
Defined.
