(* ===== verification/Trace.v ===== *)
(** * Tracing (src/src/api/middleware/trace_middleware.h, .cpp)

    The middleware that attaches an identifier to a request and its response. *)
From S2P Require Import Prelude Uuid HttpResponse HttpRouter HttpRequest.

(** ** The middleware *)

Definition TraceMiddleware_Handle {W} `{UuidGen W} : Middleware W := fun request next w =>
  let trace_id := GetHeader "X-Request-Id" request in
  let '(trace_id, request, w) :=
    if str_empty trace_id then
      let '(id, w) := uuid_generate w in (id, SetHeader "X-Request-Id" id request, w)
    else (trace_id, request, w) in
  let request := SetTraceId trace_id request in
  ('(request, response) ← next request;
   mret (request, HttpResponse.SetHeader "X-Request-Id" trace_id response)) w.

(** ** Lemmas *)

(** What the rest of the chain leaves, with the identifier in its response. *)
Definition named (tid : string) (r : exn (HttpRequest * HttpResponse)) : exn (HttpRequest * HttpResponse) :=
  match r with
  | Ret (request, response) => Ret (request, HttpResponse.SetHeader "X-Request-Id" tid response)
  | Throw e => Throw e
  end.

Lemma trace_run `{UuidGen W} (request : HttpRequest) (next : Chain W) (w : W) tid req1 w1 r w2 :
  (if str_empty (GetHeader "X-Request-Id" request)
   then tid = fst (uuid_generate w) /\ req1 = SetHeader "X-Request-Id" tid request /\ w1 = snd (uuid_generate w)
   else tid = GetHeader "X-Request-Id" request /\ req1 = request /\ w1 = w) ->
  next (SetTraceId tid req1) w1 = (r, w2) ->
  TraceMiddleware_Handle request next w = (named tid r, w2).
Proof.
  intros Ht Hn. unfold TraceMiddleware_Handle.
  destruct (str_empty _); destruct Ht as (-> & -> & ->).
  - destruct (uuid_generate w) as [id w1]; cbn in *. unfold mbind, M_bind. rewrite Hn. by destruct r as [[]|].
  - cbn. unfold mbind, M_bind. rewrite Hn. by destruct r as [[]|].
Qed.

(** ** Properties *)

(** Tracing: the rest of the chain sees a request whose identifier and
    [X-Request-Id] header agree, the client's own identifier when it sent one;
    the response it returns goes out with that identifier. *)
Theorem trace_propagates `{UuidGen W} (request : HttpRequest) (next : Chain W) (w : W) :
  (fst (uuid_generate w) <> "") ->
  exists req1 w1,
    GetHeader "X-Request-Id" req1 = trace_id_ req1 /\ trace_id_ req1 <> "" /\
    (GetHeader "X-Request-Id" request <> "" -> trace_id_ req1 = GetHeader "X-Request-Id" request) /\
    path_ req1 = path_ request /\ body_ req1 = body_ request /\
    forall r w2, next req1 w1 = (r, w2) ->
      TraceMiddleware_Handle request next w = (named (trace_id_ req1) r, w2).
Proof.
  intros Hgen. destruct (str_empty (GetHeader "X-Request-Id" request)) eqn:E.
  - apply str_empty_spec in E.
    exists (SetTraceId (fst (uuid_generate w)) (SetHeader "X-Request-Id" (fst (uuid_generate w)) request)),
      (snd (uuid_generate w)).
    split_and!; [|done|by rewrite E|done|done|].
    + unfold GetHeader. cbn. by rewrite lookup_insert_eq.
    + intros r w2 Hn. eapply trace_run in Hn; [exact Hn|]. by rewrite E.
  - pose proof E as E'. apply str_empty_false in E'.
    exists (SetTraceId (GetHeader "X-Request-Id" request) request), w.
    split_and!; try done. intros r w2 Hn. eapply trace_run in Hn; [exact Hn|]. by rewrite E.
Qed.

(** ** Witnesses *)

Definition echo_id : HttpHandler unit := fun req => mret (Resp_Ok (trace_id_ req)).

Definition fixed_uuid : UuidGen unit := fun w => (uuid_of_words 1 2 3 4 5 6, w).

Lemma trace_propagates_witness :
  exists req1 w1, trace_id_ req1 <> "" /\
    forall r w2, chain_end echo_id req1 w1 = (r, w2) ->
      fst (@TraceMiddleware_Handle unit fixed_uuid new_request (chain_end echo_id) tt) = named (trace_id_ req1) r.
Proof.
  destruct (@trace_propagates unit fixed_uuid new_request (chain_end echo_id) tt) as (req1 & w1 & _ & D & _ & _ & _ & H).
  - vm_compute. discriminate.
  - exists req1, w1. split; [exact D|]. intros r w2 Hn. by rewrite (H r w2 Hn).
Defined.
