(* ===== verification/TimerWheel.v ===== *)
(** * The timer wheel (src/src/net/epoll/timer_wheel.h, .cpp)

    Timers hang in the buckets of a ring that advances one slot a second. The
    entries are shared between the buckets and the table of identifiers, so they
    live in a heap of addresses: cancelling marks the shared entry, refreshing
    marks it and puts a copy under a new address. The wheel is shown to be an
    exact table of countdowns. *)
From S2P Require Import Prelude.

Section wheel.
Context {C : Type}.

Record TimerEntry : Type := MkEntry {
  te_id : Z; te_callback : option C; te_repeat : bool; te_interval : Z; te_cancelled : bool }.

(** [heap_] holds the entries, [next_addr_] the next free address. *)
Record TimerWheel : Type := MkWheel {
  wheel_size_ : nat;
  current_slot_ : nat;
  wheel_ : list (list nat);
  timer_map_ : gmap Z nat;
  next_timer_id_ : Z;
  heap_ : gmap nat TimerEntry;
  next_addr_ : nat
}.

Definition new_wheel (wheel_size : nat) : TimerWheel :=
  MkWheel wheel_size 0 (replicate wheel_size []) ∅ 1 ∅ 0.

(** [(current_slot_ + delay) % wheel_size_]. *)
Definition target_slot (w : TimerWheel) (delay : Z) : nat :=
  (current_slot_ w + Z.to_nat delay) mod wheel_size_ w.

(** [wheel_[slot].push_back(entry)]. *)
Definition push (slot addr : nat) (wheel : list (list nat)) : list (list nat) :=
  alter (fun bucket => bucket ++ [addr]) slot wheel.

(** [std::make_shared] and the push of the new entry, which gets [id]. *)
Definition hang (e : TimerEntry) (w : TimerWheel) : TimerWheel :=
  let addr := next_addr_ w in
  MkWheel (wheel_size_ w) (current_slot_ w) (push (target_slot w (te_interval e)) addr (wheel_ w))
    (<[te_id e := addr]> (timer_map_ w)) (next_timer_id_ w) (<[addr := e]> (heap_ w)) (S addr).

Definition AddTimer (delay_seconds : Z) (callback : option C) (repeat : bool) (w : TimerWheel)
    : Z * TimerWheel :=
  let delay := if (delay_seconds <=? 0)%Z then 1%Z else delay_seconds in
  let id := next_timer_id_ w in
  let w1 := hang (MkEntry id callback repeat delay false) w in
  (id, MkWheel (wheel_size_ w1) (current_slot_ w1) (wheel_ w1) (timer_map_ w1) (u64 (id + 1))
         (heap_ w1) (next_addr_ w1)).

(** [weak_ptr::lock]: the entry is alive while a bucket holds it. *)
Definition lock (w : TimerWheel) (addr : nat) : option TimerEntry :=
  if bool_decide (addr ∈ mjoin (wheel_ w)) then heap_ w !! addr else None.

Definition cancel_entry (addr : nat) (w : TimerWheel) : TimerWheel :=
  MkWheel (wheel_size_ w) (current_slot_ w) (wheel_ w) (timer_map_ w) (next_timer_id_ w)
    (alter (fun e => MkEntry (te_id e) (te_callback e) (te_repeat e) (te_interval e) true) addr (heap_ w))
    (next_addr_ w).

Definition CancelTimer (id : Z) (w : TimerWheel) : TimerWheel :=
  match timer_map_ w !! id with
  | None => w
  | Some addr =>
      let w := match lock w addr with Some _ => cancel_entry addr w | None => w end in
      MkWheel (wheel_size_ w) (current_slot_ w) (wheel_ w) (delete id (timer_map_ w))
        (next_timer_id_ w) (heap_ w) (next_addr_ w)
  end.

Definition RefreshTimer (id delay_seconds : Z) (w : TimerWheel) : TimerWheel :=
  match timer_map_ w !! id with
  | None => w
  | Some addr =>
      match lock w addr with
      | None => w
      | Some entry =>
          if te_cancelled entry then w
          else
            let interval := if (0 <? delay_seconds)%Z then delay_seconds else te_interval entry in
            hang (MkEntry (te_id entry) (te_callback entry) (te_repeat entry) interval false)
              (cancel_entry addr w)
      end
  end.

(** The loop over the bucket: the callbacks run, the repeating entries, and the
    table without the timers that are over. The callbacks of this program only
    queue work for the event loop and do not call the wheel. *)
Fixpoint run_bucket (bucket : list nat) (heap : gmap nat TimerEntry) (map : gmap Z nat)
    : list C * list nat * gmap Z nat :=
  match bucket with
  | [] => ([], [], map)
  | addr :: rest =>
      match heap !! addr with
      | Some e =>
          if te_cancelled e then run_bucket rest heap map
          else
            let map1 := if te_repeat e then map else delete (te_id e) map in
            let '(fired, repeats, map2) := run_bucket rest heap map1 in
            (option_list (te_callback e) ++ fired,
             if te_repeat e then addr :: repeats else repeats, map2)
      | None => run_bucket rest heap map
      end
  end.

(** Putting a repeating entry back. *)
Definition rehang (w : TimerWheel) (addr : nat) : TimerWheel :=
  match heap_ w !! addr with
  | Some e => MkWheel (wheel_size_ w) (current_slot_ w) (push (target_slot w (te_interval e)) addr (wheel_ w))
                (timer_map_ w) (next_timer_id_ w) (heap_ w) (next_addr_ w)
  | None => w
  end.

Definition Tick (w : TimerWheel) : list C * TimerWheel :=
  let slot := (current_slot_ w + 1) mod wheel_size_ w in
  let bucket := default [] (wheel_ w !! slot) in
  let '(fired, repeats, map) := run_bucket bucket (heap_ w) (timer_map_ w) in
  let w1 := MkWheel (wheel_size_ w) slot (<[slot := []]> (wheel_ w)) map (next_timer_id_ w)
              (heap_ w) (next_addr_ w) in
  (fired, fold_left rehang repeats w1).
(** ** The table of countdowns *)

Record ATimer : Type := MkATimer {
  at_left : nat; at_interval : Z; at_repeat : bool; at_callback : option C }.

(** The number of ticks until a timer of the given delay is due: the delay, or
    what is left of it when whole turns of the wheel are dropped. *)
Definition countdown (size : nat) (delay : Z) : nat := S ((Z.to_nat delay - 1) mod size).

Definition a_timer (size : nat) (delay : Z) (repeat : bool) (cb : option C) : ATimer :=
  MkATimer (countdown size delay) delay repeat cb.

Definition a_refresh (size : nat) (id delay : Z) (A : gmap Z ATimer) : gmap Z ATimer :=
  match A !! id with
  | Some t =>
      let interval := if (0 <? delay)%Z then delay else at_interval t in
      <[id := a_timer size interval (at_repeat t) (at_callback t)]> A
  | None => A
  end.

Definition due (t : ATimer) : bool := (at_left t =? 1)%nat.

Definition a_step (size : nat) (t : ATimer) : option ATimer :=
  if due t
  then if at_repeat t then Some (a_timer size (at_interval t) true (at_callback t)) else None
  else Some (MkATimer (at_left t - 1) (at_interval t) (at_repeat t) (at_callback t)).

Definition a_due (A : gmap Z ATimer) : list Z := (filter (fun p => due p.2 = true) (map_to_list A)).*1.

Lemma countdown_small size delay :
  (0 < delay <= Z.of_nat size)%Z -> countdown size delay = Z.to_nat delay.
Proof. intros H. unfold countdown. rewrite Nat.mod_small; lia. Qed.

(** The callbacks of the timers that are due, in some order. *)
Definition a_fired (A : gmap Z ATimer) : list C := omap (fun id => A !! id ≫= at_callback) (a_due A).

Definition a_tick (size : nat) (A : gmap Z ATimer) : gmap Z ATimer := omap (a_step size) A.

(** ** Slots *)

(** Ticks until the wheel is at slot [s]. *)
Definition dist (size cur s : nat) : nat := if (cur <? s)%nat then s - cur else s + size - cur.

Lemma dist_target size cur d :
  (cur < size)%nat -> (0 < d)%Z ->
  dist size cur ((cur + Z.to_nat d) mod size) = countdown size d.
Proof.
  intros Hc Hd. unfold dist, countdown.
  set (n := (Z.to_nat d - 1)%nat). replace (cur + Z.to_nat d)%nat with (cur + 1 + n)%nat by lia.
  pose proof (Nat.div_mod_eq n size) as E. pose proof (Nat.mod_upper_bound n size ltac:(lia)) as Hr.
  set (r := (n mod size)%nat) in *. set (q := (n / size)%nat) in *.
  replace (cur + 1 + n)%nat with (cur + 1 + r + q * size)%nat by lia.
  rewrite Nat.Div0.mod_add.
  destruct (decide (cur + 1 + r < size)%nat) as [Hlt|Hge].
  - rewrite Nat.mod_small by lia. destruct (Nat.ltb_spec cur (cur + 1 + r)); lia.
  - replace (cur + 1 + r)%nat with (cur + 1 + r - size + 1 * size)%nat by lia.
    rewrite Nat.Div0.mod_add, Nat.mod_small by lia.
    destruct (Nat.ltb_spec cur (cur + 1 + r - size)); lia.
Qed.

Lemma next_slot size cur : (cur < size)%nat -> ((cur + 1) mod size = if (cur + 1 =? size)%nat then 0 else cur + 1)%nat.
Proof.
  intros H. destruct (Nat.eqb_spec (cur + 1) size) as [->|].
  - by rewrite Nat.Div0.mod_same.
  - rewrite Nat.mod_small; lia.
Qed.

Lemma dist_due size cur s :
  (cur < size)%nat -> (s < size)%nat -> dist size cur s = 1%nat <-> s = ((cur + 1) mod size)%nat.
Proof.
  intros Hc Hs. rewrite next_slot by done. unfold dist.
  destruct (Nat.ltb_spec cur s), (Nat.eqb_spec (cur + 1) size); lia.
Qed.

Lemma dist_later size cur s :
  (cur < size)%nat -> (s < size)%nat -> s <> ((cur + 1) mod size)%nat ->
  dist size ((cur + 1) mod size) s = (dist size cur s - 1)%nat.
Proof.
  intros Hc Hs. rewrite next_slot by done. unfold dist.
  destruct (Nat.eqb_spec (cur + 1) size), (Nat.ltb_spec cur s); try lia;
    repeat match goal with |- context [Nat.ltb ?a ?b] => destruct (Nat.ltb_spec a b) end; lia.
Qed.

(** ** The wheel is the table *)

Definition in_slot (w : TimerWheel) (s addr : nat) : Prop :=
  exists b, wheel_ w !! s = Some b /\ addr ∈ b.

Definition timer_of (e : TimerEntry) (left : nat) : ATimer :=
  MkATimer left (te_interval e) (te_repeat e) (te_callback e).

(** The timer of the live entry [addr] is [t]: due at the slot it hangs in or, for
    the entries [P] still to be put back, one interval from now. *)
Definition timed (P : list nat) (w : TimerWheel) (addr : nat) (e : TimerEntry) (t : ATimer) : Prop :=
  (exists s, in_slot w s addr /\ t = timer_of e (dist (wheel_size_ w) (current_slot_ w) s)) \/
  (addr ∈ P /\ t = timer_of e (countdown (wheel_size_ w) (te_interval e))).

(** The wheel [w], with the entries [P] taken down, holds the timers [A]. *)
Record holds (P : list nat) (w : TimerWheel) (A : gmap Z ATimer) : Prop := MkHolds {
  h_length : length (wheel_ w) = wheel_size_ w;
  h_slot : current_slot_ w < wheel_size_ w;
  h_nodup s b : wheel_ w !! s = Some b -> NoDup b;
  h_unique s s' addr : in_slot w s addr -> in_slot w s' addr -> s = s';
  h_fresh s addr : in_slot w s addr -> addr < next_addr_ w;
  h_pending : NoDup P;
  h_owned addr : addr ∈ P -> addr < next_addr_ w /\ exists id, timer_map_ w !! id = Some addr;
  h_down s addr : addr ∈ P -> ~ in_slot w s addr;
  h_map id addr : timer_map_ w !! id = Some addr -> exists e t,
    heap_ w !! addr = Some e /\ te_id e = id /\ te_cancelled e = false /\ (0 < te_interval e)%Z /\
    A !! id = Some t /\ timed P w addr e t;
  h_dom id t : A !! id = Some t -> is_Some (timer_map_ w !! id);
  h_live s addr e : in_slot w s addr -> heap_ w !! addr = Some e -> te_cancelled e = false ->
    timer_map_ w !! te_id e = Some addr
}.

Lemma in_slot_lt P w A s addr : holds P w A -> in_slot w s addr -> s < wheel_size_ w.
Proof. intros H (b & Hb & _). rewrite <-(h_length _ _ _ H). by eapply lookup_lt_Some. Qed.

Lemma push_lookup slot addr (l : list (list nat)) s :
  push slot addr l !! s = (if decide (s = slot) then (fun b => b ++ [addr]) <$> l !! s else l !! s).
Proof.
  unfold push. case_decide; [subst; by rewrite list_lookup_alter_eq|by rewrite list_lookup_alter_ne].
Qed.

Lemma in_slot_push w w' slot addr s a :
  wheel_ w' = push slot addr (wheel_ w) -> slot < length (wheel_ w) ->
  in_slot w' s a <-> in_slot w s a \/ (s = slot /\ a = addr).
Proof.
  intros E Hl. unfold in_slot. setoid_rewrite E. setoid_rewrite push_lookup. case_decide as Hs.
  2: { split; [by left|]. by intros [?|[? _]]. }
  subst s. destruct (wheel_ w !! slot) as [b|] eqn:Eb; [|apply lookup_ge_None in Eb; lia]. cbn. split.
  - intros (b' & [= <-] & Ha). apply elem_of_app in Ha as [Ha|Ha]; [left; eauto|].
    apply list_elem_of_singleton in Ha. by right.
  - intros [(b' & [= <-] & Ha)|[_ ->]]; eexists; (split; [done|]); apply elem_of_app; [by left|right; constructor].
Qed.

(** What a push keeps, for an address no bucket has. *)
Lemma push_keeps P w A w' slot addr :
  holds P w A -> wheel_ w' = push slot addr (wheel_ w) -> slot < wheel_size_ w ->
  (forall s, ~ in_slot w s addr) ->
  (forall s b, wheel_ w' !! s = Some b -> NoDup b) /\
  (forall s s' a, in_slot w' s a -> in_slot w' s' a -> s = s').
Proof.
  intros H E Hs Hn. split.
  - intros s b. rewrite E, push_lookup. case_decide as Ed; [|apply (h_nodup _ _ _ H)].
    destruct (wheel_ w !! s) as [b0|] eqn:Eb; [|done]. cbn. intros [= <-]. apply NoDup_app.
    split; [by eapply (h_nodup _ _ _ H)|]. split; [|apply NoDup_singleton].
    intros a Ha Ha'. apply list_elem_of_singleton in Ha' as ->. apply (Hn s). by exists b0.
  - intros s s' a. rewrite !(in_slot_push w w' slot addr) by (done || by rewrite (h_length _ _ _ H)).
    intros [Ha|[-> ->]] [Ha'|[-> E']]; [by eapply (h_unique _ _ _ H)|subst a; by apply Hn in Ha|by apply Hn in Ha'|done].
Qed.

Lemma target_lt P w A d : holds P w A -> target_slot w d < wheel_size_ w.
Proof. intros H. apply Nat.mod_upper_bound. pose proof (h_slot _ _ _ H). lia. Qed.

(** Hanging a new entry under a free identifier. *)
Lemma hang_holds w A e :
  holds [] w A -> timer_map_ w !! te_id e = None -> te_cancelled e = false -> (0 < te_interval e)%Z ->
  holds [] (hang e w)
    (<[te_id e := a_timer (wheel_size_ w) (te_interval e) (te_repeat e) (te_callback e)]> A).
Proof.
  intros H Hid Hc Hi. pose proof (target_lt _ _ _ (te_interval e) H) as Ht.
  assert (Hn : forall s, ~ in_slot w s (next_addr_ w)).
  { intros s Hs. apply (h_fresh _ _ _ H) in Hs. lia. }
  destruct (push_keeps [] w A (hang e w) _ _ H eq_refl Ht Hn) as [K1 K2].
  assert (Hin : forall s a, in_slot (hang e w) s a <->
    in_slot w s a \/ (s = target_slot w (te_interval e) /\ a = next_addr_ w)).
  { intros s a. apply in_slot_push; [done|]. by rewrite (h_length _ _ _ H). }
  split; cbn [hang wheel_ wheel_size_ current_slot_ timer_map_ heap_ next_addr_]; try done.
  - unfold push. by rewrite length_alter, (h_length _ _ _ H).
  - apply (h_slot _ _ _ H).
  - intros s a. rewrite Hin. intros [Ha|[_ ->]]; [apply (h_fresh _ _ _ H) in Ha|]; lia.
  - apply NoDup_nil_2.
  - intros a Ha. by apply not_elem_of_nil in Ha.
  - intros s a Ha. by apply not_elem_of_nil in Ha.
  - intros id a. rewrite lookup_insert. case_decide as Eid.
    + intros [= <-]. exists e. eexists. rewrite lookup_insert_eq. split_and!; [done..| |].
      { by rewrite <-Eid, lookup_insert_eq. }
      left. exists (target_slot w (te_interval e)). split; [rewrite Hin; by right|].
      unfold a_timer, timer_of. cbn. unfold target_slot. rewrite dist_target; [done|apply (h_slot _ _ _ H)|done].
    + intros Ha. destruct (h_map _ _ _ H _ _ Ha) as (e' & t & He & D1 & D2 & D3 & D4 & D5).
      destruct D5 as [(s & Hs & Et)|[Hp _]]; [|by apply not_elem_of_nil in Hp].
      exists e', t. rewrite lookup_insert_ne by (intros <-; by apply Hn in Hs). rewrite lookup_insert_ne by done.
      split_and!; [done..|]. left. exists s. rewrite Hin. auto.
  - intros id t. rewrite !lookup_insert. case_decide; [by eauto|]. apply (h_dom _ _ _ H).
  - intros s a e'. rewrite Hin. intros [Ha|[-> ->]].
    + pose proof (h_fresh _ _ _ H _ _ Ha). rewrite lookup_insert_ne by lia. intros He Hl.
      pose proof (h_live _ _ _ H _ _ _ Ha He Hl) as Hm.
      rewrite lookup_insert_ne; [done|]. intros E. by rewrite <-E, Hid in Hm.
    + rewrite lookup_insert_eq. intros [= <-] _. by rewrite lookup_insert_eq.
Qed.

Lemma in_slot_join w s addr : in_slot w s addr -> addr ∈ mjoin (wheel_ w).
Proof.
  intros (b & Hb & Ha). apply list_elem_of_join. exists b. split; [done|]. by eapply list_elem_of_lookup_2.
Qed.

Lemma lock_map w A id addr :
  holds [] w A -> timer_map_ w !! id = Some addr -> exists e, lock w addr = Some e /\
    te_id e = id /\ te_cancelled e = false /\ (0 < te_interval e)%Z /\
    exists left, A !! id = Some (timer_of e left).
Proof.
  intros H Hm. destruct (h_map _ _ _ H _ _ Hm) as (e & t & He & D1 & D2 & D3 & D4 & D5).
  destruct D5 as [(s & Hs & ->)|[Hp _]]; [|by apply not_elem_of_nil in Hp].
  exists e. unfold lock. rewrite bool_decide_true by by eapply in_slot_join. eauto 10.
Qed.

Lemma CancelTimer_holds id w A : holds [] w A -> holds [] (CancelTimer id w) (delete id A).
Proof.
  intros H. unfold CancelTimer. destruct (timer_map_ w !! id) as [addr|] eqn:Em.
  2: { rewrite delete_id; [done|]. destruct (A !! id) eqn:EA; [|done].
    apply (h_dom _ _ _ H) in EA as [? EA]. by rewrite EA in Em. }
  destruct (lock_map _ _ _ _ H Em) as (e & El & Eid & _). rewrite El.
  assert (He : heap_ w !! addr = Some e) by (unfold lock in El; by case_bool_decide).
  split; cbn [cancel_entry wheel_ wheel_size_ current_slot_ timer_map_ heap_ next_addr_]; try apply H.
  - intros a Ha. by apply not_elem_of_nil in Ha.
  - intros id' a. rewrite lookup_delete_Some. intros [Hne Ha].
    destruct (h_map _ _ _ H _ _ Ha) as (e' & t & He' & D1 & D2 & D3 & D4 & D5).
    exists e', t. rewrite lookup_alter_ne, lookup_delete_ne; [by split_and!|done|].
    intros ->. rewrite He in He'. injection He' as ->. congruence.
  - intros id' t. rewrite !lookup_delete_Some. unfold is_Some. intros [Hne Ht].
    destruct (h_dom _ _ _ H _ _ Ht) as [a Ha]. exists a. by rewrite lookup_delete_Some.
  - intros s a e' Hs. destruct (decide (a = addr)) as [->|Hne].
    + rewrite lookup_alter_eq, He. cbn. intros [= <-]. done.
    + rewrite lookup_alter_ne by done. intros He' Hl. pose proof (h_live _ _ _ H _ _ _ Hs He' Hl) as Ha.
      rewrite lookup_delete_ne; [done|]. intros E. rewrite <-E in Ha. congruence.
Qed.

Lemma RefreshTimer_holds id d w A :
  holds [] w A -> holds [] (RefreshTimer id d w) (a_refresh (wheel_size_ w) id d A).
Proof.
  intros H. unfold RefreshTimer, a_refresh. destruct (timer_map_ w !! id) as [addr|] eqn:Em.
  2: { destruct (A !! id) eqn:EA; [|done]. apply (h_dom _ _ _ H) in EA as [? EA]. by rewrite EA in Em. }
  destruct (lock_map _ _ _ _ H Em) as (e & El & <- & Ec & Ei & left & EA). rewrite El, Ec, EA. cbn.
  set (i := if (0 <? d)%Z then d else te_interval e).
  set (e' := MkEntry (te_id e) (te_callback e) (te_repeat e) i false).
  assert (E : hang e' (cancel_entry addr w) = hang e' (CancelTimer (te_id e) w)).
  { unfold CancelTimer. rewrite Em, El. unfold hang, target_slot. cbn. by rewrite insert_delete_eq. }
  rewrite E. rewrite <-(insert_delete_eq A).
  assert (Es : wheel_size_ w = wheel_size_ (CancelTimer (te_id e) w)) by (unfold CancelTimer; by rewrite Em, El).
  rewrite Es. apply (hang_holds (CancelTimer (te_id e) w) (delete (te_id e) A) e');
    [by apply CancelTimer_holds| |done|].
  - unfold CancelTimer. rewrite Em, El. cbn. by rewrite lookup_delete_eq.
  - subst e' i. cbn. by destruct (Z.ltb_spec 0 d).
Qed.

(** ** A tick *)

Definition live_entry (heap : gmap nat TimerEntry) (addr : nat) : option TimerEntry :=
  e ← heap !! addr; if te_cancelled e then None else Some e.

Definition repeats (heap : gmap nat TimerEntry) (addr : nat) : bool :=
  match live_entry heap addr with Some e => te_repeat e | None => false end.

Lemma run_bucket_cons x b heap map :
  run_bucket (x :: b) heap map =
    match live_entry heap x with
    | None => run_bucket b heap map
    | Some e =>
        let '(fired, reps, map2) := run_bucket b heap (if te_repeat e then map else delete (te_id e) map) in
        (option_list (te_callback e) ++ fired, if te_repeat e then x :: reps else reps, map2)
    end.
Proof. cbn [run_bucket]. unfold live_entry. destruct (heap !! x) as [e|]; cbn; [|done]. by destruct (te_cancelled e). Qed.

Lemma run_bucket_eq b heap map fired reps map' :
  run_bucket b heap map = (fired, reps, map') ->
  fired = omap (fun a => live_entry heap a ≫= te_callback) b /\
  reps = List.filter (repeats heap) b /\
  (forall id a, map' !! id = Some a <-> map !! id = Some a /\
     forall a' e, a' ∈ b -> live_entry heap a' = Some e -> te_repeat e = false -> te_id e <> id).
Proof.
  revert map fired reps map'. induction b as [|x b IH]; intros map fired reps map'.
  { intros [= <- <- <-]. split_and!; [done..|]. intros id a. split; [|by intros [? _]].
    intros Ha. split; [done|]. intros a' e Ha'. by apply not_elem_of_nil in Ha'. }
  rewrite run_bucket_cons. cbn [omap list_omap List.filter]. unfold repeats at 1.
  setoid_rewrite elem_of_cons.
  destruct (live_entry heap x) as [e|] eqn:Ex; cbn [mbind option_bind].
  2: { intros E. apply IH in E as (-> & -> & Hm). split; [done|]. split; [done|]. intros id a. rewrite Hm.
    split; intros [D1 D2]; (split; [done|]); intros a' e' Ha'; [|by apply D2; right].
    destruct Ha' as [->|Ha']; [by rewrite Ex|by apply D2]. }
  destruct (run_bucket b heap _) as [[f r] m] eqn:E. intros [= <- <- <-].
  apply IH in E as (-> & -> & Hm). split; [by destruct (te_callback e)|]. split; [done|].
  intros id a. rewrite Hm. destruct (te_repeat e) eqn:Er.
  - split; intros [D1 D2]; (split; [done|]); intros a' e' Ha' He' Hr; [|by apply (D2 a'); auto].
    destruct Ha' as [->|Ha']; [|by eapply D2]. congruence.
  - rewrite lookup_delete_Some. split.
    + intros [[D0 D1] D2]. split; [done|]. intros a' e' [->|Ha'] He' Hr; [congruence|by eapply D2].
    + intros [D1 D2]. split; [|by intros a' e' Ha'; apply D2; right]. split; [|done].
      apply (D2 x e); [by left|done|done].
Qed.

Lemma rehang_holds P w A addr : holds (addr :: P) w A -> holds P (rehang w addr) A.
Proof.
  intros H. destruct (h_owned _ _ _ H addr) as (Hfr & id & Hid); [by left|].
  destruct (h_map _ _ _ H _ _ Hid) as (e & t & He & <- & Hc & Hi & HA & Ht).
  unfold rehang. rewrite He. pose proof (target_lt _ _ _ (te_interval e) H) as Hlt.
  assert (Hn : forall s, ~ in_slot w s addr) by (intros s; apply (h_down _ _ _ H); by left).
  pose proof (h_pending _ _ _ H) as [Hx HP]%NoDup_cons.
  set (w' := MkWheel _ _ _ _ _ _ _).
  destruct (push_keeps _ w A w' _ _ H eq_refl Hlt Hn) as [K1 K2].
  assert (Hin : forall s a, in_slot w' s a <->
    in_slot w s a \/ (s = target_slot w (te_interval e) /\ a = addr)).
  { intros s a. apply in_slot_push; [done|]. by rewrite (h_length _ _ _ H). }
  split; try done; cbn [w' wheel_ wheel_size_ current_slot_ timer_map_ heap_ next_addr_].
  - unfold push. by rewrite length_alter, (h_length _ _ _ H).
  - apply (h_slot _ _ _ H).
  - intros s a. rewrite Hin. intros [Ha|[_ ->]]; [by apply (h_fresh _ _ _ H) in Ha|done].
  - intros a Ha. apply (h_owned _ _ _ H). by right.
  - intros s a Ha. rewrite Hin. intros [Hs|[_ ->]]; [by eapply (h_down _ _ _ H); [right|]|done].
  - intros id a Ha. destruct (h_map _ _ _ H _ _ Ha) as (e' & t' & He' & D1 & D2 & D3 & D4 & D5).
    exists e', t'. split_and!; [done..|]. destruct D5 as [(s & Hs & ->)|[Hp ->]].
    { left. exists s. rewrite Hin. auto. }
    apply elem_of_cons in Hp as [->|Hp]; [|by right]. left. exists (target_slot w (te_interval e)).
    rewrite Hin. split; [by right|]. rewrite He in He'. injection He' as <-. f_equal. symmetry.
    apply dist_target; [apply (h_slot _ _ _ H)|done].
  - apply (h_dom _ _ _ H).
  - intros s a e'. rewrite Hin. intros [Ha|[_ ->]]; [by apply (h_live _ _ _ H s)|].
    rewrite He. by intros [= <-].
Qed.

Lemma rehang_all P w A : holds P w A -> holds [] (fold_left rehang P w) A.
Proof.
  revert w. induction P as [|addr P IH]; intros w H; [done|]. cbn. by apply IH, rehang_holds.
Qed.

(** Where a live entry of the bucket that is due stands in the tables. *)
Lemma due_entry w A s b addr e :
  holds [] w A -> s = (current_slot_ w + 1) mod wheel_size_ w -> wheel_ w !! s = Some b -> addr ∈ b ->
  live_entry (heap_ w) addr = Some e ->
  timer_map_ w !! te_id e = Some addr /\ A !! te_id e = Some (timer_of e 1) /\ (0 < te_interval e)%Z.
Proof.
  intros H Hs Hb Ha He. unfold live_entry in He.
  destruct (heap_ w !! addr) as [e0|] eqn:Eh; [|done]. cbn in He.
  destruct (te_cancelled e0) eqn:Ec; [done|]. injection He as ->.
  assert (Hin : in_slot w s addr) by by exists b.
  pose proof (h_live _ _ _ H _ _ _ Hin Eh Ec) as Hm. split; [done|].
  destruct (h_map _ _ _ H _ _ Hm) as (e' & t & He' & D1 & D2 & D3 & D4 & D5).
  rewrite Eh in He'. injection He' as <-.
  destruct D5 as [(s' & Hs' & ->)|[Hp _]]; [|by apply not_elem_of_nil in Hp].
  rewrite (h_unique _ _ _ H _ _ _ Hs' Hin) in D4. split; [|done]. rewrite D4. do 2 f_equal.
  apply dist_due; [apply (h_slot _ _ _ H)|by eapply in_slot_lt|done].
Qed.

(** A timer that is due hangs in the next slot. *)
Lemma due_slot w A id t :
  holds [] w A -> A !! id = Some t -> exists addr e s,
    timer_map_ w !! id = Some addr /\ live_entry (heap_ w) addr = Some e /\ te_id e = id /\
    (0 < te_interval e)%Z /\ in_slot w s addr /\ t = timer_of e (dist (wheel_size_ w) (current_slot_ w) s) /\
    (due t = true <-> s = (current_slot_ w + 1) mod wheel_size_ w).
Proof.
  intros H HA. destruct (h_dom _ _ _ H _ _ HA) as [addr Hm].
  destruct (h_map _ _ _ H _ _ Hm) as (e & t' & He & D1 & D2 & D3 & D4 & D5).
  rewrite HA in D4. injection D4 as <-.
  destruct D5 as [(s & Hs & Et)|[Hp _]]; [|by apply not_elem_of_nil in Hp].
  exists addr, e, s. unfold live_entry. rewrite He. cbn. rewrite D2. split_and!; try done.
  rewrite Et. unfold due. cbn. rewrite Nat.eqb_eq.
  apply dist_due; [apply (h_slot _ _ _ H)|by eapply in_slot_lt].
Qed.

Lemma repeats_In heap a b :
  a ∈ List.filter (repeats heap) b <-> a ∈ b /\ exists e, live_entry heap a = Some e /\ te_repeat e = true.
Proof.
  rewrite !list_elem_of_In, filter_In. unfold repeats. split; intros [D1 D2]; (split; [done|]).
  - destruct (live_entry heap a) as [e|]; [by eauto|done].
  - by destruct D2 as (e & -> & ->).
Qed.

Lemma tick_taken_down w A s b map :
  holds [] w A -> s = (current_slot_ w + 1) mod wheel_size_ w -> wheel_ w !! s = Some b ->
  (forall id a, map !! id = Some a <-> timer_map_ w !! id = Some a /\
     forall a' e, a' ∈ b -> live_entry (heap_ w) a' = Some e -> te_repeat e = false -> te_id e <> id) ->
  holds (List.filter (repeats (heap_ w)) b)
    (MkWheel (wheel_size_ w) s (<[s := []]> (wheel_ w)) map (next_timer_id_ w) (heap_ w) (next_addr_ w))
    (a_tick (wheel_size_ w) A).
Proof.
  intros H Hs Hb Hm. set (w1 := MkWheel _ _ _ _ _ _ _).
  pose proof (h_slot _ _ _ H) as Hcur. assert (Hlt : s < wheel_size_ w) by (subst s; apply Nat.mod_upper_bound; lia).
  assert (Hin : forall s' a, in_slot w1 s' a <-> s' <> s /\ in_slot w s' a).
  { intros s' a. unfold in_slot. cbn. destruct (decide (s' = s)) as [->|Hne].
    - rewrite list_lookup_insert_eq by by rewrite (h_length _ _ _ H).
      split; [|by intros [? _]]. intros (b' & [= <-] & Ha). by apply not_elem_of_nil in Ha.
    - rewrite list_lookup_insert_ne by done. split; [by intros|by intros [_ ?]]. }
  assert (Hbs : forall a, a ∈ b -> in_slot w s a) by (intros a Ha; by exists b).
  split; cbn [w1 wheel_ wheel_size_ current_slot_ timer_map_ heap_ next_addr_].
  - by rewrite length_insert, (h_length _ _ _ H).
  - done.
  - intros s' b' Hb'. apply list_lookup_insert_Some in Hb' as [(_ & <- & _)|[_ Hb']];
      [apply NoDup_nil_2|by eapply (h_nodup _ _ _ H)].
  - intros s' s'' a. rewrite !Hin. intros [_ D1] [_ D2]. by eapply (h_unique _ _ _ H).
  - intros s' a. rewrite Hin. intros [_ Ha]. by eapply (h_fresh _ _ _ H).
  - apply NoDup_ListNoDup, List.NoDup_filter, NoDup_ListNoDup. by eapply (h_nodup _ _ _ H).
  - intros a [Ha (e & He & Hr)]%repeats_In. split; [by eapply (h_fresh _ _ _ H), Hbs|].
    destruct (due_entry _ _ _ _ _ _ H Hs Hb Ha He) as (Hmap & _). exists (te_id e). rewrite Hm.
    split; [done|]. intros a' e' Ha' He' Hr' E.
    destruct (due_entry _ _ _ _ _ _ H Hs Hb Ha' He') as (Hmap' & _). congruence.
  - intros s' a [Ha _]%repeats_In. rewrite Hin. intros [Hne Hs']. apply Hne.
    by eapply (h_unique _ _ _ H), Hbs.
  - intros id a [Ha Hfree]%Hm. destruct (h_map _ _ _ H _ _ Ha) as (e & t & He & D1 & D2 & D3 & D4 & D5).
    destruct D5 as [(s' & Hs' & ->)|[Hp _]]; [|by apply not_elem_of_nil in Hp].
    pose proof (in_slot_lt _ _ _ _ _ H Hs') as Hlt'.
    assert (El : live_entry (heap_ w) a = Some e) by (unfold live_entry; rewrite He; cbn; by rewrite D2).
    unfold a_tick. rewrite lookup_omap, D4. cbn. unfold a_step, due, timer_of. cbn [at_left at_repeat at_interval at_callback].
    exists e. destruct (decide (s' = s)) as [->|Hne].
    + assert (Hab : a ∈ b) by (destruct Hs' as (b' & Hb' & ?); congruence).
      assert (Er : te_repeat e = true).
      { destruct (te_repeat e) eqn:Er; [done|]. exfalso. by eapply (Hfree a e). }
      rewrite (proj2 (dist_due _ _ s Hcur Hlt) Hs), Nat.eqb_refl, Er. eexists. split_and!; [done..|].
      right. split; [apply repeats_In; eauto|]. unfold timer_of, a_timer. by rewrite Er.
    + rewrite (proj2 (Nat.eqb_neq _ _)) by (rewrite dist_due by done; by rewrite <-Hs).
      eexists. split_and!; [done..|]. left. exists s'. rewrite Hin. split; [done|].
      unfold timer_of. cbn [w1 wheel_size_ current_slot_]. rewrite Hs, dist_later by (done || congruence). done.
  - intros id t. unfold a_tick. rewrite lookup_omap, bind_Some. intros (t0 & Ht0 & Hstep).
    destruct (due_slot _ _ _ _ H Ht0) as (a & e & s' & Hma & He & Eid & _ & Hs' & -> & Hdue).
    exists a. rewrite Hm. split; [done|]. intros a' e' Ha' He' Hr' E.
    destruct (due_entry _ _ _ _ _ _ H Hs Hb Ha' He') as (Hmap' & HA' & _).
    rewrite E, Ht0 in HA'. injection HA' as E1 E2 E3 E4. unfold a_step, due in Hstep. cbn in Hstep.
    by rewrite E1, E3, Hr' in Hstep.
  - intros s' a e. rewrite Hin. intros [Hne Hs'] He Hc. rewrite Hm. pose proof (h_live _ _ _ H _ _ _ Hs' He Hc) as Hma.
    split; [done|]. intros a' e' Ha' He' Hr' E.
    destruct (due_entry _ _ _ _ _ _ H Hs Hb Ha' He') as (Hmap' & _). rewrite E, Hma in Hmap'.
    injection Hmap' as ->. apply Hne. by eapply (h_unique _ _ _ H), Hbs.
Qed.

Lemma a_due_In A id : id ∈ a_due A <-> exists t, A !! id = Some t /\ due t = true.
Proof.
  unfold a_due. rewrite list_elem_of_fmap. split.
  - intros ([i t] & -> & Hi). apply list_elem_of_filter in Hi as [Hd Hi]. apply elem_of_map_to_list in Hi. eauto.
  - intros (t & Ht & Hd). exists (id, t). split; [done|]. apply list_elem_of_filter. by rewrite elem_of_map_to_list.
Qed.

Lemma a_due_NoDup A : NoDup (a_due A).
Proof.
  unfold a_due. apply NoDup_fmap_2_strong; [|apply NoDup_filter, NoDup_map_to_list].
  intros [i t] [j t'] [_ H1]%list_elem_of_filter [_ H2]%list_elem_of_filter E. cbn in E. subst j.
  apply elem_of_map_to_list in H1, H2. congruence.
Qed.

Lemma live_NoDup heap (map : gmap Z nat) l :
  NoDup l -> (forall a e, a ∈ l -> live_entry heap a = Some e -> map !! te_id e = Some a) ->
  NoDup (te_id <$> omap (live_entry heap) l).
Proof.
  induction l as [|a l IH]; intros Hl Hm; [by apply NoDup_nil_2|]. apply NoDup_cons in Hl as [Ha Hl].
  assert (IHl : NoDup (te_id <$> omap (live_entry heap) l)) by (apply IH; [done|]; intros; apply Hm; [by right|done]).
  cbn [omap list_omap]. destruct (live_entry heap a) as [e|] eqn:He; [|done].
  cbn. apply NoDup_cons. split; [|done].
  intros (e' & Eid & He')%list_elem_of_fmap. apply list_elem_of_omap in He' as (a' & Ha' & He').
  pose proof (Hm a e ltac:(by left) He) as M1. pose proof (Hm a' e' ltac:(by right) He') as M2.
  rewrite Eid, M2 in M1. injection M1 as ->. done.
Qed.

(** The live entries of the bucket are the timers that are due. *)
Lemma bucket_due w A s b :
  holds [] w A -> s = (current_slot_ w + 1) mod wheel_size_ w -> wheel_ w !! s = Some b ->
  te_id <$> omap (live_entry (heap_ w)) b ≡ₚ a_due A.
Proof.
  intros H Hs Hb. apply NoDup_Permutation; [|apply a_due_NoDup|].
  - apply (live_NoDup _ (timer_map_ w)); [by eapply (h_nodup _ _ _ H)|].
    intros a e Ha He. by apply (due_entry _ _ _ _ _ _ H Hs Hb Ha He).
  - intros id. rewrite list_elem_of_fmap, a_due_In. setoid_rewrite list_elem_of_omap. split.
    + intros (e & -> & a & Ha & He). destruct (due_entry _ _ _ _ _ _ H Hs Hb Ha He) as (_ & HA & _). by eexists.
    + intros (t & HA & Hd). destruct (due_slot _ _ _ _ H HA) as (a & e & s' & _ & He & <- & _ & Hs' & _ & Hdue).
      exists e. split; [done|]. exists a. split; [|done]. apply Hdue in Hd as ->. subst s.
      destruct Hs' as (b' & Hb' & ?). congruence.
Qed.

Lemma fired_by_id heap (A : gmap Z ATimer) (b : list nat) :
  (forall a e, a ∈ b -> live_entry heap a = Some e -> exists n, A !! te_id e = Some (timer_of e n)) ->
  omap (fun a => live_entry heap a ≫= te_callback) b =
  omap (fun id => A !! id ≫= at_callback) (te_id <$> omap (live_entry heap) b).
Proof.
  induction b as [|a b IH]; intros H; [done|].
  assert (E := IH (fun a' e' Ha' => H a' e' (list_elem_of_further _ _ _ Ha'))).
  cbn [omap list_omap]. destruct (live_entry heap a) as [e|] eqn:He; [|done].
  destruct (H a e ltac:(by left) He) as [n HA].
  cbn [fmap list_fmap omap list_omap mbind option_bind]. rewrite HA. cbn. by rewrite <-E.
Qed.

Lemma tick_holds w A :
  holds [] w A -> fst (Tick w) ≡ₚ a_fired A /\ holds [] (snd (Tick w)) (a_tick (wheel_size_ w) A).
Proof.
  intros H. unfold Tick. set (s := (current_slot_ w + 1) mod wheel_size_ w).
  destruct (wheel_ w !! s) as [b|] eqn:Hb.
  2: { apply lookup_ge_None in Hb. rewrite (h_length _ _ _ H) in Hb. pose proof (h_slot _ _ _ H).
    pose proof (Nat.mod_upper_bound (current_slot_ w + 1) (wheel_size_ w)). lia. }
  change (default [] (Some b)) with b.
  destruct (run_bucket b (heap_ w) (timer_map_ w)) as [[fired reps] map] eqn:E.
  apply run_bucket_eq in E as (-> & -> & Hm). cbn [fst snd]. split.
  - rewrite (fired_by_id _ A).
    + unfold a_fired. apply omap_Permutation, (bucket_due w A s b H); done.
    + intros a e Ha He. exists 1. by apply (due_entry w A s b a e H).
  - apply rehang_all. by apply tick_taken_down.
Qed.

(** ** Runs *)

Inductive timer_op : Type :=
  | Add (delay : Z) (cb : option C) (repeat : bool) | Cancel (id : Z) | Refresh (id delay : Z) | Tick1.

(** What an operation returns and fires. *)
Definition timer_exec (op : timer_op) (w : TimerWheel) : option Z * list C * TimerWheel :=
  match op with
  | Add d cb r => let '(id, w') := AddTimer d cb r w in (Some id, [], w')
  | Cancel id => (None, [], CancelTimer id w)
  | Refresh id d => (None, [], RefreshTimer id d w)
  | Tick1 => let '(fired, w') := Tick w in (None, fired, w')
  end.

(** The same on the table of countdowns and the next identifier. *)
Definition a_exec (size : nat) (op : timer_op) (a : gmap Z ATimer * Z) : option Z * list C * (gmap Z ATimer * Z) :=
  let '(A, next) := a in
  match op with
  | Add d cb r =>
      let delay := if (d <=? 0)%Z then 1%Z else d in
      (Some next, [], (<[next := a_timer size delay r cb]> A, (next + 1)%Z))
  | Cancel id => (None, [], (delete id A, next))
  | Refresh id d => (None, [], (a_refresh size id d A, next))
  | Tick1 => (None, a_fired A, (a_tick size A, next))
  end.

Fixpoint timer_run (ops : list timer_op) (w : TimerWheel) : list (option Z * list C) :=
  match ops with
  | [] => []
  | op :: ops => let '(r, fired, w') := timer_exec op w in (r, fired) :: timer_run ops w'
  end.

Fixpoint a_run (size : nat) (ops : list timer_op) (a : gmap Z ATimer * Z) : list (option Z * list C) :=
  match ops with
  | [] => []
  | op :: ops => let '(r, fired, a') := a_exec size op a in (r, fired) :: a_run size ops a'
  end.

Definition same_event (x y : option Z * list C) : Prop := fst x = fst y /\ snd x ≡ₚ snd y.

(** The state of a run: the wheel holds the table and its identifiers are taken. *)
Definition same_timers (size : nat) (w : TimerWheel) (a : gmap Z ATimer * Z) : Prop :=
  holds [] w (fst a) /\ wheel_size_ w = size /\ next_timer_id_ w = snd a /\ (0 <= snd a)%Z /\
  forall id, is_Some (timer_map_ w !! id) -> (id < snd a)%Z.

Lemma cancel_map id w : timer_map_ (CancelTimer id w) = delete id (timer_map_ w).
Proof.
  unfold CancelTimer. destruct (timer_map_ w !! id) as [addr|] eqn:Em; [|by rewrite delete_id].
  by destruct (lock w addr).
Qed.

Lemma refresh_map id d w id' :
  is_Some (timer_map_ (RefreshTimer id d w) !! id') -> is_Some (timer_map_ w !! id') \/
  exists addr e, timer_map_ w !! id = Some addr /\ lock w addr = Some e /\ te_id e = id'.
Proof.
  unfold RefreshTimer. destruct (timer_map_ w !! id) as [addr|] eqn:Em; [|by left].
  destruct (lock w addr) as [e|] eqn:El; [|by left]. destruct (te_cancelled e); [by left|].
  cbn [hang timer_map_]. cbn. rewrite lookup_insert. case_decide; [|by left]. right. eauto.
Qed.

Lemma rehang_frame P w :
  wheel_size_ (fold_left rehang P w) = wheel_size_ w /\
  timer_map_ (fold_left rehang P w) = timer_map_ w /\
  next_timer_id_ (fold_left rehang P w) = next_timer_id_ w.
Proof.
  revert w. induction P as [|a P IH]; intros w; [done|]. cbn. destruct (IH (rehang w a)) as (-> & -> & ->).
  unfold rehang. by destruct (heap_ w !! a).
Qed.

Lemma timer_step size op w a :
  same_timers size w a -> (snd a + 1 < two64)%Z ->
  let '(r, fired, w') := timer_exec op w in
  let '(r', fired', a') := a_exec size op a in
  same_event (r, fired) (r', fired') /\ same_timers size w' a'.
Proof.
  destruct a as [A next]. intros (H & Hsz & Hnx & Hpos & Hids) Hb. cbn [fst snd] in *.
  destruct op as [d cb r|id|id d|]; cbn [timer_exec a_exec].
  - unfold AddTimer. set (delay := if (d <=? 0)%Z then 1%Z else d).
    set (e := MkEntry (next_timer_id_ w) cb r delay false).
    assert (Hfree : timer_map_ w !! te_id e = None).
    { cbn. destruct (timer_map_ w !! next_timer_id_ w) eqn:E; [|done].
      pose proof (Hids (next_timer_id_ w) ltac:(by rewrite E)). lia. }
    assert (Hpd : (0 < te_interval e)%Z) by (cbn; subst delay; destruct (Z.leb_spec d 0); lia).
    pose proof (hang_holds w A e H Hfree eq_refl Hpd) as Hh. split; [by rewrite Hnx|].
    split; [|split_and!; try done]; cbn [fst snd].
    + cbn [te_id te_interval te_repeat te_callback e] in Hh. rewrite Hsz, Hnx in Hh. 
      destruct Hh. by split.
    + cbn. rewrite Hnx. apply u64_small. lia.
    + lia.
    + cbn. intros id. rewrite lookup_insert. case_decide; [lia|]. intros Hi. apply Hids in Hi. lia.
  - split; [done|]. split; [by apply CancelTimer_holds|].
    assert (Hf : wheel_size_ (CancelTimer id w) = wheel_size_ w /\ next_timer_id_ (CancelTimer id w) = next_timer_id_ w).
    { unfold CancelTimer. destruct (timer_map_ w !! id) as [addr|]; [|done]. by destruct (lock w addr). }
    destruct Hf as [-> ->]. split_and!; [done..|]. cbn. intros id'. rewrite cancel_map.
    rewrite lookup_delete. case_decide; [by intros []|]. apply Hids.
  - split; [done|]. split; [rewrite <-Hsz; by apply RefreshTimer_holds|].
    assert (Hf : wheel_size_ (RefreshTimer id d w) = wheel_size_ w /\ next_timer_id_ (RefreshTimer id d w) = next_timer_id_ w).
    { unfold RefreshTimer. destruct (timer_map_ w !! id) as [addr|]; [|done]. destruct (lock w addr) as [e|]; [|done].
      by destruct (te_cancelled e). }
    destruct Hf as [-> ->]. split_and!; [done..|]. cbn. intros id' [Hi|(addr & e & Hm & Hl & <-)]%refresh_map; [by apply Hids|].
    destruct (lock_map _ _ _ _ H Hm) as (e' & Hl' & Eid & _). rewrite Hl in Hl'. injection Hl' as <-.
    rewrite Eid. apply Hids. by rewrite Hm.
  - destruct (tick_holds w A H) as [Hp Hh]. rewrite Hsz in Hh. unfold Tick in *.
    set (s := (current_slot_ w + 1) mod wheel_size_ w) in *.
    destruct (run_bucket _ _ _) as [[fired reps] map] eqn:E. cbn [fst snd] in *.
    set (w1 := MkWheel _ _ _ _ _ _ _) in *. destruct (rehang_frame reps w1) as (F1 & F2 & F3).
    split; [done|]. split; [done|]. rewrite F1, F2, F3. cbn. split_and!; [done..|].
    intros id [a Ha]. apply run_bucket_eq in E as (_ & _ & Hm). apply Hm in Ha as [Ha _]. apply Hids. by rewrite Ha.
Qed.

Lemma timer_steps size ops w a :
  same_timers size w a -> (snd a + Z.of_nat (length ops) < two64)%Z ->
  Forall2 same_event (timer_run ops w) (a_run size ops a).
Proof.
  revert w a. induction ops as [|op ops IH]; intros w a Hs Hb; [constructor|]. cbn [timer_run a_run].
  cbn in Hb. pose proof (timer_step size op w a Hs ltac:(lia)) as Hstep.
  destruct (timer_exec op w) as [[r fired] w']. destruct (a_exec size op a) as [[r' fired'] a'] eqn:E.
  destruct Hstep as [He Hs']. constructor; [done|]. apply IH; [done|].
  assert (snd a' <= snd a + 1)%Z; [|lia].
  destruct a as [A next]. destruct op; cbn in E; injection E as <- <- <-; cbn; lia.
Qed.

(** C31. The wheel is exact: from an empty wheel of [size] slots, any sequence of
    additions, cancellations, refreshes and ticks (fewer than 2^64) returns the
    identifiers and fires, tick by tick, the callbacks of a table of countdowns:
    a timer fires once its delay has passed (modulo the size of the wheel, which
    a delay must not exceed to be kept), again after each interval if it repeats,
    counts again from its interval when refreshed, and never once cancelled. *)
Theorem timer_wheel_exact size ops :
  (0 < size)%nat -> (1 + Z.of_nat (length ops) < two64)%Z ->
  Forall2 same_event (timer_run ops (new_wheel size)) (a_run size ops (∅, 1%Z)).
Proof.
  intros Hs Hb. apply timer_steps; [|done]. split_and!; try done; cbn [fst snd].
  - assert (Hempty : forall s a, ~ in_slot (new_wheel size) s a).
    { intros s a (b & Hb' & Ha). apply lookup_replicate in Hb' as [-> _]. by apply not_elem_of_nil in Ha. }
    split; cbn [new_wheel wheel_ wheel_size_ current_slot_ timer_map_ heap_ next_addr_].
    + by rewrite length_replicate.
    + done.
    + intros s b Hb'. apply lookup_replicate in Hb' as [-> _]. apply NoDup_nil_2.
    + intros s s' a Ha. by apply Hempty in Ha.
    + intros s a Ha. by apply Hempty in Ha.
    + apply NoDup_nil_2.
    + intros a Ha. by apply not_elem_of_nil in Ha.
    + intros s a Ha. by apply not_elem_of_nil in Ha.
    + intros id a. by rewrite lookup_empty.
    + intros id t. by rewrite lookup_empty.
    + intros s a e Ha. by apply Hempty in Ha.
  - intros id [a Ha]. cbn in Ha. by rewrite lookup_empty in Ha.
Qed.
End wheel.
Arguments TimerEntry : clear implicits.
Arguments TimerWheel : clear implicits.
Arguments timer_op : clear implicits.

(** ** Witness *)

(** A repeating timer, one refreshed before it is due, and one cancelled. *)
Definition sample_ops : list (timer_op string) :=
  [Add 2 (Some "idle") false; Add 1 (Some "beat") true; Add 3 (Some "gone") false; Tick1;
   Refresh 1 3; Cancel 3; Tick1; Tick1; Tick1; Tick1]%Z.

Lemma timer_wheel_exact_witness :
  Forall2 same_event (timer_run sample_ops (new_wheel 4)) (a_run 4 sample_ops (∅, 1%Z)) /\
  timer_run sample_ops (new_wheel 4) =
    [(Some 1%Z, []); (Some 2%Z, []); (Some 3%Z, []); (None, ["beat"]); (None, []); (None, []);
     (None, ["beat"]); (None, ["beat"]); (None, ["idle"; "beat"]); (None, ["beat"])].
Proof.
  split; [apply (timer_wheel_exact 4 sample_ops); [lia|reflexivity]|vm_compute; reflexivity].
Defined.
