(* ===== verification/EventLoop.v ===== *)
(** * The event loop and its channels (src/src/net/epoll/event_loop.h, .cpp,
    channel.h, .cpp, notifier.cpp)

    One loop as its own thread sees it: the timer wheel driven by a timer
    descriptor, the queue of functors run after each wait, and the order in which
    a channel calls its handlers. Functors and timer callbacks are values of a
    type [F] which the owner of the loop interprets. *)
From S2P Require Import Prelude TimerWheel.

(** [notified_] counts the wake-ups written to the notifier. *)
Record EventLoop (F : Type) : Type := MkLoop {
  calling_pending_functors_ : bool;
  timer_wheel_ : TimerWheel F;
  pending_functors_ : list F;
  notified_ : Z
}.
Arguments MkLoop {F} _ _ _ _.
Arguments calling_pending_functors_ {F} _.
Arguments timer_wheel_ {F} _.
Arguments pending_functors_ {F} _.
Arguments notified_ {F} _.

(** A wheel of an hour. *)
Definition new_loop (F : Type) : EventLoop F := MkLoop false (new_wheel 3600) [] 0.

(** [Notifier::Notify]. *)
Definition Wakeup {F} (l : EventLoop F) : EventLoop F :=
  MkLoop (calling_pending_functors_ l) (timer_wheel_ l) (pending_functors_ l) (notified_ l + 1).

(** The two halves of [QueueInLoop]: the queue, under the mutex, and whether the
    loop has to be woken, [in_loop] telling whether the caller is its thread. *)
Definition push_functor {F} (cb : F) (l : EventLoop F) : EventLoop F :=
  MkLoop (calling_pending_functors_ l) (timer_wheel_ l) (pending_functors_ l ++ [cb]) (notified_ l).

Definition needs_wakeup {F} (in_loop : bool) (l : EventLoop F) : bool :=
  negb in_loop || calling_pending_functors_ l.

(** The beginning and the end of [DoPendingFunctors]. *)
Definition take_functors {F} (l : EventLoop F) : list F * EventLoop F :=
  (pending_functors_ l, MkLoop true (timer_wheel_ l) [] (notified_ l)).

Definition end_functors {F} (l : EventLoop F) : EventLoop F :=
  MkLoop false (timer_wheel_ l) (pending_functors_ l) (notified_ l).

(** A world with a loop in it. *)
Class HasLoop (W F : Type) : Type := {
  loop_of : W -> EventLoop F;
  set_loop : EventLoop F -> W -> W;
  loop_of_set l w : loop_of (set_loop l w) = l;
  set_loop_set l l' w : set_loop l (set_loop l' w) = set_loop l w;
  set_loop_of w : set_loop (loop_of w) w = w
}.

Section loop.
Context {W F : Type} `{!HasLoop W F}.

Definition on_loop {A} (f : EventLoop F -> A * EventLoop F) : M W A := fun w =>
  let '(a, l) := f (loop_of w) in (Ret a, set_loop l w).

Definition mod_loop (f : EventLoop F -> EventLoop F) : M W unit := on_loop (fun l => (tt, f l)).

Definition set_wheel (t : TimerWheel F) (l : EventLoop F) : EventLoop F :=
  MkLoop (calling_pending_functors_ l) t (pending_functors_ l) (notified_ l).

Definition RunAfter (delay_seconds : Z) (cb : F) (repeat : bool) : M W Z :=
  on_loop (fun l => let '(id, t) := AddTimer delay_seconds (Some cb) repeat (timer_wheel_ l) in
                    (id, set_wheel t l)).

Definition Loop_CancelTimer (id : Z) : M W unit :=
  mod_loop (fun l => set_wheel (CancelTimer id (timer_wheel_ l)) l).

Definition Loop_RefreshTimer (id delay_seconds : Z) : M W unit :=
  mod_loop (fun l => set_wheel (RefreshTimer id delay_seconds (timer_wheel_ l)) l).

(** [QueueInLoop] from the loop's own thread. *)
Definition QueueInLoop (cb : F) : M W unit :=
  mod_loop (fun l =>
    let l := push_functor cb l in
    if needs_wakeup true l then Wakeup l else l).

Fixpoint run_all (run : F -> M W unit) (fs : list F) : M W unit :=
  match fs with
  | [] => mret tt
  | f :: fs => _ ← run f; run_all run fs
  end.

(** The queue is taken whole: what the functors queue waits for the next round. *)
Definition DoPendingFunctors (run : F -> M W unit) : M W unit :=
  functors ← on_loop take_functors;
  _ ← run_all run functors;
  mod_loop end_functors.

(** One tick of the wheel; the callbacks run in the order of the bucket. *)
Definition HandleTimerTick (run : F -> M W unit) : M W unit :=
  fired ← on_loop (fun l => let '(fired, t) := Tick (timer_wheel_ l) in (fired, set_wheel t l));
  run_all run fired.
End loop.

(** ** Channels *)

Definition EPOLLIN : Z := 1.
Definition EPOLLPRI : Z := 2.
Definition EPOLLOUT : Z := 4.
Definition EPOLLERR : Z := 8.
Definition EPOLLHUP : Z := 16.
Definition EPOLLRDHUP : Z := 8192.

Definition kNoneEvent : Z := 0.
Definition kReadEvent : Z := Z.lor EPOLLIN EPOLLPRI.
Definition kWriteEvent : Z := EPOLLOUT.

Definition EnableReading (events : Z) : Z := Z.lor events kReadEvent.
Definition DisableReading (events : Z) : Z := Z.ldiff events kReadEvent.
Definition EnableWriting (events : Z) : Z := Z.lor events kWriteEvent.
Definition DisableWriting (events : Z) : Z := Z.ldiff events kWriteEvent.
Definition DisableAll (events : Z) : Z := kNoneEvent.
Definition IsWriting (events : Z) : bool := negb (Z.land events kWriteEvent =? 0)%Z.
Definition IsReading (events : Z) : bool := negb (Z.land events kReadEvent =? 0)%Z.

(** The handlers in the order of the code. *)
Definition HandleEventWithGuard {W} (revents : Z) (close error read write : M W unit) : M W unit :=
  let has e := negb (Z.land revents e =? 0)%Z in
  _ ← (if has EPOLLHUP && negb (has EPOLLIN) then close else mret tt);
  _ ← (if has EPOLLERR then error else mret tt);
  _ ← (if has (Z.lor (Z.lor EPOLLIN EPOLLPRI) EPOLLRDHUP) then read else mret tt);
  if has EPOLLOUT then write else mret tt.
