(* ===== verification/LoopThreads.v ===== *)
(** * An event loop and the threads that use it (src/src/net/epoll/event_loop.cpp,
    notifier.cpp)

    The loop's thread goes through the phases of [Loop]; other threads queue
    functors and ask it to quit, each in two steps: the shared state first, the
    notifier after. The steps interleave in any way. *)
From S2P Require Import Prelude TimerWheel EventLoop.

Section threads.
Context {F : Type}.

(** Where the loop's thread is: outside [Loop], in [epoll_wait], in the handlers of
    the events, or in [DoPendingFunctors] with the functors still to run. *)
Inductive phase : Type :=
  | Outside
  | InWait
  | Handling
  | Draining (functors : list F).

(** [ls_eventfd] is the counter of the notifier; [ls_owing] the threads that have
    changed the shared state and not yet called [Notify]. [ls_queued] and [ls_ran]
    are the functors that were ever queued and that were ever run. *)
Record LoopSys : Type := MkLoopSys {
  ls_loop : EventLoop F;
  ls_phase : phase;
  ls_quit : bool;
  ls_eventfd : Z;
  ls_owing : nat;
  ls_queued : list F;
  ls_ran : list F
}.

Definition new_sys : LoopSys := MkLoopSys (new_loop F) Outside false 0 0 [] [].

(** The counter of an eventfd stops below its maximum: [write] fails there. *)
Definition kMaxEvent : Z := two64 - 2.

Definition Notify (n : Z) : Z := if (n <? kMaxEvent)%Z then (n + 1)%Z else n.

Definition set_phase (l : EventLoop F) (p : phase) (s : LoopSys) : LoopSys :=
  MkLoopSys l p (ls_quit s) (ls_eventfd s) (ls_owing s) (ls_queued s) (ls_ran s).

(** [QueueInLoop] of the loop's own thread. *)
Definition queue_own (f : F) (s : LoopSys) : LoopSys :=
  MkLoopSys (push_functor f (ls_loop s)) (ls_phase s) (ls_quit s)
    (if needs_wakeup true (ls_loop s) then Notify (ls_eventfd s) else ls_eventfd s)
    (ls_owing s) (ls_queued s ++ [f]) (ls_ran s).

Inductive loop_step : LoopSys -> LoopSys -> Prop :=
  (** [QueueInLoop] from another thread, up to the wake-up. *)
  | step_queue f s :
      loop_step s (MkLoopSys (push_functor f (ls_loop s)) (ls_phase s) (ls_quit s) (ls_eventfd s)
        (S (ls_owing s)) (ls_queued s ++ [f]) (ls_ran s))
  (** [Quit] from another thread, up to the wake-up. *)
  | step_quit s :
      loop_step s (MkLoopSys (ls_loop s) (ls_phase s) true (ls_eventfd s) (S (ls_owing s)) (ls_queued s) (ls_ran s))
  (** The wake-up of one of them. *)
  | step_wakeup k s :
      ls_owing s = S k ->
      loop_step s (MkLoopSys (ls_loop s) (ls_phase s) (ls_quit s) (Notify (ls_eventfd s)) k (ls_queued s) (ls_ran s))
  (** [Loop] is called. *)
  | step_enter s :
      ls_phase s = Outside ->
      loop_step s (MkLoopSys (ls_loop s) InWait false (ls_eventfd s) (ls_owing s) (ls_queued s) (ls_ran s))
  (** [epoll_wait] returns: the notifier is readable, another descriptor is, or
      ten seconds have passed. *)
  | step_wait s :
      ls_phase s = InWait -> loop_step s (set_phase (ls_loop s) Handling s)
  (** The handler of the notifier reads its counter. *)
  | step_notified s :
      ls_phase s = Handling -> (0 < ls_eventfd s)%Z ->
      loop_step s (MkLoopSys (ls_loop s) Handling (ls_quit s) 0 (ls_owing s) (ls_queued s) (ls_ran s))
  (** A handler or a functor queues a functor, or calls [Quit]. *)
  | step_queue_own f s :
      (ls_phase s = Handling \/ exists fs, ls_phase s = Draining fs) -> loop_step s (queue_own f s)
  | step_quit_own s :
      (ls_phase s = Handling \/ exists fs, ls_phase s = Draining fs) ->
      loop_step s (MkLoopSys (ls_loop s) (ls_phase s) true (ls_eventfd s) (ls_owing s) (ls_queued s) (ls_ran s))
  (** [DoPendingFunctors]. *)
  | step_take s :
      ls_phase s = Handling ->
      loop_step s (set_phase (snd (take_functors (ls_loop s))) (Draining (fst (take_functors (ls_loop s)))) s)
  | step_run f fs s :
      ls_phase s = Draining (f :: fs) ->
      loop_step s (MkLoopSys (ls_loop s) (Draining fs) (ls_quit s) (ls_eventfd s) (ls_owing s) (ls_queued s)
        (ls_ran s ++ [f]))
  (** The end of a round: the test of [quit_]. *)
  | step_end s :
      ls_phase s = Draining [] ->
      loop_step s (set_phase (end_functors (ls_loop s)) (if ls_quit s then Outside else InWait) s).

(** ** The invariant *)

(** What [DoPendingFunctors] holds. *)
Definition taken (p : phase) : list F := match p with Draining fs => fs | _ => [] end.

Definition draining (p : phase) : bool := match p with Draining _ => true | _ => false end.

(** Somebody will make [epoll_wait] return. *)
Definition woken (s : LoopSys) : Prop := (0 < ls_eventfd s)%Z \/ (0 < ls_owing s)%nat.

Record sys_ok (s : LoopSys) : Prop := MkSysOk {
  so_order : ls_queued s = ls_ran s ++ taken (ls_phase s) ++ pending_functors_ (ls_loop s);
  so_calling : calling_pending_functors_ (ls_loop s) = draining (ls_phase s);
  so_pending : pending_functors_ (ls_loop s) <> [] -> ls_phase s <> Handling -> woken s;
  so_quit : ls_quit s = true -> ls_phase s = InWait -> woken s;
  so_event : (0 <= ls_eventfd s)%Z
}.

Lemma notify_pos n : (0 <= n)%Z -> (0 < Notify n)%Z.
Proof. unfold Notify, kMaxEvent, two64. intros H. destruct (Z.ltb_spec n (18446744073709551616 - 2)); lia. Qed.

Lemma new_sys_ok : sys_ok new_sys.
Proof. split; done. Qed.

Lemma queue_own_ok f s :
  (ls_phase s = Handling \/ exists fs, ls_phase s = Draining fs) -> sys_ok s -> sys_ok (queue_own f s).
Proof.
  intros Hp [H1 H2 H3 H4 H5]. split; cbn.
  - by rewrite H1, <-!app_assoc.
  - done.
  - intros _ Hh. destruct Hp as [Hp|[fs Hp]]; [done|]. left. cbn. unfold needs_wakeup. rewrite H2, Hp. cbn. by apply notify_pos.
  - intros _ Hw. by destruct Hp as [Hp|[fs Hp]]; rewrite Hp in Hw.
  - case_match; [|done]. pose proof (notify_pos _ H5). lia.
Qed.

Lemma loop_step_ok s s' : sys_ok s -> loop_step s s' -> sys_ok s'.
Proof.
  intros Hs Hstep. pose proof Hs as [H1 H2 H3 H4 H5]. destruct Hstep as
    [f s|s|k s Hk|s Hp|s Hp|s Hp He|f s Hp|s Hp|s Hp|f fs s Hp|s Hp]; try (by apply queue_own_ok).
  - split; cbn; [by rewrite H1, <-!app_assoc|done|intros; right; cbn; lia..|done].
  - split; cbn; [done|done| |intros; right; cbn; lia|done]. intros; right; cbn; lia.
  - split; cbn; [done|done|intros; left; by apply notify_pos..|]. pose proof (notify_pos _ H5). lia.
  - rewrite Hp in *. split; cbn; try done. intros Hn _. by apply H3.
  - rewrite Hp in *. split; cbn; done.
  - rewrite Hp in *. split; cbn; done.
  - split; cbn; try done. intros _ Hw. by destruct Hp as [Hp|[fs Hp]]; rewrite Hp in Hw.
  - rewrite Hp in *. split; cbn; try done. by rewrite app_nil_r.
  - rewrite Hp in *. split; cbn; try done; [rewrite H1; cbn; by rewrite <-app_assoc|]. intros Hn _. by apply H3.
  - rewrite Hp in *. split; cbn; try done.
    + rewrite H1. by destruct (ls_quit s).
    + by destruct (ls_quit s).
    + intros Hn _. by apply H3.
    + intros Hq Hw. by rewrite Hq in Hw.
Qed.

Lemma reached_sys_ok s : rtc loop_step new_sys s -> sys_ok s.
Proof.
  intros Hr. eapply (rtc_ind_r sys_ok); [exact new_sys_ok| |exact Hr]. intros s1 s2 _ Hst Hok. by eapply loop_step_ok.
Qed.

(** C32. Functors queued for a loop, from its own thread or from any other, in any
    interleaving with its rounds, run in the order in which they were queued, each
    once; and no wake-up is lost: while the loop sits in [epoll_wait] with a functor
    pending, or with a [Quit] since it was entered, the notifier is readable or the
    thread responsible is about to write it. *)
Theorem loop_threads_sound s :
  rtc loop_step new_sys s ->
  (ls_queued s = ls_ran s ++ taken (ls_phase s) ++ pending_functors_ (ls_loop s)) /\
  (ls_phase s = InWait -> pending_functors_ (ls_loop s) <> [] \/ ls_quit s = true ->
    (0 < ls_eventfd s)%Z \/ (0 < ls_owing s)%nat).
Proof.
  intros [H1 H2 H3 H4 H5]%reached_sys_ok. split; [done|]. intros Hp [Hn|Hq]; [|by apply H4].
  apply H3; [done|by rewrite Hp].
Qed.

(** The loop sleeps for good: nothing pending, nothing on its way. *)
Definition asleep (s : LoopSys) : Prop := ls_phase s = InWait /\ ls_eventfd s = 0%Z /\ ls_owing s = 0%nat.

(** A [Quit] that comes before the thread has entered [Loop] is forgotten: its
    wake-up only makes the first round shorter, and the loop goes to sleep. *)
Lemma early_quit_forgotten :
  exists s, rtc loop_step (MkLoopSys (new_loop F) Outside true 1 0 [] []) s /\ asleep s.
Proof.
  eexists (MkLoopSys _ InWait false 0 0 [] []). split; [|done].
  eapply rtc_l; [by apply step_enter|]. eapply rtc_l; [by apply step_wait|].
  eapply rtc_l; [by apply step_notified|]. eapply rtc_l; [by apply step_take|].
  eapply rtc_l; [by apply step_end|]. apply rtc_refl.
Qed.

(** A functor queued together with [Quit] from another thread may never run: the
    loop may test [quit_] between its last look at the queue and the functor. *)
Lemma last_functor_dropped f :
  exists s, rtc loop_step new_sys s /\ ls_phase s = Outside /\ ls_queued s = [f] /\ ls_ran s = [].
Proof.
  eexists (MkLoopSys _ Outside true 0 2 [f] []). split; [|done].
  eapply rtc_l; [by apply step_enter|]. eapply rtc_l; [by apply step_wait|]. eapply rtc_l; [by apply step_take|].
  eapply rtc_l; [apply (step_queue f)|]. eapply rtc_l; [apply step_quit|].
  eapply rtc_l; [by apply step_end|]. apply rtc_refl.
Qed.
End threads.
Arguments LoopSys F : clear implicits.

(** Another thread queues while the loop waits; the loop has run it when it waits
    again. *)
Lemma loop_threads_sound_witness :
  exists s : LoopSys nat, ls_phase s = InWait /\ ls_ran s = [7%nat] /\
    ls_queued s = ls_ran s ++ taken (ls_phase s) ++ pending_functors_ (ls_loop s).
Proof.
  eexists (MkLoopSys _ InWait false 0 0 [7%nat] [7%nat]). split; [done|]. split; [done|].
  apply loop_threads_sound.
  eapply rtc_l; [by apply step_enter|]. eapply rtc_l; [apply (step_queue 7%nat)|]. eapply rtc_l; [by apply step_wakeup|].
  eapply rtc_l; [by apply step_wait|]. eapply rtc_l; [by apply step_notified|]. eapply rtc_l; [by apply step_take|].
  eapply rtc_l; [by apply step_run|]. eapply rtc_l; [by apply step_end|]. apply rtc_refl.
Defined.
