(* ===== verification/Channel.v ===== *)
(** * Channels and their registration (src/src/net/epoll/channel.cpp and
    [UpdateChannel], [RemoveChannel], [HasChannel] of event_loop.cpp)

    A channel is an object on the heap, known by its address; the loop gives the
    address to [epoll_ctl] and gets it back with the events. The descriptor table
    of the kernel is the class [Epoll]. *)
From S2P Require Import Prelude TimerWheel EventLoop.

(** ** The kernel *)

Inductive ctl_op : Type := CTL_ADD | CTL_MOD | CTL_DEL.

(** [epoll_ctl] with the descriptor, the events and the pointer, and whether it
    succeeds. [ep_close] is the kernel's part of closing a descriptor. *)
Class Epoll : Type := {
  ep : Type;
  epoll_ctl : ctl_op -> Z -> Z -> positive -> ep -> bool * ep;
  ep_close : Z -> ep -> ep
}.

(** The interest list: for each descriptor the events and the pointer. *)
Class EpollLaws `{Epoll} : Type := {
  interest : ep -> gmap Z (Z * positive);
  law_add fd events p e :
    let '(ok, e') := epoll_ctl CTL_ADD fd events p e in
    interest e' = if ok then <[fd := (events, p)]> (interest e) else interest e;
  law_mod fd events p e :
    let '(ok, e') := epoll_ctl CTL_MOD fd events p e in
    interest e' = if ok then <[fd := (events, p)]> (interest e) else interest e;
  law_del fd events p e : interest (snd (epoll_ctl CTL_DEL fd events p e)) = delete fd (interest e);
  law_ep_close fd e : interest (ep_close fd e) = delete fd (interest e)
}.

(** ** State *)

Record Channel : Type := MkChannel {
  fd_ : Z;
  events_ : Z;
  index_ : Z;
  added_to_loop_ : bool
}.

Definition new_Channel (fd : Z) : Channel := MkChannel fd 0 (-1) false.

(** The loop's [channels_], the kernel's table and the channels that exist. *)
Record Poller `{Epoll} : Type := MkPoller {
  po_epoll : ep;
  channels_ : gmap Z positive;
  po_heap : gmap positive Channel
}.

Section channels.
Context {HE : Epoll}.

Definition set_index (i : Z) (c : Channel) : Channel := MkChannel (fd_ c) (events_ c) i (added_to_loop_ c).

Definition put_channel (p : positive) (c : Channel) (r : Poller) : Poller :=
  MkPoller _ (po_epoll r) (channels_ r) (<[p := c]> (po_heap r)).

Definition put_epoll (e : ep) (r : Poller) : Poller := MkPoller _ e (channels_ r) (po_heap r).

Definition IsNoneEvent (c : Channel) : bool := (events_ c =? kNoneEvent)%Z.

(** ** The loop's side *)

Definition UpdateChannel (p : positive) (c : Channel) (r : Poller) : Poller :=
  if (index_ c <? 0)%Z then
    let '(ok, e) := epoll_ctl CTL_ADD (fd_ c) (events_ c) p (po_epoll r) in
    if ok then MkPoller _ e (<[fd_ c := p]> (channels_ r)) (<[p := set_index 1 c]> (po_heap r))
    else put_channel p c (put_epoll e r)
  else if IsNoneEvent c then
    let '(_, e) := epoll_ctl CTL_DEL (fd_ c) (events_ c) p (po_epoll r) in
    put_channel p (set_index (-1) c) (put_epoll e r)
  else
    let '(_, e) := epoll_ctl CTL_MOD (fd_ c) (events_ c) p (po_epoll r) in
    put_channel p c (put_epoll e r).

Definition RemoveChannel (p : positive) (c : Channel) (r : Poller) : Poller :=
  let e := if (0 <=? index_ c)%Z then snd (epoll_ctl CTL_DEL (fd_ c) 0 p (po_epoll r)) else po_epoll r in
  MkPoller _ e (delete (fd_ c) (channels_ r)) (<[p := set_index (-1) c]> (po_heap r)).

Definition HasChannel (p : positive) (c : Channel) (r : Poller) : bool :=
  bool_decide (channels_ r !! fd_ c = Some p).

(** ** The channel's side *)

(** [Update] after a change of the events. *)
Definition Update (p : positive) (events : Z) (r : Poller) : Poller :=
  match po_heap r !! p with
  | Some c => UpdateChannel p (MkChannel (fd_ c) events (index_ c) true) r
  | None => r
  end.

Definition on_events (f : Z -> Z) (p : positive) (r : Poller) : Poller :=
  match po_heap r !! p with Some c => Update p (f (events_ c)) r | None => r end.

Definition Remove (p : positive) (r : Poller) : Poller :=
  match po_heap r !! p with
  | Some c => RemoveChannel p (MkChannel (fd_ c) (events_ c) (index_ c) false) r
  | None => r
  end.

(** What the owners of channels do: make one, change its events, remove it,
    destroy it, close a descriptor. *)
Inductive channel_op : Type :=
  | NewChannel (p : positive) (fd : Z)
  | ChangeEvents (f : Z -> Z) (p : positive)
  | RemoveOp (p : positive)
  | Destroy (p : positive)
  | CloseFd (fd : Z).

Definition run_channel_op (op : channel_op) (r : Poller) : Poller :=
  match op with
  | NewChannel p fd => put_channel p (new_Channel fd) r
  | ChangeEvents f p => on_events f p r
  | RemoveOp p => Remove p r
  | Destroy p => MkPoller _ (po_epoll r) (channels_ r) (delete p (po_heap r))
  | CloseFd fd => put_epoll (ep_close fd (po_epoll r)) r
  end.

(** The discipline of the owners: a new channel has an address of its own, and a
    channel is destroyed only after its [Remove], or if it was never registered. *)
Definition allowed (op : channel_op) (r : Poller) : Prop :=
  match op with
  | NewChannel p _ => po_heap r !! p = None
  | Destroy p => match po_heap r !! p with Some c => (index_ c < 0)%Z | None => True end
  | _ => True
  end.

Fixpoint run_channel_ops (ops : list channel_op) (r : Poller) : Poller :=
  match ops with
  | [] => r
  | op :: ops => run_channel_ops ops (run_channel_op op r)
  end.

Fixpoint all_allowed (ops : list channel_op) (r : Poller) : Prop :=
  match ops with
  | [] => True
  | op :: ops => allowed op r /\ all_allowed ops (run_channel_op op r)
  end.

(** ** No dangling pointer *)

Context {HEL : EpollLaws}.

(** Every pointer of the interest list is a registered channel of that descriptor. *)
Definition no_dangling (r : Poller) : Prop :=
  forall fd events p, interest (po_epoll r) !! fd = Some (events, p) ->
    exists c, po_heap r !! p = Some c /\ fd_ c = fd /\ (0 <= index_ c)%Z.

(** The registered entries after an insertion for [p]. *)
Lemma dangling_insert r e fd events p c ch :
  no_dangling r -> interest e = <[fd := (events, p)]> (interest (po_epoll r)) ->
  fd_ c = fd -> (0 <= index_ c)%Z ->
  (forall c0, po_heap r !! p = Some c0 -> fd_ c0 = fd) ->
  no_dangling (MkPoller _ e ch (<[p := c]> (po_heap r))).
Proof.
  intros Hr He Hfd Hi Hold fd' ev' p' Hl. cbn in *. rewrite He in Hl.
  apply lookup_insert_Some in Hl as [[<- [= <- <-]]|[Hne Hl]]; [exists c; by rewrite lookup_insert_eq|].
  destruct (Hr _ _ _ Hl) as (c' & Hc' & Hf' & Hi'). destruct (decide (p' = p)) as [->|Hp].
  - destruct Hne. rewrite <-Hf'. symmetry. by apply Hold.
  - exists c'. by rewrite lookup_insert_ne.
Qed.

(** ... and after the descriptor of [p] is deleted. *)
Lemma dangling_delete r e p c c0 ch :
  no_dangling r -> interest e = delete (fd_ c0) (interest (po_epoll r)) -> po_heap r !! p = Some c0 ->
  no_dangling (MkPoller _ e ch (<[p := c]> (po_heap r))).
Proof.
  intros Hr He Hc0 fd' ev' p' Hl. cbn in *. rewrite He in Hl. apply lookup_delete_Some in Hl as [Hne Hl].
  destruct (Hr _ _ _ Hl) as (c' & Hc' & Hf' & Hi'). destruct (decide (p' = p)) as [->|Hp].
  - simplify_eq.
  - exists c'. by rewrite lookup_insert_ne.
Qed.

(** ... and after a change that keeps the registration of [p]. *)
Lemma dangling_same r e p c c0 ch :
  no_dangling r -> interest e = interest (po_epoll r) -> po_heap r !! p = Some c0 ->
  fd_ c = fd_ c0 -> ((0 <= index_ c0)%Z -> (0 <= index_ c)%Z) ->
  no_dangling (MkPoller _ e ch (<[p := c]> (po_heap r))).
Proof.
  intros Hr He Hc0 Hfd Hi fd' ev' p' Hl. cbn in *. rewrite He in Hl.
  destruct (Hr _ _ _ Hl) as (c' & Hc' & Hf' & Hi'). destruct (decide (p' = p)) as [->|Hp].
  - simplify_eq. exists c. rewrite lookup_insert_eq. auto.
  - exists c'. by rewrite lookup_insert_ne.
Qed.

Lemma update_no_dangling p c c0 r :
  no_dangling r -> po_heap r !! p = Some c0 -> fd_ c = fd_ c0 -> index_ c = index_ c0 ->
  no_dangling (UpdateChannel p c r).
Proof.
  intros Hr Hc0 Hfd Hi. unfold UpdateChannel. destruct (Z.ltb_spec (index_ c) 0) as [Hneg|Hpos].
  - pose proof (law_add (fd_ c) (events_ c) p (po_epoll r)) as L.
    destruct (epoll_ctl CTL_ADD _ _ _ _) as [[|] e].
    + eapply (dangling_insert r); [done|exact L|done|done|]. intros c1 Hc1. congruence.
    + eapply (dangling_same r); [done|exact L|done|done|]. lia.
  - destruct (IsNoneEvent c).
    + pose proof (law_del (fd_ c) (events_ c) p (po_epoll r)) as L.
      destruct (epoll_ctl CTL_DEL _ _ _ _) as [ok e]. cbn in L.
      apply (dangling_delete r _ _ _ c0); [done|by rewrite <-Hfd|done].
    + pose proof (law_mod (fd_ c) (events_ c) p (po_epoll r)) as L.
      destruct (epoll_ctl CTL_MOD _ _ _ _) as [[|] e].
      * eapply (dangling_insert r); [done|exact L|done|done|]. intros c1 Hc1. congruence.
      * eapply (dangling_same r); [done|exact L|done|done|]. lia.
Qed.

Lemma remove_no_dangling p c c0 r :
  no_dangling r -> po_heap r !! p = Some c0 -> fd_ c = fd_ c0 -> index_ c = index_ c0 ->
  no_dangling (RemoveChannel p c r).
Proof.
  intros Hr Hc0 Hfd Hi. unfold RemoveChannel. destruct (Z.leb_spec 0 (index_ c)) as [Hpos|Hneg].
  - apply (dangling_delete r _ _ _ c0); [done|rewrite law_del; by rewrite Hfd|done].
  - intros fd' ev' p' Hl. destruct (Hr _ _ _ Hl) as (c' & Hc' & Hf' & Hi').
    exists c'. cbn. rewrite lookup_insert_ne; [done|]. intros <-. simplify_eq. lia.
Qed.

Lemma op_no_dangling op r : no_dangling r -> allowed op r -> no_dangling (run_channel_op op r).
Proof.
  intros Hr Ha. destruct op as [p fd|f p|p|p|fd]; cbn in *.
  - intros fd' ev' p' Hl. destruct (Hr _ _ _ Hl) as (c' & Hc' & Hf' & Hi'). exists c'. cbn.
    rewrite lookup_insert_ne; [done|]. intros <-. by rewrite Ha in Hc'.
  - unfold on_events, Update. destruct (po_heap r !! p) as [c|] eqn:Hc; [|done].
    by eapply update_no_dangling.
  - unfold Remove. destruct (po_heap r !! p) as [c|] eqn:Hc; [|done]. by eapply remove_no_dangling.
  - intros fd' ev' p' Hl. destruct (Hr _ _ _ Hl) as (c' & Hc' & Hf' & Hi'). exists c'. cbn.
    rewrite lookup_delete_ne; [done|]. intros <-. rewrite Hc' in Ha. lia.
  - intros fd' ev' p' Hl. cbn in Hl. rewrite law_ep_close in Hl. apply lookup_delete_Some in Hl as [_ Hl]. by apply Hr in Hl.
Qed.

(** After [Remove] a channel may be destroyed. *)
Lemma remove_then_destroy p r : allowed (Destroy p) (Remove p r).
Proof.
  unfold allowed, Remove. destruct (po_heap r !! p) as [c|] eqn:E; [|by rewrite E]. cbn. by rewrite lookup_insert_eq.
Qed.

(** C33. The pointers that [epoll_wait] returns are never dangling: whatever channels
    are made, enabled, disabled, removed and destroyed after their [Remove], and
    whatever descriptors are closed, before or after, every channel on the interest
    list of the kernel exists, has that descriptor and is marked as registered. *)
Theorem epoll_no_dangling ops r fd events p :
  interest (po_epoll r) = ∅ -> all_allowed ops r ->
  interest (po_epoll (run_channel_ops ops r)) !! fd = Some (events, p) ->
  exists c, po_heap (run_channel_ops ops r) !! p = Some c /\ fd_ c = fd /\ (0 <= index_ c)%Z.
Proof.
  intros H0 Hall. assert (Hr : no_dangling r) by (intros fd' ev' p' Hl; rewrite H0 in Hl; done). clear H0.
  revert r Hall Hr. induction ops as [|op ops IH]; intros r; cbn.
  - intros _ Hr. apply Hr.
  - intros [Ha Hall] Hr. apply IH; [done|by apply op_no_dangling].
Qed.

(** A registered channel whose update the kernel accepts is watched for the events
    it asked for, and one that asks for none is not watched at all. *)
Lemma update_watches p c r :
  (0 <= index_ c)%Z ->
  interest (po_epoll (UpdateChannel p c r)) !! fd_ c =
    (if IsNoneEvent c then None
     else if fst (epoll_ctl CTL_MOD (fd_ c) (events_ c) p (po_epoll r)) then Some (events_ c, p)
     else interest (po_epoll r) !! fd_ c).
Proof.
  intros Hi. unfold UpdateChannel. rewrite (proj2 (Z.ltb_ge _ _)) by done. destruct (IsNoneEvent c).
  - pose proof (law_del (fd_ c) (events_ c) p (po_epoll r)) as L. destruct (epoll_ctl CTL_DEL _ _ _ _) as [ok e].
    cbn in *. rewrite L. apply lookup_delete_eq.
  - pose proof (law_mod (fd_ c) (events_ c) p (po_epoll r)) as L. destruct (epoll_ctl CTL_MOD _ _ _ _) as [[|] e];
      cbn in *; rewrite L; [apply lookup_insert_eq|done].
Qed.
End channels.

(** ** A kernel *)

#[export] Instance map_epoll : Epoll := {|
  ep := gmap Z (Z * positive);
  epoll_ctl op fd events p e :=
    match op, e !! fd with
    | CTL_ADD, None => (true, <[fd := (events, p)]> e)
    | CTL_MOD, Some _ => (true, <[fd := (events, p)]> e)
    | CTL_DEL, Some _ => (true, delete fd e)
    | _, _ => (false, e)
    end;
  ep_close fd e := delete fd e
|}.

#[export] Program Instance map_epoll_laws : EpollLaws := {| interest e := e |}.
Next Obligation. intros fd events p e. cbn. by repeat case_match; simplify_eq. Qed.
Next Obligation. intros fd events p e. cbn. by repeat case_match; simplify_eq. Qed.
Next Obligation. intros fd events p e. cbn. repeat case_match; [done|]. symmetry. by apply delete_id. Qed.
Next Obligation. done. Qed.

(** Two connections; the first is removed, destroyed and its descriptor reused. *)
Definition sample_channel_ops : list channel_op :=
  [NewChannel 1 7; ChangeEvents EnableReading 1; NewChannel 2 8; ChangeEvents EnableReading 2;
   ChangeEvents EnableWriting 2; ChangeEvents DisableAll 1; RemoveOp 1; Destroy 1; CloseFd 7;
   NewChannel 3 7; ChangeEvents EnableReading 3].

Lemma epoll_no_dangling_witness :
  exists c, po_heap (run_channel_ops sample_channel_ops (MkPoller _ ∅ ∅ ∅)) !! 3%positive = Some c /\
    fd_ c = 7%Z /\ (0 <= index_ c)%Z.
Proof.
  apply (epoll_no_dangling sample_channel_ops (MkPoller _ ∅ ∅ ∅) 7 (EnableReading 0) 3);
    [reflexivity|vm_compute; repeat split|vm_compute; reflexivity].
Defined.
