(* ===== verification/Acceptor.v ===== *)
(** * The acceptor (src/src/net/epoll/acceptor.cpp, and [GetNextLoop] of
    server/server.cpp)

    The loop that accepts connections until there are no more, with the spare
    descriptor it gives up when the process has none left. What [accept4] and the
    other calls answer comes as a list. *)
From S2P Require Import Prelude.

Open Scope Z_scope.

(** An answer of [accept4]: a connection; none left; no descriptor left, with what
    the second [accept] and the [open] of the spare one then return; interrupted;
    another error. *)
Inductive accept_result : Type :=
  | Accepts (connfd : Z) (peer_addr : string)
  | AcceptAgain
  | AcceptNoFds (second reopened : option Z)
  | AcceptIntr
  | AcceptError.

(** [listening_], and [idle_fd_], [None] when it is no descriptor; [ac_closed] are
    the descriptors that [close] was called on. *)
Record Acceptor : Type := MkAcceptor {
  listening_ : bool;
  idle_fd_ : option Z;
  ac_closed : list Z
}.

Definition Listen (a : Acceptor) : Acceptor := MkAcceptor true (idle_fd_ a) (ac_closed a).

Definition close_fds (fds : list Z) (a : Acceptor) : Acceptor :=
  MkAcceptor (listening_ a) (idle_fd_ a) (ac_closed a ++ fds).

Definition opt_fd (o : option Z) : list Z := match o with Some fd => [fd] | None => [] end.

Section accept.
Context {W : Type} (new_connection_callback_ : option (Z -> string -> M W unit)).

(** [HandleRead]; the end of the list is an [EAGAIN]. *)
Fixpoint HandleRead (rs : list accept_result) (a : Acceptor) : M W Acceptor :=
  match rs with
  | [] => mret a
  | Accepts connfd peer :: rs =>
      match new_connection_callback_ with
      | Some cb => _ ← cb connfd peer; HandleRead rs a
      | None => HandleRead rs (close_fds [connfd] a)
      end
  | AcceptAgain :: _ => mret a
  | AcceptNoFds second reopened :: rs =>
      let a := close_fds (opt_fd (idle_fd_ a) ++ opt_fd second) a in
      HandleRead rs (MkAcceptor (listening_ a) reopened (ac_closed a))
  | AcceptIntr :: rs => HandleRead rs a
  | AcceptError :: _ => mret a
  end.

(** What the loop reads of the answers. *)
Fixpoint read_results (rs : list accept_result) : list accept_result :=
  match rs with
  | [] | AcceptAgain :: _ | AcceptError :: _ => []
  | r :: rs => r :: read_results rs
  end.

(** The connections in it, and the descriptors it opened for itself. *)
Definition connections (rs : list accept_result) : list (Z * string) :=
  omap (fun r => match r with Accepts fd peer => Some (fd, peer) | _ => None end) rs.

Definition opened (r : accept_result) : list Z :=
  match r with AcceptNoFds second reopened => opt_fd second ++ opt_fd reopened | _ => [] end.

Lemma connections_cons r rs :
  connections (r :: rs) = match r with Accepts fd peer => (fd, peer) :: connections rs | _ => connections rs end.
Proof. by destruct r. Qed.
End accept.

(** ** The connections handed over *)

(** A callback that keeps what it is called with. *)
Definition record_connection (fd : Z) (peer : string) : M (list (Z * string)) unit :=
  fun l => (Ret tt, l ++ [(fd, peer)]).

(** Every connection accepted is handed over once, in order, and no descriptor is
    lost: what the acceptor opened for itself it has closed, but for the spare one
    it ends with. *)
Lemma accept_hands_over rs : forall a l,
  exists a', HandleRead (Some record_connection) rs a l = (Ret a', l ++ connections (read_results rs)) /\
    opt_fd (idle_fd_ a) ++ mjoin (opened <$> read_results rs) ++ ac_closed a ≡ₚ opt_fd (idle_fd_ a') ++ ac_closed a'.
Proof.
  induction rs as [|r rs IH]; intros a l; cbn [HandleRead read_results].
  - exists a. by rewrite app_nil_r.
  - destruct r as [fd peer| |second reopened| |].
    + destruct (IH a (l ++ [(fd, peer)])) as (a' & E & Hp). exists a'. split; [|exact Hp].
      unfold mbind, M_bind, record_connection at 1. rewrite E. by rewrite connections_cons, <-app_assoc.
    + exists a. by rewrite app_nil_r.
    + set (a1 := close_fds _ a). destruct (IH (MkAcceptor (listening_ a1) reopened (ac_closed a1)) l) as (a' & E & Hp).
      exists a'. split; [exact E|]. rewrite <-Hp. cbn [idle_fd_ ac_closed a1 close_fds fmap list_fmap mjoin list_join opened].
      solve_Permutation.
    + apply IH.
    + exists a. by rewrite app_nil_r.
Qed.

(** Without a callback every connection is closed at once. *)
Lemma accept_without_callback rs : forall a (w : unit),
  (forall s o, AcceptNoFds s o ∉ rs) ->
  exists a', HandleRead None rs a w = (Ret a', w) /\
    ac_closed a' = ac_closed a ++ (fst <$> connections (read_results rs)) /\ idle_fd_ a' = idle_fd_ a.
Proof.
  induction rs as [|r rs IH]; intros a w Hn; cbn [HandleRead read_results].
  - exists a. by rewrite app_nil_r.
  - destruct r as [fd peer| |second reopened| |].
    + destruct (IH (close_fds [fd] a) w) as (a' & E & Hc & Hi); [intros s o Hin; apply (Hn s o); by right|].
      exists a'. split; [exact E|]. split; [|done]. rewrite Hc, connections_cons. cbn. by rewrite <-app_assoc.
    + exists a. by rewrite app_nil_r.
    + destruct (Hn second reopened). by left.
    + apply IH. intros s o Hin. apply (Hn s o). by right.
    + exists a. by rewrite app_nil_r.
Qed.

(** ** The choice of a loop *)

(** [GetNextLoop]: the number of the IO loop, [None] for the main loop, and the
    next value of [next_loop_index_], a [size_t]. *)
Definition GetNextLoop (io_loops : nat) (next_loop_index : Z) : option Z * Z :=
  if (io_loops =? 0)%nat then (None, next_loop_index)
  else (Some (next_loop_index mod Z.of_nat io_loops), u64 (next_loop_index + 1)).

Fixpoint next_loops (n : nat) (io_loops : nat) (index : Z) : list (option Z) :=
  match n with
  | O => []
  | S n => let '(l, index) := GetNextLoop io_loops index in l :: next_loops n io_loops index
  end.

(** The loops take turns: [n] connections go to [index], [index + 1] and so on,
    modulo the number of loops, as long as the index does not wrap around. *)
Lemma next_loops_take_turns io_loops n : forall index,
  (0 < io_loops)%nat -> 0 <= index -> index + Z.of_nat n <= two64 ->
  next_loops n io_loops index =
    (fun i => Some ((index + Z.of_nat i) mod Z.of_nat io_loops)) <$> seq 0 n.
Proof.
  induction n as [|n IH]; intros index Hl Hi Hb; [done|]. cbn [next_loops seq fmap list_fmap].
  unfold GetNextLoop. destruct (Nat.eqb_spec io_loops 0); [lia|]. rewrite Z.add_0_r. f_equal.
  destruct n as [|n]; [done|]. rewrite u64_small by lia. rewrite IH by lia. rewrite <-(fmap_S_seq 0 (S n)), <-list_fmap_compose.
  apply list_fmap_ext. intros _ i _. cbn. do 2 f_equal. lia.
Qed.
