(* ===== verification/Lifecycle.v ===== *)
(** * Starting and stopping the server (src/src/server/server.cpp: [Start], [Stop])

    [Start] makes the IO threads and waits until each has registered its loop before
    it listens; [Stop] quits the loops and joins the threads. The main thread, which
    runs [Start] and then the main loop, and the IO threads take their steps in any
    order. [Stop] is called by the signal handler, on whatever thread the signal is
    delivered to: on the main thread between two of its steps, which then wait until
    [Stop] returns, or on another thread, where the destructor of the acceptor finds
    that it is not in the thread of its loop and aborts the process. *)
From S2P Require Import Prelude Acceptor.

(** An IO thread: making its loop; registered, before [Loop]; in [Loop]; over. *)
Inductive io_phase : Type := Constructing | Registered | Looping | Ended.

(** [Start]: not called; in the loop that makes the threads; waiting for them; past
    the wait; with the collector started; listening; in [main_loop_->Loop()];
    returned. *)
Inductive start_phase : Type :=
  NotStarted | Spawning | WaitReady | Serving | GcStarted | Listening | InMainLoop | Returned.

(** [Stop]: not called; the acceptor destroyed; the collector stopped; in the loop
    over [io_loops_] or over [io_threads_], at an index; past them; or the process
    is aborted. *)
Inductive stop_phase : Type :=
  NoStop | StoppingGc | ClosingConns | Quitting (k : nat) | Joining (k : nat) | Stopped | Aborted.

#[export] Instance stop_phase_eq_dec : EqDecision stop_phase.
Proof. solve_decision. Defined.

(** The IO threads; [io_loops_] holds the numbers of the threads whose loops are in
    it, and [io_quits] those whose loop has [quit_] set. *)
Record IoPool : Type := MkIo {
  io_threads_ : list io_phase;
  io_loops_ : list nat;
  io_loops_ready_ : nat;
  io_quits : gset nat
}.

(** The rest: [quit_] of [main_loop_]; the acceptor, whether it listens; whether the
    collector runs; [connections_], and the connections with a [ForceClose]. *)
Record Parts : Type := MkParts {
  main_quit : bool;
  acceptor_ : option bool;
  gc_running : bool;
  connections_ : list nat;
  closing : list nat
}.

Record ServerLife : Type := MkLife {
  running_ : bool;
  sl_start : start_phase;
  sl_stop : stop_phase;
  sl_io :> IoPool;
  sl_parts :> Parts
}.

(** The server after [Init]. *)
Definition new_server : ServerLife :=
  MkLife false NotStarted NoStop (MkIo [] [] 0 ∅) (MkParts false (Some false) false [] []).

Section life.
Context (io_thread_count : nat) (gc_enabled : bool).
Implicit Types (s : ServerLife) (l : list io_phase).

Definition set_start (p : start_phase) s : ServerLife := MkLife (running_ s) p (sl_stop s) (sl_io s) (sl_parts s).
Definition set_stop (p : stop_phase) s : ServerLife := MkLife (running_ s) (sl_start s) p (sl_io s) (sl_parts s).
Definition set_running (b : bool) s : ServerLife := MkLife b (sl_start s) (sl_stop s) (sl_io s) (sl_parts s).
Definition set_io (io : IoPool) s : ServerLife := MkLife (running_ s) (sl_start s) (sl_stop s) io (sl_parts s).
Definition set_parts (p : Parts) s : ServerLife := MkLife (running_ s) (sl_start s) (sl_stop s) (sl_io s) p.
Definition set_threads l s : ServerLife := set_io (MkIo l (io_loops_ s) (io_loops_ready_ s) (io_quits s)) s.

(** *** [Start] *)

(** [if (gc_) gc_->Start();] *)
Definition start_gc s : ServerLife :=
  set_start GcStarted
    (set_parts (MkParts (main_quit s) (acceptor_ s) (gc_enabled || gc_running s) (connections_ s) (closing s)) s).

(** [acceptor_->Listen();] *)
Definition listen s : ServerLife :=
  set_start Listening (set_parts (MkParts (main_quit s) (Some true) (gc_running s) (connections_ s) (closing s)) s).

(** [main_loop_->Loop();], which begins with [quit_ = false]. *)
Definition enter_main_loop s : ServerLife :=
  set_start InMainLoop (set_parts (MkParts false (acceptor_ s) (gc_running s) (connections_ s) (closing s)) s).

(** [OnNewConnection], in the main loop: the connection is one of [connections_]. *)
Definition new_connection (c : nat) s : ServerLife :=
  set_parts (MkParts (main_quit s) (acceptor_ s) (gc_running s) (connections_ s ++ [c]) (closing s)) s.

(** [OnConnectionClose], in the loop of the connection. *)
Definition connection_closed (c : nat) s : ServerLife :=
  set_parts (MkParts (main_quit s) (acceptor_ s) (gc_running s) (filter (fun c' => c' <> c) (connections_ s)) (closing s)) s.

(** *** The IO threads *)

(** The registration of a loop, under the mutex. *)
Definition register_loop (i : nat) s : ServerLife :=
  set_io (MkIo (<[i := Registered]> (io_threads_ s)) (io_loops_ s ++ [i]) (S (io_loops_ready_ s)) (io_quits s)) s.

(** [loop.Loop()] begins with [quit_ = false]. *)
Definition enter_loop (i : nat) s : ServerLife :=
  set_io (MkIo (<[i := Looping]> (io_threads_ s)) (io_loops_ s) (io_loops_ready_ s) (io_quits s ∖ {[i]})) s.

(** *** [Stop] *)

(** [running_.exchange(false)] and [acceptor_.reset();], on the main thread or on
    another: the destructor disables the channel of the acceptor, for which
    [UpdateChannel] asserts that it runs in the thread of the main loop. *)
Definition begin_stop (in_main : bool) s : ServerLife :=
  set_running false (set_stop (if in_main then StoppingGc else Aborted)
    (set_parts (MkParts (main_quit s) None (gc_running s) (connections_ s) (closing s)) s)).

(** [if (gc_) gc_->Stop();], which joins the thread of the collector. *)
Definition stop_gc s : ServerLife :=
  set_stop ClosingConns (set_parts (MkParts (main_quit s) (acceptor_ s) false (connections_ s) (closing s)) s).

(** [ForceClose] of every connection and [connections_.clear()]. *)
Definition close_connections s : ServerLife :=
  set_stop (Quitting 0)
    (set_parts (MkParts (main_quit s) (acceptor_ s) (gc_running s) [] (closing s ++ connections_ s)) s).

Definition quit_loop (k i : nat) s : ServerLife :=
  set_stop (Quitting (S k)) (set_io (MkIo (io_threads_ s) (io_loops_ s) (io_loops_ready_ s) ({[i]} ∪ io_quits s)) s).

(** [io_loops_.clear(); io_loops_ready_ = 0; main_loop_->Quit();] *)
Definition clear_loops s : ServerLife :=
  set_stop Stopped (set_io (MkIo (io_threads_ s) [] 0 (io_quits s))
    (set_parts (MkParts true (acceptor_ s) (gc_running s) (connections_ s) (closing s)) s)).

(** The predicate of the wait. *)
Definition loops_ready s : bool := (io_thread_count <=? io_loops_ready_ s)%nat.

(** The steps, with whether each is one of the code of the main thread that [Stop]
    interrupts there. A connection is closed in its loop, which is the main loop
    when there are no IO threads. A [Listen] on the acceptor that [Stop] has
    destroyed is undefined and not modelled: [Life_listen] asks for the acceptor.
    [Life_leave] and [Life_return] are the end of [EventLoop::Loop], which tests
    [quit_] in each round. *)
Inductive move s : bool -> ServerLife -> Prop :=
  | Life_start : running_ s = false -> sl_start s = NotStarted -> move s true (set_running true (set_start Spawning s))
  | Life_spawn :
      sl_start s = Spawning -> (length (io_threads_ s) < io_thread_count)%nat ->
      move s true (set_threads (io_threads_ s ++ [Constructing]) s)
  | Life_spawned :
      sl_start s = Spawning -> length (io_threads_ s) = io_thread_count ->
      move s true (set_start (if (0 <? io_thread_count)%nat then WaitReady else Serving) s)
  | Life_ready : sl_start s = WaitReady -> loops_ready s = true -> move s true (set_start Serving s)
  | Life_gc : sl_start s = Serving -> move s true (start_gc s)
  | Life_listen : sl_start s = GcStarted -> is_Some (acceptor_ s) -> move s true (listen s)
  | Life_loop : sl_start s = Listening -> move s true (enter_main_loop s)
  | Life_accept c : sl_start s = InMainLoop -> acceptor_ s = Some true -> move s true (new_connection c s)
  | Life_closed c : c ∈ connections_ s -> move s (io_thread_count =? 0)%nat (connection_closed c s)
  | Life_return : sl_start s = InMainLoop -> main_quit s = true -> move s true (set_start Returned s)
  | Life_register i : io_threads_ s !! i = Some Constructing -> move s false (register_loop i s)
  | Life_enter i : io_threads_ s !! i = Some Registered -> move s false (enter_loop i s)
  | Life_leave i :
      io_threads_ s !! i = Some Looping -> i ∈ io_quits s -> move s false (set_threads (<[i := Ended]> (io_threads_ s)) s)
  | Life_stop in_main : running_ s = true -> sl_stop s = NoStop -> move s false (begin_stop in_main s)
  | Life_stop_gc : sl_stop s = StoppingGc -> move s false (stop_gc s)
  | Life_close : sl_stop s = ClosingConns -> move s false (close_connections s)
  | Life_quit k i : sl_stop s = Quitting k -> io_loops_ s !! k = Some i -> move s false (quit_loop k i s)
  | Life_quitted : sl_stop s = Quitting (length (io_loops_ s)) -> move s false (set_stop (Joining 0) s)
  | Life_join k : sl_stop s = Joining k -> io_threads_ s !! k = Some Ended -> move s false (set_stop (Joining (S k)) s)
  | Life_joined : sl_stop s = Joining (length (io_threads_ s)) -> move s false (clear_loops s).

(** The process has not been aborted. *)
Definition alive s : bool := match sl_stop s with Aborted => false | _ => true end.

(** The main thread is not in [Stop]. *)
Definition main_free s : bool := match sl_stop s with NoStop | Stopped => true | _ => false end.

Inductive life_step s s' : Prop :=
  | Life_step main : alive s = true -> (main = true -> main_free s = true) -> move s main s' -> life_step s s'.

(** ** Starting *)

(** The thread has registered its loop. *)
Definition registered (o : option io_phase) : Prop :=
  match o with Some Registered | Some Looping | Some Ended => True | _ => False end.

(** [Start] is past the wait for the threads, and has not returned. *)
Definition past_wait (p : start_phase) : bool := match p with Serving | GcStarted | Listening | InMainLoop => true | _ => false end.

Record life_ok s : Prop := MkLifeOk {
  lo_nodup : NoDup (io_loops_ s);
  lo_loops i : i ∈ io_loops_ s -> registered (io_threads_ s !! i);
  lo_ready : io_loops_ready_ s = length (io_loops_ s);
  lo_count : (length (io_threads_ s) <= io_thread_count)%nat;
  lo_serving : past_wait (sl_start s) = true -> sl_stop s <> Stopped -> (io_thread_count <= length (io_loops_ s))%nat
}.

Lemma new_server_ok : life_ok new_server.
Proof. split; cbn; try done; [by constructor|by intros i ?%elem_of_nil|lia]. Qed.

Lemma registered_insert (l : list io_phase) i j p :
  registered (l !! j) -> registered (Some p) -> registered (<[i := p]> l !! j).
Proof.
  intros Hj Hp. destruct (decide (i = j)) as [->|Hne]; [|by rewrite list_lookup_insert_ne].
  destruct (l !! j) eqn:E; [|done]. rewrite list_lookup_insert_eq; [done|]. by eapply lookup_lt_Some.
Qed.

Lemma life_step_ok s s' : life_ok s -> life_step s s' -> life_ok s'.
Proof.
  intros [H1 H2 H3 H4 H5] [main _ _ Hst].
  destruct Hst as [Hr Hs|Hs Hl|Hs Hl|Hs Hr|Hs|Hs Ha|Hs|c Hs Ha|c Hc|Hs Hm|i Hi|i Hi|i Hi Hq|b Hr Hs|Hs|Hs|k i Hs Hk|Hs|k Hs Hk|Hs];
    split; cbn; try done; try (by rewrite ?Hs in H5; auto); rewrite ?length_app, ?length_insert; cbn; try lia.
  all: try (intros; apply H5; (congruence || by rewrite Hs)).
  all: try (intros j Hj; apply registered_insert; [by apply H2|done]).
  - intros j Hj. specialize (H2 j Hj). destruct (io_threads_ s !! j) eqn:E; [|done]. by erewrite lookup_app_l_Some.
  - destruct io_thread_count; cbn; [intros; lia|done].
  - unfold loops_ready in Hr. apply Nat.leb_le in Hr. lia.
  - apply NoDup_app. split; [done|]. split; [|apply NoDup_singleton].
    intros x Hx ->%list_elem_of_singleton. specialize (H2 i Hx). by rewrite Hi in H2.
  - intros j [Hj| ->%list_elem_of_singleton]%elem_of_app; [by apply registered_insert; [apply H2|]|].
    rewrite list_lookup_insert_eq; [done|]. by eapply lookup_lt_Some.
  - intros A B. specialize (H5 A B). lia.
  - constructor.
  - by intros i ?%elem_of_nil.
Qed.

Lemma life_reached s : rtc life_step new_server s -> life_ok s.
Proof.
  intros Hr. eapply (rtc_ind_r life_ok); [exact new_server_ok| |exact Hr]. intros s1 s2 _ Hst Hok. by eapply life_step_ok.
Qed.

Lemma loops_all s :
  life_ok s -> past_wait (sl_start s) = true -> sl_stop s <> Stopped -> io_loops_ s ≡ₚ seq 0 io_thread_count.
Proof.
  intros [H1 H2 H3 H4 H5] Hs Hn. apply submseteq_length_Permutation.
  - apply NoDup_submseteq; [done|]. intros i Hi. apply elem_of_seq. specialize (H2 i Hi).
    destruct (io_threads_ s !! i) eqn:E; [|done]. apply lookup_lt_Some in E. lia.
  - rewrite length_seq. by apply H5.
Qed.

(** While the server accepts connections every IO thread has its loop in [io_loops_],
    once, and the choice of a loop finds one. *)
Theorem start_registers_loops s index :
  rtc life_step new_server s -> past_wait (sl_start s) = true -> sl_stop s <> Stopped ->
  io_loops_ s ≡ₚ seq 0 io_thread_count /\
  match fst (GetNextLoop (length (io_loops_ s)) index) with
  | Some k => is_Some (io_loops_ s !! Z.to_nat k)
  | None => io_thread_count = 0%nat
  end.
Proof.
  intros Hr%life_reached Hs Hn. pose proof (loops_all s Hr Hs Hn) as Hp. split; [done|].
  pose proof (Permutation_length Hp) as Hl. rewrite length_seq in Hl. unfold GetNextLoop.
  destruct (Nat.eqb_spec (length (io_loops_ s)) 0) as [E|E]; cbn [fst]; [congruence|]. apply lookup_lt_is_Some_2.
  pose proof (Z.mod_pos_bound index (Z.of_nat (length (io_loops_ s))) ltac:(lia)) as Hb.
  apply Nat2Z.inj_lt. rewrite Z2Nat.id; apply Hb.
Qed.

(** ** Stopping *)

Definition in_loop (p : io_phase) : Prop := p = Looping \/ p = Ended.

(** What [Stop] has done at a point of it. *)
Definition stopped_so_far s : Prop :=
  match sl_stop s with
  | NoStop => True
  | StoppingGc => acceptor_ s = None
  | ClosingConns => acceptor_ s = None /\ gc_running s = false
  | Quitting k =>
      (acceptor_ s = None /\ gc_running s = false /\ connections_ s = []) /\
      (k <= length (io_loops_ s))%nat /\ forall i, i ∈ take k (io_loops_ s) -> i ∈ io_quits s
  | Joining k =>
      (acceptor_ s = None /\ gc_running s = false /\ connections_ s = []) /\
      (k <= length (io_threads_ s))%nat /\ (forall i, (i < length (io_threads_ s))%nat -> i ∈ io_quits s) /\
      Forall (eq Ended) (take k (io_threads_ s))
  | Stopped =>
      (acceptor_ s = None /\ gc_running s = false /\ connections_ s = []) /\
      main_quit s = true /\ io_loops_ s = [] /\ Forall (eq Ended) (io_threads_ s)
  | Aborted => True
  end.

(** The main loop runs or has returned, and every IO thread is in its loop or past
    it. *)
Record settled s : Prop := MkSettled {
  se_start : sl_start s = InMainLoop \/ sl_start s = Returned;
  se_threads : Forall in_loop (io_threads_ s);
  se_all : sl_stop s <> Stopped -> forall i, (i < length (io_threads_ s))%nat -> i ∈ io_loops_ s;
  se_stop : stopped_so_far s
}.

Lemma ended_insert l n i : Forall (eq Ended) (take n l) -> Forall (eq Ended) (take n (<[i := Ended]> l)).
Proof.
  revert n i. induction l as [|p l IH]; intros [|n] [|i] H; try done; cbn in *; inversion H; subst; constructor; try done.
  by apply IH.
Qed.

Lemma leave_settled s i :
  settled s -> io_threads_ s !! i = Some Looping -> settled (set_threads (<[i := Ended]> (io_threads_ s)) s).
Proof.
  intros [H1 H2 H3 H4] Hi. split; cbn; [done| |by rewrite length_insert|].
  { apply Forall_insert; [done|by right]. }
  unfold stopped_so_far in *. cbn. destruct (sl_stop s); try done; rewrite ?length_insert.
  - destruct H4 as (A & B & C & D). split_and!; try done; try apply A. by apply ended_insert.
  - destruct H4 as (A & B & C & D). split_and!; try done; try apply A. by apply Forall_insert.
Qed.

Lemma stop_settled s s' :
  sl_stop s' <> NoStop -> sl_stop s <> sl_stop s' -> settled s -> life_step s s' -> settled s'.
Proof.
  intros Hn Hne [H1 H2 H3 H4] [main _ _ Hst]. unfold stopped_so_far in H4.
  destruct Hst as [Hr Hs|Hs Hl|Hs Hl|Hs Hr|Hs|Hs Ha|Hs|c Hs Ha|c Hc|Hs Hm|i Hi|i Hi|i Hi Hq|b Hr Hs|Hs|Hs|k i Hs Hk|Hs|k Hs Hk|Hs];
    cbn in Hn, Hne; try congruence; rewrite Hs in H4; split; unfold stopped_so_far; cbn; try done; try (by intros; apply H3; congruence).
  - by destruct b.
  - destruct H4 as [A B]. split_and!; try done; [lia|by intros j ?%elem_of_nil].
  - destruct H4 as (A & Hk1 & Hk2). split; [done|]. split; [by apply lookup_lt_Some in Hk|].
    intros j. rewrite (take_S_r _ _ _ Hk), elem_of_app. intros [Hj| ->%list_elem_of_singleton]; [|set_solver].
    specialize (Hk2 _ Hj). set_solver.
  - destruct H4 as (A & _ & Hk2). split_and!; try apply A; [lia| |constructor].
    intros i Hi. apply Hk2. rewrite take_ge by lia. apply H3; [congruence|done].
  - destruct H4 as (A & _ & Hk2 & Hk3). split; [done|]. split_and!; [by apply lookup_lt_Some in Hk|done|].
    rewrite (take_S_r _ _ _ Hk). apply Forall_app. by split; [|constructor].
  - destruct H4 as (A & _ & _ & Hk3). split; [done|]. split_and!; try done. by rewrite take_ge in Hk3 by lia.
Qed.

Lemma settled_step s s' : settled s -> life_step s s' -> settled s'.
Proof.
  intros Hok Hst. destruct (decide (sl_stop s' = NoStop)) as [E0|E0], (decide (sl_stop s = sl_stop s')) as [E1|E1];
    try (by eapply stop_settled).
  all: pose proof Hok as [H1 H2 H3 H4]; destruct Hst as [main _ _ Hst].
  all: assert (Hno : forall i p, io_threads_ s !! i = Some p -> in_loop p) by (intros i p; by apply Forall_lookup_1).
  all: destruct Hst as [Hr Hs|Hs Hl|Hs Hl|Hs Hr|Hs|Hs Ha|Hs|c Hs Ha|c Hc|Hs Hm|i Hi|i Hi|i Hi Hq|b Hr Hs|Hs|Hs|k i Hs Hk|Hs|k Hs Hk|Hs];
    try destruct b; try (by apply leave_settled); try (by destruct (Hno _ _ Hi)); cbn in E0, E1; try congruence; try (by destruct H1; congruence).
  all: try (split; cbn; [by (left + right)|done..]).
  all: try (rewrite Hs in E1; injection E1; lia).
  all: split; cbn; try done; unfold stopped_so_far in *; cbn; destruct (sl_stop s); try done;
    try (replace (connections_ s) with ([] : list nat) in * by (symmetry; tauto)); cbn; intuition congruence.
Qed.

(** What is left to do. *)
Fixpoint weight (l : list io_phase) : nat :=
  match l with
  | [] => 0
  | Looping :: l => S (weight l)
  | _ :: l => weight l
  end.

Lemma weight_ended l i : l !! i = Some Looping -> (weight (<[i := Ended]> l) < weight l)%nat.
Proof.
  revert i. induction l as [|p l IH]; intros [|i] Hi; try done; cbn [lookup list_lookup] in Hi.
  - injection Hi as ->. cbn. lia.
  - specialize (IH i Hi). change (<[S i := Ended]> (p :: l)) with (p :: <[i := Ended]> l). destruct p; cbn [weight]; lia.
Qed.

Definition left_to_do s : nat :=
  (weight (io_threads_ s) + length (connections_ s) + match sl_start s with InMainLoop => 1 | _ => 0 end +
   match sl_stop s with
   | NoStop => 5 + length (io_loops_ s) + length (io_threads_ s)
   | StoppingGc => 4 + length (io_loops_ s) + length (io_threads_ s)
   | ClosingConns => 3 + length (io_loops_ s) + length (io_threads_ s)
   | Quitting k => 2 + (length (io_loops_ s) - k) + length (io_threads_ s)
   | Joining k => 1 + (length (io_threads_ s) - k)
   | Stopped | Aborted => 0
   end)%nat.

Lemma settled_decreases s s' :
  settled s -> sl_stop s <> NoStop -> life_step s s' -> (left_to_do s' < left_to_do s)%nat.
Proof.
  intros [H1 H2 H3 H4] Hn [main Hal Hmain Hst]. unfold left_to_do, stopped_so_far, alive, main_free in *.
  assert (Hno : forall i p, io_threads_ s !! i = Some p -> in_loop p) by (intros i p; by apply Forall_lookup_1).
  destruct Hst as [Hr Hs|Hs Hl|Hs Hl|Hs Hr|Hs|Hs Ha|Hs|c Hs Ha|c Hc|Hs Hm|i Hi|i Hi|i Hi Hq|b Hr Hs|Hs|Hs|k i Hs Hk|Hs|k Hs Hk|Hs];
    try destruct b; try (by destruct H1; congruence); try (by destruct (Hno _ _ Hi)); cbn;
    try (rewrite Hs in *); try (apply lookup_lt_Some in Hk); try lia.
  - exfalso. destruct (sl_stop s); intuition congruence.
  - pose proof (length_filter_lt (fun c' => c' <> c) (connections_ s) c Hc ltac:(tauto)). lia.
  - rewrite length_insert. pose proof (weight_ended _ _ Hi). lia.
Qed.

(** A step of [Stop] or of an IO thread can be taken whenever its rule allows it. *)
Lemma free_step s s' : alive s = true -> move s false s' -> life_step s s'.
Proof. intros Ha Hm. by apply (Life_step s s' false). Qed.

Lemma stopping_step s s' : life_step s s' -> sl_stop s <> NoStop -> sl_stop s' <> NoStop /\ sl_stop s' <> Aborted.
Proof. intros [main Ha _ Hst] Hn. unfold alive in Ha. destruct Hst; cbn; split; try congruence; by intros E; rewrite E in Ha. Qed.

Lemma settled_progress s :
  settled s -> sl_stop s <> NoStop -> sl_stop s <> Aborted -> (forall s', ~ life_step s s') ->
  sl_stop s = Stopped /\ sl_start s = Returned.
Proof.
  intros [H1 H2 H3 H4] Hn Hab Hno. assert (Hal : alive s = true) by (unfold alive; by destruct (sl_stop s)).
  assert (Hstuck : forall s', ~ move s false s') by (intros s' Hm; by eapply Hno, free_step).
  unfold stopped_so_far in H4. destruct (sl_stop s) as [| | |k|k| |] eqn:E; try done.
  - by destruct (Hstuck _ (Life_stop_gc _ E)).
  - by destruct (Hstuck _ (Life_close _ E)).
  - exfalso. destruct H4 as (_ & Hk & _). destruct (decide (k = length (io_loops_ s))) as [->|Hne]; [by eapply Hstuck, Life_quitted|].
    destruct (io_loops_ s !! k) as [i|] eqn:El; [by eapply Hstuck, (Life_quit _ k i)|]. apply lookup_ge_None in El. lia.
  - exfalso. destruct H4 as (_ & Hk & Hq & _). destruct (io_threads_ s !! k) as [p|] eqn:El.
    + pose proof (lookup_lt_Some _ _ _ El) as Hlt. destruct (Forall_lookup_1 _ _ _ _ H2 El) as [-> | ->].
      * eapply Hstuck, Life_leave; [exact El|by apply Hq].
      * by eapply Hstuck, Life_join.
    + apply lookup_ge_None in El. eapply Hstuck, Life_joined. rewrite E. f_equal. lia.
  - split; [done|]. destruct H1 as [Hs|Hs]; [|done]. destruct H4 as (_ & Hm & _).
    destruct (Hno (set_start Returned s)). apply (Life_step _ _ true); [done| |by apply Life_return]. intros _. unfold main_free. by rewrite E.
Qed.

(** What is left of a server that is stopped: no acceptor, no collector, no
    connection that was not told to close, no loop, and every thread over. *)
Definition nothing_left s : Prop :=
  (acceptor_ s = None /\ gc_running s = false /\ connections_ s = []) /\
  io_loops_ s = [] /\ Forall (eq Ended) (io_threads_ s).

(** C35. [Stop] ends, or the process does. Once the main loop runs and the IO threads
    are in their loops, a call of [Stop] on the main thread, as from the signal
    handler between two of its steps, is followed only by finite runs of the threads,
    under any schedule, and when nothing can move any more the call has returned with
    nothing left of the server, and [Start] has returned too. On any other thread the
    call aborts the process, and nothing moves after it. *)
Theorem stop_terminates s0 s in_main :
  rtc life_step new_server s0 -> sl_start s0 = InMainLoop -> sl_stop s0 = NoStop ->
  Forall in_loop (io_threads_ s0) -> rtc life_step (begin_stop in_main s0) s ->
  if in_main then
    (forall s', life_step s s' -> (left_to_do s' < left_to_do s)%nat) /\
    ((forall s', ~ life_step s s') -> sl_stop s = Stopped /\ sl_start s = Returned /\ nothing_left s)
  else s = begin_stop false s0 /\ sl_stop s = Aborted /\ forall s', ~ life_step s s'.
Proof.
  intros H0 Hs Hn Hl Hr. destruct in_main.
  2: { assert (Hdead : forall s', ~ life_step (begin_stop false s0) s') by by intros s' [main Ha _ _].
       apply rtc_inv in Hr as [<-|(s1 & H1 & _)]; [done|]. by destruct (Hdead s1). }
  apply life_reached in H0.
  assert (Hs0 : settled (begin_stop true s0)).
  { split; [by left|done| |done]. intros _ i Hi. cbn in *.
    rewrite (loops_all s0); [|done|by rewrite Hs|congruence]. apply elem_of_seq. pose proof (lo_count _ H0). lia. }
  assert (Hs1 : settled s /\ sl_stop s <> NoStop /\ sl_stop s <> Aborted).
  { eapply (rtc_ind_r (fun s => settled s /\ sl_stop s <> NoStop /\ sl_stop s <> Aborted)); [done| |exact Hr].
    intros s1 s2 _ Hst (Hok & Hn1 & _). split; [by eapply settled_step|by eapply stopping_step]. }
  destruct Hs1 as (Hs1 & Hc & Hab). split; [intros s'; by apply settled_decreases|]. intros Hdone.
  destruct (settled_progress s Hs1 Hc Hab Hdone) as [E1 E2]. pose proof (se_stop _ Hs1) as H. unfold stopped_so_far in H.
  rewrite E1 in H. unfold nothing_left. tauto.
Qed.
End life.

(** ** A server with one IO thread and a collector *)

Definition one_serving : ServerLife :=
  MkLife true InMainLoop NoStop (MkIo [Looping] [0%nat] 1 ∅) (MkParts false (Some true) true [5%nat] []).
Definition one_stopping : ServerLife :=
  MkLife false InMainLoop (Joining 0) (MkIo [Looping] [0%nat] 1 {[0%nat]}) (MkParts false None false [] [5%nat]).

(** The steps of a run, each named by its rule. *)
Ltac life_run tac :=
  eapply rtc_l; [eapply Life_step; [| |tac; try reflexivity]; [reflexivity|first [reflexivity | discriminate]]|
    unfold begin_stop, quit_loop, clear_loops, connection_closed, enter_loop, register_loop, close_connections, stop_gc, new_connection,
      enter_main_loop, listen, start_gc, set_threads, set_parts, set_io, set_start, set_stop, set_running; cbn].

Ltac life_listening :=
  life_run ltac:(apply Life_start); life_run ltac:(apply Life_spawn; [|apply Nat.lt_0_1]);
  life_run ltac:(apply Life_spawned); life_run ltac:(apply (Life_register _ _ _ 0)); life_run ltac:(apply Life_ready);
  life_run ltac:(apply Life_gc); life_run ltac:(apply Life_listen; [|by eexists]); life_run ltac:(apply Life_loop).

Lemma one_serving_reached : rtc (life_step 1 true) new_server one_serving.
Proof.
  life_listening. life_run ltac:(apply (Life_enter _ _ _ 0)). life_run ltac:(apply (Life_accept _ _ _ 5)). apply rtc_refl.
Qed.

Lemma one_serving_stops : rtc (life_step 1 true) (begin_stop true one_serving) one_stopping.
Proof.
  life_run ltac:(apply Life_stop_gc). life_run ltac:(apply Life_close).
  life_run ltac:(apply (Life_quit _ _ _ 0 0)). life_run ltac:(apply Life_quitted).
  replace ({[0%nat]} ∪ ∅ : gset nat) with ({[0%nat]} : gset nat) by set_solver. apply rtc_refl.
Qed.

Lemma stop_terminates_witness :
  (forall s', life_step 1 true one_stopping s' -> (left_to_do s' < left_to_do one_stopping)%nat) /\
  forall s', ~ life_step 1 true (begin_stop false one_serving) s'.
Proof.
  assert (Hl : Forall in_loop (io_threads_ one_serving)) by by constructor; [left|].
  split.
  - exact (proj1 (stop_terminates 1 true one_serving one_stopping true one_serving_reached eq_refl eq_refl Hl one_serving_stops)).
  - exact (proj2 (proj2 (stop_terminates 1 true one_serving _ false one_serving_reached eq_refl eq_refl Hl (rtc_refl _ _)))).
Defined.

(** A [Stop] that comes before an IO thread has entered [Loop] is forgotten by that
    loop: it never ends and [Stop] waits for its thread for ever. *)
Lemma early_stop_hangs : exists s,
  rtc (life_step 1 true) new_server s /\ sl_start s = InMainLoop /\ sl_stop s = Joining 0 /\
  forall s', ~ life_step 1 true s s'.
Proof.
  eexists. split_and!.
  - life_listening. life_run ltac:(apply (Life_stop _ _ _ true)). life_run ltac:(apply Life_stop_gc). life_run ltac:(apply Life_close).
    life_run ltac:(apply (Life_quit _ _ _ 0 0)). life_run ltac:(apply Life_quitted).
    life_run ltac:(apply (Life_enter _ _ _ 0)). apply rtc_refl.
  - done.
  - done.
  - intros s' [main _ _ Hst]. inversion Hst; cbn in *; try congruence; try set_solver;
      match goal with H : [_] !! ?i = Some _ |- _ => by destruct i end.
Qed.
