(* ===== verification/HttpConnection.v ===== *)
(** * HTTP connections (src/src/net/http/http_connection.h, .cpp)

    The state machine of one connection: bytes read from the socket go through
    the parser or, as a body, to the body callback; a response is appended to the
    output buffer and drained by write events, a file by [sendfile]. The kernel's
    answers come with the events. The connection lives in its loop's thread, so
    [RunInLoop] is a call; the callbacks are those of the server. *)
From S2P Require Import Prelude ByteBuffer Json HttpResponse HttpRequest HttpParser TimerWheel EventLoop.

Inductive ConnectionState : Type :=
  | READING_HEADERS | READING_BODY_STREAM | PROCESSING | WRITING_RESPONSE | SENDING_FILE | CLOSED.

#[export] Instance ConnectionState_eq_dec : EqDecision ConnectionState.
Proof. solve_decision. Defined.

(** What a loop is asked to do for the connection with the given name: the
    callback of its idle timer, and the close that [ForceClose] queues. *)
Inductive LoopTask : Type := IdleTimeout (conn : nat) | CloseTask (conn : nat).

(** [conn_id_] names the object. [file_] is the content behind the descriptor of
    the file being sent, [wire_] the bytes the socket has taken. *)
Record HttpConnection : Type := MkConn {
  conn_id_ : nat;
  sockfd_ : Z;
  peer_addr_ : string;
  events_ : Z;
  state_ : ConnectionState;
  parser_ : HttpParser;
  input_buffer_ : ByteBuffer;
  output_buffer_ : ByteBuffer;
  file_ : option (list ascii);
  file_offset_ : Z;
  file_remaining_ : Z;
  idle_timer_id_ : Z;
  idle_timeout_ : Z;
  max_body_bytes_ : Z;
  wire_ : list ascii
}.

Definition new_connection (id : nat) (sockfd : Z) (peer_addr : string) : HttpConnection :=
  MkConn id sockfd peer_addr kNoneEvent READING_HEADERS new_parser (new_buffer kInitialSize)
    (new_buffer kInitialSize) None 0 0 0 60 (two64 - 1) [].

Definition set_events (e : Z) (c : HttpConnection) : HttpConnection :=
  MkConn (conn_id_ c) (sockfd_ c) (peer_addr_ c) e (state_ c) (parser_ c) (input_buffer_ c)
    (output_buffer_ c) (file_ c) (file_offset_ c) (file_remaining_ c) (idle_timer_id_ c)
    (idle_timeout_ c) (max_body_bytes_ c) (wire_ c).

Definition set_conn_state (s : ConnectionState) (c : HttpConnection) : HttpConnection :=
  MkConn (conn_id_ c) (sockfd_ c) (peer_addr_ c) (events_ c) s (parser_ c) (input_buffer_ c)
    (output_buffer_ c) (file_ c) (file_offset_ c) (file_remaining_ c) (idle_timer_id_ c)
    (idle_timeout_ c) (max_body_bytes_ c) (wire_ c).

Definition set_parser (p : HttpParser) (c : HttpConnection) : HttpConnection :=
  MkConn (conn_id_ c) (sockfd_ c) (peer_addr_ c) (events_ c) (state_ c) p (input_buffer_ c)
    (output_buffer_ c) (file_ c) (file_offset_ c) (file_remaining_ c) (idle_timer_id_ c)
    (idle_timeout_ c) (max_body_bytes_ c) (wire_ c).

Definition set_input (b : ByteBuffer) (c : HttpConnection) : HttpConnection :=
  MkConn (conn_id_ c) (sockfd_ c) (peer_addr_ c) (events_ c) (state_ c) (parser_ c) b
    (output_buffer_ c) (file_ c) (file_offset_ c) (file_remaining_ c) (idle_timer_id_ c)
    (idle_timeout_ c) (max_body_bytes_ c) (wire_ c).

(** The output buffer and the bytes that have left it. *)
Definition set_output (b : ByteBuffer) (wire : list ascii) (c : HttpConnection) : HttpConnection :=
  MkConn (conn_id_ c) (sockfd_ c) (peer_addr_ c) (events_ c) (state_ c) (parser_ c) (input_buffer_ c)
    b (file_ c) (file_offset_ c) (file_remaining_ c) (idle_timer_id_ c)
    (idle_timeout_ c) (max_body_bytes_ c) wire.

Definition set_file (f : option (list ascii)) (offset remaining : Z) (c : HttpConnection) : HttpConnection :=
  MkConn (conn_id_ c) (sockfd_ c) (peer_addr_ c) (events_ c) (state_ c) (parser_ c) (input_buffer_ c)
    (output_buffer_ c) f offset remaining (idle_timer_id_ c)
    (idle_timeout_ c) (max_body_bytes_ c) (wire_ c).

Definition set_idle (timer timeout : Z) (c : HttpConnection) : HttpConnection :=
  MkConn (conn_id_ c) (sockfd_ c) (peer_addr_ c) (events_ c) (state_ c) (parser_ c) (input_buffer_ c)
    (output_buffer_ c) (file_ c) (file_offset_ c) (file_remaining_ c) timer timeout
    (max_body_bytes_ c) (wire_ c).

Definition SetMaxBodyBytes (bytes : Z) (c : HttpConnection) : HttpConnection :=
  MkConn (conn_id_ c) (sockfd_ c) (peer_addr_ c) (events_ c) (state_ c) (parser_ c) (input_buffer_ c)
    (output_buffer_ c) (file_ c) (file_offset_ c) (file_remaining_ c) (idle_timer_id_ c)
    (idle_timeout_ c) bytes (wire_ c).

(** [parser_.Request()] and its update. *)
Definition Request (c : HttpConnection) : HttpRequest := request_ (parser_ c).
Definition set_conn_request (r : HttpRequest) (c : HttpConnection) : HttpConnection :=
  set_parser (set_request r (parser_ c)) c.

(** The outcome of [::open]. *)
Inductive open_result : Type := Opened (content : list ascii) | OpenNoEntry | OpenFailed.

(** Where the files are. *)
Class FileHost (W : Type) : Type := open_file : string -> W -> open_result * W.

(** The kernel's answers an event may need. *)
Record io : Type := MkIo { io_recv : io_read; io_send : io_write; io_sendfile : io_write }.

Definition EAGAIN : Z := 11.

(** The connection and the rest of the world. *)
Abbreviation CM W A := (M (HttpConnection * W) A).

Record Callbacks (W : Type) : Type := MkCallbacks {
  close_callback_ : CM W unit;
  request_callback_ : CM W unit;
  body_data_callback_ : list ascii -> CM W unit
}.
Arguments MkCallbacks {W} _ _ _.
Arguments close_callback_ {W} _.
Arguments request_callback_ {W} _.
Arguments body_data_callback_ {W} _ _.

Section connection.
Context {W : Type} `{!HasLoop W LoopTask, !FileHost W, !HeaderOrder, !JsonLib}.

Definition get_conn : CM W HttpConnection := fun cw => (Ret (fst cw), cw).
Definition mod_conn (f : HttpConnection -> HttpConnection) : CM W unit := fun cw =>
  (Ret tt, (f (fst cw), snd cw)).
Definition on_world {A} (m : M W A) : CM W A := fun cw =>
  let '(r, w) := m (snd cw) in (r, (fst cw, w)).

(** ** Timers and closing *)

Definition ForceClose : CM W unit :=
  c ← get_conn; on_world (QueueInLoop (CloseTask (conn_id_ c))).

Definition SetIdleTimeout (seconds : Z) : CM W unit :=
  _ ← mod_conn (fun c => set_idle (idle_timer_id_ c) seconds c);
  c ← get_conn;
  _ ← (if (idle_timer_id_ c =? 0)%Z then mret tt else on_world (Loop_CancelTimer (idle_timer_id_ c)));
  id ← on_world (RunAfter seconds (IdleTimeout (conn_id_ c)) false);
  mod_conn (fun c => set_idle id seconds c).

Definition RefreshIdleTimer : CM W unit :=
  c ← get_conn;
  if (idle_timer_id_ c =? 0)%Z then mret tt
  else on_world (Loop_RefreshTimer (idle_timer_id_ c) (idle_timeout_ c)).

(** [Start], in the loop's thread. *)
Definition Start : CM W unit :=
  _ ← mod_conn (fun c => set_events (EnableReading (events_ c)) c);
  c ← get_conn;
  SetIdleTimeout (idle_timeout_ c).

Definition HandleClose (cb : Callbacks W) : CM W unit :=
  c ← get_conn;
  if bool_decide (state_ c = CLOSED) then mret tt
  else
    _ ← mod_conn (set_conn_state CLOSED);
    _ ← (if (idle_timer_id_ c =? 0)%Z then mret tt
         else _ ← on_world (Loop_CancelTimer (idle_timer_id_ c));
              mod_conn (fun c => set_idle 0 (idle_timeout_ c) c));
    _ ← mod_conn (fun c => set_events (DisableAll (events_ c)) c);
    close_callback_ cb.

Definition HandleError : Callbacks W -> CM W unit := HandleClose.

(** ** Sending *)

(** [SetKeepAlive] and [AppendToBuffer]. *)
Definition append_response (resp : HttpResponse) : CM W unit :=
  mod_conn (fun c =>
    set_output (AppendToBuffer (SetKeepAlive (IsKeepAlive (Request c)) resp) (output_buffer_ c)) (wire_ c) c).

Definition start_writing (s : ConnectionState) : CM W unit :=
  mod_conn (fun c => set_events (EnableWriting (events_ c)) (set_conn_state s c)).

Definition Send (resp : HttpResponse) : CM W unit :=
  c ← get_conn;
  if bool_decide (state_ c = CLOSED) then mret tt
  else
    _ ← append_response resp;
    if HasFile resp then
      o ← on_world (fun w => let '(o, w) := open_file (file_path_ resp) w in (Ret o, w));
      match o with
      | Opened content =>
          _ ← mod_conn (set_file (Some content) (HttpResponse.file_offset_ resp) (FileLength resp));
          start_writing SENDING_FILE
      | _ =>
          _ ← mod_conn (fun c => set_file None (file_offset_ c) (file_remaining_ c)
                  (set_output (RetrieveAll (output_buffer_ c)) (wire_ c) c));
          error_resp ← lift_exn (match o with
                                 | OpenNoEntry => Resp_NotFound "Object data not found" ""
                                 | _ => Resp_InternalError "Failed to open object data" ""
                                 end);
          _ ← append_response error_resp;
          start_writing WRITING_RESPONSE
      end
    else start_writing WRITING_RESPONSE.

(** [SendFile]. *)
Definition SendFile (path : string) (file_size offset length : Z) : CM W unit :=
  let partial := (0 <? offset)%Z || (0 <? length)%Z in
  let actual := if (0 <? length)%Z then length else file_size in
  let r := SetStatusMessage (if partial then "Partial Content" else "OK")
             (SetStatusCode (if partial then 206 else 200) new_response) in
  let r := HttpResponse.SetHeader "Content-Length" (to_string actual)
             (HttpResponse.SetHeader "Accept-Ranges" "bytes" r) in
  let r := if partial then
             HttpResponse.SetHeader "Content-Range"
               ("bytes " +:+ to_string offset +:+ "-" +:+ to_string (u64 (offset + actual - 1)) +:+ "/" +:+
                to_string file_size) r
           else r in
  Send (SetFileRange offset actual (SetFile path actual 0 0 r)).

(** The end of a response: the next request, or the close. *)
Definition finish_response (cb : Callbacks W) : CM W unit :=
  _ ← mod_conn (fun c => set_events (DisableWriting (events_ c)) c);
  c ← get_conn;
  if IsKeepAlive (Request c)
  then mod_conn (fun c => set_conn_state READING_HEADERS (set_parser (HttpParser.Reset (parser_ c)) c))
  else HandleClose cb.

(** [WriteFd] on the kernel's answer: [n] bytes go to the socket. *)
Definition write_output (r : io_write) : CM W (Z * option Z) := fun cw =>
  let c := fst cw in
  let '(res, b) := WriteFd (output_buffer_ c) r in
  let sent := match r with WriteOk n => take (Z.to_nat n) (contents (output_buffer_ c)) | WriteErr _ => [] end in
  (Ret res, (set_output b (wire_ c ++ sent) c, snd cw)).

Definition io_failed (cb : Callbacks W) (saved_errno : option Z) : CM W unit :=
  if bool_decide (saved_errno = Some EAGAIN) then mret tt else HandleError cb.

Definition SendInLoop (cb : Callbacks W) (i : io) : CM W unit :=
  c ← get_conn;
  if (ReadableBytes (output_buffer_ c) =? 0)%Z then finish_response cb
  else
    '(n, saved_errno) ← write_output (io_send i);
    if (n <? 0)%Z then io_failed cb saved_errno else mret tt.

(** [sendfile], after the head has left: [n] bytes of the file from the offset. *)
Definition send_file_data (cb : Callbacks W) (i : io) : CM W unit :=
  c ← get_conn;
  if (file_remaining_ c =? 0)%Z then
    _ ← mod_conn (set_file None (file_offset_ c) (file_remaining_ c));
    finish_response cb
  else
    match io_sendfile i with
    | WriteOk n =>
        mod_conn (fun c =>
          let sent := take (Z.to_nat n) (drop (Z.to_nat (file_offset_ c)) (default [] (file_ c))) in
          set_output (output_buffer_ c) (wire_ c ++ sent)
            (set_file (file_ c) (file_offset_ c + n) (u64 (file_remaining_ c - n)) c))
    | WriteErr e => io_failed cb (Some e)
    end.

Definition SendFileInLoop (cb : Callbacks W) (i : io) : CM W unit :=
  c ← get_conn;
  if (0 <? ReadableBytes (output_buffer_ c))%Z then
    '(n, saved_errno) ← write_output (io_send i);
    if (n <? 0)%Z then io_failed cb saved_errno
    else
      c ← get_conn;
      if (0 <? ReadableBytes (output_buffer_ c))%Z then mret tt else send_file_data cb i
  else send_file_data cb i.

Definition HandleWrite (cb : Callbacks W) (i : io) : CM W unit :=
  c ← get_conn;
  if bool_decide (state_ c = SENDING_FILE) then SendFileInLoop cb i else SendInLoop cb i.

(** ** Reading *)

(** The request is complete. *)
Definition deliver_request (cb : Callbacks W) : CM W unit :=
  _ ← mod_conn (fun c => set_conn_request (SetClientIp (peer_addr_ c) (Request c)) c);
  request_callback_ cb.

(** The buffered bytes of the body, and the request when they complete it. *)
Definition deliver_body (cb : Callbacks W) : CM W unit :=
  c ← get_conn;
  let to_process := Z.min (ReadableBytes (input_buffer_ c)) (remaining_body_length_ (parser_ c)) in
  _ ← body_data_callback_ cb (take (Z.to_nat to_process) (contents (input_buffer_ c)));
  _ ← mod_conn (fun c => set_input (Retrieve (input_buffer_ c) to_process) c);
  c ← get_conn;
  let '(done, p) := ConsumeBody (parser_ c) to_process in
  _ ← mod_conn (set_parser p);
  if done : bool then deliver_request cb else mret tt.

Definition parse_out_of_fuel : string := "parser out of fuel".

Definition ProcessHeaders (cb : Callbacks W) : CM W unit :=
  c ← get_conn;
  match Parse (parser_ c) (input_buffer_ c) with
  | None => lift_exn (Throw parse_out_of_fuel)
  | Some (result, p, b) =>
      _ ← mod_conn (fun c => set_input b (set_parser p c));
      match result with
      | HEADERS_COMPLETE =>
          if HasBody p then
            if (max_body_bytes_ c <? content_length_ p)%Z then
              _ ← mod_conn (fun c => set_conn_request (SetHeader "Connection" "close" (Request c)) c);
              resp ← lift_exn (Resp_Error 413 "EntityTooLarge" "Request body too large" (trace_id_ (request_ p)));
              Send resp
            else
              _ ← mod_conn (set_conn_state READING_BODY_STREAM);
              if (0 <? ReadableBytes b)%Z then deliver_body cb else mret tt
          else mret tt
      | MESSAGE_COMPLETE => deliver_request cb
      | PARSE_ERROR =>
          resp ← lift_exn (Resp_BadRequest (error_message_ p) "");
          Send resp
      | _ => mret tt
      end
  end.

Definition HandleRead (cb : Callbacks W) (i : io) : CM W unit :=
  _ ← RefreshIdleTimer;
  '(n, saved_errno) ← (fun cw =>
     let '(res, b) := ReadFd (input_buffer_ (fst cw)) (io_recv i) in
     (Ret res, (set_input b (fst cw), snd cw)));
  if (0 <? n)%Z then
    c ← get_conn;
    match state_ c with
    | READING_HEADERS => ProcessHeaders cb
    | READING_BODY_STREAM => deliver_body cb
    | _ => mret tt
    end
  else if (n =? 0)%Z then HandleClose cb
  else io_failed cb saved_errno.

(** The connection's handlers on its channel. *)
Definition HandleEvent (cb : Callbacks W) (revents : Z) (i : io) : CM W unit :=
  HandleEventWithGuard revents (HandleClose cb) (HandleError cb) (HandleRead cb i) (HandleWrite cb i).
End connection.
