(* ===== verification/ConnProps.v ===== *)
(** * Properties of a connection

    What leaves on the wire is the response and nothing else, whatever pieces the
    kernel takes it in. *)
From S2P Require Import Prelude Status ByteBuffer Json HttpResponse HttpRequest HttpParser.
From S2P Require Import TimerWheel EventLoop HttpConnection.

Open Scope Z_scope.

Section writing.
Context {W : Type} `{!HasLoop W LoopTask, !FileHost W, !HeaderOrder, !JsonLib}.
Implicit Types (c : HttpConnection) (w : W) (cb : Callbacks W).

(** The rest of the file being sent. *)
Definition file_left c : list ascii :=
  if bool_decide (state_ c = SENDING_FILE)
  then take (Z.to_nat (file_remaining_ c)) (drop (Z.to_nat (file_offset_ c)) (default [] (file_ c)))
  else [].

(** What is still to leave, and what has left and will: the same all along. *)
Definition unsent c : list ascii := contents (output_buffer_ c) ++ file_left c.
Definition stream c : list ascii := wire_ c ++ unsent c.

Record sending c : Prop := MkSending {
  sd_state : state_ c = WRITING_RESPONSE \/ state_ c = SENDING_FILE;
  sd_output : wf (output_buffer_ c);
  sd_offset : 0 <= file_offset_ c;
  sd_remaining : 0 <= file_remaining_ c < two64
}.

(** The answers a kernel can give: no more bytes than it was offered. *)
Definition legal c (i : io) : Prop :=
  (forall n, io_send i = WriteOk n -> 0 <= n <= ReadableBytes (output_buffer_ c)) /\
  (forall n, io_sendfile i = WriteOk n ->
     0 <= n <= zlen (take (Z.to_nat (file_remaining_ c)) (drop (Z.to_nat (file_offset_ c)) (default [] (file_ c))))).

(** Every response byte has left and the connection waits for a request or is
    closed; or the write failed and it is closed. *)
Definition finished (c c' : HttpConnection) : Prop :=
  wire_ c' = stream c /\
  (if IsKeepAlive (Request c) then state_ c' = READING_HEADERS else state_ c' = CLOSED).

Definition failed (c c' : HttpConnection) : Prop := state_ c' = CLOSED /\ wire_ c' `prefix_of` stream c.

(** A kernel that takes something of what it is offered. *)
Definition eager c (i : io) : Prop :=
  (0 < ReadableBytes (output_buffer_ c) -> exists n, io_send i = WriteOk n /\ 0 < n) /\
  (state_ c = SENDING_FILE -> file_remaining_ c <> 0 -> exists n, io_sendfile i = WriteOk n /\ 0 < n).

(** What one write event leaves: the same stream with less of it unsent, or the
    end of the response. *)
Definition write_outcome c (i : io) (c' : HttpConnection) : Prop :=
  (sending c' /\ stream c' = stream c /\ Request c' = Request c /\
   (eager c i -> zlen (unsent c') < zlen (unsent c))) \/
  finished c c' \/ (failed c c' /\ ~ eager c i).

(** The close callback of the owner does not touch the connection. *)
Definition keeps_conn (cb : Callbacks W) : Prop :=
  forall c w, fst (snd (close_callback_ cb (c, w))) = c.

Lemma wire_prefix c : wire_ c `prefix_of` stream c.
Proof. by exists (unsent c). Qed.

(** *** Rules for the connection's operations *)

Lemma wp_get {A} (k : HttpConnection -> CM W A) (Q : exn A -> HttpConnection * W -> Prop) c w :
  wp (k c) Q (c, w) -> wp (get_conn ≫= k) Q (c, w).
Proof. done. Qed.

Lemma wp_mod {A} f (k : unit -> CM W A) (Q : exn A -> HttpConnection * W -> Prop) c w :
  wp (k tt) Q (f c, w) -> wp (mod_conn f ≫= k) Q (c, w).
Proof. done. Qed.

Lemma wp_mod_last f (Q : exn unit -> HttpConnection * W -> Prop) c w :
  Q (Ret tt) (f c, w) -> wp (mod_conn f) Q (c, w).
Proof. done. Qed.

Lemma wp_world {A B} (m : M W A) (k : A -> CM W B) (Q : exn B -> HttpConnection * W -> Prop) c w :
  wp m (fun r w' => match r with Ret a => wp (k a) Q (c, w') | Throw e => Q (Throw e) (c, w') end) w ->
  wp (on_world m ≫= k) Q (c, w).
Proof. unfold wp, on_world, mbind, M_bind. cbn [fst snd]. by destruct (m w) as [[a|e] w']. Qed.

Lemma wp_close cb (Q : exn unit -> HttpConnection * W -> Prop) c w :
  keeps_conn cb ->
  (forall r c' w', state_ c' = CLOSED -> wire_ c' = wire_ c -> Q r (c', w')) ->
  wp (HandleClose cb) Q (c, w).
Proof.
  intros Hk HQ. apply wp_get. case_bool_decide as Hs; [by apply wp_ret, HQ|]. apply wp_mod.
  assert (Hrest : forall c1 w1, state_ c1 = CLOSED -> wire_ c1 = wire_ c ->
    wp (mod_conn (fun c => set_events (DisableAll (events_ c)) c) ≫= fun _ => close_callback_ cb) Q (c1, w1)).
  { intros c1 w1 H1 H2. apply wp_mod. unfold wp. set (c2 := set_events _ c1). specialize (Hk c2 w1).
    destruct (close_callback_ cb (c2, w1)) as [r [c' w']]. cbn [fst snd] in *. subst c'. by apply HQ. }
  destruct (_ =? 0); [by apply Hrest|]. apply wp_bind, wp_world. unfold wp at 1.
  cbn. by apply Hrest.
Qed.

Lemma wp_finish_response cb (Q : exn unit -> HttpConnection * W -> Prop) c w :
  keeps_conn cb ->
  (forall r c' w', wire_ c' = wire_ c ->
     (if IsKeepAlive (Request c) then state_ c' = READING_HEADERS else state_ c' = CLOSED) -> Q r (c', w')) ->
  wp (finish_response cb) Q (c, w).
Proof.
  intros Hk HQ. apply wp_mod, wp_get. set (c1 := set_events (DisableWriting (events_ c)) c).
  change (Request c1) with (Request c). destruct (IsKeepAlive (Request c)).
  - by apply wp_mod_last, HQ.
  - apply wp_close; [done|]. intros r c' w' H1 H2. by apply HQ.
Qed.

Lemma wp_io_failed cb e (Q : exn unit -> HttpConnection * W -> Prop) c w :
  keeps_conn cb -> Q (Ret tt) (c, w) ->
  (forall r c' w', state_ c' = CLOSED -> wire_ c' = wire_ c -> Q r (c', w')) ->
  wp (io_failed cb e) Q (c, w).
Proof.
  intros Hk H1 H2. unfold io_failed. case_bool_decide; [by apply wp_ret|]. by apply wp_close.
Qed.

(** ** One write event *)

(** What a write of the output buffer leaves. *)
Lemma wp_write_output c w r (Q : exn (Z * option Z) -> HttpConnection * W -> Prop) :
  sending c ->
  (forall n, r = WriteOk n -> 0 <= n <= ReadableBytes (output_buffer_ c)) ->
  (forall e c', r = WriteErr e -> sending c' -> wire_ c' = wire_ c -> stream c' = stream c ->
     Request c' = Request c -> Q (Ret (-1, Some e)) (c', w)) ->
  (forall n c', r = WriteOk n -> sending c' -> stream c' = stream c -> Request c' = Request c ->
     state_ c' = state_ c -> contents (output_buffer_ c') = drop (Z.to_nat n) (contents (output_buffer_ c)) ->
     file_remaining_ c' = file_remaining_ c -> file_offset_ c' = file_offset_ c -> file_ c' = file_ c ->
     0 <= n -> Q (Ret (n, None)) (c', w)) ->
  wp (write_output r) Q (c, w).
Proof.
  intros [S1 S2 S3 S4] L HE HO. unfold wp, write_output. destruct r as [e|n]; cbn [fst snd WriteFd].
  - apply HE; try done; cbn; [by rewrite app_nil_r|]. unfold stream. cbn. by rewrite app_nil_r.
  - specialize (L n eq_refl). destruct (retrieve_spec (output_buffer_ c) n S2) as (Wf & Cn & _); [lia|].
    apply (HO n); try done; [|lia].
    unfold stream, unsent, file_left. cbn. rewrite Cn, <-!(assoc_L (++)). f_equal.
    by rewrite (assoc_L (++)), take_drop.
Qed.

Lemma file_range_split n m o (f : list ascii) :
  (n <= m)%nat -> take n (drop o f) ++ take (m - n) (drop (o + n) f) = take m (drop o f).
Proof.
  intros Hle. rewrite <-drop_drop. replace m with (n + (m - n))%nat at 2 by lia. by rewrite take_take_drop.
Qed.

Lemma shorter_unsent c c' :
  stream c' = stream c -> zlen (wire_ c) < zlen (wire_ c') -> zlen (unsent c') < zlen (unsent c).
Proof. intros Hs%(f_equal zlen). unfold stream, zlen in *. rewrite !length_app in Hs. lia. Qed.

Lemma wp_send_file cb i c w (Q : HttpConnection -> Prop) :
  keeps_conn cb -> sending c -> state_ c = SENDING_FILE -> contents (output_buffer_ c) = [] ->
  (forall n, io_sendfile i = WriteOk n -> 0 <= n <= zlen (file_left c)) ->
  (forall c', finished c c' -> Q c') ->
  (forall e c', io_sendfile i = WriteErr e -> file_remaining_ c <> 0 -> c' = c \/ failed c c' -> Q c') ->
  (forall n c', io_sendfile i = WriteOk n -> file_remaining_ c <> 0 -> sending c' -> stream c' = stream c ->
     Request c' = Request c -> zlen (wire_ c') = zlen (wire_ c) + n -> Q c') ->
  wp (send_file_data cb i) (fun _ cw => Q (fst cw)) (c, w).
Proof.
  intros Hk [S1 S2 S3 S4] Hs Ho L Hfin Herr Hok. apply wp_get.
  assert (Hl : file_left c = take (Z.to_nat (file_remaining_ c)) (drop (Z.to_nat (file_offset_ c)) (default [] (file_ c)))).
  { unfold file_left. by rewrite bool_decide_true. }
  assert (Hst : stream c = wire_ c ++ file_left c) by (unfold stream, unsent; by rewrite Ho).
  destruct (Z.eqb_spec (file_remaining_ c) 0) as [E0|E0].
  { apply wp_mod, wp_finish_response; [done|]. intros r c' w' H1 H2. apply (Hfin c'). split; [|exact H2].
    by rewrite H1, Hst, Hl, E0, app_nil_r. }
  destruct (io_sendfile i) as [e|n] eqn:Ei.
  { apply wp_io_failed; [done|by apply (Herr e); auto|]. intros r c' w' H1 H2.
    apply (Herr e c'); [done..|]. right. split; [done|]. rewrite H2. apply wire_prefix. }
  apply wp_mod_last. specialize (L n eq_refl). rewrite Hl in L. unfold zlen in L. rewrite length_take, length_drop in L.
  set (f := default [] (file_ c)) in *.
  apply (Hok n); [done|done| |  |done|].
  - split; [by right|done|cbn; lia|apply u64_range].
  - rewrite Hst, Hl. unfold stream, unsent, file_left. cbn. rewrite (bool_decide_true _ Hs), Ho. cbn [app].
    rewrite <-(assoc_L (++)). f_equal. fold f. rewrite u64_small by (unfold two64 in *; lia).
    rewrite Z2Nat.inj_sub, Z2Nat.inj_add by lia. apply file_range_split. lia.
  - cbn. unfold zlen. rewrite length_app, length_take, length_drop. fold f. lia.
Qed.

Lemma wp_SendInLoop cb i c w :
  keeps_conn cb -> sending c -> legal c i -> state_ c = WRITING_RESPONSE ->
  wp (SendInLoop cb i) (fun _ cw => write_outcome c i (fst cw)) (c, w).
Proof.
  intros Hk Hsd [L _] Hs. apply wp_get. pose proof (contents_length _ (sd_output _ Hsd)) as Hc.
  pose proof (zlen_nonneg (contents (output_buffer_ c))) as Hr.
  assert (Hu : unsent c = contents (output_buffer_ c)).
  { unfold unsent, file_left. rewrite bool_decide_false by congruence. apply app_nil_r. }
  destruct (Z.eqb_spec (ReadableBytes (output_buffer_ c)) 0) as [E|E].
  - apply wp_finish_response; [done|]. intros r c' w' H1 H2. right; left. split; [cbn [fst]|exact H2].
    rewrite H1. unfold stream. rewrite Hu. destruct (contents _); [by rewrite app_nil_r|].
    unfold zlen in Hc. cbn in Hc. lia.
  - apply wp_bind, wp_write_output; [done|done| |].
    + intros e c' He Hsd' Hw Hst Hrq. cbn. apply wp_io_failed; [done| |].
      * left. split_and!; [done..|]. intros [(n & Hn & _) _]; [lia|congruence].
      * intros r c'' w' H1 H2. right; right. split.
        -- split; [done|]. cbn [fst]. rewrite H2, Hw. apply wire_prefix.
        -- intros [(n & Hn & _) _]; [lia|congruence].
    + intros n c' Hn Hsd' Hst Hrq Hs' Hout _ _ _ Hpos. rewrite (proj2 (Z.ltb_ge n 0)) by done. apply wp_ret. left.
      split_and!; [done..|]. intros [(k & Hk' & Hlt) _]; [lia|]. assert (k = n) as -> by congruence. specialize (L n Hn).
      cbn [fst]. unfold unsent at 1, file_left. rewrite bool_decide_false by congruence. rewrite app_nil_r, Hu, Hout.
      unfold zlen in *. rewrite length_drop. lia.
Qed.

(** What the file part of an event leaves, seen from the connection [c] before
    the event: [c1] is what the write of the head left. *)
Lemma send_file_outcome cb i c c1 w :
  keeps_conn cb -> sending c -> sending c1 -> stream c1 = stream c -> Request c1 = Request c ->
  (eager c i -> zlen (unsent c1) < zlen (unsent c) \/ c1 = c) ->
  state_ c = SENDING_FILE -> state_ c1 = SENDING_FILE -> file_remaining_ c1 = file_remaining_ c ->
  contents (output_buffer_ c1) = [] ->
  (forall n, io_sendfile i = WriteOk n -> 0 <= n <= zlen (file_left c1)) ->
  wp (send_file_data cb i) (fun _ cw => write_outcome c i (fst cw)) (c1, w).
Proof.
  intros Hk Hsd Hsd1 Hst Hrq He Hs Hs1 Hrem Ho L.
  assert (Hz : io_sendfile i = WriteOk 0 \/ (exists e, io_sendfile i = WriteErr e) -> file_remaining_ c1 <> 0 -> ~ eager c i).
  { intros Hx Hn [_ H2]. destruct (H2 Hs) as (k & Hk' & Hlt); [congruence|]. destruct Hx as [Hx|[e Hx]]; rewrite Hk' in Hx; simplify_eq; lia. }
  apply (wp_send_file cb i c1 w (write_outcome c i)); [done..| | |].
  - intros c' [H1 H2]. right; left. split; [by rewrite H1|by rewrite <-Hrq].
  - intros e c' Hx Hn [->|[H1 H2]].
    + left. split_and!; [done..|]. intros Hg. exfalso. by apply (Hz (or_intror (ex_intro _ e Hx))).
    + right; right. split; [|by apply Hz; eauto]. split; [done|by rewrite <-Hst].
  - intros n c' Hx Hn Hsd' Hst' Hrq' Hw. left. split_and!; [done|congruence..|]. intros Hg.
    assert (n <> 0) by (intros ->; by apply (Hz (or_introl Hx))). specialize (L n Hx).
    pose proof (shorter_unsent c1 c' Hst' ltac:(lia)). destruct (He Hg) as [| ->]; lia.
Qed.

Lemma wp_SendFileInLoop cb i c w :
  keeps_conn cb -> sending c -> legal c i -> state_ c = SENDING_FILE ->
  wp (SendFileInLoop cb i) (fun _ cw => write_outcome c i (fst cw)) (c, w).
Proof.
  intros Hk Hsd [L1 L2] Hs. apply wp_get. pose proof (contents_length _ (sd_output _ Hsd)) as Hc.
  assert (Hl : forall c1, state_ c1 = SENDING_FILE -> file_remaining_ c1 = file_remaining_ c ->
    file_offset_ c1 = file_offset_ c -> file_ c1 = file_ c ->
    forall n, io_sendfile i = WriteOk n -> 0 <= n <= zlen (file_left c1)).
  { intros c1 H1 H2 H3 H4. unfold file_left. by rewrite bool_decide_true, H2, H3, H4 by done. }
  destruct (Z.ltb_spec 0 (ReadableBytes (output_buffer_ c))) as [E|E].
  - apply wp_bind, wp_write_output; [done|done| |].
    + intros e c' He Hsd' Hw Hst Hrq. assert (Hne : ~ eager c i) by (intros [(n & Hn & _) _]; [lia|congruence]).
      cbn. apply wp_io_failed; [done| |].
      * left. by split_and!.
      * intros r c'' w' H1 H2. right; right. split; [split; [done|]|done]. cbn [fst]. rewrite H2, Hw. apply wire_prefix.
    + intros n c' Hn Hsd' Hst Hrq Hs' Hout Hf1 Hf2 Hf3 Hpos. rewrite (proj2 (Z.ltb_ge n 0)) by done.
      assert (Hsh : eager c i -> zlen (unsent c') < zlen (unsent c)).
      { intros [(k & Hk' & Hlt) _]; [lia|]. assert (k = n) as -> by congruence. specialize (L1 n Hn).
        unfold unsent, file_left. rewrite Hs', Hf1, Hf2, Hf3, Hout. unfold zlen in *. rewrite !length_app, length_drop. lia. }
      apply wp_get. pose proof (contents_length _ (sd_output _ Hsd')) as Hc'.
      destruct (Z.ltb_spec 0 (ReadableBytes (output_buffer_ c'))) as [E'|E'].
      * apply wp_ret. left. by split_and!.
      * apply send_file_outcome; try done; [by auto|congruence| |by apply Hl; congruence].
        apply nil_length_inv. unfold zlen in Hc'. lia.
  - apply send_file_outcome; try done; [by auto| |by apply Hl].
    apply nil_length_inv. unfold zlen in Hc. lia.
Qed.

Lemma wp_HandleWrite cb i c w :
  keeps_conn cb -> sending c -> legal c i ->
  wp (HandleWrite cb i) (fun _ cw => write_outcome c i (fst cw)) (c, w).
Proof.
  intros Hk Hsd L. apply wp_get. case_bool_decide as E; [by apply wp_SendFileInLoop|].
  apply wp_SendInLoop; [done..|]. by destruct (sd_state _ Hsd).
Qed.

(** ** Runs of write events *)

Definition writing c : Prop := state_ c = WRITING_RESPONSE \/ state_ c = SENDING_FILE.

Inductive write_event (cb : Callbacks W) : HttpConnection * W -> HttpConnection * W -> Prop :=
  | WriteEvent c w i : writing c -> legal c i -> write_event cb (c, w) (snd (HandleWrite cb i (c, w))).

Inductive eager_event (cb : Callbacks W) : HttpConnection * W -> HttpConnection * W -> Prop :=
  | EagerEvent c w i : writing c -> legal c i -> eager c i ->
      eager_event cb (c, w) (snd (HandleWrite cb i (c, w))).

Lemma write_event_writing cb cw cw' : write_event cb cw cw' -> writing (fst cw).
Proof. by destruct 1. Qed.

Lemma eager_event_writing cb cw cw' : eager_event cb cw cw' -> writing (fst cw).
Proof. by destruct 1. Qed.

Lemma not_writing_stops c : state_ c = READING_HEADERS \/ state_ c = CLOSED -> ~ writing c.
Proof. intros [E|E] [E'|E']; congruence. Qed.

Lemma finished_stops c c' : finished c c' -> ~ writing c'.
Proof. intros [_ H2]. apply not_writing_stops. destruct (IsKeepAlive _); auto. Qed.

Lemma finished_same c c1 c' :
  stream c1 = stream c -> Request c1 = Request c -> finished c1 c' -> finished c c'.
Proof. unfold finished. by intros -> ->. Qed.

Lemma write_run cb cw cw' :
  keeps_conn cb -> rtc (write_event cb) cw cw' -> sending (fst cw) ->
  let c := fst cw in let c' := fst cw' in
  (sending c' /\ stream c' = stream c) \/ finished c c' \/ failed c c'.
Proof.
  intros Hk Hrun. cbn zeta. induction Hrun as [cw|cw cw1 cw' Hev Hrun IH]; intros Hsd; [by left|].
  inversion Hev as [c w i Hw L]; subst. pose proof (wp_HandleWrite cb i c w Hk Hsd L) as Ho. unfold wp in Ho.
  set (cw1 := snd (HandleWrite cb i (c, w))) in *. cbn [fst].
  assert (Hstop : ~ writing (fst cw1) -> cw' = cw1).
  { intros Hn. inversion Hrun as [|? ? ? Hev1]; [done|]. by apply write_event_writing in Hev1. }
  destruct Ho as [(H1 & H2 & H3 & _)|[Hf|[Hf _]]].
  - destruct (IH H1) as [[H4 H5]|[H4|[H4 H5]]].
    + left. split; [done|]. by rewrite H5.
    + right; left. by eapply finished_same.
    + right; right. split; [done|]. by rewrite <-H2.
  - rewrite (Hstop (finished_stops _ _ Hf)). auto.
  - rewrite Hstop; [auto|]. apply not_writing_stops. right. apply Hf.
Qed.

Lemma eager_run cb n cw cw' :
  keeps_conn cb -> nsteps (eager_event cb) n cw cw' -> sending (fst cw) ->
  let c := fst cw in let c' := fst cw' in
  (sending c' /\ Z.of_nat n + zlen (unsent c') <= zlen (unsent c)) \/
  (finished c c' /\ Z.of_nat n <= zlen (unsent c) + 1).
Proof.
  intros Hk Hrun. cbn zeta. induction Hrun as [cw|n cw cw1 cw' Hev Hrun IH]; intros Hsd; [left; split; [done|lia]|].
  inversion Hev as [c w i Hw L He]; subst. pose proof (wp_HandleWrite cb i c w Hk Hsd L) as Ho. unfold wp in Ho.
  set (cw1 := snd (HandleWrite cb i (c, w))) in *. cbn [fst].
  destruct Ho as [(H1 & H2 & H3 & H4)|[Hf|[_ []]]]; [| |done].
  - specialize (H4 He). destruct (IH H1) as [[H5 H6]|[H5 H6]].
    + left. split; [done|lia].
    + right. split; [by eapply finished_same|lia].
  - right. inversion Hrun as [|? ? ? ? Hev1]; subst.
    + split; [done|]. pose proof (zlen_nonneg (unsent c)). lia.
    + apply eager_event_writing in Hev1. by destruct (finished_stops _ _ Hf).
Qed.

(** ** Sending a response *)

(** A connection with nothing left to send. *)
Record ready c : Prop := MkReady {
  rd_open : state_ c <> CLOSED;
  rd_output : wf (output_buffer_ c);
  rd_empty : contents (output_buffer_ c) = [];
  rd_offset : 0 <= file_offset_ c;
  rd_remaining : 0 <= file_remaining_ c < two64
}.

Definition rendered c (resp : HttpResponse) : list ascii :=
  bytes_of (render_response (SetKeepAlive (IsKeepAlive (Request c)) resp)).

Definition file_range (resp : HttpResponse) (content : list ascii) : list ascii :=
  take (Z.to_nat (FileLength resp)) (drop (Z.to_nat (HttpResponse.file_offset_ resp)) content).

(** What a response puts on the wire: its text, then the range of its file; the
    error instead when the file cannot be opened. *)
Definition response_bytes c (resp : HttpResponse) (o : open_result) : exn (list ascii) :=
  if HasFile resp then
    match o with
    | Opened content => Ret (rendered c resp ++ file_range resp content)
    | OpenNoEntry => e ← Resp_NotFound "Object data not found" ""; Ret (rendered c e)
    | OpenFailed => e ← Resp_InternalError "Failed to open object data" ""; Ret (rendered c e)
    end
  else Ret (rendered c resp).

(** The text of the responses fits the buffer, the numbers of the range their types. *)
Record sendable c (resp : HttpResponse) (bs : list ascii) : Prop := MkSendable {
  sb_text : zlen (buffer_ (output_buffer_ c)) + zlen (rendered c resp) + zlen bs < kMaxBuffer;
  sb_offset : 0 <= HttpResponse.file_offset_ resp;
  sb_length : 0 <= FileLength resp < two64
}.

Lemma wp_append_response resp c w (Q : exn unit -> HttpConnection * W -> Prop) :
  wf (output_buffer_ c) -> zlen (buffer_ (output_buffer_ c)) + zlen (rendered c resp) < kMaxBuffer ->
  (forall b, wf b -> contents b = contents (output_buffer_ c) ++ rendered c resp ->
     zlen (buffer_ b) <= zlen (buffer_ (output_buffer_ c)) + zlen (rendered c resp) ->
     Q (Ret tt) (set_output b (wire_ c) c, w)) ->
  wp (append_response resp) Q (c, w).
Proof.
  intros Hwf Hsz HQ. apply wp_mod_last. unfold AppendToBuffer, Append_str.
  destruct (append_spec (output_buffer_ c) (rendered c resp) Hwf Hsz) as (H1 & H2 & H3). by apply HQ.
Qed.

(** After [Send] the connection is writing and the bytes of the response are all
    that is unsent. *)
Lemma wp_Send resp c w bs :
  ready c -> response_bytes c resp (fst (open_file (HttpResponse.file_path_ resp) w)) = Ret bs ->
  sendable c resp bs ->
  wp (Send resp) (fun r cw => r = Ret tt /\ sending (fst cw) /\ wire_ (fst cw) = wire_ c /\
    unsent (fst cw) = bs /\ Request (fst cw) = Request c) (c, w).
Proof.
  intros [R1 R2 R3 Ho Hr] Hbs [B1 B2 B3]. apply wp_get. rewrite bool_decide_false by done.
  pose proof (zlen_nonneg bs). pose proof (zlen_nonneg (rendered c resp)).
  apply wp_bind, wp_append_response; [done|lia|]. intros b Wb Cb Lb. rewrite R3 in Cb. unfold response_bytes in Hbs.
  destruct (HasFile resp).
  2:{ apply wp_mod_last. injection Hbs as <-. split_and!; [done| |done| |done].
      - split; [by left|done..].
      - unfold unsent, file_left. cbn. by rewrite app_nil_r, Cb. }
  apply wp_world. unfold wp. destruct (open_file _ w) as [o w']. cbn [fst snd] in *.
  destruct o as [content| |].
  { apply wp_mod, wp_mod_last. injection Hbs as <-. split_and!; [done| |done| |done].
    - split; [by right|done..].
    - unfold unsent, file_left. cbn. by rewrite Cb. }
  all: destruct (wf_retrieve_all b Wb) as (W0 & C0); apply wp_mod, wp_bind, wp_lift;
    (destruct (Resp_NotFound _ _) as [e|] || destruct (Resp_InternalError _ _) as [e|]); [|discriminate];
    injection Hbs as <-; apply wp_bind, wp_append_response; [done|change (zlen (buffer_ b) + zlen (rendered c e) < kMaxBuffer); lia|];
    intros b' Wb' Cb' _; apply wp_mod_last; cbn in Cb'; rewrite C0 in Cb'; split_and!; [done| |done| |done];
    [split; [by left|done..]|unfold unsent, file_left; cbn; by rewrite app_nil_r, Cb'].
Qed.

(** C28. What leaves on the wire is the response and nothing else: from a
    connection with nothing to send, [Send] and then any sequence of write events,
    the kernel taking any number of bytes at each or failing, leave on the wire a
    prefix of the response's text followed by the range of its file; the
    connection reads the next request only after every byte of it has left and
    only if the request asked to keep it alive. *)
Theorem response_on_the_wire cb resp c w bs cw :
  keeps_conn cb -> ready c ->
  response_bytes c resp (fst (open_file (HttpResponse.file_path_ resp) w)) = Ret bs -> sendable c resp bs ->
  rtc (write_event cb) (snd (Send resp (c, w))) cw ->
  let c' := fst cw in
  wire_ c' `prefix_of` wire_ c ++ bs /\ (writing c' \/ state_ c' = READING_HEADERS \/ state_ c' = CLOSED) /\
  (state_ c' = READING_HEADERS -> wire_ c' = wire_ c ++ bs /\ IsKeepAlive (Request c) = true).
Proof.
  intros Hk Hr Hbs Hb Hrun. destruct (wp_Send resp c w bs Hr Hbs Hb) as (_ & Hsd & Hw & Hu & Hq).
  assert (Hst : stream (fst (snd (Send resp (c, w)))) = wire_ c ++ bs) by (unfold stream; by rewrite Hw, Hu).
  cbn zeta. rewrite <-Hst. destruct (write_run cb _ cw Hk Hrun Hsd) as [[H1 H2]|[[H1 H2]|[H1 H2]]].
  - rewrite <-H2. split_and!; [apply wire_prefix|left; apply H1|]. destruct (sd_state _ H1); congruence.
  - rewrite H1. split_and!; [done| |]; rewrite Hq in H2; destruct (IsKeepAlive _); auto. congruence.
  - split_and!; [done|auto|congruence].
Qed.

(** C29. A response that the kernel keeps taking leaves: when every write takes
    at least one byte of what it is offered, at most one event per byte and one
    more are needed after [Send], and the connection that stops writing has put
    the whole response on the wire. *)
Theorem response_leaves cb resp c w bs n cw :
  keeps_conn cb -> ready c ->
  response_bytes c resp (fst (open_file (HttpResponse.file_path_ resp) w)) = Ret bs -> sendable c resp bs ->
  nsteps (eager_event cb) n (snd (Send resp (c, w))) cw ->
  Z.of_nat n <= zlen bs + 1 /\
  (Z.of_nat n = zlen bs + 1 \/ ~ writing (fst cw) ->
   wire_ (fst cw) = wire_ c ++ bs /\
   state_ (fst cw) = if IsKeepAlive (Request c) then READING_HEADERS else CLOSED).
Proof.
  intros Hk Hr Hbs Hb Hrun. destruct (wp_Send resp c w bs Hr Hbs Hb) as (_ & Hsd & Hw & Hu & Hq).
  assert (Hst : stream (fst (snd (Send resp (c, w)))) = wire_ c ++ bs) by (unfold stream; by rewrite Hw, Hu).
  destruct (eager_run cb n _ cw Hk Hrun Hsd) as [[H1 H2]|[[H1 H2] H3]]; rewrite Hu in *.
  - pose proof (zlen_nonneg (unsent (fst cw))). split; [lia|]. intros [?|[]]; [lia|apply H1].
  - split; [lia|]. intros _. rewrite H1, <-Hq. split; [done|]. by destruct (IsKeepAlive _).
Qed.
End writing.

(** ** A concrete connection *)

(** A world that is a loop, with one file. *)
#[local] Instance lone_loop : HasLoop (EventLoop LoopTask) LoopTask.
Proof. refine {| loop_of := id; set_loop := fun l _ => l |}; done. Defined.

#[local] Instance lone_file : FileHost (EventLoop LoopTask) := fun path w =>
  (if String.eqb path "/cas/ab" then Opened (bytes_of "0123456789") else OpenNoEntry, w).

Definition quiet_callbacks : Callbacks (EventLoop LoopTask) :=
  MkCallbacks (mret tt) (mret tt) (fun _ => mret tt).

(** A response with a range of the file, on a connection just accepted. *)
Definition quiet_response : HttpResponse :=
  SetFileRange 2 3 (SetFile "/cas/ab" 10 0 0 (HttpResponse.SetHeader "Content-Length" "3" (response_of_code 206))).

Definition quiet_conn : HttpConnection := new_connection 0 7 "10.0.0.1".

(** The kernel takes five bytes at a time. *)
Definition five : io := MkIo (ReadErr EAGAIN) (WriteOk 5) (WriteOk 3).

Definition quiet_bytes : list ascii :=
  bytes_of ("HTTP/1.1 206 Partial Content" +:+ crlf +:+ "Content-Length: 3" +:+ crlf +:+
            "Connection: keep-alive" +:+ crlf +:+ crlf +:+ "234").

Definition quiet_ios : list io := replicate 15 five ++ [MkIo (ReadErr EAGAIN) (WriteOk 0) (WriteOk 0)].

#[local] Instance writing_dec c : Decision (writing c).
Proof. unfold writing. apply _. Defined.

(** A run of write events, each checked to be a willing kernel's. *)
Section drain.
Context {W : Type} `{!HasLoop W LoopTask, !FileHost W, !HeaderOrder, !JsonLib} (cb : Callbacks W).

Definition willing (c : HttpConnection) (i : io) : bool :=
  bool_decide (writing c) &&
  match io_send i, io_sendfile i with
  | WriteOk n, WriteOk k =>
      (0 <=? n) && (n <=? ReadableBytes (output_buffer_ c)) &&
      (0 <=? k) && (k <=? zlen (take (Z.to_nat (file_remaining_ c)) (drop (Z.to_nat (file_offset_ c)) (default [] (file_ c))))) &&
      (if ReadableBytes (output_buffer_ c) <=? 0 then true else 0 <? n) &&
      (if file_remaining_ c =? 0 then true else 0 <? k)
  | _, _ => false
  end.

Fixpoint drain (l : list io) (cw : HttpConnection * W) : option (HttpConnection * W) :=
  match l with
  | [] => Some cw
  | i :: l => if willing (fst cw) i then drain l (snd (HandleWrite cb i cw)) else None
  end.

Lemma willing_event c i : willing c i = true -> writing c /\ legal c i /\ eager c i.
Proof.
  unfold willing, legal, eager. destruct (io_send i) as [|n], (io_sendfile i) as [|k]; rewrite ?andb_false_r; try done.
  rewrite !andb_true_iff, bool_decide_eq_true, !Z.leb_le. intros (Hw & (((((?&?)&?)&?)&Hn)&Hk)). split_and!; [done|naive_solver..| |].
  - intros Hr. exists n. split; [done|]. destruct (Z.leb_spec (ReadableBytes (output_buffer_ c)) 0); lia.
  - intros _ Hr. exists k. split; [done|]. destruct (Z.eqb_spec (file_remaining_ c) 0); lia.
Qed.

Lemma drain_steps l cw cw' :
  drain l cw = Some cw' -> nsteps (eager_event cb) (length l) cw cw'.
Proof.
  revert cw. induction l as [|i l IH]; intros [c w]; cbn; intros Hd; [simplify_eq; constructor|].
  destruct (willing c i) eqn:Hw; [|done]. apply willing_event in Hw as (H1 & H2 & H3).
  apply nsteps_l with (snd (HandleWrite cb i (c, w))); [by apply EagerEvent|by apply IH].
Qed.

Lemma eager_runs n cw cw' : nsteps (eager_event cb) n cw cw' -> rtc (write_event cb) cw cw'.
Proof. induction 1 as [|n x y z Hxy]; [done|]. destruct Hxy. eapply rtc_l; [by apply WriteEvent|done]. Qed.
End drain.

#[local] Existing Instances map_order tree_json.

Lemma quiet_ready : ready quiet_conn.
Proof. destruct (wf_new kInitialSize) as [H1 H2]; [done|]. by split. Qed.

Lemma quiet_sendable : sendable quiet_conn quiet_response quiet_bytes.
Proof. by split. Qed.

Lemma quiet_drains : exists cw,
  drain quiet_callbacks quiet_ios (snd (Send quiet_response (quiet_conn, new_loop LoopTask))) = Some cw /\
  state_ (fst cw) = READING_HEADERS.
Proof.
  assert (H : (fun cw => state_ (fst cw)) <$> drain quiet_callbacks quiet_ios (snd (Send quiet_response (quiet_conn, new_loop LoopTask))) =
    Some READING_HEADERS) by by vm_compute.
  destruct (drain _ _) as [cw|]; [|done]. exists cw. split; [done|]. by injection H.
Qed.

Lemma quiet_opens :
  response_bytes quiet_conn quiet_response
    (fst (open_file (HttpResponse.file_path_ quiet_response) (new_loop LoopTask))) = Ret quiet_bytes.
Proof. by vm_compute. Qed.

Lemma response_on_the_wire_witness : exists c' : HttpConnection, wire_ c' = [] ++ quiet_bytes.
Proof.
  destruct quiet_drains as (cw & Hd & Hs). exists (fst cw).
  pose proof (response_on_the_wire quiet_callbacks quiet_response quiet_conn (new_loop LoopTask) quiet_bytes cw
    (fun _ _ => eq_refl) quiet_ready quiet_opens quiet_sendable (eager_runs _ _ _ _ (drain_steps _ _ _ _ Hd))) as (_ & _ & H).
  exact (proj1 (H Hs)).
Defined.

Lemma response_leaves_witness : Z.of_nat (length quiet_ios) <= zlen quiet_bytes + 1.
Proof.
  destruct quiet_drains as (cw & Hd & Hs).
  exact (proj1 (response_leaves quiet_callbacks quiet_response quiet_conn (new_loop LoopTask) quiet_bytes _ cw
    (fun _ _ => eq_refl) quiet_ready quiet_opens quiet_sendable (drain_steps _ _ _ _ Hd))).
Defined.
