(* ===== verification/ConnReads.v ===== *)
(** * The reading side of a connection

    A message that arrives in pieces is parsed and its body handed over in order,
    whatever the pieces. The owner of the callbacks promises the laws of
    [BodyClient]; the theorems on the server discharge them. *)
From S2P Require Import Prelude Status ByteBuffer Json HttpResponse HttpRequest HttpParser.
From S2P Require Import TimerWheel EventLoop HttpConnection ConnProps.

Open Scope Z_scope.

Section reading.
Context {W : Type} `{!HasLoop W LoopTask, !FileHost W, !HeaderOrder, !JsonLib}.
Context (c0 : HttpConnection) (p0 q : HttpParser) (head body : list ascii).
Implicit Types (c : HttpConnection) (w : W) (recv d : list ascii).

(** The bytes [head] make the parser [p0] announce the [body], with [q] the
    parser then; the body fits the limit of the connection [c0]. *)
Record announced : Prop := MkAnnounced {
  an_start : HttpParser.state_ p0 = REQUEST_LINE;
  an_head rest : parse_list p0 (head ++ rest) = Some (HEADERS_COMPLETE, q, rest);
  an_short : zlen head <= kMaxRequestLineSize;
  an_length : content_length_ q = zlen body;
  an_remaining : remaining_body_length_ q = zlen body;
  an_body : body <> [];
  an_max : zlen body <= max_body_bytes_ c0;
  an_word : zlen body < two64
}.

(** The connection [c0] in the course of the message. *)
Definition conn_at (s : ConnectionState) (p : HttpParser) (b : ByteBuffer) : HttpConnection :=
  set_conn_state s (set_parser p (set_input b c0)).

Lemma set_parser_at s p p' b : set_parser p' (conn_at s p b) = conn_at s p' b.
Proof. done. Qed.

Lemma set_input_at s p b b' : set_input b' (conn_at s p b) = conn_at s p b'.
Proof. done. Qed.

Lemma set_state_at s s' p b : set_conn_state s' (conn_at s p b) = conn_at s' p b.
Proof. done. Qed.

(** The parser when [rem] bytes of the body are missing. *)
Definition body_parser (r : HttpRequest) (rem : Z) : HttpParser :=
  set_body_info (content_length_ q) rem (chunked_ q) (set_request r q).

(** What the owner of the callbacks promises: [J recv r] holds of its world while
    the bytes [recv] have been handed over and [r] is the request, [D] of the
    outcome of the request, [F] when it gives the message up. *)
Class BodyClient (cb : Callbacks W) (J : list ascii -> HttpRequest -> W -> Prop)
    (F : exn unit -> HttpConnection * W -> Prop) (D : exn unit -> HttpConnection * W -> Prop) : Prop := {
  bc_timer recv r w t : J recv r w -> J recv r (set_loop (set_wheel t (loop_of w)) w);
  bc_data recv d r w p b :
    J recv r w -> d <> [] -> recv ++ d `prefix_of` body -> request_ p = r ->
    wp (body_data_callback_ cb d)
      (fun x cw => (x = Ret tt /\ exists r', fst cw = conn_at READING_BODY_STREAM (set_request r' p) b /\
                    J (recv ++ d) r' (snd cw)) \/ F x cw)
      (conn_at READING_BODY_STREAM p b, w);
  bc_request r w p b :
    J body r w -> wf b -> contents b = [] -> request_ p = SetClientIp (peer_addr_ c0) r ->
    wp (request_callback_ cb) D (conn_at READING_BODY_STREAM p b, w);
  bc_given_up c w : F (Ret tt) (c, w) -> wp (request_callback_ cb) F (c, w);
  bc_given_parser p c w : F (Ret tt) (c, w) -> F (Ret tt) (set_parser p c, w);
  bc_given_input b c w : F (Ret tt) (c, w) -> F (Ret tt) (set_input b c, w)
}.

Context (cb : Callbacks W) (J : list ascii -> HttpRequest -> W -> Prop)
  (F : exn unit -> HttpConnection * W -> Prop) (D : exn unit -> HttpConnection * W -> Prop).
Context (Han : announced) `{HB : !BodyClient cb J F D}.

(** Room for what is still to come. *)
Definition roomy (so_far : list ascii) (b : ByteBuffer) : Prop :=
  wf b /\ zlen (buffer_ b) + (zlen head + zlen body - zlen so_far) < kMaxBuffer.

Definition in_head (so_far : list ascii) (cw : HttpConnection * W) : Prop :=
  exists p b, fst cw = conn_at READING_HEADERS p b /\ roomy so_far b /\
    (forall k, parse_list p (contents b ++ k) = parse_list p0 (so_far ++ k)) /\
    J [] (request_ q) (snd cw).

Definition in_body recv (cw : HttpConnection * W) : Prop :=
  exists r b, fst cw = conn_at READING_BODY_STREAM (body_parser r (zlen body - zlen recv)) b /\
    roomy (head ++ recv) b /\ contents b = [] /\ J recv r (snd cw).

(** The bytes so far have arrived and more are to come. *)
Definition receiving (so_far : list ascii) (cw : HttpConnection * W) : Prop :=
  (in_head so_far cw /\ exists k, k <> [] /\ head = so_far ++ k) \/
  (exists recv, so_far = head ++ recv /\ recv <> body /\ in_body recv cw).

Lemma body_parser_all : q = body_parser (request_ q) (zlen body - zlen (@nil ascii)).
Proof.
  pose proof (an_remaining Han) as Hr. unfold body_parser. change (zlen []) with 0. rewrite Z.sub_0_r, <-Hr.
  by destruct q.
Qed.

(** The outcome of handing over the bytes up to [recv]. *)
Definition handed recv (x : exn unit) (cw : HttpConnection * W) : Prop :=
  (x = Ret tt /\ recv <> body /\ in_body recv cw) \/ (recv = body /\ D x cw) \/ F x cw.

Lemma prefix_full recv : recv `prefix_of` body -> zlen body <= zlen recv -> recv = body.
Proof. intros Hp Hl. apply prefix_length_eq; [done|]. unfold zlen in Hl. lia. Qed.

Lemma wp_deliver_request r w p b :
  J body r w -> wf b -> contents b = [] -> request_ p = r ->
  wp (deliver_request cb) D (conn_at READING_BODY_STREAM p b, w).
Proof. intros HJ Hwf Hb Hr. apply wp_mod.
  apply (bc_request r w (set_request (SetClientIp (peer_addr_ c0) (request_ p)) p) b HJ Hwf Hb). by rewrite <-Hr. Qed.

Lemma wp_deliver_body recv d r w b :
  J recv r w -> roomy (head ++ recv ++ d) b -> contents b = d -> d <> [] -> recv ++ d `prefix_of` body ->
  wp (deliver_body cb) (handed (recv ++ d)) (conn_at READING_BODY_STREAM (body_parser r (zlen body - zlen recv)) b, w).
Proof.
  intros HJ [Hwf Hsz] Hb Hd Hp. pose proof (contents_length b Hwf) as Hl. rewrite Hb in Hl.
  pose proof (prefix_length _ _ Hp) as Hpl. rewrite length_app in Hpl. unfold deliver_body. apply wp_get.
  change (input_buffer_ (conn_at _ _ b)) with b.
  change (remaining_body_length_ _) with (zlen body - zlen recv).
  replace (Z.min (ReadableBytes b) (zlen body - zlen recv)) with (zlen d) by (unfold zlen in *; lia).
  rewrite Hb, take_ge by (unfold zlen; lia).
  apply wp_bind. eapply wp_mono; [by apply (bc_data recv d r)|]. intros x cw [(-> & r' & Hc & HJ')|HF]; cycle 1.
  { destruct x as [[]|e]; [|right; by right]. destruct cw as [c w']. apply wp_mod, wp_get.
    apply (bc_given_input (Retrieve (input_buffer_ c) (zlen d))) in HF.
    destruct (ConsumeBody _ _) as [full p]. apply wp_mod. apply (bc_given_parser p) in HF. destruct full.
    - apply wp_mod. eapply wp_mono; [by apply bc_given_up, bc_given_parser|]. intros x c' HF'. right; by right.
    - apply wp_ret. right; by right. }
  destruct cw as [c w']. cbn [fst snd] in *. subst c. apply wp_mod, wp_get.
  destruct (retrieve_spec b (zlen d) Hwf (zlen_nonneg d)) as (Wr & Cr & Br).
  rewrite Hb, drop_ge in Cr by (unfold zlen; lia).
  change (parser_ _) with (set_request r' (body_parser r (zlen body - zlen recv))). unfold ConsumeBody.
  change (remaining_body_length_ _) with (zlen body - zlen recv).
  destruct (Z.leb_spec (zlen body - zlen recv) (zlen d)) as [Hle|Hle].
  - assert (recv ++ d = body) as E by (apply prefix_full; [done|rewrite zlen_app; lia]).
    apply wp_mod. change (input_buffer_ (conn_at _ _ b)) with b. rewrite set_input_at, set_parser_at.
    eapply wp_mono; [apply (wp_deliver_request r'); [by rewrite <-E|done|done|done]|].
    intros x cw HD. right; left. done.
  - apply wp_mod, wp_ret. left. split; [done|]. split.
    { intros E. apply (f_equal zlen) in E. rewrite zlen_app in E. lia. }
    exists r', (Retrieve b (zlen d)). split_and!; [|split; [done|by rewrite Br]|done|done].
    rewrite zlen_app, u64_small by (pose proof (an_word Han); pose proof (zlen_nonneg recv); pose proof (zlen_nonneg d); lia).
    rewrite Z.sub_add_distr. done.
Qed.

(** Bytes that complete the head, with the start [d] of the body. *)
Lemma wp_head_complete recv p b w :
  roomy (head ++ recv) b -> parse_list p (contents b) = parse_list p0 (head ++ recv) ->
  recv `prefix_of` body -> J [] (request_ q) w ->
  wp (ProcessHeaders cb) (handed recv) (conn_at READING_HEADERS p b, w).
Proof.
  intros [Hwf Hsz] Hp Hpre HJ. apply wp_get. change (parser_ _) with p. change (input_buffer_ _) with b.
  destruct (parse_refines p b Hwf) as (res & p' & b' & E & Hwf' & El). rewrite E. apply parse_buffer in E as Eb.
  rewrite Hp, (an_head Han) in El. injection El as <- <- Hb'. apply wp_mod.
  rewrite set_parser_at, set_input_at. pose proof (an_length Han) as Hlen. pose proof (an_body Han) as Hne.
  assert (0 < zlen body) by (destruct body; [done|unfold zlen; cbn; lia]).
  unfold HasBody. rewrite Hlen, (proj2 (Z.ltb_lt 0 _)) by done. cbn [orb].
  change (max_body_bytes_ (conn_at _ _ b)) with (max_body_bytes_ c0).
  rewrite (proj2 (Z.ltb_ge _ _)) by apply (an_max Han). apply wp_mod. rewrite set_state_at.
  pose proof (contents_length b' Hwf') as Hl. rewrite <-Hb' in Hl.
  assert (Hr : roomy (head ++ recv) b') by (split; [done|by rewrite Eb]).
  rewrite body_parser_all. destruct (Z.ltb_spec 0 (ReadableBytes b')) as [Hlt|Hge].
  - rewrite <-(app_nil_l recv) at 1. apply wp_deliver_body; [done|done|done| |done].
    intros ->. unfold zlen in Hl. cbn in Hl. lia.
  - apply wp_ret. left. assert (recv = []) as ->.
    { apply nil_length_inv. unfold zlen in *. lia. }
    split_and!; [done|done|]. by exists (request_ q), b'.
Qed.

(** Bytes that do not complete the head. *)
Lemma wp_head_waits so_far k p b w :
  roomy so_far b -> (forall k, parse_list p (contents b ++ k) = parse_list p0 (so_far ++ k)) ->
  head = so_far ++ k -> k <> [] -> J [] (request_ q) w ->
  wp (ProcessHeaders cb) (fun x cw => x = Ret tt /\ in_head so_far cw) (conn_at READING_HEADERS p b, w).
Proof.
  intros [Hwf Hsz] Hp Hh Hk HJ. apply wp_get. change (parser_ _) with p. change (input_buffer_ _) with b.
  destruct (parse_refines p b Hwf) as (res & p' & b' & E & Hwf' & El). rewrite E. apply parse_buffer in E as Eb.
  destruct (parse_prefix_waits p0 so_far k q) as (p1 & l1 & E1); [apply (an_start Han)| |done| |].
  { pose proof (an_short Han) as Hs. rewrite Hh, zlen_app in Hs. pose proof (zlen_nonneg k). lia. }
  { rewrite <-Hh. pose proof (an_head Han []) as Hq. by rewrite app_nil_r in Hq. }
  pose proof (Hp []) as Hp'. rewrite !app_nil_r, El, E1 in Hp'. injection Hp' as -> -> Hb'.
  apply wp_mod. rewrite set_parser_at, set_input_at. apply wp_ret. split; [done|].
  exists p1, b'. split_and!; [done|split; [done|by rewrite Eb]| |done].
  intros k'. rewrite <-Hp. symmetry. rewrite (parse_loop_list_app _ _ _ k' _ _ El). by rewrite Hb'.
Qed.

Lemma receiving_world so_far c w w' :
  receiving so_far (c, w) -> (forall recv r, J recv r w -> J recv r w') -> receiving so_far (c, w').
Proof.
  intros [[(p & b & Hc & Hr & Hp & HJ) Hk]|(recv & -> & Hne & r & b & Hc & Hr & Hb & HJ)] HJw; [left|right].
  - split; [|done]. exists p, b. split_and!; auto.
  - exists recv. split_and!; [done|done|]. exists r, b. split_and!; auto.
Qed.

Lemma receiving_client so_far c w : receiving so_far (c, w) -> exists recv r, J recv r w.
Proof. intros [[(p & b & _ & _ & _ & HJ) _]|(recv & _ & _ & r & b & _ & _ & _ & HJ)]; eauto. Qed.

(** The outcome of a read event after which the bytes [so_far] have arrived. *)
Definition received (so_far : list ascii) (x : exn unit) (cw : HttpConnection * W) : Prop :=
  (x = Ret tt /\ receiving so_far cw) \/ (so_far = head ++ body /\ D x cw) \/ F x cw.

Lemma handed_received recv x cw : handed recv x cw -> received (head ++ recv) x cw.
Proof.
  intros [(-> & Hn & Hb)|[[-> HD]|HF]]; [left|right; by left|right; by right].
  split; [done|]. right. by exists recv.
Qed.

Lemma wp_refresh (k : unit -> CM W unit) Q c w :
  (forall w', w' = w \/ (exists t, w' = set_loop (set_wheel t (loop_of w)) w) -> wp (k tt) Q (c, w')) ->
  wp (RefreshIdleTimer ≫= k) Q (c, w).
Proof.
  intros Hk. apply wp_bind, wp_get. destruct (_ =? 0); [apply wp_ret, Hk; by left|].
  unfold wp. cbn. apply Hk. right. by eexists.
Qed.

(** The read of the bytes [d]. *)
Lemma wp_body_read i d (k : Z * option Z -> CM W unit) Q s p b w :
  io_recv i = ReadOk d -> wf b -> zlen d <= kExtraBuf -> zlen (buffer_ b) + zlen d < kMaxBuffer ->
  (forall b', wf b' -> contents b' = contents b ++ d -> zlen (buffer_ b') <= zlen (buffer_ b) + zlen d ->
     wp (k (zlen d, None)) Q (conn_at s p b', w)) ->
  wp ((fun cw => let '(res, b) := ReadFd (input_buffer_ (fst cw)) (io_recv i) in
                 (Ret res, (set_input b (fst cw), snd cw))) ≫= k) Q (conn_at s p b, w).
Proof.
  intros Hi Hwf Hd Hm Hk. apply wp_bind. unfold wp at 1. cbn [fst snd]. change (input_buffer_ (conn_at s p b)) with b.
  rewrite Hi. pose proof (readfd_room_ge b Hwf) as Hr. pose proof (read_fd_spec b d Hwf ltac:(lia) Hm) as Hs.
  destruct (ReadFd b (ReadOk d)) as [res b']. destruct Hs as (-> & H1 & H2 & H3). cbn [fst snd]. rewrite set_input_at. by apply Hk.
Qed.

Lemma prefix_strict {A} (l k m : list A) : (l ++ k) `prefix_of` m -> k <> [] -> exists j, j <> [] /\ m = l ++ j.
Proof.
  intros [j ->] Hk. exists (k ++ j). rewrite <-app_assoc. split; [|done]. by intros [? _]%app_nil.
Qed.

Lemma prefix_cases so_far d k :
  so_far ++ d `prefix_of` head ++ body -> head = so_far ++ k ->
  (exists k', k' <> [] /\ head = (so_far ++ d) ++ k') \/ (exists recv, so_far ++ d = head ++ recv /\ recv `prefix_of` body).
Proof.
  intros [j E] Hk. assert (Ek : k ++ body = d ++ j).
  { rewrite Hk, <-!app_assoc in E. by apply app_inv_head in E. }
  destruct (decide (length d < length k)%nat) as [Hl|Hl].
  - left. exists (drop (length d) k). split.
    + intros E0. apply (f_equal length) in E0. rewrite length_drop in E0. cbn in E0. lia.
    + rewrite Hk, <-app_assoc. f_equal. rewrite <-(take_drop (length d) k) at 1. f_equal.
      apply (f_equal (take (length d))) in Ek. by rewrite take_app_le, take_app_length in Ek by lia.
  - right. exists (drop (length k) d). rewrite Hk. split.
    + rewrite <-app_assoc. f_equal. rewrite <-(take_drop (length k) d) at 1. f_equal.
      apply (f_equal (take (length k))) in Ek. by rewrite take_app_length, take_app_le in Ek by lia.
    + exists j. apply (f_equal (drop (length k))) in Ek. by rewrite drop_app_length, drop_app_le in Ek by lia.
Qed.

Lemma roomy_read so_far d b b' :
  roomy so_far b -> so_far ++ d `prefix_of` head ++ body -> wf b' ->
  zlen (buffer_ b') <= zlen (buffer_ b) + zlen d ->
  roomy (so_far ++ d) b' /\ zlen (buffer_ b) + zlen d < kMaxBuffer.
Proof.
  intros [_ Hr] Hp%prefix_length Hwf Hb. rewrite !length_app in Hp. unfold zlen in *.
  split; [split; [done|]|]; unfold zlen; rewrite ?length_app; lia.
Qed.

Lemma roomy_fits so_far d b :
  roomy so_far b -> so_far ++ d `prefix_of` head ++ body -> zlen (buffer_ b) + zlen d < kMaxBuffer.
Proof. intros [_ Hr] Hp%prefix_length. rewrite !length_app in Hp. unfold zlen in *. lia. Qed.

(** One read event. *)
Lemma wp_HandleRead i so_far d c w :
  receiving so_far (c, w) -> io_recv i = ReadOk d -> d <> [] -> zlen d <= kExtraBuf ->
  so_far ++ d `prefix_of` head ++ body ->
  wp (HandleRead cb i) (received (so_far ++ d)) (c, w).
Proof.
  intros Hrc Hi Hd Hm Hp. apply wp_refresh. intros w' Hw.
  assert (HJw : forall recv r, J recv r w -> J recv r w').
  { intros recv r HJ. destruct Hw as [->|[t ->]]; [done|by apply bc_timer]. }
  assert (Hz : 0 < zlen d) by (destruct d; [done|unfold zlen; cbn; lia]).
  destruct Hrc as [[(p & b & Hc & Hr & Hparse & HJ) (k & Hk & Hh)]|(recv & -> & Hne & r & b & Hc & Hr & Hb & HJ)];
    cbn [fst snd] in *; subst c; pose proof (roomy_fits _ _ _ Hr Hp) as Hfit;
    (apply wp_body_read with d; [done|apply Hr|done|done|]); intros b' Hwf' Hb' Hl';
    destruct (roomy_read _ _ _ _ Hr Hp Hwf' Hl') as [Hr' _];
    rewrite (proj2 (Z.ltb_lt 0 (zlen d))) by done; apply wp_get.
  - change (HttpConnection.state_ _) with READING_HEADERS. cbv iota.
    assert (Hparse' : forall k, parse_list p (contents b' ++ k) = parse_list p0 ((so_far ++ d) ++ k)).
    { intros k'. rewrite Hb', <-!app_assoc. apply Hparse. }
    destruct (prefix_cases _ _ _ Hp Hh) as [(k' & Hk' & Hh')|(recv & Hrecv & Hpre)].
    + eapply wp_mono; [apply (wp_head_waits (so_far ++ d) k'); auto|]. intros x cw [-> Hin].
      left. split; [done|]. left. split; [done|]. by exists k'.
    + rewrite Hrecv in *. eapply wp_mono; [apply (wp_head_complete recv); auto|apply handed_received].
      specialize (Hparse' []). by rewrite !app_nil_r in Hparse'.
  - change (HttpConnection.state_ _) with READING_BODY_STREAM. cbv iota. rewrite <-app_assoc in *.
    rewrite Hb in Hb'. eapply wp_mono; [apply (wp_deliver_body recv d); auto|apply handed_received].
    by apply prefix_app_inv in Hp.
Qed.
End reading.
