(* ===== verification/World.v ===== *)
(** * The world of the request handlers

    The metadata store with what it reaches, the file system, and the garbage
    collector's queue. Operations of one component are lifted to the whole. *)
From S2P Require Import Prelude Status Sql MySQLTx Uuid FileSys Auth.

(** [sw_gc] is the collector's queue, [None] when the collector is disabled and
    the handlers get a null pointer. *)
Record StoreW `{MySQL, ConnPool, Redis, Posix} : Type := MkStoreW {
  sw_meta : MetaW;
  sw_os : os;
  sw_gc : option (list string)
}.

Notation SM A := (M StoreW A).

Section world.
Context `{MySQL, ConnPool, Redis, Posix}.

Definition set_meta (m : MetaW) (w : StoreW) : StoreW := MkStoreW _ _ _ _ m (sw_os w) (sw_gc w).
Definition set_os (s : os) (w : StoreW) : StoreW := MkStoreW _ _ _ _ (sw_meta w) s (sw_gc w).
Definition set_gc (q : option (list string)) (w : StoreW) : StoreW :=
  MkStoreW _ _ _ _ (sw_meta w) (sw_os w) q.

Definition on_meta {A} (m : MM A) : SM A := fun w =>
  let '(r, m') := m (sw_meta w) in (r, set_meta m' w).
Definition on_os {A} (m : M os A) : SM A := fun w =>
  let '(r, s') := m (sw_os w) in (r, set_os s' w).
Definition ask_os {A} (f : os -> A) : SM A := fun w => (Ret (f (sw_os w)), w).

#[export] Instance world_clock : ClockOf StoreW := fun w => m_now (sw_meta w).

#[export] Instance world_uuid : UuidGen StoreW := fun w =>
  let '(u, s') := os_uuid (sw_os w) in (u, set_os s' w).

(** [UUID::Generate] in a handler. *)
Definition Generate : SM string := fun w => let '(u, w') := uuid_generate w in (Ret u, w').

(** The committed tables of the world. *)
Definition tables_of (w : StoreW) : Tables := committed (sw_meta w).

Lemma wp_on_meta {A} (m : MM A) (Q : exn A -> StoreW -> Prop) w :
  wp m (fun r m' => Q r (set_meta m' w)) (sw_meta w) -> wp (on_meta m) Q w.
Proof. unfold wp, on_meta. by destruct (m (sw_meta w)). Qed.

(** With the session it leaves known to be a later one. *)
Lemma wp_on_meta_runs {A} (m : MM A) (Q : exn A -> StoreW -> Prop) w :
  runs m ->
  wp m (fun r m' => later (m_srv (sw_meta w)) (m_srv m') -> Q r (set_meta m' w)) (sw_meta w) ->
  wp (on_meta m) Q w.
Proof. intros Hr Hq. specialize (Hr (sw_meta w)). unfold wp, on_meta in *. destruct (m (sw_meta w)). by apply Hq. Qed.

Lemma wp_on_os {A} (m : M os A) (Q : exn A -> StoreW -> Prop) w :
  wp m (fun r s' => Q r (set_os s' w)) (sw_os w) -> wp (on_os m) Q w.
Proof. unfold wp, on_os. by destruct (m (sw_os w)). Qed.

Lemma wp_ask_os {A} (f : os -> A) (Q : exn A -> StoreW -> Prop) w :
  Q (Ret (f (sw_os w))) w -> wp (ask_os f) Q w.
Proof. done. Qed.
End world.
