(* ===== verification/StoreSpec.v ===== *)
(** * The store as a whole: its invariant

    The metadata and the files agree: every count is at least the number of
    references, every content a row refers to is in place under a well-formed
    key, every content hashes to its key, and the session of the database accepts
    START TRANSACTION. The operations that touch neither
    references nor files keep this at once ([quiet]). *)
From S2P Require Import Prelude Status Json Crypto Sql MySQLTx MetaStore Sessions MetaStoreSpec Uuid FileSys.
From S2P Require Import DataStore DataStoreSpec Auth World.

Open Scope Z_scope.

(** ** Counts that cover the references *)

Section covered.
Context `{HC : Collation}.

Record covered (a : AStore) : Prop := MkCovered {
  covered_refs c : a_count c a <= default 0 (a_refs a !! c);
  covered_objs k o : a_objs a !! k = Some o -> ao_cas o <> "";
  covered_parts k p : a_parts a !! k = Some p -> p <> ""
}.

Lemma counted_covered a : counted a -> covered a.
Proof. intros [H1 H2 H3]. split; [|done..]. intros c. by rewrite H1. Qed.

Lemma object_counted a k o : a_objs a !! k = Some o -> 0 < a_count (coll (ao_cas o)) a.
Proof.
  intros Hk. unfold a_count. rewrite (count_delete _ _ _ _ Hk), String.eqb_refl. cbn.
  pose proof (count_nonneg (fun o0 => String.eqb (coll (ao_cas o0)) (coll (ao_cas o))) (delete k (a_objs a))).
  pose proof (count_nonneg (fun p => String.eqb (coll p) (coll (ao_cas o))) (a_parts a)). lia.
Qed.

Lemma part_counted a k p : a_parts a !! k = Some p -> 0 < a_count (coll p) a.
Proof.
  intros Hk. unfold a_count. rewrite (count_delete _ (a_parts a) _ _ Hk), String.eqb_refl. cbn.
  pose proof (count_nonneg (fun o => String.eqb (coll (ao_cas o)) (coll p)) (a_objs a)).
  pose proof (count_nonneg (fun q => String.eqb (coll q) (coll p)) (delete k (a_parts a))). lia.
Qed.

(** [c] is the content of an object or a part. *)
Definition refers (a : AStore) (c : string) : Prop :=
  (exists k o, a_objs a !! k = Some o /\ ao_cas o = c) \/ (exists k, a_parts a !! k = Some c).

Lemma refers_counted a c : refers a c -> 0 < a_count (coll c) a.
Proof.
  intros [(k & o & Hk & <-)|(k & Hk)]; [by eapply object_counted|by eapply part_counted].
Qed.

Lemma covered_unreferenced a c :
  covered a -> default 0 (a_refs a !! coll c) = 0 -> ~ refers a c.
Proof.
  intros Ha Hr H. apply refers_counted in H. pose proof (covered_refs _ Ha (coll c)). lia.
Qed.

Lemma covered_ref_pos a c : covered a -> refers a c -> 0 < default 0 (a_refs a !! coll c).
Proof. intros Ha H. apply refers_counted in H. pose proof (covered_refs _ Ha (coll c)). lia. Qed.

(** Moving a reference keeps the counts above the references. *)
Lemma covered_put b k cas size ct etag a :
  cas <> "" -> covered a -> covered (snd (a_put b k cas size ct etag a)).
Proof.
  intros Hcas Ha. unfold a_put.
  set (old := match a_find b k a with Some o => ao_cas o | None => "" end).
  destruct (a_move old cas a) as [gc a1] eqn:E. cbn.
  assert (Ea : a1 = snd (a_move old cas a)) by by rewrite E.
  assert (Hold : old = "" \/ 0 < default 0 (a_refs a !! coll old)).
  { subst old. destruct (a_find b k a) as [o|] eqn:F; [right|by left].
    apply a_find_Some in F as [F _]. apply covered_ref_pos; [done|]. left. eauto. }
  unfold a_upsert, a_set_object. split; cbn; rewrite ?Ea, ?move_objs, ?move_parts.
  - intros d. rewrite ref_move by done. pose proof (covered_refs _ Ha d) as Hd.
    unfold a_count in *. cbn. rewrite count_insert. cbn. subst old. unfold a_find.
    destruct (a_objs a !! (b, uk255 k)) as [o|] eqn:F.
    + rewrite (count_delete _ (a_objs a) _ _ F) in Hd.
      pose proof (covered_objs _ Ha _ _ F) as Hne. apply str_empty_false in Hne.
      destruct (sql_eq (ao_key o) k); [rewrite Hne; unfold delta; lia|].
      cbn [str_empty]. unfold delta. destruct (String.eqb (coll (ao_cas o)) d); cbn in *; lia.
    + rewrite (count_delete_none (a_objs a) _ F). cbn [str_empty]. unfold delta. lia.
  - intros k' o. rewrite lookup_insert. case_decide; [by intros [= <-]|apply (covered_objs _ Ha)].
  - apply (covered_parts _ Ha).
Qed.

Lemma covered_put_part u n cas a :
  cas <> "" -> covered a -> covered (snd (a_put_part u n cas a)).
Proof.
  intros Hcas Ha. unfold a_put_part. set (old := default "" (a_parts a !! (coll u, n))).
  destruct (a_move old cas a) as [gc a1] eqn:E. cbn.
  assert (Ea : a1 = snd (a_move old cas a)) by by rewrite E.
  assert (Hold : old = "" \/ 0 < default 0 (a_refs a !! coll old)).
  { subst old. destruct (a_parts a !! (coll u, n)) as [p|] eqn:F; [right|by left].
    apply covered_ref_pos; [done|]. right. eauto. }
  split; cbn; rewrite ?Ea, ?move_objs, ?move_parts.
  - intros d. rewrite ref_move by done. pose proof (covered_refs _ Ha d) as Hd.
    unfold a_count in *. cbn. rewrite count_insert. subst old.
    destruct (a_parts a !! (coll u, n)) as [p|] eqn:F; cbn.
    + rewrite (count_delete _ (a_parts a) _ _ F) in Hd.
      pose proof (covered_parts _ Ha _ _ F) as Hne. apply str_empty_false in Hne. rewrite Hne.
      unfold delta. lia.
    + rewrite (count_delete_none (a_parts a) _ F). unfold delta. lia.
  - apply (covered_objs _ Ha).
  - intros k' p. rewrite lookup_insert. case_decide; [by intros [= <-]|apply (covered_parts _ Ha)].
Qed.

Lemma covered_delete b k gc a a' : a_delete b k a = Some (gc, a') -> covered a -> covered a'.
Proof.
  unfold a_delete. intros E Ha. destruct (a_find b k a) as [o|] eqn:F; [|done].
  apply a_find_Some in F as [F _]. pose proof (covered_objs _ Ha _ _ F) as Hne.
  apply str_empty_false in Hne. rewrite Hne in E. injection E as _ <-.
  split; cbn [a_objs a_parts a_dec].
  - intros d. rewrite ref_dec by (cbn; apply covered_ref_pos; [done|left; eauto]). cbn [a_refs].
    pose proof (covered_refs _ Ha d) as Hd. unfold a_count in *. cbn.
    rewrite (count_delete _ (a_objs a) _ _ F) in Hd. unfold delta. lia.
  - intros k' o'. rewrite lookup_delete_Some. intros [_ D]. by eapply covered_objs.
  - apply (covered_parts _ Ha).
Qed.

(** What the rows of the new stores refer to. *)
Lemma refers_put b k cas size ct etag a c :
  refers (snd (a_put b k cas size ct etag a)) c -> c = cas \/ refers a c.
Proof.
  unfold a_put. set (old := match a_find b k a with Some o => ao_cas o | None => "" end).
  destruct (a_move old cas a) as [gc a1] eqn:E. cbn.
  assert (Ea : a1 = snd (a_move old cas a)) by by rewrite E.
  intros [(k' & o & Hk & <-)|(k' & Hk)]; cbn in Hk; rewrite Ea, ?move_objs, ?move_parts in Hk.
  - rewrite lookup_insert in Hk. case_decide; [injection Hk as <-; by left|]. right. left. eauto.
  - right. right. eauto.
Qed.

Lemma refers_put_part u n cas a c :
  refers (snd (a_put_part u n cas a)) c -> c = cas \/ refers a c.
Proof.
  unfold a_put_part. set (old := default "" (a_parts a !! (coll u, n))).
  destruct (a_move old cas a) as [gc a1] eqn:E. cbn.
  assert (Ea : a1 = snd (a_move old cas a)) by by rewrite E.
  intros [(k' & o & Hk & <-)|(k' & Hk)]; cbn in Hk; rewrite Ea, ?move_objs, ?move_parts in Hk.
  - right. left. eauto.
  - rewrite lookup_insert in Hk. case_decide; [injection Hk as <-; by left|]. right. right. eauto.
Qed.

Lemma refers_delete b k gc a a' c : a_delete b k a = Some (gc, a') -> refers a' c -> refers a c.
Proof.
  unfold a_delete. intros E H. destruct (a_find b k a) as [o|]; [|done].
  assert (Ho : a_objs a' = delete (b, uk255 k) (a_objs a) /\ a_parts a' = a_parts a)
    by (destruct (str_empty (ao_cas o)); injection E as _ <-; done).
  destruct Ho as [Ho Hp]. destruct H as [(k' & o' & Hk & <-)|(k' & Hk)].
  - rewrite Ho, lookup_delete_Some in Hk. destruct Hk as [_ Hk]. left. eauto.
  - rewrite Hp in Hk. right. eauto.
Qed.
End covered.

(** ** Operations that leave references alone *)

(** The statements that change no count, object or part. *)
Definition frame_stmt (st : Stmt) : bool :=
  match st with
  | StartTransaction | CommitStmt | RollbackStmt | DeleteBucketRow _ | InsertObject _ _ _ _ _ _
  | UpsertObject _ _ _ _ _ _ | DeleteObjectRow _ _ | InsertOrIncCas _ _ | IncCas _ | DecCas _
  | DeleteCasRow _ | DeleteUploadRow _ | UpsertPart _ _ _ _ _ => false
  | _ => true
  end.

Lemma frame_abs `{Collation, Calendar} now t st t' rows aff ids :
  frame_stmt st = true -> exec_stmt now t st = Done t' rows aff ids -> abs t' = abs t.
Proof.
  intros Hf E. destruct st; try done; cbn -[Z.ltb abs] in E;
    unfold exec_insert_bucket, limited, rows_of in E; repeat case_match; try done;
    by injection E as <- <- <- <-.
Qed.

Section stays.
Context `{HC : Collation, HCal : Calendar, HS : MySQL, HP : ConnPool, HR : Redis}.
Context `{HJ : JsonLib, HD : Digest} `{HL : !MySQLLaws} {X : Type} (f : Tables -> X).
Implicit Types (m : MetaW).

(** No transaction is left open and [f] of the tables stays, on any outcome. *)
Definition stays {A} (op : MM A) : Prop := forall m,
  open_tx m = None ->
  wp op (fun _ m' => open_tx m' = None /\ f (committed m') = f (committed m)) m.

Lemma stays_ret {A} (a : A) : stays (mret a).
Proof. by intros m Hm; apply wp_ret. Qed.

Lemma stays_lift {A} (a : exn A) : stays (lift_exn a).
Proof. by intros m Hm. Qed.

Lemma stays_get : stays get_world.
Proof. by intros m Hm. Qed.

Lemma stays_put g : (forall m, m_srv (g m) = m_srv m) -> stays (put_world g).
Proof. intros Hg m Hm. unfold wp, put_world, open_tx, committed in *. cbn. by rewrite Hg. Qed.

Lemma stays_bind {A B} (op : MM A) (k : A -> MM B) :
  stays op -> (forall a, stays (k a)) -> stays (op ≫= k).
Proof.
  intros Ho Hk m Hm. apply wp_bind. eapply wp_mono; [by apply Ho|].
  intros [a|e] m' [D1 D2]; [|done]. eapply wp_mono; [by apply Hk|].
  intros r m2 [D3 D4]. by rewrite D4.
Qed.

Lemma stays_run st :
  is_tx_stmt st = false ->
  (forall now t t' rows aff ids, exec_stmt now t st = Done t' rows aff ids -> f t' = f t) ->
  stays (conn_run st).
Proof.
  intros Hst Hf m Hm. eapply wp_conn_run; [done..| |].
  - intros m' t' rows aff id ids _ He _ <- Ho. split; [done|]. by eapply Hf.
  - intros m' e _ Hc Ho _. by rewrite Hc.
Qed.

Lemma stays_with_conn {A} (nul : A) body : stays body -> stays (with_conn nul body).
Proof.
  intros Hb m Hm. apply wp_with_conn; intros p; [done|].
  eapply wp_mono; [by apply Hb|]. done.
Qed.
End stays.

#[export] Hint Resolve stays_ret stays_lift stays_get : minis3.

(** Splits an operation into steps; [run] treats the statements. *)
Ltac stays_tac run :=
  repeat first
    [ solve [auto with minis3]
    | apply stays_with_conn
    | apply stays_bind; [|intros ?]
    | solve [run]
    | solve [apply stays_put; intros ?; reflexivity]
    | case_match ].

(** No count, object or part changes. *)
Notation quiet := (stays abs).

Lemma quiet_run `{HC : Collation, HCal : Calendar, HS : MySQL, HP : ConnPool, HR : Redis}
    `{HL : !MySQLLaws} st : frame_stmt st = true -> quiet (conn_run st).
Proof.
  intros Hf. apply stays_run; [by destruct st|]. intros. by eapply frame_abs.
Qed.

Ltac quiet_tac := stays_tac ltac:(apply quiet_run; reflexivity).

Section quiet_ops.
Context `{HC : Collation, HCal : Calendar, HS : MySQL, HP : ConnPool, HR : Redis}.
Context `{HJ : JsonLib, HD : Digest} `{HL : !MySQLLaws}.

Lemma quiet_CreateBucket n o r a : quiet (CreateBucket n o r a).
Proof. unfold CreateBucket, DbErr. quiet_tac. Qed.
Lemma quiet_GetBucket n : quiet (GetBucket n).
Proof. unfold GetBucket. quiet_tac. Qed.
Lemma quiet_GetBucketById i : quiet (GetBucketById i).
Proof. unfold GetBucketById. quiet_tac. Qed.
Lemma quiet_ListBuckets o : quiet (ListBuckets o).
Proof. unfold ListBuckets. quiet_tac. Qed.
Lemma quiet_IsBucketEmpty i : quiet (IsBucketEmpty i).
Proof. unfold IsBucketEmpty. quiet_tac. Qed.
Lemma quiet_GetObject b k : quiet (GetObject b k).
Proof. unfold GetObject, cached_object, cache_object. quiet_tac. Qed.
Lemma quiet_ListObjects b p d s n : quiet (ListObjects b p d s n).
Proof. unfold ListObjects. quiet_tac. Qed.
Lemma quiet_GetCasBlob c : quiet (GetCasBlob c).
Proof. unfold GetCasBlob. quiet_tac. Qed.
Lemma quiet_CreateMultipartUpload u b k t o e : quiet (CreateMultipartUpload u b k t o e).
Proof. unfold CreateMultipartUpload. quiet_tac. Qed.
Lemma quiet_GetMultipartUpload u : quiet (GetMultipartUpload u).
Proof. unfold GetMultipartUpload. quiet_tac. Qed.
Lemma quiet_ListParts u m n : quiet (ListParts u m n).
Proof. unfold ListParts. quiet_tac. Qed.
Lemma quiet_CheckIdempotency k : quiet (CheckIdempotency k).
Proof. unfold CheckIdempotency. quiet_tac. Qed.
Lemma quiet_RecordIdempotency k h s b t : quiet (RecordIdempotency k h s b t).
Proof. unfold RecordIdempotency. quiet_tac. Qed.
End quiet_ops.

#[export] Hint Extern 1 (stays abs _) => first
  [ apply quiet_CreateBucket | apply quiet_GetBucket | apply quiet_GetBucketById
  | apply quiet_ListBuckets | apply quiet_IsBucketEmpty | apply quiet_GetObject
  | apply quiet_ListObjects | apply quiet_GetCasBlob | apply quiet_CreateMultipartUpload
  | apply quiet_GetMultipartUpload | apply quiet_ListParts | apply quiet_CheckIdempotency
  | apply quiet_RecordIdempotency ] : minis3.

(** ** The invariant of the whole store *)

Section store.
Context `{HC : Collation, HCal : Calendar, HS : MySQL, HP : ConnPool, HR : Redis, HX : Posix}.
Context `{HJ : JsonLib, HD : Digest} `{HL : !MySQLLaws, HLX : !PosixLaws} (cfg : StoreConfig).
Implicit Types (w : StoreW).

(** The content [c] is in place. *)
Definition in_place (c : string) (s : os) : Prop :=
  IsValidCasKey c = true /\ is_Some (os_file s (cas_path cfg c)).

(** The collector's queue holds content keys. *)
Definition queue_ok w : Prop := Forall (fun c => IsValidCasKey c = true) (default [] (sw_gc w)).

Record store_ok w : Prop := MkStoreOk {
  so_closed : open_tx (sw_meta w) = None;
  so_cas : cas_ok cfg (sw_os w);
  so_covered : covered (abs (tables_of w));
  so_backed c : refers (abs (tables_of w)) c -> in_place c (sw_os w);
  so_queue : queue_ok w;
  so_starts : starts (m_srv (sw_meta w))
}.

(** Nothing but caches, connections and the queue changed. *)
Definition same_store w w' : Prop :=
  open_tx (sw_meta w') = None /\ abs (tables_of w') = abs (tables_of w) /\
  same_files (sw_os w) (sw_os w') /\ (queue_ok w -> queue_ok w') /\
  later (m_srv (sw_meta w)) (m_srv (sw_meta w')).

(** The session runs no statement. *)
Lemma same_store_session w w' :
  m_srv (sw_meta w') = m_srv (sw_meta w) -> open_tx (sw_meta w) = None ->
  same_files (sw_os w) (sw_os w') -> (queue_ok w -> queue_ok w') -> same_store w w'.
Proof. intros Hm Ho Hf Hq. unfold same_store, tables_of, committed, open_tx in *. rewrite Hm. by split_and!. Qed.

Lemma same_store_refl w : open_tx (sw_meta w) = None -> same_store w w.
Proof. intros Ho. by apply same_store_session. Qed.

Lemma same_store_trans w1 w2 w3 : same_store w1 w2 -> same_store w2 w3 -> same_store w1 w3.
Proof. 
  intros (A1 & A2 & A3 & A4 & A5) (B1 & B2 & B3 & B4 & B5).
  split_and!; [done|by rewrite B2|by eapply same_files_trans|auto|by etransitivity].
 Qed.

Lemma in_place_same c s s' : same_files s s' -> in_place c s -> in_place c s'.
Proof. intros Hs [H1 H2]. split; [done|]. by rewrite Hs. Qed.

Lemma store_ok_same w w' : same_store w w' -> store_ok w -> store_ok w'.
Proof.
  intros (A1 & A2 & A3 & A4 & A5) [B1 B2 B3 B4 B5 B6].
  split; [done| |by rewrite A2| |auto|by eapply starts_later].
  - intros k c Hk. rewrite A3. by apply B2.
  - intros c Hc. rewrite A2 in Hc. eapply in_place_same; [done|by apply B4].
Qed.

(** Steps that leave the store as it is, on any outcome. *)
Definition still {A} (op : SM A) : Prop := forall w,
  open_tx (sw_meta w) = None -> wp op (fun _ w' => same_store w w') w.

Definition keeps {A} (op : SM A) : Prop := forall w, store_ok w -> wp op (fun _ w' => store_ok w') w.

Lemma still_ret {A} (a : A) : still (mret a).
Proof. intros w Hw. by apply same_store_refl. Qed.

Lemma still_lift {A} (a : exn A) : still (lift_exn a).
Proof. intros w Hw. by apply same_store_refl. Qed.

Lemma still_refuse r : still (refuse r).
Proof. intros w Hw. by apply same_store_refl. Qed.

Lemma still_get : still GetWorld.
Proof. intros w Hw. by apply same_store_refl. Qed.

Lemma still_ask {A} (f : os -> A) : still (ask_os f).
Proof. intros w Hw. by apply same_store_refl. Qed.

Lemma still_generate : still Generate.
Proof.
  intros w Hw. unfold wp, Generate, uuid_generate, world_uuid.
  destruct (os_uuid (sw_os w)) as [u s'] eqn:E. apply uuid_law in E as (_ & E & _).
  by apply same_store_session.
Qed.

Lemma still_meta {A} (op : MM A) : quiet op -> runs op -> still (on_meta op).
Proof.
  intros Ho Hr w Hw. apply wp_on_meta_runs; [done|]. eapply wp_mono; [by apply Ho|].
  intros r m' [D1 D2] Hl. done.
Qed.

Lemma still_bind {A B} (op : SM A) (k : A -> SM B) : still op -> (forall a, still (k a)) -> still (op ≫= k).
Proof.
  intros Ho Hk w Hw. apply wp_bind. eapply wp_mono; [by apply Ho|].
  intros [a|e] w' S; [|done]. eapply wp_mono; [apply Hk; apply S|].
  intros r w2 S2. by eapply same_store_trans.
Qed.

Lemma keeps_still {A} (op : SM A) : still op -> keeps op.
Proof.
  intros Ho w Hw. eapply wp_mono; [apply Ho; by destruct Hw|]. intros r w' S. exact (store_ok_same _ _ S Hw).
Qed.

Lemma keeps_bind {A B} (op : SM A) (k : A -> SM B) : keeps op -> (forall a, keeps (k a)) -> keeps (op ≫= k).
Proof.
  intros Ho Hk w Hw. apply wp_bind. eapply wp_mono; [by apply Ho|].
  intros [a|e] w' S; [|done]. by apply Hk.
Qed.

(** A step that leaves the store alone, then a step that needs to know so. *)
Lemma wp_still {A B} (op : SM A) (k : A -> SM B) (Q : exn B -> StoreW -> Prop) w :
  still op -> open_tx (sw_meta w) = None ->
  (forall a w', same_store w w' -> wp (k a) Q w') ->
  (forall e w', same_store w w' -> Q (Throw e) w') -> wp (op ≫= k) Q w.
Proof.
  intros Ho Hw Hk Ht. apply wp_bind. eapply wp_mono; [by apply Ho|].
  intros [a|e] w' S; [by apply Hk|by apply Ht].
Qed.

(** What a read of a row of [cas_blobs] says about the counts. *)
Lemma wp_get_cas_blob c (m : MetaW) :
  open_tx m = None ->
  wp (GetCasBlob c) (fun r m' => open_tx m' = None /\ committed m' = committed m /\
    (forall info, r = Ret (Ok info) -> a_refs (abs (committed m)) !! coll c = Some (ci_ref_count info)) /\
    (forall s, r = Ret (Err s) -> code_ s = NoSuchKey -> a_refs (abs (committed m)) !! coll c = None)) m.
Proof.
  intros Hm. unfold GetCasBlob. apply wp_with_conn; intros p.
  { split_and!; [done..|by intros ?|]. by intros s [= <-]. }
  apply wp_bind. unfold wp at 1, get_world. cbn [fst snd].
  apply wp_bind. apply wp_conn_run; [done|done| |].
  - intros m' t' rows aff id ids _ He _ Hc Ho. cbn -[abs] in He. unfold rows_of in He.
    injection He as <- <- <- <-. change (committed (set_pool p m)) with (committed m) in *.
    cbn [abs a_refs]. rewrite lookup_fmap.
    destruct (cas_blobs (committed m) !! coll c) as [row|] eqn:Er; cbn [opt_rows].
    2: { apply wp_ret. intros p'. split_and!; try done. }
    apply wp_bind, wp_lift.
    destruct (cas_of_row (m_now (set_pool p m)) (cas_text row)) as [info|e] eqn:Ei;
      [apply wp_ret|]; intros p'; split_and!; try done.
    intros info' [= <-]. unfold cas_of_row in Ei. cbn in Ei.
    destruct (conv_exn (stoll (to_string (cr_size row)))); [|done]. cbn in Ei.
    destruct (conv_exn (stoi (to_string (cr_ref row)))) eqn:E2; [|done].
    apply stoi_num in E2 as ->. by injection Ei as <-.
  - intros m' e _ Hc Ho _. apply wp_ret. intros p'. split_and!; try done. by intros s [= <-].
Qed.
End store.

#[export] Hint Resolve still_ret still_lift still_refuse still_get still_ask : minis3.
#[export] Hint Extern 1 (still Generate) => apply still_generate : minis3.
#[export] Hint Extern 1 (still (on_meta _)) => apply still_meta : minis3.
