(* ===== verification/Gc.v ===== *)
(** * Garbage collection (src/src/storage/gc.h, .cpp, and the callback the
    server installs, src/src/server/server.cpp)

    The queue of contents to delete and the batch the collector thread runs. A
    content is checked, its file moved aside, checked again and removed; the
    callback then deletes its row. *)
From S2P Require Import Prelude Status Crypto Sql MySQLTx MetaStore FileSys DataStore Uuid World.

Open Scope Z_scope.

Section gc.
Context `{Collation, Calendar, MySQL, ConnPool, Redis, Posix} (cfg : StoreConfig).

Definition AddPendingDelete (cas_key : string) : SM unit := fun w =>
  (Ret tt, match sw_gc w with Some q => set_gc (Some (q ++ [cas_key])) w | None => w end).

Definition AddPendingDeletes (cas_keys : list string) : SM unit := fun w =>
  (Ret tt, match sw_gc w with Some q => set_gc (Some (q ++ cas_keys)) w | None => w end).

Definition QueueLength (w : StoreW) : nat := length (default [] (sw_gc w)).

(** The callback of [Server::Init], for a content whose file is gone. *)
Definition delete_callback (cas_key : string) (success : bool) : SM unit :=
  if success then
    reclaimable ← on_meta (CanDeleteCasBlob cas_key);
    match reclaimable with
    | Ok true => _ ← on_meta (DeleteCasBlob cas_key); mret tt
    | _ => mret tt
    end
  else mret tt.

(** Moving a quarantined file back; a failure is only logged. *)
Definition restore (renamed : bool) (quarantine_path file_path : string) : SM unit :=
  if renamed then _ ← on_os (AtomicRename quarantine_path file_path); mret tt else mret tt.

(** The second check, and the removal or the restoration of the file. *)
Definition finish_delete (cas_key file_path quarantine_path : string) (renamed : bool) : SM unit :=
  reclaimable_after ← on_meta (CanDeleteCasBlob cas_key);
  match reclaimable_after with
  | Ok true =>
      status ← (if renamed then on_os (RemoveFile quarantine_path) else mret Status_OK);
      delete_callback cas_key (status_ok status)
  | _ => restore renamed quarantine_path file_path
  end.

(** One key of the batch. *)
Definition collect_one (cas_key : string) : SM unit :=
  reclaimable_before ← on_meta (CanDeleteCasBlob cas_key);
  match reclaimable_before with
  | Ok true =>
      let file_path := GetFilePath cfg cas_key in
      u ← Generate;
      let quarantine_path := file_path +:+ ".gc." +:+ u in
      source_exists ← ask_os (FileExists file_path);
      if source_exists : bool then
        rename_status ← on_os (AtomicRename file_path quarantine_path);
        if status_ok rename_status
        then finish_delete cas_key file_path quarantine_path true
        else mret tt
      else finish_delete cas_key file_path quarantine_path false
  | _ => mret tt
  end.

Fixpoint collect_all (batch : list string) : SM unit :=
  match batch with
  | [] => mret tt
  | cas_key :: rest => _ ← collect_one cas_key; collect_all rest
  end.

(** [batch_size] is an [int]; a negative one takes nothing. *)
Definition ProcessBatch (batch_size : Z) : SM unit := fun w =>
  let q := default [] (sw_gc w) in
  let n := Z.to_nat batch_size in
  collect_all (take n q) (set_gc (drop n <$> sw_gc w) w).

Definition RunOnce : Z -> SM unit := ProcessBatch.
End gc.
