(* ===== verification/GcProps.v ===== *)
(** * Properties of the garbage collector *)
From S2P Require Import Prelude Status Json Crypto Sql MySQLTx MetaStore Sessions MetaStoreSpec Uuid FileSys.
From S2P Require Import DataStore DataStoreSpec Auth World StoreSpec Gc.

Open Scope Z_scope.

Section refs.
Context `{HC : Collation, HCal : Calendar}.

Lemma count_fmap {K} `{Countable K} {A B} (p : B -> bool) (f : A -> B) (m : gmap K A) :
  count_where p (f <$> m) = count_where (fun x => p (f x)) m.
Proof.
  unfold count_where, keep_where. rewrite map_filter_fmap, map_size_fmap. done.
Qed.

Lemma count_abs t c : a_count (coll c) (abs t) = object_refs t c + part_refs t c.
Proof. unfold a_count, abs. cbn. by rewrite !count_fmap. Qed.

Lemma unreferenced t c : object_refs t c = 0 -> part_refs t c = 0 -> ~ refers (abs t) c.
Proof. intros H1 H2 H. apply refers_counted in H. rewrite count_abs in H. lia. Qed.

(** Deleting a row is refused while something refers to it. *)
Lemma exec_delete_cas_abs t c t' rows aff ids :
  exec_delete_cas t c = Done t' rows aff ids ->
  abs t' = abs t \/
  (a_count (coll c) (abs t) = 0 /\
   abs t' = MkAStore (delete (coll c) (a_refs (abs t))) (a_objs (abs t)) (a_parts (abs t))).
Proof.
  unfold exec_delete_cas. destruct (cas_blobs t !! coll c); [|intros E; injection E as <- <- <- <-; by left].
  case_match eqn:E; [|done]. apply andb_true_iff in E as [E1 E2].
  apply Z.eqb_eq in E1, E2. intros F. injection F as <- <- <- <-. right. split.
  - rewrite count_abs. lia.
  - unfold abs. cbn. by rewrite fmap_delete.
Qed.

Lemma covered_drop c a :
  a_count (coll c) a = 0 -> covered a -> covered (MkAStore (delete (coll c) (a_refs a)) (a_objs a) (a_parts a)).
Proof.
  intros H0 Ha. split; cbn; [|apply Ha..]. intros d. unfold a_count in *. cbn.
  rewrite lookup_delete. case_decide as E; [subst d; cbn; lia|]. apply (covered_refs _ Ha).
Qed.
End refs.

Section gc.
Context `{HC : Collation, HCal : Calendar, HS : MySQL, HP : ConnPool, HR : Redis, HX : Posix}.
Context `{HJ : JsonLib, HD : Digest} `{HL : !MySQLLaws, HLX : !PosixLaws} (cfg : StoreConfig).
Implicit Types (w : StoreW).

(** What collecting may do: objects and parts stay, counts stay above the
    references, and every content in use keeps its file. *)
Record gc_step w w' : Prop := MkGcStep {
  gs_closed : open_tx (sw_meta w') = None;
  gs_objs : a_objs (abs (tables_of w')) = a_objs (abs (tables_of w));
  gs_parts : a_parts (abs (tables_of w')) = a_parts (abs (tables_of w));
  gs_covered : covered (abs (tables_of w)) -> covered (abs (tables_of w'));
  gs_files c : refers (abs (tables_of w)) c -> IsValidCasKey c = true ->
    os_file (sw_os w') (cas_path cfg c) = os_file (sw_os w) (cas_path cfg c);
  gs_cas : cas_ok cfg (sw_os w) -> cas_ok cfg (sw_os w');
  gs_queue : queue_ok w -> queue_ok w';
  gs_later : later (m_srv (sw_meta w)) (m_srv (sw_meta w'))
}.

Lemma gc_step_refers w w' c :
  gc_step w w' -> refers (abs (tables_of w)) c -> refers (abs (tables_of w')) c.
Proof. intros [_ Ho Hp _ _ _ _ _] H. unfold refers. by rewrite Ho, Hp. Qed.

Lemma gc_step_trans w1 w2 w3 : gc_step w1 w2 -> gc_step w2 w3 -> gc_step w1 w3.
Proof.
  intros A B. split.
  - apply (gs_closed _ _ B).
  - by rewrite (gs_objs _ _ B), (gs_objs _ _ A).
  - by rewrite (gs_parts _ _ B), (gs_parts _ _ A).
  - intros Hc. by apply (gs_covered _ _ B), (gs_covered _ _ A).
  - intros c Hc Hv. rewrite (gs_files _ _ B) by (done || by eapply gc_step_refers).
    by apply (gs_files _ _ A).
  - intros Hc. by apply (gs_cas _ _ B), (gs_cas _ _ A).
  - intros Hc. by apply (gs_queue _ _ B), (gs_queue _ _ A).
  - etransitivity; [apply (gs_later _ _ A)|apply (gs_later _ _ B)].
Qed.

Lemma gc_step_same w w' : same_store w w' -> gc_step w w'.
Proof.
  intros (A1 & A2 & A3 & A4 & A5). split; [done|by rewrite A2..| | | |done|done].
  - intros H. by rewrite A2.
  - intros c _ _. apply A3.
  - intros H k c Hk. rewrite A3. by apply H.
Qed.

(** A file step that changes at most the place of [c], by emptying it. *)
Lemma gc_step_os w s' c :
  open_tx (sw_meta w) = None -> ~ refers (abs (tables_of w)) c -> IsValidCasKey c = true ->
  (forall k, IsValidCasKey k = true -> k <> c -> os_file s' (cas_path cfg k) = os_file (sw_os w) (cas_path cfg k)) ->
  (os_file s' (cas_path cfg c) = os_file (sw_os w) (cas_path cfg c) \/ os_file s' (cas_path cfg c) = None) ->
  gc_step w (set_os s' w).
Proof.
  intros Ho Hn Hv Hother Hc. split; try done.
  - intros k Hk Hvk. cbn. destruct (decide (k = c)) as [->|Hne]; [done|]. by apply Hother.
  - intros Hok k d Hk. cbn. destruct (decide (k = c)) as [->|Hne].
    + destruct Hc as [->| ->]; [by apply Hok|done].
    + rewrite Hother by done. by apply Hok.
Qed.

Lemma quarantine_is_temp k u : UUID_IsValid u = true -> is_temp cfg (cas_path cfg k +:+ ".gc." +:+ u).
Proof.
  intros [Hd Hb]%uuid_valid_plain j E.
  assert (Hj : exists p, cas_path cfg j = p +:+ String "." "blob").
  { unfold cas_path, GetCasPath. destruct (join_suffix (GetCasDir (base_dir_ cfg) j) (j +:+ ".blob")) as [p ->].
    exists (p +:+ j). by rewrite str_app_assoc. }
  destruct Hj as [p Hp]. rewrite Hp in E.
  assert (E' : (cas_path cfg k +:+ ".gc") +:+ String "." u = p +:+ String "." "blob").
  { by rewrite str_app_assoc. }
  apply app_last_inj in E' as [_ E']; [|done..]. done.
Qed.

(** The check of a content changes nothing and tells the truth. *)
Lemma wp_check {B} c (k : Result bool -> SM B) (Q : exn B -> StoreW -> Prop) w :
  starts (m_srv (sw_meta w)) -> open_tx (sw_meta w) = None ->
  (forall r w', same_store w w' -> (r = Ok true -> ~ refers (abs (tables_of w')) c) -> wp (k r) Q w') ->
  (forall e w', same_store w w' -> Q (Throw e) w') ->
  wp (on_meta (CanDeleteCasBlob c) ≫= k) Q w.
Proof.
  intros Hs Ho Hk Ht. apply wp_bind, wp_on_meta_runs; [auto with minis3|].
  eapply wp_mono; [by apply can_delete_safe|]. intros r m' [D1 [D2 D3]] Hl.
  assert (S : same_store w (set_meta m' w)).
  { split_and!; [done| |done|done|done]. unfold tables_of. cbn. by rewrite D2. }
  destruct r as [r|e]; [|by apply Ht]. apply Hk; [done|]. intros ->.
  unfold tables_of. cbn. rewrite D2. destruct (D3 eq_refl) as (_ & D4 & D5). by apply unreferenced.
Qed.

Lemma wp_delete_cas c (m : MetaW) :
  open_tx m = None -> covered (abs (committed m)) ->
  wp (DeleteCasBlob c) (fun _ m' => open_tx m' = None /\
    a_objs (abs (committed m')) = a_objs (abs (committed m)) /\
    a_parts (abs (committed m')) = a_parts (abs (committed m)) /\
    covered (abs (committed m'))) m.
Proof.
  intros Hm Hcov. apply wp_with_conn; intros p; [done|]. apply wp_bind. apply wp_conn_run; [done|done| |].
  - intros m' t' rows aff id ids _ He _ Hc Ho. apply wp_ret. intros p'.
    change (committed (set_pool p' m')) with (committed m'). rewrite Hc.
    change (committed (set_pool p m)) with (committed m) in He.
    apply exec_delete_cas_abs in He as [->|[H0 ->]]; [done|]. split_and!; try done. by apply covered_drop.
  - intros m' e _ Hc Ho _. apply wp_ret. intros p'.
    change (committed (set_pool p' m')) with (committed m'). by rewrite Hc.
Qed.

(** Collecting from a store whose contents hash to their keys. *)
Definition gc_from w (r : exn unit) w' : Prop := gc_step w w'.

Lemma wp_callback c ok w :
  starts (m_srv (sw_meta w)) -> open_tx (sw_meta w) = None -> covered (abs (tables_of w)) ->
  wp (delete_callback c ok) (gc_from w) w.
Proof.
  intros Hs Ho Hc. unfold delete_callback. destruct ok; [|apply wp_ret, gc_step_same; by apply same_store_refl].
  apply wp_check; [done|done| |intros e w' S; by apply gc_step_same].
  intros r w' S _. destruct r as [[]|]; [|apply wp_ret; by apply gc_step_same..].
  apply wp_bind, wp_on_meta_runs; [auto with minis3|]. destruct S as (S1 & S2 & S3 & S4 & S5).
  eapply wp_mono; [apply wp_delete_cas; [done|]|].
  { change (covered (abs (tables_of w'))). by rewrite S2. }
  intros r m' (D1 & D2 & D3 & D4) Hl.
  assert (G : gc_step w (set_meta m' w')).
  { split; unfold tables_of in *; cbn [set_meta sw_meta sw_os]; [done| | |done| | |done|by etransitivity].
    - rewrite D2. by apply (f_equal a_objs) in S2.
    - rewrite D3. by apply (f_equal a_parts) in S2.
    - intros k _ _. apply S3.
    - intros Hok k d Hk. rewrite S3. by apply Hok. }
  destruct r; [by apply wp_ret|done].
Qed.

(** The content [c] is in the quarantine file and no longer in its place. *)
Definition moved_aside (c q : string) (s : os) : Prop :=
  os_file s (cas_path cfg c) = None /\ forall d, os_file s q = Some d -> Final d = c.

(** The second half of a collection, with the content moved aside. *)
Lemma wp_restore c q renamed w :
  open_tx (sw_meta w) = None -> ~ refers (abs (tables_of w)) c -> IsValidCasKey c = true ->
  is_temp cfg q -> (renamed = true -> moved_aside c q (sw_os w)) -> cas_ok cfg (sw_os w) ->
  wp (restore renamed q (cas_path cfg c)) (gc_from w) w.
Proof.
  intros Ho Hn Hv Hq Hm Hok. unfold restore.
  destruct renamed; [|apply wp_ret, gc_step_same; by apply same_store_refl].
  destruct (Hm eq_refl) as [Hc Hd].
  apply wp_bind, wp_on_os. eapply wp_mono; [by apply wp_rename, Hq|]. intros r s' (st & -> & Hst).
  apply wp_ret. destruct (status_ok st).
  - destruct Hst as (D1 & D2 & D3). split; try done.
    + intros k Hk Hvk. apply D3; [intros E; by apply (Hq k)|].
      intros E. apply cas_path_inj in E; [by subst k|]. by rewrite !valid_key_length.
    + intros _ k d Hk. cbn. destruct (decide (k = c)) as [->|Hne].
      * rewrite D1. apply Hd.
      * rewrite D3; [by apply Hok|intros E; by apply (Hq k)|].
        intros E. apply cas_path_inj in E; [done|]. by rewrite !valid_key_length.
  - apply gc_step_same. by apply same_store_session.
Qed.

Lemma wp_finish_delete c q renamed w :
  starts (m_srv (sw_meta w)) -> open_tx (sw_meta w) = None -> covered (abs (tables_of w)) ->
  ~ refers (abs (tables_of w)) c -> IsValidCasKey c = true ->
  is_temp cfg q -> (renamed = true -> moved_aside c q (sw_os w)) -> cas_ok cfg (sw_os w) ->
  wp (finish_delete c (cas_path cfg c) q renamed) (gc_from w) w.
Proof.
  intros Hs Ho Hcov Hn Hv Hq Hm Hok. unfold finish_delete.
  apply wp_check; [done|done| |intros e w' S; by apply gc_step_same].
  intros r w' S _. pose proof S as (S1 & S2 & S3 & SQ & SL).
  assert (Hrest : wp (restore renamed q (cas_path cfg c)) (gc_from w) w').
  { eapply wp_mono; [apply wp_restore; try done|].
    - by rewrite S2.
    - intros Hrn. destruct (Hm Hrn) as [M1 M2]. split; [by rewrite S3|]. intros d. rewrite S3. apply M2.
    - intros k d Hk. rewrite S3. by apply Hok.
    - intros r' w2 G. eapply gc_step_trans; [by apply gc_step_same|done]. }
  destruct r as [[]|]; [|done..].
  assert (Hcb : forall w2 ok, gc_step w w2 -> covered (abs (tables_of w2)) ->
    wp (delete_callback c ok) (gc_from w) w2).
  { intros w2 ok G Hc2. eapply wp_mono; [apply wp_callback; [by eapply starts_later, Hs; apply (gs_later _ _ G)|apply (gs_closed _ _ G)|done]|].
    intros r' w3 G2. by eapply gc_step_trans. }
  apply wp_bind. destruct renamed.
  - apply wp_on_os. eapply wp_mono; [by apply (wp_remove_temp cfg)|]. intros r s' (S4 & st & ->).
    apply Hcb; [|by unfold tables_of in *; cbn; rewrite S2].
    eapply gc_step_trans; [by apply gc_step_same|]. apply (gc_step_os _ _ c); [done|by rewrite S2|done| |].
    + intros k _ _. apply S4.
    + left. apply S4.
  - apply wp_ret. apply Hcb; [by apply gc_step_same|by rewrite S2].
Qed.

Lemma wp_collect_one c w :
  starts (m_srv (sw_meta w)) -> open_tx (sw_meta w) = None -> covered (abs (tables_of w)) ->
  cas_ok cfg (sw_os w) ->
  IsValidCasKey c = true -> wp (collect_one cfg c) (gc_from w) w.
Proof.
  intros Hs Ho Hcov Hok Hv. unfold collect_one.
  apply wp_check; [done|done| |intros e w' S; by apply gc_step_same].
  intros r w1 S Hr. destruct r as [[]|]; [|apply wp_ret; by apply gc_step_same..].
  specialize (Hr eq_refl). apply wp_bind. unfold wp at 1, Generate, uuid_generate, world_uuid.
  destruct (os_uuid (sw_os w1)) as [u s2] eqn:Eu. cbn [fst snd].
  apply uuid_law in Eu as (_ & S2 & Hu). pose proof S as (D1 & D2 & D3 & DQ & DL).
  set (w2 := set_os s2 w1).
  assert (S12 : same_store w w2) by (split_and!; [done|done|by eapply same_files_trans|done|done]).
  assert (Hok2 : cas_ok cfg s2) by (intros k d Hk; rewrite S2, D3; by apply Hok).
  pose proof (quarantine_is_temp c u Hu) as Hq. change (GetFilePath cfg c) with (cas_path cfg c).
  set (q := cas_path cfg c +:+ ".gc." +:+ u) in *.
  apply wp_bind, wp_ask_os.
  assert (Hgo : forall w3 renamed, gc_step w w3 -> covered (abs (tables_of w3)) ->
    ~ refers (abs (tables_of w3)) c -> (renamed = true -> moved_aside c q (sw_os w3)) ->
    cas_ok cfg (sw_os w3) -> wp (finish_delete c (cas_path cfg c) q renamed) (gc_from w) w3).
  { intros w3 rn G Hc3 Hn3 Hm3 Hok3.
    eapply wp_mono; [apply wp_finish_delete; try done;
      [by eapply starts_later, Hs; apply (gs_later _ _ G)|apply (gs_closed _ _ G)]|].
    intros r' w4 G2. by eapply gc_step_trans. }
  assert (Hcov2 : covered (abs (tables_of w2))) by (change (covered (abs (tables_of w1))); by rewrite D2).
  destruct (FileExists (cas_path cfg c) (sw_os w2)); [|by apply Hgo; try apply gc_step_same].
  apply wp_bind, wp_on_os. eapply wp_mono; [apply wp_rename; intros E; by apply (Hq c)|]. intros r s3 (st & -> & Hst).
  destruct (status_ok st); [|apply wp_ret, gc_step_same; split_and!; [done|done|by eapply same_files_trans, Hst; eapply same_files_trans|done|done]].
  destruct Hst as (E1 & E2 & E3).
  assert (Hoth : forall k, IsValidCasKey k = true -> k <> c -> os_file s3 (cas_path cfg k) = os_file s2 (cas_path cfg k)).
  { intros k Hk Hne. apply E3; [|intros E; by apply (Hq k)].
    intros E. apply cas_path_inj in E; [done|]. by rewrite !valid_key_length. }
  assert (G : gc_step w (set_os s3 w2)).
  { eapply gc_step_trans; [by apply gc_step_same|]. apply (gc_step_os _ _ c); try done. by right. }
  apply Hgo; try done.
  - intros _. split; [done|]. intros d. cbn. rewrite E1. by apply Hok2.
  - by apply (gs_cas _ _ G).
Qed.

Lemma wp_collect_all batch w :
  starts (m_srv (sw_meta w)) -> open_tx (sw_meta w) = None -> covered (abs (tables_of w)) ->
  cas_ok cfg (sw_os w) ->
  Forall (fun c => IsValidCasKey c = true) batch -> wp (collect_all cfg batch) (gc_from w) w.
Proof.
  intros Hs Ho Hcov Hok Hb. revert w Hs Ho Hcov Hok.
  induction Hb as [|c batch Hv _ IH]; intros w Hs Ho Hcov Hok.
  { apply wp_ret, gc_step_same. by apply same_store_refl. }
  cbn [collect_all]. apply wp_bind. eapply wp_mono; [by apply wp_collect_one|].
  intros [a|e] w' G; [|done]. eapply wp_mono; [apply IH|].
  - by eapply starts_later, Hs; apply (gs_later _ _ G).
  - apply (gs_closed _ _ G).
  - by apply (gs_covered _ _ G).
  - by apply (gs_cas _ _ G).
  - intros r w2 G2. by eapply gc_step_trans.
Qed.

Lemma gc_step_store_ok w w' : gc_step w w' -> store_ok cfg w -> store_ok cfg w'.
Proof.
  intros G [H1 H2 H3 H4 H5 H6]. split.
  - apply (gs_closed _ _ G).
  - by apply (gs_cas _ _ G).
  - by apply (gs_covered _ _ G).
  - intros c Hc. assert (Hr : refers (abs (tables_of w)) c).
    { unfold refers in *. by rewrite (gs_objs _ _ G), (gs_parts _ _ G) in Hc. }
    destruct (H4 c Hr) as [Hv Hf]. split; [done|]. by rewrite (gs_files _ _ G).
  - by apply (gs_queue _ _ G).
  - by eapply starts_later, H6; apply (gs_later _ _ G).
Qed.

Lemma wp_process_batch n w :
  store_ok cfg w -> wp (ProcessBatch cfg n) (gc_from w) w.
Proof.
  intros [H1 H2 H3 H4 H5 H6]. unfold wp, ProcessBatch. cbv zeta.
  set (w0 := set_gc (drop (Z.to_nat n) <$> sw_gc w) w).
  assert (G : gc_step w w0).
  { apply gc_step_same, same_store_session; try done. unfold queue_ok. cbn.
    destruct (sw_gc w); cbn; [by apply Forall_drop|done]. }
  eapply gc_step_trans; [exact G|].
  apply (wp_collect_all (take (Z.to_nat n) (default [] (sw_gc w))) w0); [done..|].
  by apply Forall_take.
Qed.

(** C13. Collecting is safe: on every outcome of the statements that follow a START
    TRANSACTION and of the file system, a batch of the collector, run while no
    request is served, keeps the store consistent, keeps every object and part, and
    leaves the file of every content they refer to as it was. *)
Theorem gc_batch_safe n w r w' :
  store_ok cfg w -> ProcessBatch cfg n w = (r, w') ->
  store_ok cfg w' /\
  a_objs (abs (tables_of w')) = a_objs (abs (tables_of w)) /\
  a_parts (abs (tables_of w')) = a_parts (abs (tables_of w)) /\
  (forall c, refers (abs (tables_of w)) c ->
     os_file (sw_os w') (cas_path cfg c) = os_file (sw_os w) (cas_path cfg c)).
Proof.
  intros Hok E. pose proof (wp_run _ _ _ _ _ E (wp_process_batch n w Hok)) as G.
  unfold gc_from in G. split_and!.
  - by eapply gc_step_store_ok.
  - apply (gs_objs _ _ G).
  - apply (gs_parts _ _ G).
  - intros c Hc. apply (gs_files _ _ G); [done|]. apply (so_backed _ _ Hok c Hc).
Qed.
End gc.
