(* ===== verification/GcThread.v ===== *)
(** * The collector's thread (src/src/storage/gc.cpp: [Start], [Stop], [GCLoop])

    The thread waits for work or for the interval to pass and runs a batch; other
    threads queue contents under the mutex; [Stop] clears the flag and notifies
    without the mutex. The steps interleave in any way. What a batch does is in
    Gc; here it takes keys and is done with them one by one. *)
From S2P Require Import Prelude.

(** Where the thread is: not started; at the test of [running_]; holding the mutex
    with the predicate found false, before it blocks; blocked; awake from the wait
    with the mutex again; past the wait; in a batch; over. *)
Inductive gc_phase : Type :=
  | NotStarted
  | LoopTest
  | BeforeBlock
  | Blocked
  | AfterWait
  | InBatch (keys : list string)
  | Finished.

(** [gt_notify] tells that [Stop] has cleared the flag and not yet notified;
    [gt_added] and [gt_done] are all keys ever queued and ever processed. *)
Record GcSys : Type := MkGcSys {
  running_ : bool;
  gt_phase : gc_phase;
  pending_deletes_ : list string;
  gt_notify : bool;
  gt_added : list string;
  gt_done : list string
}.

Definition new_gc : GcSys := MkGcSys false NotStarted [] false [] [].

(** The predicate of the wait: [!running_ || !pending_deletes_.empty()]. *)
Definition gc_predicate (s : GcSys) : bool :=
  negb (running_ s) || negb (bool_decide (pending_deletes_ s = [])).

(** A notification: it reaches the thread only when it is blocked, and the thread
    stays blocked when the predicate does not hold. *)
Definition notify (s : GcSys) : GcSys :=
  match gt_phase s with
  | Blocked => if gc_predicate s
               then MkGcSys (running_ s) AfterWait (pending_deletes_ s) (gt_notify s) (gt_added s) (gt_done s)
               else s
  | _ => s
  end.

Definition set_gphase (p : gc_phase) (s : GcSys) : GcSys :=
  MkGcSys (running_ s) p (pending_deletes_ s) (gt_notify s) (gt_added s) (gt_done s).

(** [AddPendingDeletes], one key for [AddPendingDelete]; it holds the mutex. *)
Definition add_pending (keys : list string) (s : GcSys) : GcSys :=
  notify (MkGcSys (running_ s) (gt_phase s) (pending_deletes_ s ++ keys) (gt_notify s) (gt_added s ++ keys) (gt_done s)).

(** The thread holds the mutex between the test of the predicate and the wait. *)
Definition mutex_free (s : GcSys) : Prop := gt_phase s <> BeforeBlock.

Inductive gc_step (batch_size : Z) : GcSys -> GcSys -> Prop :=
  | gc_start s :
      running_ s = false -> gt_phase s = NotStarted ->
      gc_step batch_size s (MkGcSys true LoopTest (pending_deletes_ s) (gt_notify s) (gt_added s) (gt_done s))
  | gc_add keys s : mutex_free s -> gc_step batch_size s (add_pending keys s)
  (** [Stop]: the flag, and then the notification. *)
  | gc_stop s :
      running_ s = true ->
      gc_step batch_size s (MkGcSys false (gt_phase s) (pending_deletes_ s) true (gt_added s) (gt_done s))
  | gc_stop_notify s :
      gt_notify s = true ->
      gc_step batch_size s
        (notify (MkGcSys (running_ s) (gt_phase s) (pending_deletes_ s) false (gt_added s) (gt_done s)))
  (** The loop. *)
  | gc_test s :
      gt_phase s = LoopTest ->
      gc_step batch_size s (set_gphase (if running_ s then (if gc_predicate s then AfterWait else BeforeBlock) else Finished) s)
  | gc_block s : gt_phase s = BeforeBlock -> gc_step batch_size s (set_gphase Blocked s)
  (** The interval has passed, or the wait ends for no reason and the predicate holds. *)
  | gc_timeout s : gt_phase s = Blocked -> gc_step batch_size s (set_gphase AfterWait s)
  (** The second test, and the keys that [ProcessBatch] takes. *)
  | gc_take s :
      gt_phase s = AfterWait ->
      gc_step batch_size s
        (if running_ s
         then MkGcSys true (InBatch (take (Z.to_nat batch_size) (pending_deletes_ s)))
                (drop (Z.to_nat batch_size) (pending_deletes_ s)) (gt_notify s) (gt_added s) (gt_done s)
         else set_gphase Finished s)
  | gc_process k keys s :
      gt_phase s = InBatch (k :: keys) ->
      gc_step batch_size s
        (MkGcSys (running_ s) (InBatch keys) (pending_deletes_ s) (gt_notify s) (gt_added s) (gt_done s ++ [k]))
  | gc_batch_end s : gt_phase s = InBatch [] -> gc_step batch_size s (set_gphase LoopTest s).

Definition in_hand (p : gc_phase) : list string := match p with InBatch keys => keys | _ => [] end.

Record gc_sys_ok (s : GcSys) : Prop := MkGcSysOk {
  go_order : gt_added s = gt_done s ++ in_hand (gt_phase s) ++ pending_deletes_ s;
  go_blocked : gt_phase s = BeforeBlock \/ gt_phase s = Blocked -> pending_deletes_ s = []
}.

Lemma gc_predicate_false s : gc_predicate s = false -> pending_deletes_ s = [].
Proof. unfold gc_predicate. intros [_ H%negb_false_iff%bool_decide_eq_true]%orb_false_iff. done. Qed.

Lemma notify_ok s :
  gt_added s = gt_done s ++ in_hand (gt_phase s) ++ pending_deletes_ s -> gt_phase s <> BeforeBlock -> gc_sys_ok (notify s).
Proof.
  intros Ho Hp. unfold notify. destruct (gt_phase s) eqn:E;
    try (split; [rewrite E; exact Ho|rewrite E; intros [?|?]; congruence]).
  destruct (gc_predicate s) eqn:Eg; [split; cbn; [exact Ho|by intros [?|?]]|].
  split; [rewrite E; exact Ho|]. intros _. by apply gc_predicate_false.
Qed.

Lemma gc_step_ok n s s' : gc_sys_ok s -> gc_step n s s' -> gc_sys_ok s'.
Proof.
  intros [H1 H2] Hstep. destruct Hstep as
    [s Hr Hp|keys s Hm|s Hr|s Hn|s Hp|s Hp|s Hp|s Hp|k keys s Hp|s Hp].
  - rewrite Hp in *. split; cbn; [done|by intros [?|?]].
  - apply notify_ok; cbn; [by rewrite H1, <-!app_assoc|done].
  - by split.
  - destruct (gt_phase s) eqn:E; rewrite ?E in *.
    3: { split; cbn; [exact H1|intros _; apply H2; by left]. }
    all: by apply notify_ok.
  - rewrite Hp in *. split; cbn; [by repeat case_match|]. destruct (running_ s); [|by intros [?|?]].
    destruct (gc_predicate s) eqn:Eg; [by intros [?|?]|]. intros _. by apply gc_predicate_false.
  - rewrite Hp in *. split; cbn; [done|]. intros _. apply H2. by left.
  - rewrite Hp in *. split; cbn; [done|by intros [?|?]].
  - rewrite Hp in *. destruct (running_ s); split; cbn; try done; try by intros [?|?].
    by rewrite take_drop, H1.
  - rewrite Hp in *. split; cbn; [by rewrite H1, <-app_assoc|by intros [?|?]].
  - rewrite Hp in *. split; cbn; [done|by intros [?|?]].
Qed.

Lemma new_gc_ok : gc_sys_ok new_gc.
Proof. split; cbn; [done|by intros [?|?]]. Qed.

Lemma gc_reached n s : rtc (gc_step n) new_gc s -> gc_sys_ok s.
Proof.
  intros Hr. eapply (rtc_ind_r gc_sys_ok); [exact new_gc_ok| |exact Hr]. intros s1 s2 _ Hst Hok. by eapply gc_step_ok.
Qed.

(** C36. The collector's thread processes the contents queued for it in the order in
    which they were queued, each once, and it never sleeps over one: while it is
    blocked the queue is empty, whatever the threads that queue and stop do. *)
Theorem gc_thread_sound n s :
  rtc (gc_step n) new_gc s ->
  gt_added s = gt_done s ++ in_hand (gt_phase s) ++ pending_deletes_ s /\
  (gt_phase s = Blocked -> pending_deletes_ s = []).
Proof. intros [H1 H2]%gc_reached. split; [done|]. intros Hb. apply H2. by right. Qed.

(** Two keys, a batch of one at a time. *)
Lemma gc_thread_sound_witness :
  exists s, gt_done s = ["a"] /\ pending_deletes_ s = ["b"] /\
    gt_added s = gt_done s ++ in_hand (gt_phase s) ++ pending_deletes_ s.
Proof.
  exists (MkGcSys true (InBatch []) ["b"] false ["a"; "b"] ["a"]). split; [done|]. split; [done|].
  apply (gc_thread_sound 1).
  eapply rtc_l; [by apply gc_start|]. eapply rtc_l; [by apply gc_test|]. eapply rtc_l; [by apply gc_block|].
  eapply rtc_l; [by apply (gc_add _ ["a"; "b"])|]. eapply rtc_l; [by apply gc_take|].
  eapply rtc_l; [by apply (gc_process _ "a" [])|]. apply rtc_refl.
Defined.

(** [Stop] clears the flag and notifies without the mutex: when both fall between
    the test of the predicate and the wait, the notification is lost and [Stop]
    waits for the rest of the interval. *)
Lemma gc_stop_missed n :
  exists s, rtc (gc_step n) new_gc s /\ gt_phase s = Blocked /\ running_ s = false /\ gt_notify s = false.
Proof.
  exists (MkGcSys false Blocked [] false [] []). split; [|done].
  eapply rtc_l; [by apply gc_start|]. eapply rtc_l; [by apply gc_test|]. eapply rtc_l; [by apply gc_stop|].
  eapply rtc_l; [by apply gc_stop_notify|]. eapply rtc_l; [by apply gc_block|]. apply rtc_refl.
Qed.

(** After [Stop] at most the batch in progress is processed: the thread takes no
    more keys. *)
Lemma stopped_takes_nothing n s s' :
  running_ s = false -> gt_phase s <> NotStarted -> gc_step n s s' ->
  running_ s' = false /\ gt_phase s' <> NotStarted /\
  (in_hand (gt_phase s') = in_hand (gt_phase s) \/ exists k, in_hand (gt_phase s) = k :: in_hand (gt_phase s')).
Proof.
  intros Hr Hns Hstep. destruct Hstep as [s Hr' Hp|keys s Hm|s Hr'|s Hn|s Hp|s Hp|s Hp|s Hp|k keys s Hp|s Hp]; try done.
  - unfold add_pending, notify. cbn. destruct (gt_phase s) eqn:E; try (case_match; cbn); rewrite ?E; auto.
  - by rewrite Hr in Hr'.
  - unfold notify. cbn. destruct (gt_phase s) eqn:E; try (case_match; cbn); rewrite ?E; auto.
  - cbn. rewrite Hr, Hp. auto.
  - cbn. rewrite Hp. auto.
  - cbn. rewrite Hp. auto.
  - rewrite Hr. cbn. rewrite Hp. auto.
  - cbn. rewrite Hp. split_and!; [done|done|]. right. by exists k.
  - cbn. rewrite Hp. auto.
Qed.
