(* ===== verification/ObjectHandlers.v ===== *)
(** * Object handlers (src/src/api/handlers/object_handlers.h, .cpp)

    PUT, GET, HEAD, DELETE and the listing of objects: what each handler does to
    the metadata store, the data store and the collector's queue, and the
    response it builds. The helpers the multipart handlers repeat are shared. *)
From S2P Require Import Prelude Status Json Crypto Sql MySQLTx MetaStore FileSys DataStore.
From S2P Require Import HttpResponse HttpRequest HttpRouter Uuid Auth World Gc.

Open Scope Z_scope.

(** [static_cast<int64_t>] of a [size_t]. *)
Definition i64_of_u64 (z : Z) : Z := if z <? two63 then z else z - two64.

Definition quote : string := String "034" "".
Definition quoted (s : string) : string := quote +:+ s +:+ quote.

(** The entity tag of a content: the first 32 characters of its key. *)
Definition etag_value (cas_key : string) : string := substr cas_key 0 32.

(** ** Ranges *)

(** The longest run of digits and the rest. *)
Fixpoint span_digits (s : string) : string * string :=
  match s with
  | String c r =>
      if is_digit c then let '(d, t) := span_digits r in (String c d, t) else ("", s)
  | EmptyString => ("", "")
  end.

(** The two groups of the range expression: [bytes=], digits, a dash, digits. *)
Definition range_match (s : string) : option (string * string) :=
  if String.eqb (str_take 6 s) "bytes=" then
    let '(a, r) := span_digits (str_drop 6 s) in
    match r with
    | String c r =>
        if Ascii.eqb c "-" then
          let '(b, r) := span_digits r in
          if str_empty r then Some (a, b) else None
        else None
    | EmptyString => None
    end
  else None.

(** First and last byte; [stoull] throws on a number beyond 64 bits. *)
Definition ParseRange (range_header : string) (file_size : Z) : exn (option (Z * Z)) :=
  if file_size =? 0 then Ret None
  else
    match range_match range_header with
    | None => Ret None
    | Some (start_str, end_str) =>
        if str_empty start_str && str_empty end_str then Ret None
        else if str_empty start_str then
          n ← conv_exn (stoull end_str);
          let suffix_length := if file_size <? n then file_size else n in
          Ret (Some (u64 (file_size - suffix_length), file_size - 1))
        else if str_empty end_str then
          start ← conv_exn (stoull start_str);
          Ret (if file_size <=? start then None else Some (start, file_size - 1))
        else
          start ← conv_exn (stoull start_str);
          end_ ← conv_exn (stoull end_str);
          Ret (if (end_ <? start) || (file_size <=? start) then None
               else Some (start, if file_size <=? end_ then file_size - 1 else end_))
    end.

Section handlers.
Context `{Collation, Calendar, MySQL, ConnPool, Redis, Posix, JsonLib, Digest} (cfg : StoreConfig).

(** The bucket lookup every handler starts with. *)
Definition with_bucket (bucket_name : string) (k : Z -> SM HttpResponse) : SM HttpResponse :=
  bucket_result ← on_meta (GetBucket bucket_name);
  match bucket_result with
  | Ok b => k (bi_id b)
  | Err s =>
      if bool_decide (code_ s = NoSuchBucket) then refuse (Resp_NotFound "Bucket not found" "")
      else refuse (Resp_InternalError "Failed to get bucket" "")
  end.

(** Both path parameters, or 400. *)
Definition with_params (request : HttpRequest) (k : string -> string -> SM HttpResponse)
    : SM HttpResponse :=
  let bucket_name := GetPathParam "bucket" request in
  let object_key := GetPathParam "object" request in
  if str_empty bucket_name || str_empty object_key
  then refuse (Resp_BadRequest "Bucket and object key are required" "")
  else k bucket_name object_key.

(** Removes a content that has no row or no reference. *)
Definition CleanupUnreferencedCas (cas_key : string) : SM unit :=
  cas_result ← on_meta (GetCasBlob cas_key);
  match cas_result with
  | Err s =>
      if bool_decide (code_ s = NoSuchKey)
      then _ ← on_os (Delete cfg cas_key); mret tt else mret tt
  | Ok info =>
      if ci_ref_count info =? 0 then _ ← on_os (Delete cfg cas_key); mret tt else mret tt
  end.

Definition cleanup_if (may_need_cleanup : bool) (cas_key : string) : SM unit :=
  if may_need_cleanup then CleanupUnreferencedCas cas_key else mret tt.

(** What was stored for a request: the content key, its size, and whether the
    content was not there before. *)
Record StoredBody : Type := MkStored {
  sb_cas_key : string; sb_data_size : Z; sb_may_need_cleanup : bool }.

(** The body of a request goes to the data store, unless the streaming upload
    stored it already and left its key in an internal header. *)
Definition store_body (request : HttpRequest) : SM (option StoredBody) :=
  let body := body_ request in
  let body_size := Z.of_nat (String.length body) in
  let internal_cas := GetHeader "X-Internal-CAS-Key" request in
  let internal_size := GetHeader "X-Internal-Size" request in
  if negb (str_empty internal_cas) then
    mret (Some (MkStored internal_cas (conv_or body_size (stoull internal_size)) false))
  else
    let predicted_cas := SHA256 body in
    existed_before ← ask_os (Exists cfg predicted_cas);
    write_result ← on_os (Write cfg (bytes_of body));
    mret (match write_result with
          | Ok cas_key =>
              Some (MkStored cas_key body_size
                      (negb existed_before && String.eqb cas_key predicted_cas))
          | Err _ => None
          end).

(** [body.empty() && internal_cas.empty()]. *)
Definition no_body (request : HttpRequest) : bool :=
  str_empty (body_ request) && str_empty (GetHeader "X-Internal-CAS-Key" request).

(** [gc && value.has_value()]: hand a content over to the collector. *)
Definition queue_garbage (gc_key : option string) : SM unit :=
  match gc_key with Some k => AddPendingDelete k | None => mret tt end.

(** ** PUT *)

Definition request_hash (request : HttpRequest) (data_size : Z) (expected_sha256 : string) : string :=
  SHA256 (HttpMethodToString (method_ request) +:+ String LF (path_ request +:+
          String LF (to_string data_size +:+ String LF expected_sha256))).

Definition cached_response (record : IdempotencyRecord) : HttpResponse :=
  HttpResponse.SetBody (id_response_body record)
    (HttpResponse.SetHeader "Content-Type" "application/json"
      (SetStatusCode (id_response_status record) new_response)).

(** The idempotency check: an answer, or the request goes on. *)
Definition check_idempotency (idempotency_key hash : string) : SM (option (exn HttpResponse)) :=
  if str_empty idempotency_key then mret None
  else
    idem_result ← on_meta (CheckIdempotency idempotency_key);
    mret (match idem_result with
          | Err _ => Some (Resp_InternalError "Failed to check idempotency" "")
          | Ok None => None
          | Ok (Some record) =>
              if negb (String.eqb (id_request_hash record) hash)
              then Some (Resp_Conflict "Idempotency conflict" "")
              else Some (Ret (cached_response record))
          end).

Definition content_type_of (request : HttpRequest) : string :=
  let c := GetHeader "Content-Type" request in
  if str_empty c then "application/octet-stream" else c.

(** Metadata, garbage and response of a stored body. *)
Definition put_stored (request : HttpRequest) (bucket_name object_key : string) (bucket_id : Z)
    (hash : string) (sb : StoredBody) : SM HttpResponse :=
  let cas_key := sb_cas_key sb in
  let etag := quoted (etag_value cas_key) in
  obj_result ← on_meta (PutObjectWithRefCount bucket_id object_key (i64_of_u64 (sb_data_size sb))
                          etag (content_type_of request) cas_key);
  match obj_result with
  | Err _ =>
      _ ← cleanup_if (sb_may_need_cleanup sb) cas_key;
      refuse (Resp_InternalError "Failed to create object" "")
  | Ok gc_key =>
      _ ← queue_garbage gc_key;
      text ← lift_exn (json_dump (JObj [("bucket", JStr bucket_name); ("key", JStr object_key);
               ("etag", JStr (etag_value cas_key)); ("size", JInt (sb_data_size sb))]));
      let response := HttpResponse.SetBody text
        (HttpResponse.SetHeader "Content-Type" "application/json"
          (HttpResponse.SetHeader "ETag" etag (response_of_code 200))) in
      let idempotency_key := GetHeader "Idempotency-Key" request in
      _ ← (if str_empty idempotency_key then mret tt
           else _ ← on_meta (RecordIdempotency idempotency_key hash (status_code_ response)
                               (HttpResponse.body_ response) 86400); mret tt);
      mret response
  end.

Definition ObjectHandlers_PutObject : HttpHandler StoreW := fun request =>
  with_params request (fun bucket_name object_key =>
  with_bucket bucket_name (fun bucket_id =>
    if no_body request then refuse (Resp_BadRequest "Request body is empty" "")
    else
      stored ← store_body request;
      match stored with
      | None => refuse (Resp_InternalError "Failed to write object data" "")
      | Some sb =>
          let expected_sha256 := GetHeader "X-Content-SHA256" request in
          if negb (str_empty expected_sha256) && negb (String.eqb expected_sha256 (sb_cas_key sb)) then
            _ ← cleanup_if (sb_may_need_cleanup sb) (sb_cas_key sb);
            refuse (Resp_BadRequest "Checksum mismatch" "")
          else
            let hash := request_hash request (sb_data_size sb) expected_sha256 in
            answer ← check_idempotency (GetHeader "Idempotency-Key" request) hash;
            match answer with
            | Some r => refuse r
            | None => put_stored request bucket_name object_key bucket_id hash sb
            end
      end)).

(** ** GET and HEAD *)

Definition with_object (bucket_id : Z) (object_key : string) (k : ObjectInfo -> SM HttpResponse)
    : SM HttpResponse :=
  obj_result ← on_meta (GetObject bucket_id object_key);
  match obj_result with
  | Ok obj => k obj
  | Err s =>
      if bool_decide (code_ s = NoSuchKey) then refuse (Resp_NotFound "Object not found" "")
      else refuse (Resp_InternalError "Failed to get object" "")
  end.

Definition object_headers (obj : ObjectInfo) (length : Z) (r : HttpResponse) : HttpResponse :=
  HttpResponse.SetHeader "Last-Modified" (to_string (oi_created_at obj))
    (HttpResponse.SetHeader "Accept-Ranges" "bytes"
      (HttpResponse.SetHeader "ETag" (oi_etag obj)
        (HttpResponse.SetHeader "Content-Length" (to_string length)
          (HttpResponse.SetHeader "Content-Type" (oi_content_type obj) r)))).

(** The response of an object: the whole file or the given range. *)
Definition object_response (obj : ObjectInfo) (range : option (Z * Z)) : HttpResponse :=
  let size := u64 (oi_size obj) in
  let path := GetFilePath cfg (oi_sha256_hash obj) in
  match range with
  | None => SetFile path size 0 size (object_headers obj size (response_of_code 200))
  | Some (first, last) =>
      let length := u64 (last - first + 1) in
      SetFile path size first length
        (HttpResponse.SetHeader "Content-Range"
           ("bytes " +:+ to_string first +:+ "-" +:+ to_string (u64 (first + length - 1)) +:+ "/" +:+
            to_string (oi_size obj))
           (object_headers obj length (response_of_code 206)))
  end.

Definition ObjectHandlers_GetObject : HttpHandler StoreW := fun request =>
  with_params request (fun bucket_name object_key =>
  with_bucket bucket_name (fun bucket_id =>
  with_object bucket_id object_key (fun obj =>
    exists_ ← ask_os (Exists cfg (oi_sha256_hash obj));
    if negb exists_ then refuse (Resp_InternalError "Object data not found" "")
    else
      let range_header := GetHeader "Range" request in
      if str_empty range_header then mret (object_response obj None)
      else
        range ← lift_exn (ParseRange range_header (u64 (oi_size obj)));
        mret (match range with
              | None => Resp_RangeNotSatisfiable (u64 (oi_size obj))
              | Some r => object_response obj (Some r)
              end)))).

Definition ObjectHandlers_HeadObject : HttpHandler StoreW := fun request =>
  with_params request (fun bucket_name object_key =>
  with_bucket bucket_name (fun bucket_id =>
  with_object bucket_id object_key (fun obj =>
    mret (object_headers obj (oi_size obj) (response_of_code 200))))).

(** ** DELETE *)

Definition ObjectHandlers_DeleteObject : HttpHandler StoreW := fun request =>
  with_params request (fun bucket_name object_key =>
  with_bucket bucket_name (fun bucket_id =>
  with_object bucket_id object_key (fun _ =>
    del_result ← on_meta (DeleteObjectWithRefCount bucket_id object_key);
    match del_result with
    | Err _ => refuse (Resp_InternalError "Failed to delete object" "")
    | Ok gc_key => _ ← queue_garbage gc_key; mret Resp_NoContent
    end))).

(** ** Listing *)

(** [max-keys], 1000 unless a number from 1 to 1000. *)
Definition max_keys_of (s : string) : Z :=
  if str_empty s then 1000
  else match stoi s with
       | Conv n => if (n <? 1) || (1000 <? n) then 1000 else n
       | _ => 1000
       end.

Definition list_entry (obj : ObjectInfo) : Json :=
  JObj [("key", JStr (oi_key obj)); ("size", JInt (oi_size obj)); ("etag", JStr (oi_etag obj));
        ("last_modified", JInt (oi_created_at obj))].

Definition list_json (bucket_name prefix delimiter : string) (max_keys : Z) (l : ListObjectsResult) : Json :=
  let fields := [("name", JStr bucket_name); ("prefix", JStr prefix); ("delimiter", JStr delimiter);
    ("max_keys", JInt max_keys); ("is_truncated", JBool (lo_is_truncated l));
    ("contents", JArr (list_entry <$> lo_objects l));
    ("common_prefixes", JArr (JStr <$> lo_common_prefixes l))] in
  JObj (if str_empty (lo_next_continuation_token l) then fields
        else fields ++ [("next_continuation_token", JStr (lo_next_continuation_token l))]).

Definition ObjectHandlers_ListObjects : HttpHandler StoreW := fun request =>
  let bucket_name := GetPathParam "bucket" request in
  if str_empty bucket_name then refuse (Resp_BadRequest "Bucket name is required" "")
  else
    with_bucket bucket_name (fun bucket_id =>
      let '(prefix, request) := GetQueryParam "prefix" request in
      let '(delimiter, request) := GetQueryParam "delimiter" request in
      let '(start_after, request) := GetQueryParam "start-after" request in
      let '(max_keys_str, request) := GetQueryParam "max-keys" request in
      let max_keys := max_keys_of max_keys_str in
      result ← on_meta (ListObjects bucket_id prefix delimiter start_after max_keys);
      match result with
      | Err _ => refuse (Resp_InternalError "Failed to list objects" "")
      | Ok l =>
          text ← lift_exn (json_dump (list_json bucket_name prefix delimiter max_keys l));
          mret (Resp_OK text)
      end).
End handlers.
