(* ===== verification/MultipartHandlers.v ===== *)
(** * Multipart handlers (src/src/api/handlers/multipart_handlers.h, .cpp)

    Starting an upload, storing a part, completing, aborting and listing. *)
From S2P Require Import Prelude Status Json Crypto Sql MySQLTx MetaStore FileSys DataStore.
From S2P Require Import HttpResponse HttpRequest HttpRouter Uuid Auth World Gc ObjectHandlers.

Open Scope Z_scope.

Definition is_quote (c : ascii) : bool := Ascii.eqb c "034".

(** Drops the quotes of a quoted tag. *)
Definition NormalizeEtagValue (etag : string) : string :=
  if (2 <=? String.length etag)%nat &&
     match etag with String c _ => is_quote c | EmptyString => false end &&
     match str_last etag with Some c => is_quote c | None => false end
  then substr etag 1 (String.length etag - 2)
  else etag.

Section handlers.
Context `{Collation, Calendar, MySQL, ConnPool, Redis, Posix, JsonLib, Digest} (cfg : StoreConfig).

(** The elements of the request's part list, [None] when one lacks its number
    or tag; a value of another type throws. *)
Fixpoint read_client_parts (l : list Json) : exn (option (list (Z * string))) :=
  match l with
  | [] => Ret (Some [])
  | part :: rest =>
      match json_field "part_number" part, json_field "etag" part with
      | Some n, Some e =>
          part_number ← json_get_int n;
          etag ← json_get_string e;
          tail ← read_client_parts rest;
          Ret (match tail with
               | Some t => Some ((part_number, NormalizeEtagValue etag) :: t)
               | None => None
               end)
      | _, _ => Ret None
      end
  end.

(** [std::sort] by part number. Parts with the same number are in an order the
    library leaves open; a request with two such parts is refused below. *)
Definition sort_parts (l : list (Z * string)) : list (Z * string) :=
  order_by (fun a b => fst a <=? fst b) l.

(** The comparison loop: the refusal, or the content keys and the total size. *)
Fixpoint match_parts (client : list (Z * string)) (server : list MultipartPartInfo) (total_size : Z)
    : string + list string * Z :=
  match client, server with
  | (n, e) :: client, p :: server =>
      if negb (n =? pi_part_number p) then inl "Part number mismatch"
      else if negb (String.eqb e (NormalizeEtagValue (pi_etag p)))
      then inl ("Part ETag mismatch for part " +:+ to_string n)
      else
        match match_parts client server (u64 (total_size + pi_size p)) with
        | inl m => inl m
        | inr (keys, size) => inr (pi_sha256_hash p :: keys, size)
        end
  | _, _ => inr ([], total_size)
  end.

(** The upload lookup of the handlers. *)
Definition with_upload (upload_id : string) (k : MultipartUploadInfo -> SM HttpResponse) : SM HttpResponse :=
  upload_result ← on_meta (GetMultipartUpload upload_id);
  match upload_result with
  | Ok upload => k upload
  | Err s =>
      if bool_decide (code_ s = NoSuchUpload) then refuse (Resp_NotFound "Upload not found" "")
      else refuse (Resp_InternalError "Failed to get upload" "")
  end.

Definition with_upload_params (request : HttpRequest) (k : string -> string -> string -> SM HttpResponse)
    : SM HttpResponse :=
  let bucket_name := GetPathParam "bucket" request in
  let object_key := GetPathParam "object" request in
  let upload_id := GetPathParam "upload_id" request in
  if str_empty bucket_name || str_empty object_key || str_empty upload_id
  then refuse (Resp_BadRequest "Missing required parameters" "")
  else k bucket_name object_key upload_id.

(** ** Starting an upload *)

Definition owner_of (request : HttpRequest) : string :=
  let owner_id := GetHeader "X-User-Id" request in
  if str_empty owner_id then "anonymous" else owner_id.

Definition MultipartHandlers_InitUpload : HttpHandler StoreW := fun request =>
  with_params request (fun bucket_name object_key =>
  with_bucket bucket_name (fun bucket_id =>
    upload_id ← Generate;
    w ← GetWorld;
    let expires_at := clock_now w + 24 * 3600 in
    result ← on_meta (CreateMultipartUpload upload_id bucket_id object_key (content_type_of request)
                        (owner_of request) expires_at);
    match result with
    | Err _ => refuse (Resp_InternalError "Failed to initiate upload" "")
    | Ok _ =>
        text ← lift_exn (json_dump (JObj [("upload_id", JStr upload_id); ("bucket", JStr bucket_name);
                 ("key", JStr object_key); ("expires_at", JInt expires_at)]));
        mret (Resp_OK text)
    end)).

(** ** Storing a part *)

(** The part number, [None] outside 1 to 10000, or the refusal of a text that is
    no number. *)
Definition part_number_of (s : string) : string + Z :=
  match stoi s with
  | Conv n =>
      if (n <? 1) || (10000 <? n) then inl "Part number must be between 1 and 10000" else inr n
  | _ => inl "Invalid part number"
  end.

(** The record of a stored part. *)
Definition put_stored_part (upload_id : string) (part_number : Z) (sb : StoredBody) : SM HttpResponse :=
  let cas_key := sb_cas_key sb in
  let etag := quoted (etag_value cas_key) in
  part_result ← on_meta (PutPartWithRefCount upload_id part_number cas_key
                           (i64_of_u64 (sb_data_size sb)) etag);
  match part_result with
  | Err _ =>
      _ ← cleanup_if cfg (sb_may_need_cleanup sb) cas_key;
      refuse (Resp_InternalError "Failed to create part" "")
  | Ok gc_key =>
      _ ← queue_garbage gc_key;
      text ← lift_exn (json_dump (JObj [("etag", JStr (etag_value cas_key));
               ("part_number", JInt part_number); ("size", JInt (sb_data_size sb))]));
      mret (HttpResponse.SetBody text (HttpResponse.SetHeader "ETag" etag (response_of_code 200)))
  end.

Definition MultipartHandlers_UploadPart : HttpHandler StoreW := fun request =>
  let bucket_name := GetPathParam "bucket" request in
  let object_key := GetPathParam "object" request in
  let upload_id := GetPathParam "upload_id" request in
  let part_number_str := GetPathParam "part_number" request in
  if str_empty bucket_name || str_empty object_key || str_empty upload_id || str_empty part_number_str
  then refuse (Resp_BadRequest "Missing required parameters" "")
  else
    match part_number_of part_number_str with
    | inl message => refuse (Resp_BadRequest message "")
    | inr part_number =>
        with_upload upload_id (fun upload =>
          bucket_result ← on_meta (GetBucketById (ui_bucket_id upload));
          if negb (match bucket_result with
                   | Ok b => String.eqb (bi_name b) bucket_name
                   | Err _ => false
                   end)
          then refuse (Resp_BadRequest "Upload ID does not match bucket" "")
          else if negb (String.eqb (ui_key upload) object_key)
          then refuse (Resp_BadRequest "Upload ID does not match object key" "")
          else if no_body request then refuse (Resp_BadRequest "Request body is empty" "")
          else
            stored ← store_body cfg request;
            match stored with
            | None => refuse (Resp_InternalError "Failed to write part data" "")
            | Some sb => put_stored_part upload_id part_number sb
            end)
    end.

(** ** Completing and aborting *)

(** One reference less on each content; those without any are queued. *)
Fixpoint release_parts (cas_keys : list string) : SM unit :=
  match cas_keys with
  | [] => mret tt
  | cas_key :: rest =>
      dec_result ← on_meta (DecrementRefCountAndCheckZero cas_key);
      _ ← match dec_result with Ok true => AddPendingDelete cas_key | _ => mret tt end;
      release_parts rest
  end.

(** From the content keys of the parts on. *)
Definition complete_with (bucket_name object_key upload_id : string) (upload : MultipartUploadInfo)
    (cas_keys : list string) (total_size : Z) : SM HttpResponse :=
  merge_result ← on_os (Merge cfg cas_keys);
  match merge_result with
  | Err _ => refuse (Resp_InternalError "Failed to merge parts" "")
  | Ok final_cas_key =>
      let final_etag := quoted (etag_value final_cas_key) in
      obj_result ← on_meta (PutObjectWithRefCount (ui_bucket_id upload) (ui_key upload)
                              (i64_of_u64 total_size) final_etag (ui_content_type upload) final_cas_key);
      match obj_result with
      | Err _ =>
          _ ← CleanupUnreferencedCas cfg final_cas_key;
          refuse (Resp_InternalError "Failed to create object" "")
      | Ok gc_key =>
          _ ← queue_garbage gc_key;
          _ ← release_parts cas_keys;
          _ ← on_meta (DeleteMultipartUpload upload_id);
          text ← lift_exn (json_dump (JObj [("bucket", JStr bucket_name); ("key", JStr object_key);
                   ("etag", JStr (etag_value final_cas_key)); ("size", JInt total_size)]));
          mret (HttpResponse.SetBody text
                  (HttpResponse.SetHeader "ETag" final_etag (response_of_code 200)))
      end
  end.

(** The part list of the body: a refusal, or the sorted parts. *)
Definition client_parts_of (body : string) : exn (string + list (Z * string)) :=
  match json_parse body with
  | Throw _ => Ret (inl "Invalid JSON body")
  | Ret j =>
      match json_field "parts" j with
      | Some (JArr l) =>
          parts ← read_client_parts l;
          Ret (match parts with
               | None => inl "Invalid part format"
               | Some parts => inr (sort_parts parts)
               end)
      | _ => Ret (inl "Missing parts array")
      end
  end.

Definition MultipartHandlers_CompleteUpload : HttpHandler StoreW := fun request =>
  with_upload_params request (fun bucket_name object_key upload_id =>
  with_upload upload_id (fun upload =>
    client ← lift_exn (client_parts_of (body_ request));
    match client with
    | inl message => refuse (Resp_BadRequest message "")
    | inr client_parts =>
        parts_result ← on_meta (ListParts upload_id 0 10000);
        match parts_result with
        | Err _ => refuse (Resp_InternalError "Failed to list parts" "")
        | Ok l =>
            if negb (length client_parts =? length (lp_parts l))%nat
            then refuse (Resp_BadRequest "Part count mismatch" "")
            else
              match match_parts client_parts (lp_parts l) 0 with
              | inl message => refuse (Resp_BadRequest message "")
              | inr (cas_keys, total_size) =>
                  complete_with bucket_name object_key upload_id upload cas_keys total_size
              end
        end
    end)).

Definition MultipartHandlers_AbortUpload : HttpHandler StoreW := fun request =>
  with_upload_params request (fun bucket_name object_key upload_id =>
  with_upload upload_id (fun _ =>
    parts_result ← on_meta (ListParts upload_id 0 10000);
    _ ← match parts_result with
        | Ok l => release_parts (pi_sha256_hash <$> lp_parts l)
        | Err _ => mret tt
        end;
    status ← on_meta (DeleteMultipartUpload upload_id);
    if status_ok status then mret Resp_NoContent
    else refuse (Resp_InternalError "Failed to abort upload" ""))).

(** ** Listing parts *)

Definition max_parts_of (s : string) : Z :=
  if str_empty s then 1000
  else match stoi s with
       | Conv n => if (n <? 1) || (1000 <? n) then 1000 else n
       | _ => 1000
       end.

Definition part_entry (p : MultipartPartInfo) : Json :=
  JObj [("part_number", JInt (pi_part_number p)); ("etag", JStr (NormalizeEtagValue (pi_etag p)));
        ("size", JInt (pi_size p)); ("last_modified", JInt (pi_created_at p))].

Definition MultipartHandlers_ListParts : HttpHandler StoreW := fun request =>
  with_upload_params request (fun bucket_name object_key upload_id =>
  with_upload upload_id (fun _ =>
    let '(marker_str, request) := GetQueryParam "part-number-marker" request in
    let '(max_parts_str, request) := GetQueryParam "max-parts" request in
    let part_number_marker := if str_empty marker_str then 0 else conv_or 0 (stoi marker_str) in
    let max_parts := max_parts_of max_parts_str in
    result ← on_meta (ListParts upload_id part_number_marker max_parts);
    match result with
    | Err _ => refuse (Resp_InternalError "Failed to list parts" "")
    | Ok l =>
        let fields := [("bucket", JStr bucket_name); ("key", JStr object_key);
          ("upload_id", JStr upload_id); ("parts", JArr (part_entry <$> lp_parts l));
          ("is_truncated", JBool (lp_is_truncated l)); ("max_parts", JInt max_parts)] in
        text ← lift_exn (json_dump (JObj (if lp_is_truncated l
                 then fields ++ [("next_part_number_marker", JInt (lp_next_part_number_marker l))]
                 else fields)));
        mret (Resp_OK text)
    end)).
End handlers.
