(* ===== verification/BucketHandlers.v ===== *)
(** * Bucket and health handlers (src/src/api/handlers/bucket_handlers.h, .cpp,
    src/src/api/handlers/health_handlers.h, .cpp) *)
From S2P Require Import Prelude Status Json Crypto Sql MySQLTx MetaStore FileSys HttpResponse.
From S2P Require Import HttpRequest HttpRouter Uuid Auth World ObjectHandlers MultipartHandlers.

Open Scope Z_scope.

Section handlers.
Context `{Collation, Calendar, MySQL, ConnPool, Redis, Posix, JsonLib, Digest}.

Definition with_bucket_name (request : HttpRequest) (k : string -> SM HttpResponse) : SM HttpResponse :=
  let bucket_name := GetPathParam "bucket" request in
  if str_empty bucket_name then refuse (Resp_BadRequest "Bucket name is required" "")
  else k bucket_name.

Definition BucketHandlers_CreateBucket : HttpHandler StoreW := fun request =>
  with_bucket_name request (fun bucket_name =>
    if (String.length bucket_name <? 3)%nat || (63 <? String.length bucket_name)%nat
    then refuse (Resp_BadRequest "Bucket name must be between 3 and 63 characters" "")
    else
      result ← on_meta (CreateBucket bucket_name (owner_of request) "default" "private");
      match result with
      | Err s =>
          if bool_decide (code_ s = BucketAlreadyExists)
          then refuse (Resp_Conflict "Bucket already exists" "")
          else refuse (Resp_InternalError "Failed to create bucket" "")
      | Ok _ =>
          text ← lift_exn (json_dump (JObj [("bucket", JStr bucket_name); ("created", JBool true)]));
          mret (Resp_Created text)
      end).

Definition bucket_info (bucket_name : string) (k : BucketInfo -> SM HttpResponse) : SM HttpResponse :=
  result ← on_meta (GetBucket bucket_name);
  match result with
  | Ok b => k b
  | Err s =>
      if bool_decide (code_ s = NoSuchBucket) then refuse (Resp_NotFound "Bucket not found" "")
      else refuse (Resp_InternalError "Failed to get bucket" "")
  end.

Definition BucketHandlers_GetBucket : HttpHandler StoreW := fun request =>
  with_bucket_name request (fun bucket_name =>
  bucket_info bucket_name (fun bucket =>
    text ← lift_exn (json_dump (JObj [("name", JStr (bi_name bucket));
             ("owner_id", JStr (bi_owner_id bucket)); ("region", JStr (bi_region bucket));
             ("created_at", JInt (bi_created_at bucket))]));
    mret (Resp_OK text))).

Definition BucketHandlers_DeleteBucket : HttpHandler StoreW := fun request =>
  with_bucket_name request (fun bucket_name =>
  bucket_info bucket_name (fun bucket =>
    empty_result ← on_meta (IsBucketEmpty (bi_id bucket));
    match empty_result with
    | Err _ => refuse (Resp_InternalError "Failed to check bucket" "")
    | Ok false => refuse (Resp_Conflict "Bucket is not empty" "")
    | Ok true =>
        status ← on_meta (DeleteBucket bucket_name);
        if status_ok status then mret Resp_NoContent
        else refuse (Resp_InternalError "Failed to delete bucket" "")
    end)).

Definition BucketHandlers_ListBuckets : HttpHandler StoreW := fun request =>
  result ← on_meta (ListBuckets (owner_of request));
  match result with
  | Err _ => refuse (Resp_InternalError "Failed to list buckets" "")
  | Ok l =>
      text ← lift_exn (json_dump (JObj [("buckets", JArr ((fun b =>
               JObj [("name", JStr (bi_name b)); ("created_at", JInt (bi_created_at b))]) <$> l))]));
      mret (Resp_OK text)
  end.

(** ** Health *)

Definition HealthHandlers_HealthCheck : HttpHandler StoreW := fun request =>
  text ← lift_exn (json_dump (JObj [("status", JStr "healthy"); ("service", JStr "minis3");
           ("version", JStr "1.0.0")]));
  mret (Resp_OK text).

Definition HealthHandlers_ReadyCheck : HttpHandler StoreW := fun request =>
  text ← lift_exn (json_dump (JObj [("status", JStr "ready")]));
  mret (Resp_OK text).

(** The exported text of the metrics registry is an argument. *)
Definition HealthHandlers_Metrics (export : string) : HttpHandler StoreW := fun request =>
  mret (HttpResponse.SetBody export
    (HttpResponse.SetHeader "Content-Type" "text/plain; version=0.0.4; charset=utf-8"
      (response_of_code 200))).
End handlers.
