(* ===== verification/Server.v ===== *)
(** * The server (src/src/server/server.h, .cpp)

    The routing table, the callbacks of the connections with the streaming of
    request bodies into write sessions, and one round of a loop over the
    connections it owns. *)
From S2P Require Import Prelude Metrics Logging Status ByteBuffer Json Crypto Sql MySQLTx FileSys DataStore World.
From S2P Require Import TimerWheel EventLoop HttpResponse HttpRequest HttpParser HttpRouter.
From S2P Require Import HttpConnection Uuid Auth Trace Gc.
From S2P Require Import ObjectHandlers MultipartHandlers BucketHandlers.

Open Scope Z_scope.

Record ServerConfig : Type := MkServerConfig {
  storage_ : StoreConfig;
  auth_enabled_ : bool;
  static_tokens_ : list string;
  connection_idle_timeout_ : Z;
  max_body_ : Z
}.

(** A streamed upload of a connection; [uc_session] is [None] for a null pointer. *)
Record UploadContext : Type := MkUpload {
  uc_session : option WriteSession;
  uc_expected_sha256 : string;
  uc_bytes_written : Z;
  uc_streaming : bool
}.

Definition new_upload : UploadContext := MkUpload None "" 0 false.

(** The store, the loop, [uploads_] by descriptor, [connections_], the connection
    objects by name, and the metrics and the access log. *)
Record ServerW `{MySQL, ConnPool, Redis, Posix} : Type := MkServerW {
  sv_store : StoreW;
  sv_loop : EventLoop LoopTask;
  sv_uploads : gmap Z UploadContext;
  sv_connections : gset nat;
  sv_conns : gmap nat HttpConnection;
  sv_next : nat;
  sv_log : ServerLog
}.

Section server.
Context `{Collation, Calendar, MySQL, ConnPool, Redis, Posix, JsonLib, Digest, HeaderOrder}.
Context (cfg : ServerConfig) (metrics : string).

Definition set_store (s : StoreW) (w : ServerW) : ServerW :=
  MkServerW _ _ _ _ s (sv_loop w) (sv_uploads w) (sv_connections w) (sv_conns w) (sv_next w) (sv_log w).
Definition set_sv_loop (l : EventLoop LoopTask) (w : ServerW) : ServerW :=
  MkServerW _ _ _ _ (sv_store w) l (sv_uploads w) (sv_connections w) (sv_conns w) (sv_next w) (sv_log w).
Definition set_sv_uploads (u : gmap Z UploadContext) (w : ServerW) : ServerW :=
  MkServerW _ _ _ _ (sv_store w) (sv_loop w) u (sv_connections w) (sv_conns w) (sv_next w) (sv_log w).
Definition set_conns (live : gset nat) (cs : gmap nat HttpConnection) (next : nat) (w : ServerW) : ServerW :=
  MkServerW _ _ _ _ (sv_store w) (sv_loop w) (sv_uploads w) live cs next (sv_log w).
Definition set_sv_log (g : ServerLog) (w : ServerW) : ServerW :=
  MkServerW _ _ _ _ (sv_store w) (sv_loop w) (sv_uploads w) (sv_connections w) (sv_conns w) (sv_next w) g.

#[export] Instance server_loop : HasLoop ServerW LoopTask.
Proof. refine {| loop_of := sv_loop; set_loop := set_sv_loop |}; by intros; try destruct w. Defined.

(** [::open] for sending. *)
#[export] Instance server_files : FileHost ServerW := fun path w =>
  let '(r, s) := sys_open_read path (sw_os (sv_store w)) in
  let w' := set_store (set_os s (sv_store w)) w in
  match r with
  | SysOk _ => (Opened (default [] (os_file s path)), w')
  | _ => (if bool_decide (os_file s path = None) then OpenNoEntry else OpenFailed, w')
  end.

Definition on_store {A} (m : SM A) : M ServerW A := fun w =>
  let '(r, s) := m (sv_store w) in (r, set_store s w).

Definition on_log {A} (m : M ServerLog A) : M ServerW A := fun w =>
  let '(r, g) := m (sv_log w) in (r, set_sv_log g w).

Definition count (f : Metrics -> Metrics) (w : ServerW) : ServerW := set_sv_log (set_metrics f (sv_log w)) w.

(** ** Routes *)

Definition route_table : list (HttpMethod * string * HttpHandler StoreW) := [
  (GET, "/healthz", HealthHandlers_HealthCheck);
  (GET, "/readyz", HealthHandlers_ReadyCheck);
  (GET, "/metrics", HealthHandlers_Metrics metrics);
  (PUT, "/buckets/{bucket}", BucketHandlers_CreateBucket);
  (GET, "/buckets/{bucket}", BucketHandlers_GetBucket);
  (DELETE, "/buckets/{bucket}", BucketHandlers_DeleteBucket);
  (GET, "/buckets", BucketHandlers_ListBuckets);
  (PUT, "/buckets/{bucket}/objects/{object}", ObjectHandlers_PutObject (storage_ cfg));
  (GET, "/buckets/{bucket}/objects/{object}", ObjectHandlers_GetObject (storage_ cfg));
  (HEAD, "/buckets/{bucket}/objects/{object}", ObjectHandlers_HeadObject);
  (DELETE, "/buckets/{bucket}/objects/{object}", ObjectHandlers_DeleteObject);
  (GET, "/buckets/{bucket}/objects", ObjectHandlers_ListObjects);
  (POST, "/buckets/{bucket}/multipart/{object}", MultipartHandlers_InitUpload);
  (PUT, "/buckets/{bucket}/multipart/{object}/{upload_id}/parts/{part_number}",
     MultipartHandlers_UploadPart (storage_ cfg));
  (POST, "/buckets/{bucket}/multipart/{object}/{upload_id}/complete",
     MultipartHandlers_CompleteUpload (storage_ cfg));
  (DELETE, "/buckets/{bucket}/multipart/{object}/{upload_id}", MultipartHandlers_AbortUpload);
  (POST, "/presign", CreatePresignUrl (static_tokens_ cfg)) ].

Fixpoint add_routes (l : list (HttpMethod * string * HttpHandler StoreW)) (r : HttpRouter StoreW)
    : exn (HttpRouter StoreW) :=
  match l with
  | [] => Ret r
  | (m, pattern, h) :: l => r ← Route m pattern h r; add_routes l r
  end.

Definition SetupRoutes : exn (HttpRouter StoreW) :=
  let r := Use TraceMiddleware_Handle (new_router StoreW) in
  let r := if auth_enabled_ cfg then Use (AuthMiddleware_Handle (static_tokens_ cfg)) r else r in
  r ← add_routes route_table r;
  Ret (SetNotFoundHandler (fun req =>
    lift_exn (Resp_NotFound ("Resource not found: " +:+ path_ req) "")) r).

(** ** Callbacks of a connection *)

Context (router : HttpRouter StoreW).

Definition ShouldStreamUpload (request : HttpRequest) : bool :=
  if negb (bool_decide (method_ request = PUT)) then false
  else str_contains "/objects/" (path_ request) || str_contains "/multipart/" (path_ request).

(** The destructor of a context: an unfinished session removes its file. *)
Definition drop_upload (ctx : UploadContext) : SM unit :=
  match uc_session ctx with
  | Some ws => on_os (destroy_session ws)
  | None => mret tt
  end.

Definition OnConnectionClose : CM ServerW unit :=
  c ← get_conn;
  on_world (fun w =>
    let w1 := count DecrementActiveConnections
      (set_conns (sv_connections w ∖ {[conn_id_ c]}) (sv_conns w) (sv_next w) w) in
    match sv_uploads w !! sockfd_ c with
    | Some ctx => on_store (drop_upload ctx) (set_sv_uploads (delete (sockfd_ c) (sv_uploads w)) w1)
    | None => (Ret tt, w1)
    end).

(** Takes the upload of the descriptor out of the table. *)
Definition take_upload (fd : Z) : M ServerW UploadContext := fun w =>
  (Ret (default new_upload (sv_uploads w !! fd)), set_sv_uploads (delete fd (sv_uploads w)) w).

(** The commit of a streamed body: [Some] refusal, or none with the two internal
    headers set. *)
Definition commit_upload : CM ServerW (option HttpResponse) :=
  c ← get_conn;
  ctx ← on_world (take_upload (sockfd_ c));
  match uc_session ctx with
  | Some ws =>
      if uc_streaming ctx then
        commit_result ← on_world (on_store (on_os (CommitWrite (storage_ cfg) ws (uc_expected_sha256 ctx))));
        match commit_result with
        | Err s =>
            c ← get_conn;
            resp ← lift_exn (Resp_BadRequest (message_ s) (trace_id_ (Request c)));
            mret (Some resp)
        | Ok cas_key =>
            _ ← mod_conn (fun c => set_conn_request
                  (SetHeader "X-Internal-Size" (to_string (uc_bytes_written ctx))
                    (SetHeader "X-Internal-CAS-Key" cas_key (Request c))) c);
            mret None
        end
      else _ ← on_world (on_store (drop_upload ctx)); mret None
  | None => mret None
  end.

(** The request goes to the router by reference: what the router, the middlewares and
    the handlers change in it stays in the connection. *)
Definition OnRequest : CM ServerW unit :=
  refused ← commit_upload;
  match refused with
  | Some resp => Send resp
  | None =>
      c ← get_conn;
      '(request, response) ← on_world (on_store (Handle router (Request c)));
      _ ← mod_conn (set_conn_request request);
      _ ← on_world (on_log (Logging_AccessLog request response));
      Send response
  end.

Definition null_session : string := "null session".

Definition put_upload (fd : Z) (ctx : UploadContext) : M ServerW unit := fun w =>
  (Ret tt, set_sv_uploads (<[fd := ctx]> (sv_uploads w)) w).

(** The chunk goes to the session of the context. *)
Definition write_chunk (fd : Z) (ctx : UploadContext) (data : list ascii) : CM ServerW unit :=
  match uc_session ctx with
  | None => lift_exn (Throw null_session)
  | Some ws =>
      '(status, ws) ← on_world (on_store (on_os (session_Write ws data)));
      if status_ok status then
        on_world (put_upload fd (MkUpload (Some ws) (uc_expected_sha256 ctx)
          (u64 (uc_bytes_written ctx + Z.of_nat (length data))) (uc_streaming ctx)))
      else
        _ ← on_world (put_upload fd (MkUpload (Some ws) (uc_expected_sha256 ctx)
              (uc_bytes_written ctx) (uc_streaming ctx)));
        c ← get_conn;
        resp ← lift_exn (Resp_InternalError "Failed to write upload" (trace_id_ (Request c)));
        _ ← Send resp;
        ForceClose
  end.

Definition OnBodyData (data : list ascii) : CM ServerW unit :=
  c ← get_conn;
  if negb (ShouldStreamUpload (Request c))
  then mod_conn (fun c => set_conn_request (AppendBody (string_of data) (Request c)) c)
  else
    let fd := sockfd_ c in
    ctx ← on_world (fun w => (Ret (default new_upload (sv_uploads w !! fd)), w));
    if uc_streaming ctx then write_chunk fd ctx data
    else
      let expected := GetHeader "X-Content-SHA256" (Request c) in
      begin_result ← on_world (on_store (on_os (BeginWrite (storage_ cfg))));
      match begin_result with
      | Err _ =>
          _ ← on_world (put_upload fd (MkUpload (uc_session ctx) expected (uc_bytes_written ctx) true));
          resp ← lift_exn (Resp_InternalError "Failed to start upload" (trace_id_ (Request c)));
          _ ← Send resp;
          ForceClose
      | Ok ws => write_chunk fd (MkUpload (Some ws) expected (uc_bytes_written ctx) true) data
      end.

Definition callbacks : Callbacks ServerW := MkCallbacks OnConnectionClose OnRequest OnBodyData.

(** ** A loop and its connections *)

(** Runs a handler of a live connection; a connection out of [connections_] is
    gone when its handler returns. *)
Definition on_connection (id : nat) (op : CM ServerW unit) : M ServerW unit := fun w =>
  match sv_conns w !! id with
  | None => (Ret tt, w)
  | Some c =>
      let '(r, (c', w')) := op (c, w) in
      (r, set_conns (sv_connections w')
            (if decide (id ∈ sv_connections w') then <[id := c']> (sv_conns w') else delete id (sv_conns w'))
            (sv_next w') w')
  end.

(** [OnNewConnection]. *)
Definition OnNewConnection (sockfd : Z) (peer_addr : string) : M ServerW unit := fun w =>
  let id := sv_next w in
  let c := SetMaxBodyBytes (max_body_ cfg) (new_connection id sockfd peer_addr) in
  on_connection id (_ ← SetIdleTimeout (connection_idle_timeout_ cfg); Start)
    (count IncrementActiveConnections (set_conns ({[id]} ∪ sv_connections w) (<[id := c]> (sv_conns w)) (S id) w)).

Definition run_task (t : LoopTask) : M ServerW unit :=
  match t with
  | IdleTimeout id => on_connection id ForceClose
  | CloseTask id => on_connection id (HandleClose callbacks)
  end.

(** What [epoll_wait] reports. *)
Inductive server_event : Type :=
  | Accepted (sockfd : Z) (peer_addr : string)
  | Ready (conn : nat) (revents : Z) (i : io)
  | TimerFd.

Definition handle_event (e : server_event) : M ServerW unit :=
  match e with
  | Accepted sockfd peer => OnNewConnection sockfd peer
  | Ready id revents i => on_connection id (HandleEvent callbacks revents i)
  | TimerFd => HandleTimerTick run_task
  end.

Fixpoint handle_events (es : list server_event) : M ServerW unit :=
  match es with
  | [] => mret tt
  | e :: es => _ ← handle_event e; handle_events es
  end.

(** One iteration of [EventLoop::Loop]. *)
Definition loop_round (es : list server_event) : M ServerW unit :=
  _ ← handle_events es; DoPendingFunctors run_task.
End server.
