(* ===== verification/Startup.v ===== *)
(** * Starting the process (src/src/server/server.cpp: [Server::Init]; the
    constructors of src/src/net/epoll; src/cmd/minis3_server/main.cpp)

    The arguments of the program, its configuration, the parts [Init] makes in their
    order, and the exit code. What the operating system answers is the class
    [BootCalls]. *)
From S2P Require Import Prelude Metrics Logging MySQLPool Status Json Crypto Sql MySQLTx FileSys DataStore World RedisCache Config.
From S2P Require Import TimerWheel EventLoop Acceptor HttpRequest HttpResponse HttpRouter HttpConnection Uuid Gc Server.


Open Scope Z_scope.

(** [socket], [inet_pton], [bind] with the text of its error, [open] of [/dev/null],
    [epoll_create1], [eventfd] and [timerfd_create]; the directories and the files of
    the log, which may throw. *)
Class BootCalls : Type := {
  boot_socket : bool;
  boot_pton : string -> bool;
  boot_bind : string -> Z -> option string;
  boot_null : option Z;
  boot_epoll : bool;
  boot_eventfd : bool;
  boot_timerfd : bool;
  boot_log_dir : string -> exn unit;
  boot_log_file : string -> exn unit
}.

Section constructors.
Context `{BootCalls}.

(** [EventLoop::EventLoop], with the constructor of its [Notifier]; [in_thread] tells
    whether the thread has a loop. *)
Definition make_EventLoop (F : Type) (in_thread : bool) : exn (EventLoop F) :=
  if in_thread then Throw "Another EventLoop exists in this thread"
  else if negb boot_epoll then Throw "Failed to create epoll fd"
  else if negb boot_eventfd then Throw "Failed to create eventfd"
  else if negb boot_timerfd then Throw "Failed to create timerfd"
  else Ret (new_loop F).

(** [Acceptor::Acceptor]. *)
Definition make_Acceptor (ip : string) (port : Z) : exn Acceptor :=
  if negb boot_socket then Throw "Failed to create socket"
  else if negb (str_empty ip || String.eqb ip "0.0.0.0") && negb (boot_pton ip) then Throw ("Invalid IP address: " +:+ ip)
  else match boot_bind ip port with
       | Some e => Throw ("Failed to bind to " +:+ ip +:+ ":" +:+ to_string port +:+ " - " +:+ e)
       | None => Ret (MkAcceptor false boot_null [])
       end.
End constructors.

(** The parts of the server; a null pointer is [None]. [meta_store_] tells whether it
    has a cache, [gc_] holds the interval and the size of a batch; [log_] is the
    logger, which is the process's. *)
Record ServerParts `{RedisServer, MySQL, ConnPool, Redis, Posix} : Type := MkServerParts {
  mysql_pool_ : option MySQLPool.MySQLPool;
  meta_store_ : option bool;
  redis_cache_ : option RedisCache;
  data_store_ : option StoreConfig;
  gc_ : option (Z * Z);
  main_loop_ : option (EventLoop LoopTask);
  acceptor_ : option Acceptor;
  router_ : HttpRouter StoreW;
  log_ : Logger
}.

Section init.
Context `{Collation, Calendar, RedisServer, MySQL, ConnPool, Redis, Posix, JsonLib, Digest, BootCalls}.
Context (config : Config.Config) (metrics : string).
Implicit Types (p : ServerParts) (s : os).

(** A new [Server]. *)
Definition new_parts : ServerParts := MkServerParts _ _ _ _ _ None None None None None None None (new_router StoreW) new_logger.

Definition put_pool x p : ServerParts :=
  MkServerParts _ _ _ _ _ (Some x) (meta_store_ p) (redis_cache_ p) (data_store_ p) (gc_ p) (main_loop_ p) (acceptor_ p) (router_ p) (log_ p).
Definition put_meta cached cache p : ServerParts :=
  MkServerParts _ _ _ _ _ (mysql_pool_ p) (Some cached) cache (data_store_ p) (gc_ p) (main_loop_ p) (acceptor_ p) (router_ p) (log_ p).
Definition put_data x p : ServerParts :=
  MkServerParts _ _ _ _ _ (mysql_pool_ p) (meta_store_ p) (redis_cache_ p) (Some x) (gc_ p) (main_loop_ p) (acceptor_ p) (router_ p) (log_ p).
Definition put_gc x p : ServerParts :=
  MkServerParts _ _ _ _ _ (mysql_pool_ p) (meta_store_ p) (redis_cache_ p) (data_store_ p) x (main_loop_ p) (acceptor_ p) (router_ p) (log_ p).
Definition put_loop x p : ServerParts :=
  MkServerParts _ _ _ _ _ (mysql_pool_ p) (meta_store_ p) (redis_cache_ p) (data_store_ p) (gc_ p) (Some x) (acceptor_ p) (router_ p) (log_ p).
Definition put_acceptor x p : ServerParts :=
  MkServerParts _ _ _ _ _ (mysql_pool_ p) (meta_store_ p) (redis_cache_ p) (data_store_ p) (gc_ p) (main_loop_ p) (Some x) (router_ p) (log_ p).
Definition put_router x p : ServerParts :=
  MkServerParts _ _ _ _ _ (mysql_pool_ p) (meta_store_ p) (redis_cache_ p) (data_store_ p) (gc_ p) (main_loop_ p) (acceptor_ p) x (log_ p).
Definition put_log x p : ServerParts :=
  MkServerParts _ _ _ _ _ (mysql_pool_ p) (meta_store_ p) (redis_cache_ p) (data_store_ p) (gc_ p) (main_loop_ p) (acceptor_ p) (router_ p) x.

(** What the parts read of the configuration. *)
Definition data_config : StoreConfig :=
  DataStore.MkConfig (st_data_dir (cfg_storage config)) (st_tmp_dir (cfg_storage config))
    (ParseSyncMode (st_sync_mode (cfg_storage config))).

Definition server_config : Server.ServerConfig :=
  Server.MkServerConfig data_config (au_enabled (cfg_auth config)) (au_static_tokens (cfg_auth config))
    (li_connection_idle_timeout (cfg_limits config)) (li_max_body_bytes (cfg_limits config)).

(** The metadata store and its optional cache: a cache that cannot be initialised is
    dropped and the server goes on without. *)
Definition init_redis (wire : rs) p : ServerParts :=
  if redis_enabled_ (cfg_redis config) then
    let '(st, cache) := RedisCache.Init (MkRedisCache _ (cfg_redis config) false wire) in
    if status_ok st then put_meta true (Some cache) p else put_meta false None p
  else put_meta false None p.

(** Steps 5 to 8: the collector, the loop, the acceptor and the routes. *)
Definition init_network p : exn Status * ServerParts :=
  let p := put_gc (if gc_enabled (cfg_gc config)
                   then Some (gc_interval_seconds (cfg_gc config), gc_batch_size (cfg_gc config)) else None) p in
  match make_EventLoop LoopTask false with
  | Throw e => (Throw e, p)
  | Ret loop =>
      let p := put_loop loop p in
      match make_Acceptor (sc_listen_ip (cfg_server config)) (sc_listen_port (cfg_server config)) with
      | Throw e => (Throw e, p)
      | Ret a =>
          let p := put_acceptor a p in
          match SetupRoutes server_config metrics with
          | Throw e => (Throw e, p)
          | Ret r => (Ret Status_OK, put_router r p)
          end
      end
  end.

(** Steps 2 to 8; [accepts] and [wire] are the two servers it connects to. *)
Definition init_stores (accepts : nat -> bool) (wire : rs) p s : exn Status * ServerParts * os :=
  let '(ok, pool) := MySQLPool.Init accepts (MySQLPool.new_pool (Z.to_nat (my_pool_size (cfg_mysql config)))) in
  let p := put_pool pool p in
  if negb ok then (Ret (Status_Error DatabaseError "Failed to initialize MySQL pool"), p, s)
  else
    let p := put_data data_config (init_redis wire p) in
    match DataStore.Init data_config s with
    | (Throw e, s) => (Throw e, p, s)
    | (Ret st, s) => if negb (status_ok st) then (Ret st, p, s) else (init_network p, s)
    end.

(** [Server::Init]. *)
Definition Server_Init (accepts : nat -> bool) (wire : rs) s : exn Status * ServerParts * os :=
  let log := cfg_log config in
  match Logger_Init boot_log_dir boot_log_file (lo_level log) (lo_access_log_path log) (lo_error_log_path log)
          (lo_json_format log) new_logger with
  | Throw e => (Throw e, new_parts, s)
  | Ret l => init_stores accepts wire (put_log l new_parts) s
  end.
End init.

(** ** The program *)

(** What the arguments ask for. *)
Inductive Arguments_ : Type := ShowHelp | ShowVersion | UnknownOption (arg : string) | RunServer (config_path : string).

Fixpoint parse_arguments (config_path : string) (argv : list string) : Arguments_ :=
  match argv with
  | [] => RunServer config_path
  | arg :: argv =>
      if String.eqb arg "-h" || String.eqb arg "--help" then ShowHelp
      else if String.eqb arg "-v" || String.eqb arg "--version" then ShowVersion
      else match arg with
           | String c _ => if Ascii.eqb c "-" then UnknownOption arg else parse_arguments arg argv
           | EmptyString => parse_arguments arg argv
           end
  end.

Section main.
Context `{Collation, Calendar, RedisServer, MySQL, ConnPool, Redis, Posix, JsonLib, Digest, BootCalls, YamlLib}.
Context (metrics : string) (read_file : string -> option string) (accepts : nat -> bool) (wire : rs).
(** [Server::Start], which returns after a [Stop] or throws. *)
Context (start : ServerParts -> os -> exn unit).

(** [main], without the signals: the exit code. *)
Definition main (argv : list string) (s : os) : Z :=
  match parse_arguments "/etc/minis3/server.yaml" argv with
  | ShowHelp | ShowVersion => 0
  | UnknownOption _ => 1
  | RunServer config_path =>
      match LoadFromFile config_path (read_file config_path) with
      | Throw _ => 1
      | Ret config =>
          match Server_Init config metrics accepts wire s with
          | (Throw _, _, _) => 1
          | (Ret st, p, s) =>
              if negb (status_ok st) then 1
              else match start p s with Throw _ => 1 | Ret _ => 0 end
          end
      end
  end.
End main.

(** ** What [Init] leaves *)

Definition exn_value {A} (x : exn A) : option A := match x with Ret a => Some a | Throw _ => None end.

Section properties.
Context `{HC : Collation, HCal : Calendar, HRS : RedisServer, HS : MySQL, HP : ConnPool, HR : Redis, HX : Posix}.
Context `{HJ : JsonLib, HD : Digest, HB : BootCalls}.
Context (config : Config.Config) (metrics : string).
Implicit Types (p : ServerParts) (s : os).

(** The routes are added when their patterns compile, and those of the table do. *)
Lemma add_routes_ret l (r : HttpRouter StoreW) :
  Forall (fun '(_, pattern, _) => is_Some (exn_value (CompilePattern pattern))) l -> exists r', add_routes l r = Ret r'.
Proof.
  intros Hl. revert r. induction Hl as [|[[m pattern] h] l Hp _ IH]; intros r; [by exists r|].
  cbn [add_routes]. unfold Route. destruct (CompilePattern pattern) as [[fs ns]|e]; [apply IH|by destruct Hp].
Qed.

Lemma SetupRoutes_ret cfg : exists r, SetupRoutes cfg metrics = Ret r.
Proof.
  unfold SetupRoutes. edestruct (add_routes_ret (route_table cfg metrics)) as [r Hr].
  { unfold route_table. repeat (apply Forall_cons_2; [by eexists; vm_compute|]). apply Forall_nil_2. }
  rewrite Hr. by eexists.
Qed.

(** The same server, apart from the cache. *)
Definition same_but_cache p p' : Prop :=
  mysql_pool_ p' = mysql_pool_ p /\ data_store_ p' = data_store_ p /\ gc_ p' = gc_ p /\
  main_loop_ p' = main_loop_ p /\ acceptor_ p' = acceptor_ p /\ router_ p' = router_ p /\ log_ p' = log_ p.

Lemma init_redis_same wire p : same_but_cache p (init_redis config wire p).
Proof.
  unfold init_redis. destruct (redis_enabled_ (cfg_redis config)); [|done].
  destruct (RedisCache.Init _) as [st cache]. by destruct (status_ok st).
Qed.

Lemma init_network_same p p' :
  same_but_cache p p' ->
  fst (init_network config metrics p') = fst (init_network config metrics p) /\
  same_but_cache (snd (init_network config metrics p)) (snd (init_network config metrics p')).
Proof.
  intros (E1 & E2 & E3 & E4 & E5 & E6 & E7). unfold init_network, same_but_cache.
  destruct (make_EventLoop LoopTask false); [|by cbn].
  destruct (make_Acceptor _ _); [|by cbn]. destruct (SetupRoutes _ _); by cbn.
Qed.

Definition result_of (x : exn Status * ServerParts * os) : exn Status := fst (fst x).
Definition parts_of (x : exn Status * ServerParts * os) : ServerParts := snd (fst x).

(** Whatever Redis does, the result of [Init] and the server but for its cache are
    the same. *)
Theorem redis_is_optional accepts wire wire' s :
  result_of (Server_Init config metrics accepts wire' s) = result_of (Server_Init config metrics accepts wire s) /\
  snd (Server_Init config metrics accepts wire' s) = snd (Server_Init config metrics accepts wire s) /\
  same_but_cache (parts_of (Server_Init config metrics accepts wire s)) (parts_of (Server_Init config metrics accepts wire' s)).
Proof.
  unfold Server_Init, result_of, parts_of. destruct (Logger_Init _ _ _ _ _ _ _) as [l|e]; [|by split_and!].
  unfold init_stores. destruct (MySQLPool.Init _ _) as [[] pool]; cbn [negb]; [|by split_and!].
  set (p := put_pool pool _).
  assert (Hp : same_but_cache (put_data (data_config config) (init_redis config wire p)) (put_data (data_config config) (init_redis config wire' p))).
  { destruct (init_redis_same wire p) as (? & ? & ? & ? & ? & ? & ?), (init_redis_same wire' p) as (? & ? & ? & ? & ? & ? & ?).
    unfold same_but_cache. cbn. split_and!; congruence. }
  destruct (DataStore.Init (data_config config) s) as [[st|e] s']; [|by split_and!].
  destruct (status_ok st); cbn [negb]; [|by split_and!].
  destruct (init_network_same _ _ Hp) as [H1 H2]. by split_and!.
Qed.

(** A server that is ready: the access log, the configured connections to the database, the
    directories of the store, the loop, an acceptor that does not listen yet, the
    routes, and a collector exactly when it is enabled. *)
Definition ready p s : Prop :=
  (exists pool, mysql_pool_ p = Some pool /\ MySQLPool.AvailableCount pool = Z.to_nat (my_pool_size (cfg_mysql config))) /\
  meta_store_ p = Some (bool_decide (is_Some (redis_cache_ p))) /\
  data_store_ p = Some (data_config config) /\
  (exists st, fst (DataStore.Init (data_config config) s) = Ret st /\ status_ok st = true) /\
  (is_Some (gc_ p) <-> gc_enabled (cfg_gc config) = true) /\
  main_loop_ p = Some (new_loop LoopTask) /\
  (exists a, acceptor_ p = Some a /\ listening_ a = false) /\
  is_Some (access_logger_ (log_ p)) /\
  SetupRoutes (server_config config) metrics = Ret (router_ p).

Lemma init_redis_meta wire p :
  meta_store_ (init_redis config wire p) = Some (bool_decide (is_Some (redis_cache_ (init_redis config wire p)))).
Proof.
  unfold init_redis. destruct (redis_enabled_ (cfg_redis config)); [|done].
  destruct (RedisCache.Init _) as [st cache]. by destruct (status_ok st).
Qed.

Lemma make_acceptor_ret ip port a : make_Acceptor ip port = Ret a -> listening_ a = false.
Proof.
  unfold make_Acceptor. destruct boot_socket; [|discriminate]. destruct (negb _ && negb _); [discriminate|].
  destruct (boot_bind ip port); [discriminate|]. by intros [= <-].
Qed.

Lemma make_loop_ret F b l : make_EventLoop F b = Ret l -> l = new_loop F.
Proof.
  unfold make_EventLoop. destruct b; [discriminate|]. destruct boot_epoll; [|discriminate].
  destruct boot_eventfd; [|discriminate]. destruct boot_timerfd; [|discriminate]. by intros [= <-].
Qed.

Lemma init_network_ret p st p' :
  init_network config metrics p = (Ret st, p') ->
  log_ p' = log_ p /\ mysql_pool_ p' = mysql_pool_ p /\ meta_store_ p' = meta_store_ p /\ redis_cache_ p' = redis_cache_ p /\
  data_store_ p' = data_store_ p /\ (is_Some (gc_ p') <-> gc_enabled (cfg_gc config) = true) /\
  main_loop_ p' = Some (new_loop LoopTask) /\ (exists a, acceptor_ p' = Some a /\ listening_ a = false) /\
  SetupRoutes (server_config config) metrics = Ret (router_ p').
Proof.
  unfold init_network. destruct (make_EventLoop LoopTask false) as [l|] eqn:El; [|discriminate].
  destruct (make_Acceptor _ _) as [a|] eqn:Ea; [|discriminate].
  destruct (SetupRoutes _ _) as [r|]; [|discriminate]. intros [= _ <-]. cbn.
  apply make_loop_ret in El as ->. apply make_acceptor_ret in Ea.
  split_and!; try reflexivity; [|by exists a].
  destruct (gc_enabled (cfg_gc config)); split; [done|by eexists|by intros [? ?]|done].
Qed.

Lemma logger_ret f g a b c d l l' : Logger_Init f g a b c d l = Ret l' -> is_Some (access_logger_ l').
Proof.
  unfold Logger_Init. intros E. unfold mbind, exn_bind in E.
  repeat match type of E with match ?x with _ => _ end = _ => destruct x; [|discriminate E] end.
  injection E as <-. by eexists.
Qed.

(** When [Init] answers OK the server is ready. *)
Theorem init_makes_ready accepts wire s st p s' :
  Server_Init config metrics accepts wire s = (Ret st, p, s') -> status_ok st = true -> ready p s.
Proof.
  unfold Server_Init. destruct (Logger_Init _ _ _ _ _ _ _) as [l|e] eqn:El; [|discriminate]. apply logger_ret in El.
  unfold init_stores. pose proof (MySQLPool.init_fills (Z.to_nat (my_pool_size (cfg_mysql config))) accepts) as Hfill.
  destruct (MySQLPool.Init _ _) as [ok pool]. destruct ok; cbn [negb fst snd] in *; [|intros [= <- _ _]; discriminate].
  destruct (DataStore.Init (data_config config) s) as [[st0|e] s0] eqn:Ed; [|discriminate].
  destruct (status_ok st0) eqn:Es; cbn [negb]; [|intros [= <- _ _] Hst; congruence].
  destruct (init_network _ _ _) as [x p1] eqn:En. intros [= -> -> _] _.
  apply init_network_ret in En as (E0 & E1 & E2 & E3 & E4 & E5 & E6 & E7 & E8).
  set (p0 := put_pool pool (put_log l new_parts)) in *. pose proof (init_redis_meta wire p0) as Hm.
  destruct (init_redis_same wire p0) as (F1 & _ & _ & _ & _ & _ & F7). cbn in E0, E1, E2, E3, E4.
  unfold ready. rewrite E0, E1, E2, E3, E4, E6, Ed, F1, F7.
  split; [eexists; split; [reflexivity|by apply Hfill]|]. split; [exact Hm|]. split; [reflexivity|].
  split; [eexists; split; [reflexivity|exact Es]|]. split; [exact E5|]. split; [reflexivity|]. split; [exact E7|].
  split; [exact El|exact E8].
Qed.
End properties.
