(* ===== verification/Programs.v ===== *)
(** * Requests as sequences of calls

    The request handlers (src/src/api/handlers) and a batch of the collector
    (src/src/storage/gc.cpp) as programs whose steps are the calls they make on the
    metadata store, the data store, the file system and the collector's queue: what
    other threads do falls between two calls. Each call says which content it counts
    on, and [run_request] shows that a program run without interruption is the handler.

    A call on the metadata store is one step although it is a transaction of several
    statements; the step stands for its COMMIT, until which the thread counts on
    what it did before the call. The transactions run at READ COMMITTED
    (src/src/db/mysql_pool.cpp), and two of them that touch the same references
    exclude one another by the rows they lock until they end: every one that moves a
    reference of an existing object, part or content reads its row with FOR UPDATE
    or updates it. What a row lock does not exclude is a row that is not there,
    since at this level nothing is locked for it: two first uploads of one part
    number, or a PUT that has found no row and another that inserts it, may both
    count their content and only one keeps the reference. This leaves a count too
    high, never one too low; such a schedule has no counterpart here. *)
From S2P Require Import Prelude Status Json Crypto Sql MySQLTx MetaStore FileSys DataStore.
From S2P Require Import HttpResponse HttpRequest HttpRouter Uuid Auth World Gc ObjectHandlers.
From S2P Require Import MultipartHandlers BucketHandlers.

Open Scope Z_scope.

(** ** Programs *)

(** What a thread counts on before a call: nothing; that the content [c] stays in
    place until it is counted; or that nobody refers to [c], which it is about to
    remove, having moved it aside to [q] if that is given. *)
Inductive Use : Type :=
  | Nothing
  | Holds (c : string)
  | Clears (c : string) (q : option string).

Section programs.
Context `{Collation, Calendar, MySQL, ConnPool, Redis, Posix, JsonLib, Digest} (cfg : StoreConfig).

Inductive Prog (A : Type) : Type :=
  | Done (r : exn A)
  | Call {B : Type} (u : Use) (op : SM B) (k : B -> Prog A).
Arguments Done {A} r.
Arguments Call {A B} u op k.

#[export] Instance prog_ret : MRet Prog := fun A a => Done (Ret a).

#[export] Instance prog_bind : MBind Prog := fun A B k =>
  fix bind (p : Prog A) : Prog B :=
    match p with
    | Done (Ret a) => k a
    | Done (Throw e) => Done (Throw e)
    | Call u op c => Call u op (fun b => bind (c b))
    end.

Definition call {A} (u : Use) (op : SM A) : Prog A := Call u op mret.

(** A program without interruption. *)
Fixpoint run {A} (p : Prog A) : SM A :=
  match p with
  | Done r => lift_exn r
  | Call u op k => b ← op; run (k b)
  end.

(** ** The helpers of the handlers *)

Definition with_params_prog (request : HttpRequest) (k : string -> string -> Prog HttpResponse)
    : Prog HttpResponse :=
  let bucket_name := GetPathParam "bucket" request in
  let object_key := GetPathParam "object" request in
  if str_empty bucket_name || str_empty object_key
  then Done (Resp_BadRequest "Bucket and object key are required" "")
  else k bucket_name object_key.

Definition with_bucket_prog (u : Use) (bucket_name : string) (k : Z -> Prog HttpResponse) : Prog HttpResponse :=
  bucket_result ← call u (on_meta (GetBucket bucket_name));
  match bucket_result with
  | Ok b => k (bi_id b)
  | Err s =>
      if bool_decide (code_ s = NoSuchBucket) then Done (Resp_NotFound "Bucket not found" "")
      else Done (Resp_InternalError "Failed to get bucket" "")
  end.

Definition with_object_prog (bucket_id : Z) (object_key : string) (k : ObjectInfo -> Prog HttpResponse)
    : Prog HttpResponse :=
  obj_result ← call Nothing (on_meta (GetObject bucket_id object_key));
  match obj_result with
  | Ok obj => k obj
  | Err s =>
      if bool_decide (code_ s = NoSuchKey) then Done (Resp_NotFound "Object not found" "")
      else Done (Resp_InternalError "Failed to get object" "")
  end.

Definition with_upload_prog (u : Use) (upload_id : string) (k : MultipartUploadInfo -> Prog HttpResponse)
    : Prog HttpResponse :=
  upload_result ← call u (on_meta (GetMultipartUpload upload_id));
  match upload_result with
  | Ok upload => k upload
  | Err s =>
      if bool_decide (code_ s = NoSuchUpload) then Done (Resp_NotFound "Upload not found" "")
      else Done (Resp_InternalError "Failed to get upload" "")
  end.

(** The content an upload committed before the handler started. *)
Definition arrived (request : HttpRequest) : Use :=
  let internal_cas := GetHeader "X-Internal-CAS-Key" request in
  if str_empty internal_cas then Nothing else Holds internal_cas.

Definition cleanup_prog (cas_key : string) : Prog unit :=
  cas_result ← call Nothing (on_meta (GetCasBlob cas_key));
  match cas_result with
  | Err s =>
      if bool_decide (code_ s = NoSuchKey)
      then _ ← call (Clears cas_key None) (on_os (Delete cfg cas_key)); mret tt else mret tt
  | Ok info =>
      if ci_ref_count info =? 0 then _ ← call (Clears cas_key None) (on_os (Delete cfg cas_key)); mret tt
      else mret tt
  end.

Definition cleanup_if_prog (may_need_cleanup : bool) (cas_key : string) : Prog unit :=
  if may_need_cleanup then cleanup_prog cas_key else mret tt.

Definition store_body_prog (request : HttpRequest) : Prog (option StoredBody) :=
  let body := body_ request in
  let body_size := Z.of_nat (String.length body) in
  let internal_cas := GetHeader "X-Internal-CAS-Key" request in
  let internal_size := GetHeader "X-Internal-Size" request in
  if negb (str_empty internal_cas) then
    mret (Some (MkStored internal_cas (conv_or body_size (stoull internal_size)) false))
  else
    let predicted_cas := SHA256 body in
    existed_before ← call Nothing (ask_os (Exists cfg predicted_cas));
    write_result ← call Nothing (on_os (Write cfg (bytes_of body)));
    mret (match write_result with
          | Ok cas_key =>
              Some (MkStored cas_key body_size
                      (negb existed_before && String.eqb cas_key predicted_cas))
          | Err _ => None
          end).

Definition queue_prog (gc_key : option string) : Prog unit :=
  match gc_key with Some k => call Nothing (AddPendingDelete k) | None => mret tt end.

(** ** PUT *)

Definition idempotency_prog (u : Use) (idempotency_key hash : string) : Prog (option (exn HttpResponse)) :=
  if str_empty idempotency_key then mret None
  else
    idem_result ← call u (on_meta (CheckIdempotency idempotency_key));
    mret (match idem_result with
          | Err _ => Some (Resp_InternalError "Failed to check idempotency" "")
          | Ok None => None
          | Ok (Some record) =>
              if negb (String.eqb (id_request_hash record) hash)
              then Some (Resp_Conflict "Idempotency conflict" "")
              else Some (Ret (cached_response record))
          end).

Definition put_stored_prog (request : HttpRequest) (bucket_name object_key : string) (bucket_id : Z)
    (hash : string) (sb : StoredBody) : Prog HttpResponse :=
  let cas_key := sb_cas_key sb in
  let etag := quoted (etag_value cas_key) in
  obj_result ← call (Holds cas_key)
    (on_meta (PutObjectWithRefCount bucket_id object_key (i64_of_u64 (sb_data_size sb))
                etag (content_type_of request) cas_key));
  match obj_result with
  | Err _ =>
      _ ← cleanup_if_prog (sb_may_need_cleanup sb) cas_key;
      Done (Resp_InternalError "Failed to create object" "")
  | Ok gc_key =>
      _ ← queue_prog gc_key;
      text ← Done (json_dump (JObj [("bucket", JStr bucket_name); ("key", JStr object_key);
               ("etag", JStr (etag_value cas_key)); ("size", JInt (sb_data_size sb))]));
      let response := HttpResponse.SetBody text
        (HttpResponse.SetHeader "Content-Type" "application/json"
          (HttpResponse.SetHeader "ETag" etag (response_of_code 200))) in
      let idempotency_key := GetHeader "Idempotency-Key" request in
      _ ← (if str_empty idempotency_key then mret tt
           else _ ← call Nothing (on_meta (RecordIdempotency idempotency_key hash (status_code_ response)
                               (HttpResponse.body_ response) 86400)); mret tt);
      mret response
  end.

Definition PutObject_prog (request : HttpRequest) : Prog HttpResponse :=
  with_params_prog request (fun bucket_name object_key =>
  with_bucket_prog (arrived request) bucket_name (fun bucket_id =>
    if no_body request then Done (Resp_BadRequest "Request body is empty" "")
    else
      stored ← store_body_prog request;
      match stored with
      | None => Done (Resp_InternalError "Failed to write object data" "")
      | Some sb =>
          let expected_sha256 := GetHeader "X-Content-SHA256" request in
          if negb (str_empty expected_sha256) && negb (String.eqb expected_sha256 (sb_cas_key sb)) then
            _ ← cleanup_if_prog (sb_may_need_cleanup sb) (sb_cas_key sb);
            Done (Resp_BadRequest "Checksum mismatch" "")
          else
            let hash := request_hash request (sb_data_size sb) expected_sha256 in
            answer ← idempotency_prog (Holds (sb_cas_key sb)) (GetHeader "Idempotency-Key" request) hash;
            match answer with
            | Some r => Done r
            | None => put_stored_prog request bucket_name object_key bucket_id hash sb
            end
      end)).

(** ** GET, HEAD, DELETE, listing *)

Definition GetObject_prog (request : HttpRequest) : Prog HttpResponse :=
  with_params_prog request (fun bucket_name object_key =>
  with_bucket_prog Nothing bucket_name (fun bucket_id =>
  with_object_prog bucket_id object_key (fun obj =>
    exists_ ← call Nothing (ask_os (Exists cfg (oi_sha256_hash obj)));
    if negb exists_ then Done (Resp_InternalError "Object data not found" "")
    else
      let range_header := GetHeader "Range" request in
      if str_empty range_header then mret (object_response cfg obj None)
      else
        range ← Done (ParseRange range_header (u64 (oi_size obj)));
        mret (match range with
              | None => Resp_RangeNotSatisfiable (u64 (oi_size obj))
              | Some r => object_response cfg obj (Some r)
              end)))).

Definition HeadObject_prog (request : HttpRequest) : Prog HttpResponse :=
  with_params_prog request (fun bucket_name object_key =>
  with_bucket_prog Nothing bucket_name (fun bucket_id =>
  with_object_prog bucket_id object_key (fun obj =>
    mret (object_headers obj (oi_size obj) (response_of_code 200))))).

Definition DeleteObject_prog (request : HttpRequest) : Prog HttpResponse :=
  with_params_prog request (fun bucket_name object_key =>
  with_bucket_prog Nothing bucket_name (fun bucket_id =>
  with_object_prog bucket_id object_key (fun _ =>
    del_result ← call Nothing (on_meta (DeleteObjectWithRefCount bucket_id object_key));
    match del_result with
    | Err _ => Done (Resp_InternalError "Failed to delete object" "")
    | Ok gc_key => _ ← queue_prog gc_key; mret Resp_NoContent
    end))).

Definition ListObjects_prog (request : HttpRequest) : Prog HttpResponse :=
  let bucket_name := GetPathParam "bucket" request in
  if str_empty bucket_name then Done (Resp_BadRequest "Bucket name is required" "")
  else
    with_bucket_prog Nothing bucket_name (fun bucket_id =>
      let '(prefix, request) := GetQueryParam "prefix" request in
      let '(delimiter, request) := GetQueryParam "delimiter" request in
      let '(start_after, request) := GetQueryParam "start-after" request in
      let '(max_keys_str, request) := GetQueryParam "max-keys" request in
      let max_keys := max_keys_of max_keys_str in
      result ← call Nothing (on_meta (ListObjects bucket_id prefix delimiter start_after max_keys));
      match result with
      | Err _ => Done (Resp_InternalError "Failed to list objects" "")
      | Ok l =>
          text ← Done (json_dump (list_json bucket_name prefix delimiter max_keys l));
          mret (Resp_OK text)
      end).

(** ** Multipart uploads *)

Definition InitUpload_prog (request : HttpRequest) : Prog HttpResponse :=
  with_params_prog request (fun bucket_name object_key =>
  with_bucket_prog Nothing bucket_name (fun bucket_id =>
    upload_id ← call Nothing Generate;
    w ← call Nothing GetWorld;
    let expires_at := clock_now w + 24 * 3600 in
    result ← call Nothing (on_meta (CreateMultipartUpload upload_id bucket_id object_key
                (content_type_of request) (owner_of request) expires_at));
    match result with
    | Err _ => Done (Resp_InternalError "Failed to initiate upload" "")
    | Ok _ =>
        text ← Done (json_dump (JObj [("upload_id", JStr upload_id); ("bucket", JStr bucket_name);
                 ("key", JStr object_key); ("expires_at", JInt expires_at)]));
        mret (Resp_OK text)
    end)).

Definition put_part_prog (upload_id : string) (part_number : Z) (sb : StoredBody) : Prog HttpResponse :=
  let cas_key := sb_cas_key sb in
  let etag := quoted (etag_value cas_key) in
  part_result ← call (Holds cas_key) (on_meta (PutPartWithRefCount upload_id part_number cas_key
                           (i64_of_u64 (sb_data_size sb)) etag));
  match part_result with
  | Err _ =>
      _ ← cleanup_if_prog (sb_may_need_cleanup sb) cas_key;
      Done (Resp_InternalError "Failed to create part" "")
  | Ok gc_key =>
      _ ← queue_prog gc_key;
      text ← Done (json_dump (JObj [("etag", JStr (etag_value cas_key));
               ("part_number", JInt part_number); ("size", JInt (sb_data_size sb))]));
      mret (HttpResponse.SetBody text (HttpResponse.SetHeader "ETag" etag (response_of_code 200)))
  end.

Definition UploadPart_prog (request : HttpRequest) : Prog HttpResponse :=
  let bucket_name := GetPathParam "bucket" request in
  let object_key := GetPathParam "object" request in
  let upload_id := GetPathParam "upload_id" request in
  let part_number_str := GetPathParam "part_number" request in
  if str_empty bucket_name || str_empty object_key || str_empty upload_id || str_empty part_number_str
  then Done (Resp_BadRequest "Missing required parameters" "")
  else
    match part_number_of part_number_str with
    | inl message => Done (Resp_BadRequest message "")
    | inr part_number =>
        with_upload_prog (arrived request) upload_id (fun upload =>
          bucket_result ← call (arrived request) (on_meta (GetBucketById (ui_bucket_id upload)));
          if negb (match bucket_result with
                   | Ok b => String.eqb (bi_name b) bucket_name
                   | Err _ => false
                   end)
          then Done (Resp_BadRequest "Upload ID does not match bucket" "")
          else if negb (String.eqb (ui_key upload) object_key)
          then Done (Resp_BadRequest "Upload ID does not match object key" "")
          else if no_body request then Done (Resp_BadRequest "Request body is empty" "")
          else
            stored ← store_body_prog request;
            match stored with
            | None => Done (Resp_InternalError "Failed to write part data" "")
            | Some sb => put_part_prog upload_id part_number sb
            end)
    end.

Definition ListParts_prog (request : HttpRequest) : Prog HttpResponse :=
  let bucket_name := GetPathParam "bucket" request in
  let object_key := GetPathParam "object" request in
  let upload_id := GetPathParam "upload_id" request in
  if str_empty bucket_name || str_empty object_key || str_empty upload_id
  then Done (Resp_BadRequest "Missing required parameters" "")
  else
  with_upload_prog Nothing upload_id (fun _ =>
    let '(marker_str, request) := GetQueryParam "part-number-marker" request in
    let '(max_parts_str, request) := GetQueryParam "max-parts" request in
    let part_number_marker := if str_empty marker_str then 0 else conv_or 0 (stoi marker_str) in
    let max_parts := max_parts_of max_parts_str in
    result ← call Nothing (on_meta (ListParts upload_id part_number_marker max_parts));
    match result with
    | Err _ => Done (Resp_InternalError "Failed to list parts" "")
    | Ok l =>
        let fields := [("bucket", JStr bucket_name); ("key", JStr object_key);
          ("upload_id", JStr upload_id); ("parts", JArr (part_entry <$> lp_parts l));
          ("is_truncated", JBool (lp_is_truncated l)); ("max_parts", JInt max_parts)] in
        text ← Done (json_dump (JObj (if lp_is_truncated l
                 then fields ++ [("next_part_number_marker", JInt (lp_next_part_number_marker l))]
                 else fields)));
        mret (Resp_OK text)
    end).

(** The last two handlers of an upload. *)
Definition with_upload_params_prog (request : HttpRequest) (k : string -> string -> string -> Prog HttpResponse)
    : Prog HttpResponse :=
  let bucket_name := GetPathParam "bucket" request in
  let object_key := GetPathParam "object" request in
  let upload_id := GetPathParam "upload_id" request in
  if str_empty bucket_name || str_empty object_key || str_empty upload_id
  then Done (Resp_BadRequest "Missing required parameters" "")
  else k bucket_name object_key upload_id.

Fixpoint release_prog (cas_keys : list string) : Prog unit :=
  match cas_keys with
  | [] => mret tt
  | cas_key :: rest =>
      dec_result ← call Nothing (on_meta (DecrementRefCountAndCheckZero cas_key));
      _ ← match dec_result with Ok true => call Nothing (AddPendingDelete cas_key) | _ => mret tt end;
      release_prog rest
  end.

Definition complete_prog (bucket_name object_key upload_id : string) (upload : MultipartUploadInfo)
    (cas_keys : list string) (total_size : Z) : Prog HttpResponse :=
  merge_result ← call Nothing (on_os (Merge cfg cas_keys));
  match merge_result with
  | Err _ => Done (Resp_InternalError "Failed to merge parts" "")
  | Ok final_cas_key =>
      let final_etag := quoted (etag_value final_cas_key) in
      obj_result ← call (Holds final_cas_key)
        (on_meta (PutObjectWithRefCount (ui_bucket_id upload) (ui_key upload)
                    (i64_of_u64 total_size) final_etag (ui_content_type upload) final_cas_key));
      match obj_result with
      | Err _ =>
          _ ← cleanup_prog final_cas_key;
          Done (Resp_InternalError "Failed to create object" "")
      | Ok gc_key =>
          _ ← queue_prog gc_key;
          _ ← release_prog cas_keys;
          _ ← call Nothing (on_meta (DeleteMultipartUpload upload_id));
          text ← Done (json_dump (JObj [("bucket", JStr bucket_name); ("key", JStr object_key);
                   ("etag", JStr (etag_value final_cas_key)); ("size", JInt total_size)]));
          mret (HttpResponse.SetBody text
                  (HttpResponse.SetHeader "ETag" final_etag (response_of_code 200)))
      end
  end.

Definition CompleteUpload_prog (request : HttpRequest) : Prog HttpResponse :=
  with_upload_params_prog request (fun bucket_name object_key upload_id =>
  with_upload_prog Nothing upload_id (fun upload =>
    client ← Done (client_parts_of (body_ request));
    match client with
    | inl message => Done (Resp_BadRequest message "")
    | inr client_parts =>
        parts_result ← call Nothing (on_meta (ListParts upload_id 0 10000));
        match parts_result with
        | Err _ => Done (Resp_InternalError "Failed to list parts" "")
        | Ok l =>
            if negb (length client_parts =? length (lp_parts l))%nat
            then Done (Resp_BadRequest "Part count mismatch" "")
            else
              match match_parts client_parts (lp_parts l) 0 with
              | inl message => Done (Resp_BadRequest message "")
              | inr (cas_keys, total_size) =>
                  complete_prog bucket_name object_key upload_id upload cas_keys total_size
              end
        end
    end)).

Definition AbortUpload_prog (request : HttpRequest) : Prog HttpResponse :=
  with_upload_params_prog request (fun bucket_name object_key upload_id =>
  with_upload_prog Nothing upload_id (fun _ =>
    parts_result ← call Nothing (on_meta (ListParts upload_id 0 10000));
    _ ← match parts_result with
        | Ok l => release_prog (pi_sha256_hash <$> lp_parts l)
        | Err _ => mret tt
        end;
    status ← call Nothing (on_meta (DeleteMultipartUpload upload_id));
    if status_ok status then mret Resp_NoContent
    else Done (Resp_InternalError "Failed to abort upload" ""))).

(** ** Buckets *)

Definition with_bucket_name_prog (request : HttpRequest) (k : string -> Prog HttpResponse) : Prog HttpResponse :=
  let bucket_name := GetPathParam "bucket" request in
  if str_empty bucket_name then Done (Resp_BadRequest "Bucket name is required" "")
  else k bucket_name.

Definition bucket_info_prog (bucket_name : string) (k : BucketInfo -> Prog HttpResponse) : Prog HttpResponse :=
  result ← call Nothing (on_meta (GetBucket bucket_name));
  match result with
  | Ok b => k b
  | Err s =>
      if bool_decide (code_ s = NoSuchBucket) then Done (Resp_NotFound "Bucket not found" "")
      else Done (Resp_InternalError "Failed to get bucket" "")
  end.

Definition CreateBucket_prog (request : HttpRequest) : Prog HttpResponse :=
  with_bucket_name_prog request (fun bucket_name =>
    if (String.length bucket_name <? 3)%nat || (63 <? String.length bucket_name)%nat
    then Done (Resp_BadRequest "Bucket name must be between 3 and 63 characters" "")
    else
      result ← call Nothing (on_meta (CreateBucket bucket_name (owner_of request) "default" "private"));
      match result with
      | Err s =>
          if bool_decide (code_ s = BucketAlreadyExists)
          then Done (Resp_Conflict "Bucket already exists" "")
          else Done (Resp_InternalError "Failed to create bucket" "")
      | Ok _ =>
          text ← Done (json_dump (JObj [("bucket", JStr bucket_name); ("created", JBool true)]));
          mret (Resp_Created text)
      end).

Definition GetBucket_prog (request : HttpRequest) : Prog HttpResponse :=
  with_bucket_name_prog request (fun bucket_name =>
  bucket_info_prog bucket_name (fun bucket =>
    text ← Done (json_dump (JObj [("name", JStr (bi_name bucket));
             ("owner_id", JStr (bi_owner_id bucket)); ("region", JStr (bi_region bucket));
             ("created_at", JInt (bi_created_at bucket))]));
    mret (Resp_OK text))).

Definition DeleteBucket_prog (request : HttpRequest) : Prog HttpResponse :=
  with_bucket_name_prog request (fun bucket_name =>
  bucket_info_prog bucket_name (fun bucket =>
    empty_result ← call Nothing (on_meta (IsBucketEmpty (bi_id bucket)));
    match empty_result with
    | Err _ => Done (Resp_InternalError "Failed to check bucket" "")
    | Ok false => Done (Resp_Conflict "Bucket is not empty" "")
    | Ok true =>
        status ← call Nothing (on_meta (DeleteBucket bucket_name));
        if status_ok status then mret Resp_NoContent
        else Done (Resp_InternalError "Failed to delete bucket" "")
    end)).

Definition ListBuckets_prog (request : HttpRequest) : Prog HttpResponse :=
  result ← call Nothing (on_meta (ListBuckets (owner_of request)));
  match result with
  | Err _ => Done (Resp_InternalError "Failed to list buckets" "")
  | Ok l =>
      text ← Done (json_dump (JObj [("buckets", JArr ((fun b =>
               JObj [("name", JStr (bi_name b)); ("created_at", JInt (bi_created_at b))]) <$> l))]));
      mret (Resp_OK text)
  end.

(** ** The collector *)

Definition callback_prog (cas_key : string) (success : bool) : Prog unit :=
  if success then
    reclaimable ← call Nothing (on_meta (CanDeleteCasBlob cas_key));
    match reclaimable with
    | Ok true => _ ← call Nothing (on_meta (DeleteCasBlob cas_key)); mret tt
    | _ => mret tt
    end
  else mret tt.

Definition restore_prog (renamed : bool) (cas_key quarantine_path file_path : string) : Prog unit :=
  if renamed then
    _ ← call (Clears cas_key (Some quarantine_path)) (on_os (AtomicRename quarantine_path file_path)); mret tt
  else mret tt.

Definition finish_prog (cas_key file_path quarantine_path : string) (renamed : bool) : Prog unit :=
  let u := Clears cas_key (if renamed then Some quarantine_path else None) in
  reclaimable_after ← call u (on_meta (CanDeleteCasBlob cas_key));
  match reclaimable_after with
  | Ok true =>
      status ← (if renamed then call u (on_os (RemoveFile quarantine_path)) else mret Status_OK);
      callback_prog cas_key (status_ok status)
  | _ => restore_prog renamed cas_key quarantine_path file_path
  end.

Definition collect_prog (cas_key : string) : Prog unit :=
  reclaimable_before ← call Nothing (on_meta (CanDeleteCasBlob cas_key));
  match reclaimable_before with
  | Ok true =>
      let u := Clears cas_key None in
      let file_path := GetFilePath cfg cas_key in
      id ← call u Generate;
      let quarantine_path := file_path +:+ ".gc." +:+ id in
      source_exists ← call u (ask_os (FileExists file_path));
      if source_exists : bool then
        rename_status ← call u (on_os (AtomicRename file_path quarantine_path));
        if status_ok rename_status
        then finish_prog cas_key file_path quarantine_path true
        else mret tt
      else finish_prog cas_key file_path quarantine_path false
  | _ => mret tt
  end.

Fixpoint batch_prog (batch : list string) : Prog unit :=
  match batch with
  | [] => mret tt
  | cas_key :: rest => _ ← collect_prog cas_key; batch_prog rest
  end.

(** ** Requests *)

(** The handlers whose requests may be interrupted. *)
Inductive Route : Type :=
  | R_PutObject | R_GetObject | R_HeadObject | R_DeleteObject | R_ListObjects
  | R_InitUpload | R_UploadPart | R_ListParts
  | R_CreateBucket | R_GetBucket | R_DeleteBucket | R_ListBuckets.

Definition handler_of (route : Route) : HttpHandler StoreW :=
  match route with
  | R_PutObject => ObjectHandlers_PutObject cfg
  | R_GetObject => ObjectHandlers_GetObject cfg
  | R_HeadObject => ObjectHandlers_HeadObject
  | R_DeleteObject => ObjectHandlers_DeleteObject
  | R_ListObjects => ObjectHandlers_ListObjects
  | R_InitUpload => MultipartHandlers_InitUpload
  | R_UploadPart => MultipartHandlers_UploadPart cfg
  | R_ListParts => MultipartHandlers_ListParts
  | R_CreateBucket => BucketHandlers_CreateBucket
  | R_GetBucket => BucketHandlers_GetBucket
  | R_DeleteBucket => BucketHandlers_DeleteBucket
  | R_ListBuckets => BucketHandlers_ListBuckets
  end.

Definition prog_of (route : Route) : HttpRequest -> Prog HttpResponse :=
  match route with
  | R_PutObject => PutObject_prog
  | R_GetObject => GetObject_prog
  | R_HeadObject => HeadObject_prog
  | R_DeleteObject => DeleteObject_prog
  | R_ListObjects => ListObjects_prog
  | R_InitUpload => InitUpload_prog
  | R_UploadPart => UploadPart_prog
  | R_ListParts => ListParts_prog
  | R_CreateBucket => CreateBucket_prog
  | R_GetBucket => GetBucket_prog
  | R_DeleteBucket => DeleteBucket_prog
  | R_ListBuckets => ListBuckets_prog
  end.

(** ** Without interruption a program is its handler *)

(** The same effect and the same answer from every world. *)
Definition same_run {A} (p : Prog A) (op : SM A) : Prop := forall w, run p w = op w.

Lemma same_done {A} (r : exn A) : same_run (Done r) (lift_exn r).
Proof. done. Qed.

Lemma same_ret {A} (a : A) : same_run (mret a) (mret a).
Proof. done. Qed.

Lemma same_call {A} u (op : SM A) : same_run (call u op) op.
Proof. intros w. cbn. unfold mbind, M_bind. by destruct (op w) as [[a|e] w']. Qed.

Lemma run_bind {A B} (p : Prog A) (k : A -> Prog B) w : run (p ≫= k) w = (run p ≫= fun a => run (k a)) w.
Proof.
  revert w. induction p as [[a|e]|C u op c IH]; intros w; [done..|].
  change (run (Call u op c ≫= k)) with (op ≫= fun b => run (c b ≫= k)). cbn [run].
  unfold mbind at 1 3 4, M_bind at 1 2 3. destruct (op w) as [[b|e] w']; [|done]. apply IH.
Qed.

Lemma same_bind {A B} (p : Prog A) (op : SM A) (k : A -> Prog B) (j : A -> SM B) :
  same_run p op -> (forall a, same_run (k a) (j a)) -> same_run (p ≫= k) (op ≫= j).
Proof.
  intros Hp Hk w. rewrite run_bind. unfold mbind, M_bind. rewrite Hp. destruct (op w) as [[a|e] w']; [apply Hk|done].
Qed.

(** Goes through a program and its handler together. *)
Ltac same_tac :=
  repeat first
    [ apply same_call | apply same_ret | apply same_done
    | apply same_bind; [|intros ?]
    | match goal with |- same_run (match ?x with _ => _ end) _ => destruct x end ].

Lemma same_with_bucket u b k j :
  (forall i, same_run (k i) (j i)) -> same_run (with_bucket_prog u b k) (with_bucket b j).
Proof. intros Hk. unfold with_bucket_prog, with_bucket. same_tac. apply Hk. Qed.
Lemma same_with_params r k j :
  (forall a b, same_run (k a b) (j a b)) -> same_run (with_params_prog r k) (with_params r j).
Proof. intros Hk. unfold with_params_prog, with_params. same_tac. apply Hk. Qed.
Lemma same_with_object b o k j :
  (forall i, same_run (k i) (j i)) -> same_run (with_object_prog b o k) (with_object b o j).
Proof. intros Hk. unfold with_object_prog, with_object. same_tac. apply Hk. Qed.
Lemma same_with_upload u i k j :
  (forall x, same_run (k x) (j x)) -> same_run (with_upload_prog u i k) (with_upload i j).
Proof. intros Hk. unfold with_upload_prog, with_upload. same_tac. apply Hk. Qed.
Lemma same_with_bucket_name r k j :
  (forall b, same_run (k b) (j b)) -> same_run (with_bucket_name_prog r k) (with_bucket_name r j).
Proof. intros Hk. unfold with_bucket_name_prog, with_bucket_name. same_tac. apply Hk. Qed.
Lemma same_bucket_info b k j :
  (forall i, same_run (k i) (j i)) -> same_run (bucket_info_prog b k) (bucket_info b j).
Proof. intros Hk. unfold bucket_info_prog, bucket_info. same_tac. apply Hk. Qed.
Lemma same_cleanup_if b c : same_run (cleanup_if_prog b c) (cleanup_if cfg b c).
Proof. unfold cleanup_if_prog, cleanup_prog, cleanup_if, CleanupUnreferencedCas. same_tac. Qed.
Lemma same_store_body r : same_run (store_body_prog r) (store_body cfg r).
Proof. unfold store_body_prog, store_body. same_tac. Qed.
Lemma same_queue g : same_run (queue_prog g) (queue_garbage g).
Proof. unfold queue_prog, queue_garbage. same_tac. Qed.
Lemma same_idempotency u k h : same_run (idempotency_prog u k h) (check_idempotency k h).
Proof. unfold idempotency_prog, check_idempotency. same_tac. Qed.
Lemma same_put_stored r bn k b h sb :
  same_run (put_stored_prog r bn k b h sb) (put_stored cfg r bn k b h sb).
Proof.
  unfold put_stored_prog, put_stored. apply same_bind; [apply same_call|]. intros [gc|s].
  - apply same_bind; [apply same_queue|]. intros _. same_tac.
  - apply same_bind; [apply same_cleanup_if|]. intros _. same_tac.
Qed.
Lemma same_put_part u n sb : same_run (put_part_prog u n sb) (put_stored_part cfg u n sb).
Proof.
  unfold put_part_prog, put_stored_part. apply same_bind; [apply same_call|]. intros [gc|s].
  - apply same_bind; [apply same_queue|]. intros _. same_tac.
  - apply same_bind; [apply same_cleanup_if|]. intros _. same_tac.
Qed.

(** The handlers' helpers, as they occur in a handler. *)
Ltac handler_tac :=
  repeat first
    [ apply same_with_params; intros ? ? | apply same_with_bucket; intros ? | apply same_with_object; intros ?
    | apply same_with_upload; intros ? | apply same_with_bucket_name; intros ? | apply same_bucket_info; intros ?
    | apply same_store_body | apply same_queue | apply same_idempotency | apply same_cleanup_if
    | apply same_put_stored | apply same_put_part | progress same_tac ].

(** A request served without interruption is served by its handler. *)
Lemma run_request route r : same_run (prog_of route r) (handler_of route r).
Proof.
  destruct route; cbn [prog_of handler_of].
  - unfold PutObject_prog, ObjectHandlers_PutObject. handler_tac.
  - unfold GetObject_prog, ObjectHandlers_GetObject. handler_tac.
  - unfold HeadObject_prog, ObjectHandlers_HeadObject. handler_tac.
  - unfold DeleteObject_prog, ObjectHandlers_DeleteObject. handler_tac.
  - unfold ListObjects_prog, ObjectHandlers_ListObjects. rewrite !get_query_param. handler_tac.
  - unfold InitUpload_prog, MultipartHandlers_InitUpload. handler_tac.
  - unfold UploadPart_prog, MultipartHandlers_UploadPart. handler_tac.
  - unfold ListParts_prog, MultipartHandlers_ListParts, with_upload_params. handler_tac.
  - unfold CreateBucket_prog, BucketHandlers_CreateBucket. handler_tac.
  - unfold GetBucket_prog, BucketHandlers_GetBucket. handler_tac.
  - unfold DeleteBucket_prog, BucketHandlers_DeleteBucket. handler_tac.
  - unfold ListBuckets_prog, BucketHandlers_ListBuckets. handler_tac.
Qed.

(** The handlers that end an upload. *)
Lemma same_release l : same_run (release_prog l) (release_parts l).
Proof.
  induction l as [|c l IH]; [done|]. cbn [release_prog release_parts]. same_tac; exact IH.
Qed.

Lemma same_complete b o i up l n : same_run (complete_prog b o i up l n) (complete_with cfg b o i up l n).
Proof.
  unfold complete_prog, complete_with. apply same_bind; [apply same_call|]. intros [c|s]; [|same_tac].
  apply same_bind; [apply same_call|]. intros [gc|s].
  - apply same_bind; [apply same_queue|]. intros _. apply same_bind; [apply same_release|]. intros _. same_tac.
  - apply same_bind; [apply (same_cleanup_if true)|]. intros _. same_tac.
Qed.

Lemma run_CompleteUpload r : same_run (CompleteUpload_prog r) (MultipartHandlers_CompleteUpload cfg r).
Proof.
  unfold CompleteUpload_prog, MultipartHandlers_CompleteUpload, with_upload_params_prog, with_upload_params.
  destruct (_ || _); [same_tac|]. apply same_with_upload. intros up. apply same_bind; [same_tac|].
  intros [msg|parts]; [same_tac|]. apply same_bind; [apply same_call|]. intros [l|s]; [|same_tac].
  destruct (negb _); [same_tac|]. destruct (match_parts _ _ _) as [msg|[keys n]]; [same_tac|apply same_complete].
Qed.

Lemma run_AbortUpload r : same_run (AbortUpload_prog r) (MultipartHandlers_AbortUpload r).
Proof.
  unfold AbortUpload_prog, MultipartHandlers_AbortUpload, with_upload_params_prog, with_upload_params.
  handler_tac; apply same_release.
Qed.

Lemma same_callback c b : same_run (callback_prog c b) (delete_callback c b).
Proof. unfold callback_prog, delete_callback. same_tac. Qed.
Lemma same_finish c f q b : same_run (finish_prog c f q b) (finish_delete c f q b).
Proof. unfold finish_prog, finish_delete, restore_prog, restore. same_tac; apply same_callback. Qed.

Lemma same_collect c : same_run (collect_prog c) (collect_one cfg c).
Proof.
  unfold collect_prog, collect_one. apply same_bind; [apply same_call|]. intros [[]|]; [|same_tac..].
  apply same_bind; [apply same_call|]. intros id. apply same_bind; [apply same_call|]. intros [].
  - apply same_bind; [apply same_call|]. intros st. destruct (status_ok st); [apply same_finish|same_tac].
  - apply same_finish.
Qed.

(** A batch without interruption is the collector's. *)
Lemma run_batch batch : same_run (batch_prog batch) (collect_all cfg batch).
Proof.
  induction batch as [|c batch IH]; [done|]. cbn [batch_prog collect_all].
  apply same_bind; [apply same_collect|]. intros _. exact IH.
Qed.
End programs.

