(* ===== verification/StoreProps.v ===== *)
(** * Properties of the store under its handlers *)
From S2P Require Import Prelude Status Json Crypto Sql MySQLTx MetaStore Sessions MetaStoreSpec MemServer.
From S2P Require Import Uuid FileSys DataStore DataStoreSpec DataStoreProps HttpResponse.
From S2P Require Import HttpRequest HttpRouter Auth World StoreSpec Gc GcProps ObjectHandlers.
From S2P Require Import MultipartHandlers BucketHandlers.

Open Scope Z_scope.

(** Splits a handler into steps that leave the store as it is. *)
Ltac still_tac :=
  repeat first
    [ solve [auto with minis3]
    | apply still_bind; [|intros ?]
    | case_match ].

Section counts.
Context {K : Type} `{Countable K} {A : Type}.

Lemma count_subseteq (p : A -> bool) (m m' : gmap K A) : m' ⊆ m -> count_where p m' <= count_where p m.
Proof.
  intros Hs. unfold count_where, keep_where. apply inj_le, map_subseteq_size.
  by apply map_filter_subseteq_mono.
Qed.

Lemma keep_where_subseteq (p : A -> bool) (m : gmap K A) : keep_where p m ⊆ m.
Proof. apply map_filter_subseteq. Qed.
End counts.

Section handlers.
Context `{HC : Collation, HCal : Calendar, HS : MySQL, HP : ConnPool, HR : Redis, HX : Posix}.
Context `{HJ : JsonLib, HD : Digest} `{HL : !MySQLLaws, HLX : !PosixLaws}.
Context (cfg : StoreConfig).
Implicit Types (w : StoreW).

(** ** Handlers that only read, or write no reference *)

Lemma still_with_bucket b k : (forall i, still (k i)) -> still (with_bucket b k).
Proof. intros Hk. unfold with_bucket. still_tac. Qed.
Lemma still_with_params r k : (forall a b, still (k a b)) -> still (with_params r k).
Proof. intros Hk. unfold with_params. still_tac. Qed.
Lemma still_with_object b o k : (forall i, still (k i)) -> still (with_object b o k).
Proof. intros Hk. unfold with_object. still_tac. Qed.
Lemma still_with_upload u k : (forall i, still (k i)) -> still (with_upload u k).
Proof. intros Hk. unfold with_upload. still_tac. Qed.
Lemma still_add k : IsValidCasKey k = true -> still (AddPendingDelete k).
Proof.
  intros Hk w Hw. unfold wp, AddPendingDelete. cbn [fst snd].
  destruct (sw_gc w) as [q|] eqn:E; [|by apply same_store_refl].
  split_and!; [done|done|done| |done]. unfold queue_ok. rewrite E. cbn. intros Hq.
  apply Forall_app. split; [done|]. by apply Forall_singleton.
Qed.
Lemma still_queue g : (forall c, g = Some c -> IsValidCasKey c = true) -> still (queue_garbage g).
Proof. unfold queue_garbage. destruct g; intros Hg; [by apply still_add, Hg|apply still_ret]. Qed.
Hint Resolve still_with_bucket still_with_params still_with_object still_with_upload : minis3.

Lemma still_GetObject r : still (ObjectHandlers_GetObject cfg r).
Proof.
  unfold ObjectHandlers_GetObject. apply still_with_params; intros b o.
  apply still_with_bucket; intros i. apply still_with_object; intros obj. still_tac.
Qed.
Lemma still_HeadObject r : still (ObjectHandlers_HeadObject r).
Proof.
  unfold ObjectHandlers_HeadObject. apply still_with_params; intros b o.
  apply still_with_bucket; intros i. apply still_with_object; intros obj. still_tac.
Qed.
Lemma still_ListObjects r : still (ObjectHandlers_ListObjects r).
Proof.
  unfold ObjectHandlers_ListObjects. case_match; [auto with minis3|].
  apply still_with_bucket; intros i. rewrite !get_query_param. still_tac.
Qed.
Lemma still_InitUpload r : still (MultipartHandlers_InitUpload r).
Proof.
  unfold MultipartHandlers_InitUpload. apply still_with_params; intros b o.
  apply still_with_bucket; intros i. still_tac.
Qed.
Lemma still_ListParts r : still (MultipartHandlers_ListParts r).
Proof.
  unfold MultipartHandlers_ListParts, with_upload_params. case_match; [auto with minis3|].
  apply still_with_upload; intros u. rewrite !get_query_param. still_tac.
Qed.
Lemma still_CreateBucket r : still (BucketHandlers_CreateBucket r).
Proof. unfold BucketHandlers_CreateBucket, with_bucket_name. still_tac. Qed.
Lemma still_GetBucket r : still (BucketHandlers_GetBucket r).
Proof. unfold BucketHandlers_GetBucket, with_bucket_name, bucket_info. still_tac. Qed.
Lemma still_ListBuckets r : still (BucketHandlers_ListBuckets r).
Proof. unfold BucketHandlers_ListBuckets. still_tac. Qed.

(** ** Cleaning up after a failed request *)

Lemma keeps_cleanup c : IsValidCasKey c = true -> keeps cfg (CleanupUnreferencedCas cfg c).
Proof.
  intros Hv w Hok. unfold CleanupUnreferencedCas. pose proof Hok as [H1 H2 H3 H4 H5 H6].
  apply wp_bind, wp_on_meta_runs; [auto with minis3|]. eapply wp_mono; [by apply wp_get_cas_blob|].
  intros r m' (D1 & D2 & D3 & D4) Hl. set (w1 := set_meta m' w).
  assert (S : same_store w w1) by (split_and!; [done|unfold tables_of; cbn; by rewrite D2|done|done|done]).
  pose proof (store_ok_same cfg _ _ S Hok) as Hok1.
  assert (Hdel : default 0 (a_refs (abs (tables_of w)) !! coll c) = 0 ->
    wp (on_os (Delete cfg c) ≫= fun _ => mret tt) (fun _ w' => store_ok cfg w') w1).
  { intros H0. pose proof (covered_unreferenced _ _ H3 H0) as Hn.
    apply wp_bind, wp_on_os. unfold wp, Delete, RemoveFile.
    destruct (sys_unlink (cas_path cfg c) (sw_os w1)) as [u s'] eqn:E. cbn [fst snd].
    apply unlink_law in E as [_ E].
    assert (G : gc_step cfg w1 (set_os s' w1)).
    { apply (gc_step_os cfg _ _ c); [apply Hok1 | by destruct S as (_ & -> & _) | done | |].
      - intros k Hk Hne. destruct u; [|by destruct E as [_ E]|done]. apply (proj2 E).
        intros Ep. apply cas_path_inj in Ep; [done|]. by rewrite !valid_key_length.
      - destruct u; [right; apply E|left; by destruct E as [_ E]|left; by apply E]. }
    by eapply gc_step_store_ok. }
  destruct r as [[info|s]|e]; [| |done].
  - case_match eqn:E; [|by apply wp_ret]. apply Hdel. apply Z.eqb_eq in E.
    unfold tables_of. by rewrite (D3 _ eq_refl).
  - case_bool_decide as E; [|by apply wp_ret]. apply Hdel. unfold tables_of. by rewrite (D4 _ eq_refl E).
Qed.

(** ** Storing a body *)

(** The content named by a request's internal header is in place: the server
    sets the header to the key the streaming upload committed. *)
Definition streamed (request : HttpRequest) w : Prop :=
  GetHeader "X-Internal-CAS-Key" request <> "" ->
  in_place cfg (GetHeader "X-Internal-CAS-Key" request) (sw_os w).

Lemma stored_ok c w r s' :
  store_ok cfg w -> stored cfg (Final c) c (sw_os w) r s' ->
  store_ok cfg (set_os s' w) /\ exists res, r = Ret res /\
    forall k, res = Ok k -> k = Final c /\ in_place cfg k s' /\
      exists d, os_file s' (cas_path cfg k) = Some d /\ Final d = Final c.
Proof.
  intros [H1 H2 H3 H4 H5 H6] (D1 & D2 & res & -> & D3). split.
  - split; try done. intros k Hk. destruct (H4 k Hk) as [Hv Hf]. split; [done|]. cbn.
    destruct (decide (k = Final c)) as [->|Hne]; [|by rewrite D2].
    destruct res as [k'|e]; [|by rewrite D3]. destruct D3 as (_ & c' & -> & _). done.
  - exists res. split; [done|]. intros k ->. destruct D3 as (-> & c' & D4 & D5 & _).
    split; [done|]. split; [|eauto]. split; [apply final_valid|eauto].
Qed.

(** The content and the size of the body of a request: those of the body it carries,
    or, for a body that came as a stream, those the internal headers announce. *)
Definition put_cas (request : HttpRequest) : string :=
  let c := GetHeader "X-Internal-CAS-Key" request in if str_empty c then SHA256 (body_ request) else c.

Definition put_size (request : HttpRequest) : Z :=
  let n := Z.of_nat (String.length (body_ request)) in
  if str_empty (GetHeader "X-Internal-CAS-Key" request) then n
  else conv_or n (stoull (GetHeader "X-Internal-Size" request)).

Definition put_stored_body request (sb : StoredBody) : Prop :=
  sb_cas_key sb = put_cas request /\ sb_data_size sb = put_size request.

Lemma wp_store_body request w :
  store_ok cfg w -> streamed request w ->
  wp (store_body cfg request) (fun r w' => store_ok cfg w' /\ abs (tables_of w') = abs (tables_of w) /\
    exists res, r = Ret res /\
      forall sb, res = Some sb -> in_place cfg (sb_cas_key sb) (sw_os w') /\ put_stored_body request sb) w.
Proof.
  intros Hok Hst. unfold store_body, put_stored_body, put_cas, put_size. cbv zeta. destruct (str_empty (GetHeader "X-Internal-CAS-Key" request)) eqn:E; cbn [negb].
  - apply str_empty_spec in E. apply wp_bind, wp_ask_os. apply wp_bind, wp_on_os.
    eapply wp_mono; [apply wp_data_write; apply Hok|]. intros r s' S.
    destruct (stored_ok _ _ _ _ Hok S) as (H1 & res & -> & H2). apply wp_ret.
    split; [done|]. split; [done|]. eexists. split; [done|]. intros sb Hsb.
    destruct res as [k|e]; [|done]. injection Hsb as <-. cbn.
    destruct (H2 k eq_refl) as (Hk & Hp & d & Hd & Hf). split; [done|]. by split.
  - apply str_empty_false in E. apply wp_ret. split; [done|]. split; [done|]. eexists. split; [done|].
    intros sb [= <-]. cbn. split; [by apply Hst|done].
Qed.

(** ** PUT *)

Lemma in_place_nonempty c s : in_place cfg c s -> c <> "".
Proof. intros [Hv _]. apply valid_key_length in Hv. by intros ->. Qed.

(** The tables after a put of a content in place. *)
Lemma put_store_ok (m' : MetaW) c a' w :
  store_ok cfg w -> in_place cfg c (sw_os w) -> open_tx m' = None -> abs (committed m') = a' ->
  covered a' -> (forall d, refers a' d -> d = c \/ refers (abs (tables_of w)) d) ->
  later (m_srv (sw_meta w)) (m_srv m') -> store_ok cfg (set_meta m' w).
Proof.
  intros [H1 H2 H3 H4 H5 H6] Hp Ho <- Hc Hr Hl. split; try done; [|by eapply starts_later].
  intros d Hd. destruct (Hr d Hd) as [-> |Hd']; [done|]. by apply H4.
Qed.

(** The content an operation releases was referred to. *)
Lemma move_released old new a c : fst (a_move old new a) = Some c -> c = old /\ old <> "".
Proof.
  unfold a_move, a_gc. destruct (str_empty old) eqn:E; cbn [negb andb orb]; [done|].
  apply str_empty_false in E. repeat case_match; cbn; try done; by intros [= <-].
Qed.

Lemma put_released b k c size ct etag a g :
  fst (a_put b k c size ct etag a) = Some g -> refers a g.
Proof.
  unfold a_put. destruct (a_find b k a) as [o|] eqn:F.
  - pose proof (move_released (ao_cas o) c a g) as Hm. destruct (a_move (ao_cas o) c a) as [gc a1].
    cbn in *. intros E. apply Hm in E as [-> _]. apply a_find_Some in F as [F _]. left. eauto.
  - pose proof (move_released "" c a g) as Hm. destruct (a_move "" c a) as [gc a1].
    cbn in *. intros E. by apply Hm in E as [_ ?].
Qed.

Lemma put_part_released u n c a g : fst (a_put_part u n c a) = Some g -> refers a g.
Proof.
  unfold a_put_part. set (old := default "" (a_parts a !! (coll u, n))).
  pose proof (move_released old c a g) as Hm. destruct (a_move old c a) as [gc a1].
  cbn in *. intros E. apply Hm in E as [-> Hne]. right. exists (coll u, n). subst old.
  by destruct (a_parts a !! (coll u, n)).
Qed.

Lemma delete_released b k a g a' : a_delete b k a = Some (Some g, a') -> refers a g.
Proof.
  unfold a_delete, a_gc. destruct (a_find b k a) as [o|] eqn:F; [|done]. apply a_find_Some in F as [F _].
  repeat case_match; try done. intros [= <- _]. left. eauto.
Qed.

(** An answer whose released content, if any, has a well-formed key. *)
Definition gc_valid (r : exn GcKey) : Prop :=
  forall c, r = Ret (Ok (Some c)) -> IsValidCasKey c = true.

Lemma wp_put_ref b k size etag ct c w :
  store_ok cfg w -> in_place cfg c (sw_os w) ->
  wp (on_meta (PutObjectWithRefCount b k size etag ct c))
     (fun r w' => store_ok cfg w' /\ sw_os w' = sw_os w /\ gc_valid r /\
        forall gc, r = Ret (Ok gc) -> (gc, abs (tables_of w')) = a_put b k c size ct etag (abs (tables_of w))) w.
Proof.
  intros Hok Hp. pose proof Hok as [H1 H2 H3 H4 H5 H6].
  apply wp_on_meta_runs; [auto with minis3|].
  eapply wp_mono; [by apply put_object_refines|]. intros r m' [D1 D2] Hl.
  pose proof (covered_put b k c size ct etag _ (in_place_nonempty _ _ Hp) H3) as Hc.
  pose proof (refers_put b k c size ct etag (abs (tables_of w))) as Hr.
  assert (Hput : abs (committed m') = snd (a_put b k c size ct etag (abs (tables_of w))) ->
    store_ok cfg (set_meta m' w)).
  { intros E. by eapply put_store_ok. }
  assert (Hsame : committed m' = committed (sw_meta w) -> store_ok cfg (set_meta m' w)).
  { intros E. eapply store_ok_same; [|done]. split_and!; [done| |done|done|done]. unfold tables_of. cbn. by rewrite E. }
  split; [|split; [done|split]].
  - unfold gc_outcome in D2. destruct r as [[gc|s]|e]; [|destruct D2; auto..].
    apply Hput. unfold tables_of. by rewrite <-D2.
  - intros g ->. apply H4. eapply (put_released b k c size ct etag). unfold tables_of. by rewrite <-D2.
  - intros gc ->. exact D2.
Qed.

Lemma wp_put_part_ref u n c size etag w :
  store_ok cfg w -> in_place cfg c (sw_os w) ->
  wp (on_meta (PutPartWithRefCount u n c size etag)) (fun r w' => store_ok cfg w' /\ gc_valid r) w.
Proof.
  intros Hok Hp. pose proof Hok as [H1 H2 H3 H4 H5 H6].
  apply wp_on_meta_runs; [auto with minis3|].
  eapply wp_mono; [by apply put_part_refines|]. intros r m' [D1 D2] Hl.
  pose proof (covered_put_part u n c _ (in_place_nonempty _ _ Hp) H3) as Hc.
  pose proof (refers_put_part u n c (abs (tables_of w))) as Hr.
  assert (Hput : abs (committed m') = snd (a_put_part u n c (abs (tables_of w))) ->
    store_ok cfg (set_meta m' w)).
  { intros E. by eapply put_store_ok. }
  assert (Hsame : committed m' = committed (sw_meta w) -> store_ok cfg (set_meta m' w)).
  { intros E. eapply store_ok_same; [|done]. split_and!; [done| |done|done|done]. unfold tables_of. cbn. by rewrite E. }
  split.
  - unfold gc_outcome in D2. destruct r as [[gc|s]|e]; [|destruct D2; auto..].
    apply Hput. unfold tables_of. by rewrite <-D2.
  - intros g ->. apply H4. eapply (put_part_released u n c). unfold tables_of. by rewrite <-D2.
Qed.

(** What follows a successful answer that may release a content. *)
Lemma keeps_queue {A} gc (op : SM A) :
  gc_valid (Ret (Ok gc)) -> still op -> keeps cfg (queue_garbage gc ≫= fun _ => op).
Proof.
  intros Hg Ho. apply keeps_still, still_bind; [|done]. apply still_queue. intros c ->. by apply Hg.
Qed.

Lemma keeps_cleanup_if b c : IsValidCasKey c = true -> keeps cfg (cleanup_if cfg b c).
Proof.
  intros Hv. unfold cleanup_if. destruct b; [by apply keeps_cleanup|apply keeps_still, still_ret].
Qed.

Lemma keeps_then_refuse {A} (op : SM A) r : keeps cfg op -> keeps cfg (op ≫= fun _ => refuse r).
Proof. intros Ho. apply keeps_bind; [done|]. intros _. apply keeps_still, still_refuse. Qed.

Lemma wp_put_stored r bn k b h sb w :
  store_ok cfg w -> in_place cfg (sb_cas_key sb) (sw_os w) ->
  wp (put_stored cfg r bn k b h sb) (fun _ w' => store_ok cfg w') w.
Proof.
  intros Hok Hp. apply wp_bind. eapply wp_mono; [by apply wp_put_ref|].
  intros res w' (Hok' & Hs & Hg & _). destruct res as [[gc|s]|e]; [| |done].
  - apply keeps_queue; [done| |done]. still_tac.
  - apply keeps_then_refuse; [|done]. apply keeps_cleanup_if, Hp.
Qed.

Lemma in_place_still c w w' : same_store w w' -> in_place cfg c (sw_os w) -> in_place cfg c (sw_os w').
Proof. intros (_ & _ & S & _). by apply in_place_same. Qed.

Lemma streamed_still r w w' : same_store w w' -> streamed r w -> streamed r w'.
Proof. intros S Hs Hne. eapply in_place_still; [done|by apply Hs]. Qed.

Lemma wp_still_ok {A B} (op : SM A) (k : A -> SM B) w :
  still op -> store_ok cfg w ->
  (forall a w', same_store w w' -> store_ok cfg w' -> wp (k a) (fun _ w2 => store_ok cfg w2) w') ->
  wp (op ≫= k) (fun _ w2 => store_ok cfg w2) w.
Proof.
  intros Ho Hw Hk. apply wp_still; [done|apply Hw| |].
  - intros a w' S. apply Hk; [done|]. exact (store_ok_same cfg _ _ S Hw).
  - intros e w' S. exact (store_ok_same cfg _ _ S Hw).
Qed.

(** The part of the PUT handlers behind the lookups. *)
Lemma wp_then_stored {A} (k : StoredBody -> SM A) (none : SM A) r w :
  store_ok cfg w -> streamed r w -> still none ->
  (forall sb w', store_ok cfg w' -> in_place cfg (sb_cas_key sb) (sw_os w') ->
     wp (k sb) (fun _ w2 => store_ok cfg w2) w') ->
  wp (store_body cfg r ≫= fun stored => match stored with None => none | Some sb => k sb end)
     (fun _ w2 => store_ok cfg w2) w.
Proof.
  intros Hok Hst Hn Hk. apply wp_bind. eapply wp_mono; [by apply wp_store_body|].
  intros res w' (Hok' & _ & o & -> & Ho). destruct o as [sb|]; [|by apply keeps_still].
  apply Hk; [done|]. by apply (Ho sb).
Qed.

Lemma wp_PutObject r w :
  store_ok cfg w -> streamed r w -> wp (ObjectHandlers_PutObject cfg r) (fun _ w' => store_ok cfg w') w.
Proof.
  intros Hok Hst. unfold ObjectHandlers_PutObject, with_params. case_match; [by apply keeps_still; auto with minis3|].
  unfold with_bucket. apply wp_still_ok; [auto with minis3|done|]. intros br w1 S1 Hok1.
  destruct br as [bi|s]; [|case_match; by apply keeps_still; auto with minis3].
  case_match; [by apply keeps_still; auto with minis3|].
  apply wp_then_stored; [done|by eapply streamed_still|auto with minis3|].
  intros sb w2 Hok2 Hp. case_match.
  { apply keeps_then_refuse; [|done]. apply keeps_cleanup_if, Hp. }
  apply wp_still_ok; [unfold check_idempotency; still_tac|done|]. intros ans w3 S3 Hok3.
  destruct ans as [x|].
  - by apply keeps_still; auto with minis3.
  - apply wp_put_stored; [done|by eapply in_place_still].
Qed.

Lemma wp_UploadPart r w :
  store_ok cfg w -> streamed r w -> wp (MultipartHandlers_UploadPart cfg r) (fun _ w' => store_ok cfg w') w.
Proof.
  intros Hok Hst. unfold MultipartHandlers_UploadPart.
  case_match; [by apply keeps_still; auto with minis3|].
  destruct (part_number_of _) as [msg|n]; [by apply keeps_still; auto with minis3|].
  unfold with_upload. apply wp_still_ok; [auto with minis3|done|]. intros ur w1 S1 Hok1.
  destruct ur as [up|s]; [|case_match; by apply keeps_still; auto with minis3].
  apply wp_still_ok; [auto with minis3|done|]. intros br w2 S2 Hok2.
  do 3 (match goal with |- wp (if ?b then _ else _) _ _ => destruct b end;
        [by apply keeps_still; auto with minis3|]).
  apply wp_then_stored; [done| |auto with minis3|].
  { eapply streamed_still; [exact S2|]. by eapply streamed_still. }
  intros sb w3 Hok3 Hp. apply wp_bind. eapply wp_mono; [by apply wp_put_part_ref|].
  intros res w' [Hok' Hg]. destruct res as [[gc|s]|e]; [| |done].
  - apply keeps_queue; [done| |done]. still_tac.
  - apply keeps_then_refuse; [|done]. apply keeps_cleanup_if, Hp.
Qed.

(** ** DELETE *)

Lemma wp_delete_ref b k w :
  store_ok cfg w -> wp (on_meta (DeleteObjectWithRefCount b k))
    (fun r w' => store_ok cfg w' /\ gc_valid r) w.
Proof.
  intros Hok. pose proof Hok as [H1 H2 H3 H4 H5 H6].
  apply wp_on_meta_runs; [auto with minis3|].
  eapply wp_mono; [by apply delete_object_refines|]. intros r m' [D1 D2] Hl.
  assert (Hdel : forall gc, a_delete b k (abs (tables_of w)) = Some (gc, abs (committed m')) ->
    store_ok cfg (set_meta m' w)).
  { intros gc E. split; try done; [by eapply covered_delete| |by eapply starts_later].
    intros c Hc. apply H4. by eapply refers_delete. }
  assert (Hsame : committed m' = committed (sw_meta w) -> store_ok cfg (set_meta m' w)).
  { intros E. eapply store_ok_same; [|done]. split_and!; [done| |done|done|done]. unfold tables_of. cbn. by rewrite E. }
  unfold delete_outcome in D2. split.
  - destruct r as [[gc|s]|e]; [eauto| |].
    + destruct D2 as [_ [E|[gc E]]]; eauto.
    + destruct D2 as [E|[gc E]]; eauto.
  - intros g ->. apply H4. by eapply delete_released.
Qed.

Lemma wp_DeleteObject r w :
  store_ok cfg w -> wp (ObjectHandlers_DeleteObject r) (fun _ w' => store_ok cfg w') w.
Proof.
  intros Hok. unfold ObjectHandlers_DeleteObject, with_params.
  case_match; [by apply keeps_still; auto with minis3|].
  unfold with_bucket. apply wp_still_ok; [auto with minis3|done|]. intros br w1 S1 Hok1.
  destruct br as [bi|s]; [|case_match; by apply keeps_still; auto with minis3].
  unfold with_object. apply wp_still_ok; [auto with minis3|done|]. intros obr w2 S2 Hok2.
  destruct obr as [obj|s]; [|case_match; by apply keeps_still; auto with minis3].
  apply wp_bind. eapply wp_mono; [by apply wp_delete_ref|]. intros res w3 [Hok3 Hg].
  destruct res as [[gc|s]|e]; [| |done].
  - apply keeps_queue; [done| |done]. auto with minis3.
  - by apply keeps_still; auto with minis3.
Qed.

(** Deleting a bucket takes its objects and parts with it; the counts of their
    contents stay as they are. *)
Definition shrinks (a a' : AStore) : Prop :=
  a_refs a' = a_refs a /\ a_objs a' ⊆ a_objs a /\ a_parts a' ⊆ a_parts a.

Lemma shrinks_covered a a' : shrinks a a' -> covered a -> covered a'.
Proof.
  intros (H1 & H2 & H3) Ha. split.
  - intros c. rewrite H1. pose proof (covered_refs _ Ha c) as Hc. unfold a_count in *.
    pose proof (count_subseteq (fun o => String.eqb (coll (ao_cas o)) c) _ _ H2).
    pose proof (count_subseteq (fun p => String.eqb (coll p) c) _ _ H3). lia.
  - intros k o Hk. eapply covered_objs; [done|]. by eapply lookup_weaken.
  - intros k p Hk. eapply covered_parts; [done|]. by eapply lookup_weaken.
Qed.

Lemma shrinks_refers a a' c : shrinks a a' -> refers a' c -> refers a c.
Proof.
  intros (_ & H2 & H3) [(k & o & Hk & Ho)|(k & Hk)].
  - left. exists k, o. split; [by eapply lookup_weaken|done].
  - right. exists k. by eapply lookup_weaken.
Qed.

Lemma exec_delete_bucket_shrinks t n t' rows aff ids :
  exec_delete_bucket t n = Done t' rows aff ids -> shrinks (abs t) (abs t').
Proof.
  unfold exec_delete_bucket. destruct (buckets t !! coll n) as [br|]; intros E; injection E as <- <- <- <-.
  - split_and!; [done|apply map_fmap_mono, keep_where_subseteq|apply map_fmap_mono, keep_where_subseteq].
  - by split_and!.
Qed.

Lemma wp_delete_bucket n (m : MetaW) :
  open_tx m = None ->
  wp (DeleteBucket n) (fun _ m' => open_tx m' = None /\ shrinks (abs (committed m)) (abs (committed m'))) m.
Proof.
  intros Hm. assert (Hr : forall t : Tables, shrinks (abs t) (abs t)) by (by intros; split_and!).
  apply wp_with_conn; intros p; [by split|]. apply wp_bind. unfold execute_one.
  apply wp_bind. apply wp_conn_run; [done|done| |].
  - intros m' t' rows aff id ids _ He _ Hc Ho. change (committed (set_pool p m)) with (committed m) in He.
    apply exec_delete_bucket_shrinks in He.
    assert (Hq : shrinks (abs (committed m)) (abs (committed m'))) by by rewrite Hc.
    case_match; apply wp_ret; case_match; try (by apply wp_ret); by apply wp_bind.
  - intros m' e _ Hc Ho _. change (committed (set_pool p m)) with (committed m) in Hc.
    assert (Hq : shrinks (abs (committed m)) (abs (committed m'))) by by rewrite Hc.
    apply wp_ret. by apply wp_ret.
Qed.

Lemma wp_DeleteBucket r w :
  store_ok cfg w -> wp (BucketHandlers_DeleteBucket r) (fun _ w' => store_ok cfg w') w.
Proof.
  intros Hok. unfold BucketHandlers_DeleteBucket, with_bucket_name.
  case_match; [by apply keeps_still; auto with minis3|].
  unfold bucket_info. apply wp_still_ok; [auto with minis3|done|]. intros br w1 S1 Hok1.
  destruct br as [bi|s]; [|case_match; by apply keeps_still; auto with minis3].
  apply wp_still_ok; [auto with minis3|done|]. intros er w2 S2 Hok2.
  destruct er as [[]|s]; [|by apply keeps_still; auto with minis3..].
  apply wp_bind, wp_on_meta_runs; [auto with minis3|]. eapply wp_mono; [apply wp_delete_bucket, Hok2|].
  intros res m' [D1 D2] Hl. pose proof Hok2 as [H1 H2 H3 H4 H5 H6].
  assert (Hok3 : store_ok cfg (set_meta m' w2)).
  { split; try done; [by eapply shrinks_covered| |by eapply starts_later]. intros c Hc. apply H4. by eapply shrinks_refers. }
  destruct res as [st|e]; [|done]. case_match; by apply keeps_still; auto with minis3.
Qed.

(** ** Serving requests one at a time *)

(** One request served, or one batch of the collector; the last two handlers of
    an upload are not among them (they release the parts' references before they
    delete the upload, in separate statements). *)
Inductive serve : StoreW -> StoreW -> Prop :=
  | Serve_PutObject r x w w' : streamed r w -> ObjectHandlers_PutObject cfg r w = (x, w') -> serve w w'
  | Serve_GetObject r x w w' : ObjectHandlers_GetObject cfg r w = (x, w') -> serve w w'
  | Serve_HeadObject r x w w' : ObjectHandlers_HeadObject r w = (x, w') -> serve w w'
  | Serve_DeleteObject r x w w' : ObjectHandlers_DeleteObject r w = (x, w') -> serve w w'
  | Serve_ListObjects r x w w' : ObjectHandlers_ListObjects r w = (x, w') -> serve w w'
  | Serve_InitUpload r x w w' : MultipartHandlers_InitUpload r w = (x, w') -> serve w w'
  | Serve_UploadPart r x w w' : streamed r w -> MultipartHandlers_UploadPart cfg r w = (x, w') -> serve w w'
  | Serve_ListParts r x w w' : MultipartHandlers_ListParts r w = (x, w') -> serve w w'
  | Serve_CreateBucket r x w w' : BucketHandlers_CreateBucket r w = (x, w') -> serve w w'
  | Serve_GetBucket r x w w' : BucketHandlers_GetBucket r w = (x, w') -> serve w w'
  | Serve_DeleteBucket r x w w' : BucketHandlers_DeleteBucket r w = (x, w') -> serve w w'
  | Serve_ListBuckets r x w w' : BucketHandlers_ListBuckets r w = (x, w') -> serve w w'
  | Serve_collect n x w w' : ProcessBatch cfg n w = (x, w') -> serve w w'.

Lemma run_keeps {A} (op : SM A) w r w' : keeps cfg op -> op w = (r, w') -> store_ok cfg w -> store_ok cfg w'.
Proof. intros Hk E Hok. exact (wp_run _ _ _ _ _ E (Hk w Hok)). Qed.

Lemma run_still {A} (op : SM A) w r w' : still op -> op w = (r, w') -> store_ok cfg w -> store_ok cfg w'.
Proof. intros Ho. apply run_keeps. by apply keeps_still. Qed.

Lemma serve_ok w w' : serve w w' -> store_ok cfg w -> store_ok cfg w'.
Proof.
  intros S Hok. destruct S as [r x w w' Hs E|r x w w' E|r x w w' E|r x w w' E|r x w w' E|r x w w' E
    |r x w w' Hs E|r x w w' E|r x w w' E|r x w w' E|r x w w' E|r x w w' E|n x w w' E].
  - exact (wp_run _ _ _ _ _ E (wp_PutObject r w Hok Hs)).
  - eapply run_still; [apply still_GetObject|done..].
  - eapply run_still; [apply still_HeadObject|done..].
  - eapply run_keeps; [intros w0; apply wp_DeleteObject|done..].
  - eapply run_still; [apply still_ListObjects|done..].
  - eapply run_still; [apply still_InitUpload|done..].
  - exact (wp_run _ _ _ _ _ E (wp_UploadPart r w Hok Hs)).
  - eapply run_still; [apply still_ListParts|done..].
  - eapply run_still; [apply still_CreateBucket|done..].
  - eapply run_still; [apply still_GetBucket|done..].
  - eapply run_keeps; [intros w0; apply wp_DeleteBucket|done..].
  - eapply run_still; [apply still_ListBuckets|done..].
  - eapply gc_step_store_ok; [|exact Hok]. exact (wp_run _ _ _ _ _ E (wp_process_batch cfg n w Hok)).
Qed.

(** ** Properties *)

(** C1. No object is lost or corrupted: after any sequence of requests (of all the
    handlers but CompleteUpload and AbortUpload) and collector batches, served one at a
    time, the content of every object is in its place and hashes to the key the object
    refers to, and no count is below the number of references. The session of the
    database accepts START TRANSACTION (in [store_ok]); whatever any other statement and
    the file system answer. An X-Internal-CAS-Key header of a request is one the server
    has set ([streamed]): it names a content in place. *)
Theorem store_consistent w w' :
  store_ok cfg w -> rtc serve w w' ->
  store_ok cfg w' /\
  forall k o, a_objs (abs (tables_of w')) !! k = Some o ->
    exists d, os_file (sw_os w') (cas_path cfg (ao_cas o)) = Some d /\ Final d = ao_cas o.
Proof.
  intros Hok Hs. assert (Hok' : store_ok cfg w').
  { induction Hs as [|w1 w2 w3 S _ IH]; [done|]. by apply IH, (serve_ok w1 w2). }
  split; [done|]. intros k o Hk. destruct (so_backed cfg _ Hok' (ao_cas o)) as [Hv [d Hd]].
  { left. eauto. }
  exists d. split; [done|]. by eapply so_cas.
Qed.
End handlers.

(** ** Witnesses *)

Definition mem_cfg : StoreConfig := MkConfig "/data" "/tmp" FSYNC.

Lemma covered_no_refs t :
  objects t = ∅ -> parts t = ∅ -> (forall c r, cas_blobs t !! c = Some r -> 0 <= cr_ref r) ->
  covered (abs t).
Proof.
  intros Ho Hp Hr. unfold abs. rewrite Ho, Hp, !fmap_empty. split; cbn.
  - intros c. unfold a_count. cbn. rewrite !count_empty, lookup_fmap.
    destruct (cas_blobs t !! c) as [r|] eqn:E; cbn; [|lia]. apply Hr in E. lia.
  - intros k o. by rewrite lookup_empty.
  - intros k p. by rewrite lookup_empty.
Qed.

Lemma no_refs t c : objects t = ∅ -> parts t = ∅ -> ~ refers (abs t) c.
Proof.
  intros Ho Hp [(k & o & Hk & _)|(k & Hk)]; revert Hk; unfold abs; cbn; rewrite ?Ho, ?Hp, fmap_empty;
    by rewrite lookup_empty.
Qed.

(** A server without any content, at its first statement. *)
Definition fresh_world (t : Tables) (faults : list (option string)) : StoreW :=
  MkStoreW _ _ _ _ (mem_world t faults) (MkOs ∅ 0 0) (Some []).

Lemma fresh_world_ok t faults :
  objects t = ∅ -> parts t = ∅ -> cas_blobs t = ∅ -> store_ok mem_cfg (fresh_world t faults).
Proof.
  intros Ho Hp Hc. split; [done| | |by intros c Hr; eapply no_refs in Hr|by apply Forall_nil|apply mem_starts].
  - intros k c _ Hk. change ((∅ : gmap string (list ascii)) !! cas_path mem_cfg k = Some c) in Hk.
    by rewrite lookup_empty in Hk.
  - apply covered_no_refs; [done..|]. intros c r Hr. change (cas_blobs t !! c = Some r) in Hr.
    by rewrite Hc, lookup_empty in Hr.
Qed.

(** One content, in its place. *)
Definition sample_key : string := SHA256 "hello".

Definition sample_files : @os mem_posix := MkOs {[cas_path mem_cfg sample_key := bytes_of "hello"]} 2 0.

Lemma sample_files_ok : cas_ok mem_cfg sample_files.
Proof.
  intros k c Hv Hk.
  pose proof (proj1 (lookup_singleton_Some (M := gmap string) (cas_path mem_cfg sample_key)
    (cas_path mem_cfg k) (bytes_of "hello") c) Hk) as [Hp <-]. clear Hk.
  assert (Hs : IsValidCasKey sample_key = true) by apply (final_valid (bytes_of "hello")).
  apply cas_path_inj in Hp; [exact Hp|]. by rewrite !valid_key_length.
Qed.

(** A bucket, a content without references, and its key in the queue. *)
Definition sample_tables : Tables :=
  set_buckets {["b" := MkBucketRow 1 "b" 0]}
    (set_cas {[sample_key := MkCasRow sample_key 5 0 1 1]} (set_counters 2 1 empty_tables)).

Definition sample_world : StoreW :=
  MkStoreW _ _ _ _ (mem_world sample_tables []) sample_files (Some [sample_key]).

Lemma sample_world_ok : store_ok mem_cfg sample_world.
Proof.
  split.
  - reflexivity.
  - apply sample_files_ok.
  - apply covered_no_refs; [reflexivity..|]. intros c r Hr.
    pose proof (proj1 (lookup_singleton_Some (M := gmap string) sample_key c
      (MkCasRow sample_key 5 0 1 1) r) Hr) as [_ <-]. cbn. lia.
  - intros c Hc. exfalso. by eapply no_refs in Hc.
  - apply Forall_singleton. apply (final_valid (bytes_of "hello")).
  - apply mem_starts.
Qed.

Definition put_request : HttpRequest :=
  SetPathParam "object" "o" (SetPathParam "bucket" "b"
    (SetBody "hello" (SetMethod PUT new_request))).

Lemma gc_batch_safe_witness :
  exists w', ProcessBatch mem_cfg 100 sample_world = (Ret tt, w') /\ store_ok mem_cfg w' /\
    os_file (sw_os w') (cas_path mem_cfg sample_key) = None.
Proof.
  destruct (ProcessBatch mem_cfg 100 sample_world) as [r w'] eqn:E.
  assert (Hr : r = Ret tt).
  { change r with (fst (r, w')). rewrite <-E. vm_compute. reflexivity. }
  exists w'. split; [by rewrite Hr|]. split.
  - exact (proj1 (gc_batch_safe mem_cfg 100 sample_world r w' sample_world_ok E)).
  - change w' with (snd (r, w')). rewrite <-E. vm_compute. reflexivity.
Defined.

Lemma store_consistent_witness :
  exists resp w', ObjectHandlers_PutObject mem_cfg put_request sample_world = (Ret resp, w') /\
    status_code_ resp = 200 /\ store_ok mem_cfg w'.
Proof.
  destruct (ObjectHandlers_PutObject mem_cfg put_request sample_world) as [r w'] eqn:E.
  assert (Hr : exists resp, r = Ret resp /\ status_code_ resp = 200).
  { change r with (fst (r, w')). rewrite <-E. eexists. split; vm_compute; reflexivity. }
  destruct Hr as (resp & -> & Hs). exists resp, w'. split; [reflexivity|]. split; [exact Hs|].
  apply (store_consistent mem_cfg sample_world w' sample_world_ok).
  eapply rtc_once, Serve_PutObject; [|exact E]. intros H. by destruct H.
Defined.

Lemma pair_of_fst {A B} (p : A * B) a : fst p = a -> p = (a, snd p).
Proof. destruct p. cbn. by intros ->. Qed.

(** ** The collector against a PUT *)

(** The worlds of a PUT of [sample_key]'s content when a batch of the collector
    runs between the two halves of the handler. *)
Definition race_stored : exn (option StoredBody) * StoreW := store_body mem_cfg put_request sample_world.
Definition race_body : StoredBody :=
  match fst race_stored with Ret (Some sb) => sb | _ => MkStored "" 0 false end.
Definition race_collected : exn unit * StoreW := ProcessBatch mem_cfg 100 (snd race_stored).
Definition race_put : exn HttpResponse * StoreW :=
  put_stored mem_cfg put_request "b" "o" 1 "" race_body (snd race_collected).

(** The two checks of the collector do not protect a PUT that has stored its
    content and not yet counted it: from a consistent store, when a batch runs
    between the data store's write (which finds the content there already) and
    the metadata transaction, the PUT is answered 200 and the object it created
    refers to a content whose file is gone. *)
Theorem gc_race_loses_object :
  exists sb w1 w2 w3 resp o,
    store_ok mem_cfg sample_world /\
    store_body mem_cfg put_request sample_world = (Ret (Some sb), w1) /\
    ProcessBatch mem_cfg 100 w1 = (Ret tt, w2) /\
    put_stored mem_cfg put_request "b" "o" 1 "" sb w2 = (Ret resp, w3) /\
    status_code_ resp = 200 /\
    a_find 1 "o" (abs (tables_of w3)) = Some o /\
    os_file (sw_os w3) (cas_path mem_cfg (ao_cas o)) = None.
Proof.
  exists race_body, (snd race_stored), (snd race_collected), (snd race_put),
    (match fst race_put with Ret r => r | Throw _ => new_response end),
    (default (MkAObject "" "" 0 "" "") (a_find 1 "o" (abs (tables_of (snd race_put))))).
  split; [apply sample_world_ok|].
  split; [apply (pair_of_fst race_stored); vm_compute; reflexivity|].
  split; [apply (pair_of_fst race_collected); vm_compute; reflexivity|].
  split; [apply (pair_of_fst race_put); vm_compute; reflexivity|].
  split; [vm_compute; reflexivity|]. split; vm_compute; reflexivity.
Qed.
