(* ===== verification/Interleaving.v ===== *)
(** * Requests interleaved with each other and with the collector

    The server serves requests in several threads beside the thread of the
    collector. The state of all of them as a step relation, one call of one thread
    at a time ([sys_step]), and the invariant that every object keeps its content
    as long as no thread removes a content another one holds ([careful]). *)
From S2P Require Import Prelude Status Json Crypto Sql MySQLTx MetaStore Sessions MetaStoreSpec MetaStoreProps MemServer.
From S2P Require Import Uuid FileSys DataStore DataStoreSpec DataStoreProps HttpResponse.
From S2P Require Import HttpRequest HttpRouter Auth World StoreSpec Gc GcProps ObjectHandlers.
From S2P Require Import MultipartHandlers BucketHandlers Programs StoreProps.

Open Scope Z_scope.

(** ** What a write leaves alone *)

Section leaves.
Context `{HX : Posix, HD : Digest} `{HLX : !PosixLaws} (cfg : StoreConfig).
Implicit Types (s : os).

(** A file the collector moved aside: no temporary file of a write, no content. *)
Definition aside_name (q : string) : Prop := is_temp cfg q /\ forall dir u, q <> JoinPath dir (u +:+ ".part").

(** The file [q] stays as it is, on any outcome. *)
Definition leaves {A} (q : string) (op : M os A) : Prop := forall s,
  wp op (fun _ s' => os_file s' q = os_file s q) s.

Lemma aside_ret {A} q (a : A) : leaves q (mret a).
Proof. by intros s; apply wp_ret. Qed.

Lemma leaves_throw {A} q e : leaves q (lift_exn (A := A) (Throw e)).
Proof. by intros s. Qed.

Lemma aside_bind {A B} q (op : M os A) (k : A -> M os B) :
  leaves q op -> (forall a, leaves q (k a)) -> leaves q (op ≫= k).
Proof.
  intros Ho Hk s. apply wp_bind. eapply wp_mono; [apply Ho|].
  intros [a|e] s1 E; [|done]. eapply wp_mono; [apply Hk|]. intros r s2 E2. by rewrite E2.
Qed.

Lemma leaves_sys {A} q (f : os -> A * os) :
  (forall s a s', f s = (a, s') -> os_file s' q = os_file s q) -> leaves q (sys f).
Proof. intros Hf s. apply wp_sys. intros a s' E. by eapply Hf. Qed.

Lemma leaves_write_loop q path fuel data : path <> q -> leaves q (write_loop fuel path data).
Proof.
  intros Hne. revert data. induction fuel as [|fuel IH]; intros [|x data]; cbn [write_loop];
    try apply aside_ret; [apply leaves_throw|].
  apply aside_bind.
  - apply leaves_sys. intros s r s' E. apply write_law in E; [|done].
    destruct r; [apply E; by intros ->|by apply E..].
  - intros [n| |e]; [apply IH..|apply aside_ret].
Qed.

Lemma leaves_write_all q path data : path <> q -> leaves q (write_all path data).
Proof. intros Hne s. exact (leaves_write_loop q path (length data + os_patience s)%nat data Hne s). Qed.

Lemma leaves_remove q p : p <> q -> leaves q (RemoveFile p).
Proof.
  intros Hne s. unfold wp, RemoveFile. destruct (sys_unlink p s) as [r s'] eqn:E. cbn.
  apply unlink_law in E as [_ E]. destruct r; [apply (proj2 E); by intros ->|apply E..].
Qed.

Lemma leaves_mkdirs q p : leaves q (CreateDirectories p).
Proof. intros s. eapply wp_mono; [apply wp_mkdirs|]. intros r s' [S _]. apply S. Qed.

Lemma leaves_rename q a b : a <> b -> a <> q -> b <> q -> leaves q (AtomicRename a b).
Proof.
  intros Hab Ha Hb s. eapply wp_mono; [by apply wp_rename|]. intros r s' (st & -> & D).
  destruct (status_ok st); [|apply D]. destruct D as (_ & _ & D). by apply D; intros ->.
Qed.

Lemma leaves_finish q mode ws : leaves q (Finish mode ws).
Proof.
  unfold Finish. case_match; [apply aside_ret|]. apply aside_bind; [|intros _; apply aside_bind].
  - case_match; [..|apply aside_ret]; (apply aside_bind; [|intros ?; apply aside_ret]);
      apply leaves_sys; intros s b s' E; apply sync_law in E; apply E.
  - apply leaves_sys. intros s [] s' [= <-]. apply close_law.
  - intros _. apply aside_ret.
Qed.

Lemma leaves_destroy q ws : ws_tmp_path ws <> q -> leaves q (destroy_session ws).
Proof.
  intros Hne. unfold destroy_session. case_match; [|apply aside_ret]. apply aside_bind; [|intros _; apply aside_ret].
  unfold Abort_session. apply aside_bind; [|intros _; apply aside_bind; [|intros _; apply aside_ret]].
  - case_match; [|apply aside_ret]. apply leaves_sys. intros s [] s' [= <-]. apply close_law.
  - case_match; [apply aside_ret|]. apply aside_bind; [|intros _; apply aside_ret].
    apply leaves_sys. intros s r s' E. apply unlink_law in E as [_ E].
    destruct r; [apply (proj2 E); by intros ->|apply E..].
Qed.

(** Storing a finished temporary file touches it and the place of its content. *)
Lemma leaves_place q tmp key :
  is_temp cfg q -> is_temp cfg tmp -> tmp <> q -> leaves q (place_file cfg tmp key).
Proof.
  intros Hq Ht Hne.
  assert (Hf : forall (x : Result string), leaves q (_ ← RemoveFile tmp; mret x)).
  { intros x. apply aside_bind; [by apply leaves_remove|]. intros _. apply aside_ret. }
  unfold place_file. apply aside_bind; [by intros s|]. intros [|]; [apply Hf|].
  apply aside_bind; [apply leaves_mkdirs|]. intros st. case_match; [apply Hf|].
  apply aside_bind; [|intros st2; case_match; [apply Hf|apply aside_ret]].
  apply leaves_rename; [apply Ht|done|]. intros E. by apply (Hq key).
Qed.

Lemma leaves_data_write q data : aside_name q -> leaves q (Write cfg data).
Proof.
  intros [Hq Hpart] s. unfold Write, BeginWrite, create_temp. apply wp_bind, wp_bind, wp_bind, wp_sys.
  intros u s1 E1. apply wp_bind, wp_sys. intros r s2 E2. apply wp_ret, wp_ret.
  set (tmp := JoinPath (JoinPath (tmp_dir_ cfg) "upload") (u +:+ ".part")) in *.
  assert (Hne : tmp <> q) by (intros E; by apply (Hpart (JoinPath (tmp_dir_ cfg) "upload") u)).
  assert (Hs : os_file s2 q = os_file s q).
  { apply uuid_law in E1 as (_ & E1 & _). apply create_law in E2 as [_ E2]. rewrite <-E1.
    destruct r; [apply E2; by intros ->|apply E2..]. }
  rewrite <-Hs. clear s s1 E1 E2 Hs. revert s2.
  assert (Hgo : leaves q ('(st, ws) ← session_Write (new_session tmp) data;
      if status_ok st then CommitWrite cfg ws "" else _ ← destroy_session ws; mret (Err st))).
  { unfold session_Write. cbn [ws_finished new_session ws_tmp_path].
    intros s. apply wp_bind, wp_bind. eapply wp_mono; [exact (leaves_write_all q tmp data Hne s)|].
    intros [st|e] s1 E1; [|done]. rewrite <-E1. destruct (status_ok st) eqn:Es; apply wp_ret; rewrite Es; revert s1 E1.
    - intros s1 _. unfold CommitWrite. apply wp_bind. eapply wp_mono; [apply wp_finish; done|].
      intros r2 s2 [S2 ->]. rewrite <-S2. apply leaves_place; [done| |done]. apply temp_path_is_temp.
    - intros s1 _. by apply aside_bind; [apply leaves_destroy|intros _; apply aside_ret]. }
  destruct r as [x| |e]; cbn; [exact Hgo|by intros s..].
Qed.

Lemma wp_data_write_aside data s :
  wp (Write cfg data) (fun _ s' => forall q, aside_name q -> os_file s' q = os_file s q) s.
Proof. intros q Hq. exact (leaves_data_write q data Hq s). Qed.
End leaves.

(** ** The threads of the server *)

Section system.
Context `{HC : Collation, HCal : Calendar, HS : MySQL, HP : ConnPool, HR : Redis, HX : Posix}.
Context `{HJ : JsonLib, HD : Digest} (cfg : StoreConfig).
Implicit Types (w : StoreW).

(** The store, the requests in progress or answered, and the collector. *)
Record Sys : Type := MkSys {
  sys_store : StoreW;
  sys_requests : list (Prog HttpResponse);
  sys_collector : Prog unit
}.

(** A program after the outcome of its call: an exception ends it. *)
Definition resume {A B} (r : exn B) (k : B -> Prog A) : Prog A :=
  match r with Ret b => k b | Throw e => Done _ (Throw e) end.

(** The server trusts the internal header on these routes. *)
Definition takes_body (route : Route) : bool :=
  match route with R_PutObject | R_UploadPart => true | _ => false end.

(** A request arrives, its streamed body committed if it has one; a request or the
    collector makes its next call; or the collector takes a batch off the queue. The index is that of the request that
    makes a call. *)
Inductive sys_step : option nat -> Sys -> Sys -> Prop :=
  | Step_arrive route request w ps c :
      (takes_body route = true -> streamed cfg request w) ->
      sys_step None (MkSys w ps c) (MkSys w (ps ++ [prog_of cfg route request]) c)
  | Step_request i B u (op : SM B) k r w w' ps c :
      ps !! i = Some (Call _ u op k) -> op w = (r, w') ->
      sys_step (Some i) (MkSys w ps c) (MkSys w' (<[i := resume r k]> ps) c)
  | Step_batch n r w ps :
      sys_step None (MkSys w ps (Done _ r))
        (MkSys (set_gc (drop (Z.to_nat n) <$> sw_gc w) w) ps
           (batch_prog cfg (take (Z.to_nat n) (default [] (sw_gc w)))))
  | Step_collect B u (op : SM B) k r w w' ps :
      op w = (r, w') -> sys_step None (MkSys w ps (Call _ u op k)) (MkSys w' ps (resume r k)).

Definition any_step (s s' : Sys) : Prop := exists who, sys_step who s s'.

Definition use_of {A} (p : Prog A) : Use := match p with Done _ _ => Nothing | Call _ u _ _ => u end.
Definition holds {A} (p : Prog A) (c : string) : Prop := use_of p = Holds c.
Definition clears {A} (p : Prog A) (c : string) : Prop := exists q, use_of p = Clears c q.

(** Nobody is removing a content that a request has stored and not yet counted. *)
Definition exclusive (s : Sys) : Prop := forall i p c,
  sys_requests s !! i = Some p -> holds p c ->
  ~ clears (sys_collector s) c /\ forall j p', sys_requests s !! j = Some p' -> ~ clears p' c.

Definition careful (s s' : Sys) : Prop := exclusive s /\ any_step s s'.

(** ** What each thread knows and keeps *)

(** What a thread knows before a call. *)
Definition fact (u : Use) w : Prop :=
  match u with
  | Nothing => True
  | Holds c => in_place cfg c (sw_os w)
  | Clears c q => IsValidCasKey c = true /\ ~ refers (abs (tables_of w)) c /\
      forall p, q = Some p -> aside_name cfg p /\ forall d, os_file (sw_os w) p = Some d -> Final d = c
  end.

(** What a call does to the others: contents stay in place but for the one it
    removes, and there is no new reference but to the one it holds. *)
Record guar (u : Use) w w' : Prop := MkGuar {
  g_place c : (forall q, u <> Clears c q) -> in_place cfg c (sw_os w) -> in_place cfg c (sw_os w');
  g_refers c : u <> Holds c -> refers (abs (tables_of w')) c -> refers (abs (tables_of w)) c
}.

(** No file that was moved aside changes. *)
Definition keeps_aside w w' : Prop := forall q, aside_name cfg q -> os_file (sw_os w') q = os_file (sw_os w) q.

(** A request has nothing moved aside, and the collector holds nothing. *)
Definition req_fact (u : Use) w : Prop := fact u w /\ forall c q, u <> Clears c (Some q).

Definition col_fact (u : Use) w : Prop := match u with Holds _ => False | _ => fact u w end.

(** Every call of the program keeps the invariant and what the others know, and
    leaves what the next call needs. *)
Section safe.
Context (F : Use -> StoreW -> Prop) (G : StoreW -> StoreW -> Prop).

Fixpoint safe {A} (p : Prog A) : Prop :=
  match p with
  | Done _ _ => True
  | Call _ u op k => forall w, store_ok cfg w -> F u w ->
      wp op (fun r w' => store_ok cfg w' /\ guar u w w' /\ G w w' /\
        forall b, r = Ret b -> F (use_of (k b)) w' /\ safe (k b)) w
  end.

Definition ready {A} (p : Prog A) w : Prop := F (use_of p) w /\ safe p.
End safe.

Definition any_change (w w' : StoreW) : Prop := True.

(** The invariant of the system. *)
Record sys_ok (s : Sys) : Prop := MkSysOk {
  sys_store_ok : store_ok cfg (sys_store s);
  sys_requests_ok i p : sys_requests s !! i = Some p -> ready req_fact keeps_aside p (sys_store s);
  sys_collector_ok : ready col_fact any_change (sys_collector s) (sys_store s)
}.

Lemma guar_same u w w' : same_store w w' -> guar u w w'.
Proof.
  intros (_ & E & S & _). split.
  - intros c _. by apply in_place_same.
  - intros c _. by rewrite E.
Qed.

Lemma keeps_aside_same w w' : same_store w w' -> keeps_aside w w'.
Proof. intros (_ & _ & S & _) q _. apply S. Qed.

(** What a thread knows survives a call of another one that does not conflict. *)
Lemma fact_guar u v w w' :
  guar u w w' -> (forall c, v = Holds c -> forall q, u <> Clears c q) ->
  (forall c q, v = Clears c q -> u <> Holds c) -> (forall c q, v = Clears c (Some q) -> keeps_aside w w') ->
  fact v w -> fact v w'.
Proof.
  intros [Hp Hr] H1 H2 H3. destruct v as [|c|c q]; [done| |].
  - apply Hp. by apply H1.
  - intros (D1 & D2 & D3). split; [done|]. split.
    + intros Hc. apply D2. eapply Hr; [|done]. by eapply H2.
    + intros p ->. destruct (D3 p eq_refl) as [D4 D5]. split; [done|]. intros d. rewrite (H3 c p eq_refl) by done. apply D5.
Qed.

Lemma fact_same u w w' : same_store w w' -> fact u w -> fact u w'.
Proof.
  intros S. destruct u as [|c|c q]; [done|..]; cbn; destruct S as (_ & E & S & _).
  - by apply in_place_same.
  - intros (D1 & D2 & D3). split; [done|]. split; [by rewrite E|]. intros p Hp. destruct (D3 p Hp) as [D4 D5].
    split; [done|]. intros d. rewrite S. apply D5.
Qed.

Lemma req_fact_guar u v w w' :
  guar u w w' -> (forall c, v = Holds c -> forall q, u <> Clears c q) ->
  (forall c q, v = Clears c q -> u <> Holds c) -> req_fact v w -> req_fact v w'.
Proof.
  intros Hg H1 H2 [Hf Hn]. split; [|done]. eapply fact_guar; try done. intros c q ->. by destruct (Hn c q).
Qed.

(** ** Calls a request may make *)

Context `{HL : !MySQLLaws, HLX : !PosixLaws}.
Abbreviation rready := (ready req_fact keeps_aside).

Lemma ready_done {A} F G (r : exn A) w : F Nothing w -> ready F G (Done _ r) w.
Proof. by split. Qed.

Lemma nothing_fact w : req_fact Nothing w.
Proof. by split. Qed.

Lemma ready_end {A} (r : exn A) w : rready (Done _ r) w.
Proof. apply ready_done, nothing_fact. Qed.

(** One call, then a program that is ready after any answer. *)
Lemma ready_call {A B} F G u (op : SM B) (k : B -> Prog A) w :
  F u w ->
  (forall w1, store_ok cfg w1 -> F u w1 -> wp op (fun r w2 => store_ok cfg w2 /\ guar u w1 w2 /\ G w1 w2 /\
     forall b, r = Ret b -> ready F G (k b) w2) w1) ->
  ready F G (call u op ≫= k) w.
Proof. intros Hf Hop. split; [exact Hf|]. exact Hop. Qed.

(** A call that leaves the store as it is. *)
Lemma ready_still {A B} u (op : SM B) (k : B -> Prog A) w :
  still op -> req_fact u w -> (forall b w1, req_fact u w1 -> rready (k b) w1) -> rready (call u op ≫= k) w.
Proof.
  intros Ho Hf Hk. apply ready_call; [done|]. intros w1 Hok [Hf1 Hn]. eapply wp_mono; [apply Ho, Hok|].
  intros r w2 S. split_and!; [exact (store_ok_same cfg _ _ S Hok)|by apply guar_same|by apply keeps_aside_same|].
  intros b _. apply Hk. split; [exact (fact_same _ _ _ S Hf1)|done].
Qed.

(** The write of a body: the next calls may count on its content. *)
Lemma guar_stored u c w w' r s' :
  store_ok cfg w -> stored cfg (Final c) c (sw_os w) r s' -> guar u w (set_os s' w).
Proof.
  intros Hok (D1 & D2 & res & -> & D3). split; [|done].
  intros k _ [Hv Hf]. split; [done|]. cbn. destruct (decide (k = Final c)) as [->|Hne]; [|by rewrite D2].
  destruct res as [k'|e]; [|by rewrite D3]. destruct D3 as (_ & c' & -> & _). done.
Qed.

Lemma ready_write {A} data (k : Result string -> Prog A) w :
  (forall r w1, (forall key, r = Ok key -> in_place cfg key (sw_os w1)) -> rready (k r) w1) ->
  rready (call Nothing (on_os (Write cfg data)) ≫= k) w.
Proof.
  intros Hk. apply ready_call; [apply nothing_fact|]. intros w1 Hok _. apply wp_on_os.
  eapply wp_mono; [apply wp_both; [apply wp_data_write, Hok|apply wp_data_write_aside]|].
  cbn beta. intros r s' [S L]. destruct (stored_ok cfg _ _ _ _ Hok S) as (Hok' & res & Er & Hp).
  split_and!; [done|by eapply guar_stored|done|]. intros b ->. injection Er as <-. apply Hk. intros key ->. by apply (Hp key).
Qed.

(** The invariant holds after a call, and the others know what they knew. *)
Definition fine (u : Use) w w' : Prop := store_ok cfg w' /\ guar u w w' /\ keeps_aside w w'.

(** A change of the tables that refers to nothing new but the content held. *)
Lemma meta_change u w m' :
  store_ok cfg w -> fact u w -> open_tx m' = None -> covered (abs (committed m')) ->
  (forall d, refers (abs (committed m')) d -> u = Holds d \/ refers (abs (tables_of w)) d) ->
  later (m_srv (sw_meta w)) (m_srv m') -> fine u w (set_meta m' w).
Proof.
  intros [H1 H2 H3 H4 H5 H6] Hf Ho Hc Hr Hl. split_and!; [split; try done|split; try done|done].
  - intros d Hd. destruct (Hr d Hd) as [->|Hd']; [done|by apply H4].
  - by eapply starts_later.
  - intros d Hne Hd. by destruct (Hr d Hd).
Qed.

Lemma meta_same u w m' :
  store_ok cfg w -> fact u w -> open_tx m' = None -> committed m' = tables_of w ->
  later (m_srv (sw_meta w)) (m_srv m') -> fine u w (set_meta m' w).
Proof.
  intros Hok Hf Ho E Hl. apply meta_change; [done..| | |done].
  - rewrite E. apply Hok.
  - intros d. rewrite E. by right.
Qed.

(** Counting a content that is held: an object or a part takes it. *)
Lemma ready_ref {A} c (op : MM GcKey) spec (k : GcKey -> Prog A) w :
  in_place cfg c (sw_os w) -> runs op ->
  (forall m, starts (m_srv m) -> open_tx m = None -> wp op (db_done (gc_outcome (spec (abs (committed m))) (committed m))) m) ->
  (forall a, covered a -> covered (snd (spec a))) ->
  (forall a d, refers (snd (spec a)) d -> d = c \/ refers a d) ->
  (forall a g, fst (spec a) = Some g -> refers a g) ->
  (forall r w1, gc_valid (Ret r) -> rready (k r) w1) ->
  rready (call (Holds c) (on_meta op) ≫= k) w.
Proof.
  intros Hp Hrun Hop Hcov Href Hgc Hk. apply ready_call; [by split|]. intros w1 Hok [Hf _].
  apply wp_on_meta_runs; [done|]. eapply wp_mono; [apply Hop; apply Hok|]. intros r m' [D1 D2] Hl.
  change (committed (sw_meta w1)) with (tables_of w1) in D2.
  assert (Hst : fine (Holds c) w1 (set_meta m' w1)).
  { assert (Hspec : abs (committed m') = snd (spec (abs (tables_of w1))) ->
      fine (Holds c) w1 (set_meta m' w1)).
    { intros E. apply meta_change; [done..| | |done]; rewrite E; [apply Hcov, Hok|].
      intros d Hd. apply Href in Hd as [->|Hd]; auto. }
    destruct r as [[g|s]|e]; cbn in D2; [apply Hspec; by rewrite <-D2|destruct D2 as [D2|D2]..];
      [by apply meta_same|by apply Hspec|by apply meta_same|by apply Hspec]. }
  destruct Hst as (S1 & S2 & S3). split_and!; [done..|]. intros b ->. apply Hk. intros g [= ->].
  apply Hok. apply (Hgc (abs (tables_of w1))). cbn in D2. by rewrite <-D2.
Qed.

(** Removing an object. *)
Lemma ready_ref_delete {A} b o (k : GcKey -> Prog A) w :
  (forall r w1, gc_valid (Ret r) -> rready (k r) w1) ->
  rready (call Nothing (on_meta (DeleteObjectWithRefCount b o)) ≫= k) w.
Proof.
  intros Hk. apply ready_call; [apply nothing_fact|]. intros w1 Hok [Hf _].
  apply wp_on_meta_runs; [auto with minis3|].
  eapply wp_mono; [apply delete_object_refines; apply Hok|]. intros r m' [D1 D2] Hl.
  change (committed (sw_meta w1)) with (tables_of w1) in D2.
  assert (Hdel : forall gc, a_delete b o (abs (tables_of w1)) = Some (gc, abs (committed m')) ->
    fine Nothing w1 (set_meta m' w1)).
  { intros gc E. apply meta_change; [done..| | |done]; [eapply covered_delete; [done|apply Hok]|].
    intros d Hd. right. by eapply refers_delete. }
  assert (Hst : fine Nothing w1 (set_meta m' w1)).
  { destruct r as [[gc|s]|e]; cbn in D2; [by eapply Hdel|..].
    - destruct D2 as [_ [E|[gc E]]]; [by apply meta_same|by eapply Hdel].
    - destruct D2 as [E|[gc E]]; [by apply meta_same|by eapply Hdel]. }
  destruct Hst as (S1 & S2 & S3). split_and!; [done..|]. intros x ->. apply Hk. intros g [= ->].
  apply Hok. by eapply delete_released.
Qed.

(** Removing a bucket with what is in it. *)
Lemma ready_delete_bucket {A} n (k : Status -> Prog A) w :
  (forall r w1, rready (k r) w1) -> rready (call Nothing (on_meta (DeleteBucket n)) ≫= k) w.
Proof.
  intros Hk. apply ready_call; [apply nothing_fact|]. intros w1 Hok [Hf _].
  apply wp_on_meta_runs; [auto with minis3|].
  eapply wp_mono; [apply wp_delete_bucket, Hok|]. intros r m' [D1 D2] Hl.
  destruct (meta_change Nothing w1 m') as (S1 & S2 & S3); [done..| | |done|].
  - eapply shrinks_covered; [done|apply Hok].
  - intros d Hd. right. by eapply shrinks_refers.
  - split_and!; [done..|]. intros b ->. apply Hk.
Qed.

(** Removing a content nobody refers to. *)
Lemma ready_remove {A} c (k : Status -> Prog A) w :
  req_fact (Clears c None) w -> (forall r w1, rready (k r) w1) ->
  rready (call (Clears c None) (on_os (Delete cfg c)) ≫= k) w.
Proof.
  intros Hf Hk. apply ready_call; [done|]. intros w1 Hok [(Hv & Hn & _) _].
  apply wp_on_os. unfold wp, Delete, RemoveFile. destruct (sys_unlink (cas_path cfg c) (sw_os w1)) as [u s'] eqn:E.
  cbn [fst snd]. apply unlink_law in E as [_ E].
  assert (Hoth : forall p, p <> cas_path cfg c -> os_file s' p = os_file (sw_os w1) p).
  { intros p Hp. destruct u; [by apply (proj2 E)|apply E..]. }
  assert (Hck : forall d, IsValidCasKey d = true -> d <> c -> os_file s' (cas_path cfg d) = os_file (sw_os w1) (cas_path cfg d)).
  { intros d Hd Hne. apply Hoth. intros Ep. apply cas_path_inj in Ep; [done|]. by rewrite !valid_key_length. }
  split_and!.
  - eapply gc_step_store_ok; [|exact Hok]. apply (gc_step_os cfg _ _ c); [apply Hok|done..|].
    destruct u; [right; apply E|left; apply E..].
  - split; [|done]. intros d Hd [Hdv Hdf]. split; [done|]. cbn. rewrite Hck; [done..|]. intros ->. by apply (Hd None).
  - intros q [Hq _]. apply Hoth. apply Hq.
  - intros b _. apply Hk.
Qed.

(** ** The helpers of the handlers *)

Lemma bind_call {A B C} u (op : SM B) (j : B -> Prog C) (k : C -> Prog A) :
  (call u op ≫= j) ≫= k = call u op ≫= fun b => j b ≫= k.
Proof. reflexivity. Qed.

Lemma ready_cleanup {A} c (k : unit -> Prog A) w :
  IsValidCasKey c = true -> (forall w1, rready (k tt) w1) -> rready (cleanup_prog cfg c ≫= k) w.
Proof.
  intros Hv Hk. unfold cleanup_prog. rewrite bind_call. apply ready_call; [apply nothing_fact|].
  intros w1 Hok _. apply wp_on_meta_runs; [auto with minis3|].
  eapply wp_mono; [apply (wp_get_cas_blob c), Hok|]. intros r m' (D1 & D2 & D3 & D4) Hl. destruct (meta_same Nothing w1 m') as (S1 & S2 & S3); [done..|].
  split_and!; [done..|]. intros b ->.
  assert (Hclear : default 0 (a_refs (abs (tables_of w1)) !! coll c) = 0 ->
    rready ((_ ← call (Clears c None) (on_os (Delete cfg c)); mret tt) ≫= k) (set_meta m' w1)).
  { intros H0. rewrite bind_call. apply ready_remove; [|intros _ w2; apply Hk].
    split; [|done]. split; [done|]. split; [|done]. unfold tables_of. cbn. rewrite D2.
    by apply covered_unreferenced; [apply Hok|]. }
  destruct b as [info|s].
  - destruct (Z.eqb_spec (ci_ref_count info) 0) as [E|]; [|apply Hk]. apply Hclear. unfold tables_of. by rewrite (D3 _ eq_refl).
  - case_bool_decide as E; [|apply Hk]. apply Hclear. unfold tables_of. by rewrite (D4 _ eq_refl E).
Qed.

Lemma ready_cleanup_if {A} b c (k : unit -> Prog A) w :
  IsValidCasKey c = true -> (forall w1, rready (k tt) w1) -> rready (cleanup_if_prog cfg b c ≫= k) w.
Proof. intros Hv Hk. destruct b; [by apply ready_cleanup|apply Hk]. Qed.

Lemma ready_queue {A} g (k : unit -> Prog A) w :
  gc_valid (Ret (Ok g)) -> (forall w1, rready (k tt) w1) -> rready (queue_prog g ≫= k) w.
Proof.
  intros Hg Hk. destruct g as [c|]; [|apply Hk]. apply ready_still; [|apply nothing_fact|by intros [] w1 _].
  apply still_add. by apply Hg.
Qed.

Lemma ready_with_params r k w : (forall a b, rready (k a b) w) -> rready (with_params_prog r k) w.
Proof. intros Hk. unfold with_params_prog. case_match; [apply ready_end|apply Hk]. Qed.

Lemma ready_with_bucket u b k w :
  req_fact u w -> (forall i w1, req_fact u w1 -> rready (k i) w1) -> rready (with_bucket_prog u b k) w.
Proof.
  intros Hf Hk. apply ready_still; [auto with minis3|done|]. intros [i|s] w1 Hf1; [by apply Hk|].
  case_match; apply ready_end.
Qed.

Lemma ready_with_object b o k w :
  (forall i w1, rready (k i) w1) -> rready (with_object_prog b o k) w.
Proof.
  intros Hk. apply ready_still; [auto with minis3|apply nothing_fact|]. intros [i|s] w1 _; [by apply Hk|].
  case_match; apply ready_end.
Qed.

Lemma ready_with_upload u i k w :
  req_fact u w -> (forall x w1, req_fact u w1 -> rready (k x) w1) -> rready (with_upload_prog u i k) w.
Proof.
  intros Hf Hk. apply ready_still; [auto with minis3|done|]. intros [x|s] w1 Hf1; [by apply Hk|].
  case_match; apply ready_end.
Qed.

(** What is stored, or came stored, is in place. *)
Lemma ready_store_body {A} r (k : option StoredBody -> Prog A) w :
  req_fact (arrived r) w ->
  (forall o w1, (forall sb, o = Some sb -> in_place cfg (sb_cas_key sb) (sw_os w1)) -> rready (k o) w1) ->
  rready (store_body_prog cfg r ≫= k) w.
Proof.
  intros Hf Hk. unfold store_body_prog, arrived in *. destruct (str_empty (GetHeader "X-Internal-CAS-Key" r)).
  - cbn [negb]. rewrite bind_call. apply ready_still; [auto with minis3|apply nothing_fact|]. intros b w1 _.
    rewrite bind_call. apply ready_write. intros res w2 Hp. apply Hk. intros sb Hsb. destruct res as [c|e]; [|done].
    injection Hsb as <-. by apply Hp.
  - apply Hk. intros sb [= <-]. apply Hf.
Qed.

Lemma ready_idempotency {A} u i h (k : option (exn HttpResponse) -> Prog A) w :
  req_fact u w -> (forall o w1, req_fact u w1 -> rready (k o) w1) -> rready (idempotency_prog u i h ≫= k) w.
Proof.
  intros Hf Hk. unfold idempotency_prog. case_match; [by apply Hk|]. rewrite bind_call.
  apply ready_still; [auto with minis3|done|]. intros b w1 Hf1. by apply Hk.
Qed.

(** ** The handlers *)

Lemma ready_put_stored r bn ok b h sb w :
  in_place cfg (sb_cas_key sb) (sw_os w) -> rready (put_stored_prog cfg r bn ok b h sb) w.
Proof.
  intros Hp. unfold put_stored_prog.
  apply (ready_ref _ _ (a_put b ok (sb_cas_key sb) (i64_of_u64 (sb_data_size sb)) (content_type_of r)
    (quoted (etag_value (sb_cas_key sb))))); [done|auto with minis3|intros m; apply put_object_refines| | | |].
  - intros a. apply covered_put. by eapply in_place_nonempty.
  - intros a d. apply refers_put.
  - intros a g. apply put_released.
  - intros [g|s] w1 Hg.
    + apply ready_queue; [done|]. intros w2. destruct (json_dump _) as [text|e]; [|apply ready_end].
      cbn [mbind prog_bind]. case_match; [apply ready_end|]. rewrite bind_call.
      apply ready_still; [auto with minis3|apply nothing_fact|]. intros x w3 _. apply ready_end.
    + apply ready_cleanup_if; [apply Hp|]. intros w2. apply ready_end.
Qed.

Lemma ready_put_part u n sb w :
  in_place cfg (sb_cas_key sb) (sw_os w) -> rready (put_part_prog cfg u n sb) w.
Proof.
  intros Hp. unfold put_part_prog.
  apply (ready_ref _ _ (a_put_part u n (sb_cas_key sb))); [done|auto with minis3|intros m; apply put_part_refines| | | |].
  - intros a. apply covered_put_part. by eapply in_place_nonempty.
  - intros a d. apply refers_put_part.
  - intros a g. apply put_part_released.
  - intros [g|s] w1 Hg.
    + apply ready_queue; [done|]. intros w2. destruct (json_dump _); apply ready_end.
    + apply ready_cleanup_if; [apply Hp|]. intros w2. apply ready_end.
Qed.

Lemma ready_PutObject r w : req_fact (arrived r) w -> rready (PutObject_prog cfg r) w.
Proof.
  intros Hf. apply ready_with_params; intros b o. apply ready_with_bucket; [done|]. intros i w1 Hf1.
  case_match; [apply ready_end|]. apply ready_store_body; [done|]. intros [sb|] w2 Hp; [|apply ready_end].
  specialize (Hp sb eq_refl). cbv beta iota zeta. case_match.
  - apply ready_cleanup_if; [apply Hp|]. intros w3. apply ready_end.
  - apply ready_idempotency; [by split|]. intros [x|] w3 [Hp3 _]; [apply ready_end|by apply ready_put_stored].
Qed.

Lemma ready_UploadPart r w : req_fact (arrived r) w -> rready (UploadPart_prog cfg r) w.
Proof.
  intros Hf. unfold UploadPart_prog. case_match; [apply ready_end|].
  destruct (part_number_of _) as [msg|n]; [apply ready_end|].
  apply ready_with_upload; [done|]. intros up w1 Hf1. apply ready_still; [auto with minis3|done|]. intros br w2 Hf2.
  do 3 (match goal with |- rready (if ?b then _ else _) _ => destruct b end; [apply ready_end|]).
  apply ready_store_body; [done|]. intros [sb|] w3 Hp; [|apply ready_end]. apply ready_put_part. by apply Hp.
Qed.

(** The steps of a handler that only reads or creates. *)
Ltac ready_tac :=
  repeat first
    [ apply ready_end
    | apply ready_with_params; intros ? ?
    | apply ready_with_bucket; [apply nothing_fact|]; intros ? ? _
    | apply ready_with_object; intros ? ?
    | apply ready_with_upload; [apply nothing_fact|]; intros ? ? _
    | apply ready_still; [solve [auto with minis3]|apply nothing_fact|]; intros ? ? _
    | match goal with |- rready (match ?x with _ => _ end) _ => destruct x end
    | match goal with |- rready (mbind _ (Done _ ?x)) _ => destruct x; cbn [mbind prog_bind] end ].

Lemma ready_request route r w :
  (takes_body route = true -> streamed cfg r w) -> rready (prog_of cfg route r) w.
Proof.
  assert (Ha : streamed cfg r w -> req_fact (arrived r) w).
  { unfold streamed, arrived. destruct (str_empty (GetHeader "X-Internal-CAS-Key" r)) eqn:E; [intros _; apply nothing_fact|].
    intros Hs. apply str_empty_false in E. by split; [apply Hs|]. }
  intros Hs. destruct route; cbn [prog_of].
  - by apply ready_PutObject, Ha, Hs.
  - unfold GetObject_prog. ready_tac.
  - unfold HeadObject_prog. ready_tac.
  - unfold DeleteObject_prog. ready_tac. apply ready_ref_delete. intros [g|s] w3 Hg; [|apply ready_end].
    apply ready_queue; [done|]. intros w4. apply ready_end.
  - unfold ListObjects_prog. rewrite !get_query_param. ready_tac.
  - unfold InitUpload_prog. ready_tac.
  - by apply ready_UploadPart, Ha, Hs.
  - unfold ListParts_prog. rewrite !get_query_param. ready_tac.
  - unfold CreateBucket_prog, with_bucket_name_prog. ready_tac.
  - unfold GetBucket_prog, with_bucket_name_prog, bucket_info_prog. ready_tac.
  - unfold DeleteBucket_prog, with_bucket_name_prog, bucket_info_prog. ready_tac.
    apply ready_delete_bucket. intros st w5. ready_tac.
  - unfold ListBuckets_prog. ready_tac.
Qed.

(** ** The collector *)

Abbreviation cready := (ready col_fact any_change).

Lemma col_fact_same u w w' : same_store w w' -> col_fact u w -> col_fact u w'.
Proof. intros S. destruct u as [|c|c q]; [done..|]. exact (fact_same (Clears c q) w w' S). Qed.

Lemma col_fact_fact u w : col_fact u w -> fact u w.
Proof. by destruct u. Qed.

Lemma cready_end {A} (r : exn A) w : cready (Done _ r) w.
Proof. by apply ready_done. Qed.

Lemma cready_still {A B} u (op : SM B) (k : B -> Prog A) w :
  still op -> col_fact u w -> (forall b w1, col_fact u w1 -> cready (k b) w1) -> cready (call u op ≫= k) w.
Proof.
  intros Ho Hf Hk. apply ready_call; [done|]. intros w1 Hok Hf1. eapply wp_mono; [apply Ho, Hok|].
  intros r w2 S. split_and!; [exact (store_ok_same cfg _ _ S Hok)|by apply guar_same|done|].
  intros b _. apply Hk. exact (col_fact_same _ _ _ S Hf1).
Qed.

(** The check of a content tells the truth. *)
Lemma cready_check {A} u c (k : Result bool -> Prog A) w :
  col_fact u w ->
  (forall r w1, col_fact u w1 -> (r = Ok true -> ~ refers (abs (tables_of w1)) c) -> cready (k r) w1) ->
  cready (call u (on_meta (CanDeleteCasBlob c)) ≫= k) w.
Proof.
  intros Hf Hk. apply ready_call; [done|]. intros w1 Hok Hf1.
  apply wp_on_meta_runs; [auto with minis3|].
  eapply wp_mono; [apply can_delete_safe; apply Hok|]. intros r m' [D1 [D2 D3]] Hl.
  destruct (meta_same u w1 m') as (S1 & S2 & _); [done|by apply col_fact_fact|done..|]. split_and!; [done..|]. intros b ->.
  apply Hk.
  - apply (col_fact_same u w1); [|done]. split_and!; [done| |done|done|done]. unfold tables_of. cbn. by rewrite D2.
  - intros ->. unfold tables_of. cbn. rewrite D2. destruct (D3 eq_refl) as (_ & D4 & D5). by apply unreferenced.
Qed.

Lemma quarantine_name c u : UUID_IsValid u = true -> aside_name cfg (cas_path cfg c +:+ ".gc." +:+ u).
Proof.
  intros Hu. split; [by apply quarantine_is_temp|]. intros dir v E.
  destruct (join_suffix dir (v +:+ ".part")) as [p Hp]. rewrite Hp in E.
  assert (E' : (cas_path cfg c +:+ ".gc") +:+ String "." u = (p +:+ v) +:+ String "." "part").
  { rewrite !str_app_assoc. exact E. }
  apply app_last_inj in E' as [_ E']; [|by apply uuid_valid_plain|done]. by subst u.
Qed.

(** The contents other than [c], when the files named differ in the place of [c]. *)
Lemma guar_os c q w s' :
  (forall p, p <> cas_path cfg c -> p <> q -> os_file s' p = os_file (sw_os w) p) -> is_temp cfg q ->
  IsValidCasKey c = true -> guar (Clears c None) w (set_os s' w).
Proof.
  intros Ho Hq Hv. split; [|done]. intros d Hd [Hdv Hdf]. split; [done|]. cbn. rewrite Ho; [done| |].
  - intros E. apply cas_path_inj in E; [|by rewrite !valid_key_length]. subst d. by apply (Hd None).
  - intros E. by apply (Hq d).
Qed.

Lemma guar_clears c q q' w w' : guar (Clears c q) w w' -> guar (Clears c q') w w'.
Proof.
  intros [H1 H2]. split; [|intros d _; by apply H2]. intros d Hd. apply H1. intros p [= -> ->]. by apply (Hd q').
Qed.

(** Moving files of a content nobody refers to. *)
Lemma clears_ok c q w s' :
  (forall p, p <> cas_path cfg c -> p <> q -> os_file s' p = os_file (sw_os w) p) -> is_temp cfg q ->
  IsValidCasKey c = true -> store_ok cfg w -> ~ refers (abs (tables_of w)) c ->
  (forall d, os_file s' (cas_path cfg c) = Some d -> Final d = c) -> store_ok cfg (set_os s' w).
Proof.
  intros Ho Hq Hv [H1 H2 H3 H4 H5 H6] Hn Hd.
  assert (Hck : forall k, IsValidCasKey k = true -> k <> c -> os_file s' (cas_path cfg k) = os_file (sw_os w) (cas_path cfg k)).
  { intros k Hk Hne. apply Ho; [|intros E; by apply (Hq k)]. intros E. apply cas_path_inj in E; [done|].
    by rewrite !valid_key_length. }
  split; try done.
  - intros k d Hk Hf. cbn in Hf. destruct (decide (k = c)) as [->|Hne]; [by apply Hd|]. rewrite Hck in Hf by done. by apply H2.
  - intros k Hk. destruct (H4 k Hk) as [Hkv Hf]. split; [done|]. cbn. rewrite Hck; [done..|]. by intros ->.
Qed.

Lemma cready_set_aside {A} c q (k : Status -> Prog A) w :
  aside_name cfg q -> fact (Clears c None) w ->
  (forall st w1, status_ok st = true -> fact (Clears c (Some q)) w1 -> cready (k st) w1) ->
  (forall st w1, status_ok st = false -> cready (k st) w1) ->
  cready (call (Clears c None) (on_os (AtomicRename (cas_path cfg c) q)) ≫= k) w.
Proof.
  intros Hq Hf Hk Hk'. apply ready_call; [done|]. intros w1 Hok (Hv & Hn & _). apply wp_on_os.
  eapply wp_mono; [apply wp_rename; intros E; symmetry in E; by apply Hq in E|]. intros r s' (st & -> & D).
  destruct (status_ok st) eqn:Es.
  - destruct D as (D1 & D2 & D3).
    split_and!; [eapply (clears_ok c q); try done; [apply Hq|by rewrite D2]| |done|].
    { apply (guar_os c q); [done|apply Hq|done]. }
    intros b [= ->]. apply Hk; [done|]. split; [done|]. split; [done|]. intros p [= <-]. split; [done|]. intros d. cbn. rewrite D1. by apply Hok.
  - assert (S : same_store w1 (set_os s' w1)) by (apply same_store_session; try done; apply Hok).
    split_and!; [exact (store_ok_same cfg _ _ S Hok)|by apply guar_same|done|]. intros b [= ->]. by apply Hk'.
Qed.

Lemma cready_put_back {A} c q (k : Status -> Prog A) w :
  fact (Clears c (Some q)) w -> (forall st w1, cready (k st) w1) ->
  cready (call (Clears c (Some q)) (on_os (AtomicRename q (cas_path cfg c))) ≫= k) w.
Proof.
  intros Hf Hk. apply ready_call; [done|]. intros w1 Hok (Hv & Hn & Hs). destruct (Hs q eq_refl) as [Hq Hc].
  apply wp_on_os. eapply wp_mono; [apply wp_rename; intros E; by apply Hq in E|]. intros r s' (st & -> & D).
  destruct (status_ok st) eqn:Es.
  - destruct D as (D1 & D2 & D3).
    assert (D3' : forall p, p <> cas_path cfg c -> p <> q -> os_file s' p = os_file (sw_os w1) p) by (intros; by apply D3).
    split_and!; [eapply (clears_ok c q); try done; [apply Hq|by rewrite D1]| |done|by intros b _; apply Hk].
    eapply guar_clears, (guar_os c q); [done|apply Hq|done].
  - assert (S : same_store w1 (set_os s' w1)) by (apply same_store_session; try done; apply Hok).
    split_and!; [exact (store_ok_same cfg _ _ S Hok)|by apply guar_same|done|by intros b _; apply Hk].
Qed.

Lemma cready_discard {A} c q (k : Status -> Prog A) w :
  fact (Clears c (Some q)) w -> (forall st w1, cready (k st) w1) ->
  cready (call (Clears c (Some q)) (on_os (RemoveFile q)) ≫= k) w.
Proof.
  intros Hf Hk. apply ready_call; [done|]. intros w1 Hok (Hv & Hn & Hs). destruct (Hs q eq_refl) as [Hq _].
  apply wp_on_os. unfold wp, RemoveFile. destruct (sys_unlink q (sw_os w1)) as [u s'] eqn:E.
  cbn [fst snd]. apply unlink_law in E as [_ E].
  assert (Hoth : forall p, p <> q -> os_file s' p = os_file (sw_os w1) p).
  { intros p Hp. destruct u; [by apply (proj2 E)|apply E..]. }
  assert (Hc : os_file s' (cas_path cfg c) = os_file (sw_os w1) (cas_path cfg c)).
  { apply Hoth. intros Ep. symmetry in Ep. by apply Hq in Ep. }
  split_and!; [eapply (clears_ok c q); try done; [auto|apply Hq|rewrite Hc; intros d; by apply (so_cas cfg _ Hok)]| |done|by intros b _; apply Hk].
  eapply guar_clears, (guar_os c q); [auto|apply Hq|done].
Qed.

(** The row of a content goes only when nothing refers to it. *)
Lemma cready_callback {A} c b (k : unit -> Prog A) w :
  (forall w1, cready (k tt) w1) -> cready (callback_prog c b ≫= k) w.
Proof.
  intros Hk. destruct b; [|apply Hk]. unfold callback_prog. rewrite bind_call. apply cready_check; [done|].
  intros [[]|s] w1 _ _; [|apply Hk..]. cbv iota. rewrite bind_call. apply ready_call; [done|]. intros w2 Hok _.
  apply wp_on_meta_runs; [auto with minis3|].
  eapply wp_mono; [apply (wp_delete_cas c); apply Hok|]. intros r m' (D1 & D2 & D3 & D4) Hl.
  destruct (meta_change Nothing w2 m') as (S1 & S2 & _); [done..| |done|].
  { intros d Hd. right. unfold refers in *. change (committed (sw_meta w2)) with (tables_of w2) in *.
    by rewrite D2, D3 in Hd. }
  split_and!; [done..|]. intros x _. apply Hk.
Qed.

Lemma cready_finish {A} c q (renamed : bool) (k : unit -> Prog A) w :
  fact (Clears c (if renamed then Some q else None)) w -> (forall w1, cready (k tt) w1) ->
  cready (finish_prog c (cas_path cfg c) q renamed ≫= k) w.
Proof.
  intros Hf Hk. unfold finish_prog. rewrite bind_call. apply cready_check; [done|]. intros r w1 Hf1 _.
  assert (Hrest : cready (restore_prog renamed c q (cas_path cfg c) ≫= k) w1).
  { unfold restore_prog. destruct renamed; [|apply Hk]. rewrite bind_call. apply cready_put_back; [done|].
    intros st w2. apply Hk. }
  destruct r as [[]|s]; [|done..]. destruct renamed.
  - rewrite bind_call. apply cready_discard; [done|]. intros st w2. by apply cready_callback.
  - by apply (cready_callback c true).
Qed.

Lemma cready_collect {A} c (k : unit -> Prog A) w :
  IsValidCasKey c = true -> (forall w1, cready (k tt) w1) -> cready (collect_prog cfg c ≫= k) w.
Proof.
  intros Hv Hk. unfold collect_prog. rewrite bind_call. apply cready_check; [done|].
  intros [[]|s] w1 _ Hn; [|apply Hk..]. specialize (Hn eq_refl). rewrite bind_call.
  assert (Hf : fact (Clears c None) w1) by by split_and!.
  apply ready_call; [done|]. intros w2 Hok Hf2. unfold wp, Generate, uuid_generate, world_uuid.
  destruct (os_uuid (sw_os w2)) as [u s2] eqn:Eu. cbn [fst snd]. apply uuid_law in Eu as (_ & Su & Hu).
  assert (S : same_store w2 (set_os s2 w2)) by (apply same_store_session; try done; apply Hok).
  split_and!; [exact (store_ok_same cfg _ _ S Hok)|by apply guar_same|done|]. intros b [= <-].
  pose proof (quarantine_name c u Hu) as Hq. pose proof (fact_same _ _ _ S Hf2) as Hf3. revert Hf3.
  generalize (set_os s2 w2). intros w3 Hf3. cbv zeta. change (GetFilePath cfg c) with (cas_path cfg c).
  rewrite bind_call. apply cready_still; [auto with minis3|done|]. intros ex w4 Hf4. destruct ex.
  - rewrite bind_call. apply cready_set_aside; [done|done| |].
    + intros st w5 -> Hf5. by apply (cready_finish c _ true).
    + intros st w5 ->. apply Hk.
  - by apply (cready_finish c _ false).
Qed.

Lemma ready_batch batch w : Forall (fun c => IsValidCasKey c = true) batch -> cready (batch_prog cfg batch) w.
Proof.
  intros Hb. revert w. induction Hb as [|c batch Hv _ IH]; intros w; [apply cready_end|].
  cbn [batch_prog]. by apply cready_collect.
Qed.

(** ** The invariant of the system *)

Lemma exclusive_clears s i p c :
  exclusive s -> sys_requests s !! i = Some p -> use_of p = Holds c ->
  (forall q, use_of (sys_collector s) <> Clears c q) /\
  (forall j p', sys_requests s !! j = Some p' -> forall q, use_of p' <> Clears c q).
Proof.
  intros He Hi Hu. destruct (He i p c Hi Hu) as [H1 H2]. split.
  - intros q E. apply H1. by exists q.
  - intros j p' Hj q E. apply (H2 j p' Hj). by exists q.
Qed.

(** A request's call: the other requests and the collector keep their facts. *)
Lemma step_request_ok i B u (op : SM B) k r w w' ps c :
  exclusive (MkSys w ps c) -> sys_ok (MkSys w ps c) ->
  ps !! i = Some (Call _ u op k) -> op w = (r, w') -> sys_ok (MkSys w' (<[i := resume r k]> ps) c).
Proof.
  intros He [Hok Hps Hc] Hi E. cbn in *. destruct (Hps i _ Hi) as [Hf Hs].
  pose proof (wp_run _ _ _ _ _ E (Hs w Hok Hf)) as (Hok' & Hg & Ha & Hk).
  assert (Hmine : forall d, u = Holds d -> (forall q, use_of c <> Clears d q) /\
    (forall j p', ps !! j = Some p' -> forall q, use_of p' <> Clears d q)).
  { intros d ->. by apply (exclusive_clears _ i _ d He Hi). }
  split; cbn; [done| |].
  - intros j p. destruct (decide (i = j)) as [<-|Hne].
    + rewrite list_lookup_insert_eq by by apply lookup_lt_is_Some_1. intros [= <-].
      destruct r as [b|e]; [by apply Hk|apply ready_end].
    + rewrite list_lookup_insert_ne by done. intros Hj. destruct (Hps j p Hj) as [Hfj Hsj]. split; [|done].
      eapply req_fact_guar; [done| | |done].
      * intros d Hd q. by apply (proj2 (exclusive_clears _ j _ d He Hj Hd) i _ Hi q).
      * intros d q Hd Hu. by apply (proj2 (Hmine d Hu) j p Hj q).
  - destruct Hc as [Hfc Hsc]. split; [|done]. unfold col_fact in *. destruct (use_of c) as [|d|d q] eqn:Eu; [done..|].
    eapply (fact_guar u); [done..| | |exact Hfc]; [|done]. intros d' q' [= -> ->] Hu.
    by apply (proj1 (Hmine d' Hu) q').
Qed.

(** A call of the collector. *)
Lemma step_collect_ok B u (op : SM B) k r w w' ps :
  exclusive (MkSys w ps (Call _ u op k)) -> sys_ok (MkSys w ps (Call _ u op k)) ->
  op w = (r, w') -> sys_ok (MkSys w' ps (resume r k)).
Proof.
  intros He [Hok Hps [Hf Hs]] E. cbn in *.
  pose proof (wp_run _ _ _ _ _ E (Hs w Hok Hf)) as (Hok' & Hg & _ & Hk).
  split; cbn; [done| |].
  - intros j p Hj. destruct (Hps j p Hj) as [Hfj Hsj]. split; [|done]. eapply req_fact_guar; [done| | |done].
    + intros d Hd q. exact (proj1 (exclusive_clears _ j _ d He Hj Hd) q).
    + intros d q Hd ->. done.
  - destruct r as [b|e]; [by apply Hk|apply cready_end].
Qed.

Lemma sys_step_ok s s' : careful s s' -> sys_ok s -> sys_ok s'.
Proof.
  intros [He [who S]]. destruct S as [route request w ps c Hs|i B u op k r w w' ps c Hi E|n r w ps|B u op k r w w' ps E].
  - intros [Hok Hps Hc]. split; [done| |done]. cbn. intros i p [Hi|[Hi Hp]]%lookup_app_Some; [by eapply Hps|].
    apply list_lookup_singleton_Some in Hp as [_ <-]. by apply ready_request.
  - intros Hs. by eapply step_request_ok.
  - intros [Hok Hps Hc]. cbn in *.
    assert (S : same_store w (set_gc (drop (Z.to_nat n) <$> sw_gc w) w)).
    { apply same_store_session; [done|apply Hok|done|]. unfold queue_ok. cbn. destruct (sw_gc w); cbn; [by apply Forall_drop|done]. }
    split; cbn; [exact (store_ok_same cfg _ _ S Hok)| |].
    + intros i p Hi. destruct (Hps i p Hi) as [[Hf Hn] Hsf]. split; [|done]. split; [exact (fact_same _ _ _ S Hf)|done].
    + apply ready_batch, Forall_take, Hok.
  - intros Hs. by eapply step_collect_ok.
Qed.

(** The server with nothing in progress. *)
Definition idle w : Sys := MkSys w [] (Done _ (Ret tt)).

Lemma idle_ok w : store_ok cfg w -> sys_ok (idle w).
Proof. intros Hok. split; [done| |apply cready_end]. intros i p. cbn. by rewrite lookup_nil. Qed.

Lemma run_ok s s' : rtc careful s s' -> sys_ok s -> sys_ok s'.
Proof. induction 1 as [|s1 s2 s3 S _ IH]; [done|]. intros H1. by apply IH, (sys_step_ok s1). Qed.

(** C2. No object is lost while requests are interleaved: from a consistent store,
    however the calls of any number of requests (every handler but CompleteUpload
    and AbortUpload) and of the collector follow one another, the store stays consistent
    and every object keeps its content in place, as long as no call is made while one
    thread is about to remove a content that another one has stored and not yet counted
    ([exclusive]). A metadata operation is one call ([Programs]); the session of the
    database accepts START TRANSACTION (in [store_ok]), whatever any other statement and
    the file system answer; a request arrives with an X-Internal-CAS-Key header only
    when the server has set it ([streamed]). *)
Theorem interleaved_store_consistent w s :
  store_ok cfg w -> rtc careful (idle w) s ->
  store_ok cfg (sys_store s) /\
  forall k o, a_objs (abs (tables_of (sys_store s))) !! k = Some o ->
    exists d, os_file (sw_os (sys_store s)) (cas_path cfg (ao_cas o)) = Some d /\ Final d = ao_cas o.
Proof.
  intros Hok Hs.
  assert (Hsys : sys_ok s) by (by eapply run_ok; [|apply idle_ok]).
  pose proof (sys_store_ok _ Hsys) as Hok'. split; [done|]. intros k o Hk.
  destruct (so_backed cfg _ Hok' (ao_cas o)) as [Hv [d Hd]]; [left; eauto|].
  exists d. split; [done|]. by apply (so_cas cfg _ Hok').
Qed.
End system.

(** ** Runs *)

Section runs.
Context `{HC : Collation, HCal : Calendar, HS : MySQL, HP : ConnPool, HR : Redis, HX : Posix}.
Context `{HJ : JsonLib, HD : Digest} (cfg : StoreConfig).

(** The moves of a scheduler; a request arrives without a streamed body. *)
Inductive Move : Type :=
  | Arrive (route : Route) (request : HttpRequest)
  | Request (i : nat)
  | TakeBatch (n : Z)
  | Collect.

Definition move (m : Move) (s : Sys) : option Sys :=
  let '(MkSys w ps c) := s in
  match m with
  | Arrive route request =>
      if str_empty (GetHeader "X-Internal-CAS-Key" request)
      then Some (MkSys w (ps ++ [prog_of cfg route request]) c) else None
  | Request i =>
      match ps !! i with
      | Some (Call _ u op k) => let '(r, w') := op w in Some (MkSys w' (<[i := resume r k]> ps) c)
      | _ => None
      end
  | TakeBatch n =>
      match c with
      | Done _ r => Some (MkSys (set_gc (drop (Z.to_nat n) <$> sw_gc w) w) ps
                            (batch_prog cfg (take (Z.to_nat n) (default [] (sw_gc w)))))
      | Call _ _ _ _ => None
      end
  | Collect =>
      match c with
      | Done _ _ => None
      | Call _ u op k => let '(r, w') := op w in Some (MkSys w' ps (resume r k))
      end
  end.

Fixpoint moves (l : list Move) (s : Sys) : option Sys :=
  match l with [] => Some s | m :: l => s' ← move m s; moves l s' end.

(** The request that makes the call. *)
Definition mover (m : Move) : option nat := match m with Request i => Some i | _ => None end.

Lemma move_step m s s' : move m s = Some s' -> sys_step cfg (mover m) s s'.
Proof.
  destruct s as [w ps c]. destruct m as [route request|i|n|]; cbn.
  - case_match eqn:E; [|done]. intros [= <-]. constructor. intros _ Hne. by apply str_empty_spec in E.
  - destruct (ps !! i) as [[r|B u op k]|] eqn:Ei; [done| |done]. destruct (op w) as [r w'] eqn:Eo.
    intros [= <-]. by econstructor.
  - destruct c; [|done]. intros [= <-]. constructor.
  - destruct c as [r|B u op k]; [done|]. destruct (op w) as [r w'] eqn:Eo. intros [= <-]. by constructor.
Qed.

(** The test of [exclusive]. *)
Definition clearsb {A} (p : Prog A) (c : string) : bool :=
  match use_of p with Clears d _ => String.eqb c d | _ => false end.

Definition exclusiveb (s : Sys) : bool :=
  forallb (fun p => match use_of p with
                    | Holds c => negb (clearsb (sys_collector s) c) &&
                                 forallb (fun p' => negb (clearsb p' c)) (sys_requests s)
                    | _ => true
                    end) (sys_requests s).

Lemma clearsb_clears {A} (p : Prog A) c : clearsb p c = false -> ~ clears p c.
Proof. unfold clearsb. intros Hb [q Hq]. rewrite Hq in Hb. by rewrite String.eqb_refl in Hb. Qed.

Lemma exclusiveb_exclusive s : exclusiveb s = true -> exclusive s.
Proof.
  unfold exclusiveb. rewrite forallb_forall. intros Hb i p c Hi Hh.
  pose proof (Hb p ltac:(apply list_elem_of_In; by eapply list_elem_of_lookup_2)) as Hp. unfold holds in Hh. rewrite Hh in Hp.
  apply andb_true_iff in Hp as [H1 H2]. split; [by apply clearsb_clears, negb_true_iff|].
  intros j p' Hj. rewrite forallb_forall in H2. apply clearsb_clears, negb_true_iff, H2, list_elem_of_In.
  by eapply list_elem_of_lookup_2.
Qed.

(** A run that tests every state it leaves. *)
Fixpoint careful_moves (l : list Move) (s : Sys) : option Sys :=
  match l with
  | [] => Some s
  | m :: l => if exclusiveb s then s' ← move m s; careful_moves l s' else None
  end.

Lemma moves_rtc l s s' : moves l s = Some s' -> rtc (any_step cfg) s s'.
Proof.
  revert s. induction l as [|m l IH]; intros s; cbn; [by intros [= <-]|].
  destruct (move m s) as [s1|] eqn:E; [|done]. cbn. intros Hl. eapply rtc_l; [eexists; by eapply move_step|by apply IH].
Qed.

Lemma careful_moves_rtc l s s' : careful_moves l s = Some s' -> rtc (careful cfg) s s'.
Proof.
  revert s. induction l as [|m l IH]; intros s; cbn; [by intros [= <-]|].
  destruct (exclusiveb s) eqn:He; [|done]. destruct (move m s) as [s1|] eqn:E; [|done]. cbn. intros Hl.
  eapply rtc_l; [split; [by apply exclusiveb_exclusive|eexists; by eapply move_step]|by apply IH].
Qed.
End runs.

(** ** Witnesses *)

Definition put_request_to (o : string) : HttpRequest :=
  SetPathParam "object" o (SetPathParam "bucket" "b" (SetBody "hello" (SetMethod PUT new_request))).

Definition answered_200 (p : Prog HttpResponse) : bool :=
  match p with Done _ (Ret r) => status_code_ r =? 200 | _ => false end.

(** Two PUTs of one content while the collector removes an old copy of it, each
    call of one followed by a call of another. *)
Definition busy_moves : list Move :=
  [Arrive R_PutObject (put_request_to "o1"); Arrive R_PutObject (put_request_to "o2"); TakeBatch 10;
   Request 0; Request 1; Collect; Collect; Collect; Collect; Collect; Collect; Collect;
   Request 0; Request 1; Request 0; Request 1; Request 1; Request 0].

Definition busy_end : Sys := default (idle sample_world) (careful_moves mem_cfg busy_moves (idle sample_world)).

Lemma some_default {A} (x : option A) d : bool_decide (is_Some x) = true -> x = Some (default d x).
Proof. intros [y ->]%bool_decide_eq_true. done. Qed.

Lemma interleaved_store_consistent_witness :
  rtc (careful mem_cfg) (idle sample_world) busy_end /\
  forallb answered_200 (sys_requests busy_end) = true /\
  exists o, a_objs (abs (tables_of (sys_store busy_end))) !! (1, "o2") = Some o /\
    exists d, os_file (sw_os (sys_store busy_end)) (cas_path mem_cfg (ao_cas o)) = Some d /\ Final d = ao_cas o.
Proof.
  assert (Hrun : rtc (careful mem_cfg) (idle sample_world) busy_end).
  { apply (careful_moves_rtc mem_cfg busy_moves). apply some_default. vm_compute. reflexivity. }
  split; [exact Hrun|]. split; [vm_compute; reflexivity|].
  exists (default (MkAObject "" "" 0 "" "") (a_objs (abs (tables_of (sys_store busy_end))) !! (1, "o2"))).
  assert (Ho : a_objs (abs (tables_of (sys_store busy_end))) !! (1, "o2") =
    Some (default (MkAObject "" "" 0 "" "") (a_objs (abs (tables_of (sys_store busy_end))) !! (1, "o2")))).
  { vm_compute. reflexivity. }
  split; [exact Ho|].
  exact (proj2 (interleaved_store_consistent mem_cfg sample_world busy_end sample_world_ok Hrun) (1, "o2") _ Ho).
Defined.
