(* ===== verification/Services.v ===== *)
(** * The service classes (src/src/service/bucket_service.cpp, object_service.cpp,
    multipart_service.cpp)

    A second layer over the two stores that nothing in the program calls yet. Its
    operations keep the counts of the contents by separate statements, unlike the
    handlers. *)
From S2P Require Import Prelude Status Json Crypto Sql MySQLTx MemServer MetaStore Sessions FileSys.
From S2P Require Import DataStore DataStoreSpec DataStoreProps Uuid World StoreProps.

Open Scope Z_scope.

Section services.
Context `{Collation, Calendar, MySQL, ConnPool, Redis, Posix, JsonLib, Digest} (cfg : StoreConfig).

(** [if (!r.ok()) return Err(r.status());]. *)
Definition or_err {A B} (m : SM (Result A)) (k : A -> SM (Result B)) : SM (Result B) :=
  r ← m;
  match r with
  | Ok a => k a
  | Err s => mret (Err s)
  end.

(** The same for a [Status] result. *)
Definition or_status {A} (m : SM (Result A)) (k : A -> SM Status) : SM Status :=
  r ← m;
  match r with
  | Ok a => k a
  | Err s => mret s
  end.

(** ** Buckets *)

Definition BucketService_GetBucket (bucket_name : string) : SM (Result BucketInfo) :=
  on_meta (GetBucket bucket_name).

Definition BucketExists (bucket_name : string) : SM (Result bool) :=
  result ← on_meta (GetBucket bucket_name);
  mret match result with
       | Ok _ => Ok true
       | Err s => if IsNotFound s then Ok false else Err s
       end.

Definition BucketService_CreateBucket (bucket_name owner_id region : string) : SM (Result Z) :=
  or_err (BucketExists bucket_name) (fun exists_ =>
    if exists_ : bool then mret (Err (Status_AlreadyExists ("Bucket already exists: " +:+ bucket_name)))
    else on_meta (CreateBucket bucket_name owner_id region "private")).

Definition BucketService_DeleteBucket (bucket_name : string) : SM Status :=
  or_status (BucketService_GetBucket bucket_name) (fun bucket =>
    or_status (on_meta (IsBucketEmpty (bi_id bucket))) (fun empty =>
      if empty : bool then on_meta (DeleteBucket bucket_name)
      else mret (Status_InvalidArgument ("Bucket is not empty: " +:+ bucket_name)))).

Definition BucketService_ListBuckets (owner_id : string) : SM (Result (list BucketInfo)) :=
  on_meta (ListBuckets owner_id).

(** ** Objects *)

Definition HeadObject (bucket_id : Z) (key : string) : SM (Result ObjectInfo) := on_meta (GetObject bucket_id key).

Definition ObjectExists (bucket_id : Z) (key : string) : SM (Result bool) :=
  result ← on_meta (GetObject bucket_id key);
  mret match result with
       | Ok _ => Ok true
       | Err s => if IsNotFound s then Ok false else Err s
       end.

Definition quoted (sha256 : string) : string := String "034" (sha256 +:+ String "034" "").

(** The content is written when it is not there, and registered, which counts one
    more reference to it. *)
Definition store_content (content : list ascii) (sha256 : string) : SM (Result unit) :=
  cas_exists ← ask_os (Exists cfg sha256);
  w ← (if cas_exists : bool then mret (Ok sha256) else on_os (Write cfg content));
  match w with
  | Err s => mret (Err s)
  | Ok _ =>
      or_err (on_meta (RegisterCasBlob sha256 (Z.of_nat (length content)))) (fun _ => mret (Ok tt))
  end.

(** The object that is about to be replaced gives up its content. *)
Definition release_old (bucket_id : Z) (key sha256 : string) : SM (Result unit) :=
  or_err (ObjectExists bucket_id key) (fun exists_ =>
    if exists_ : bool then
      old ← HeadObject bucket_id key;
      match old with
      | Ok info =>
          if negb (String.eqb (oi_sha256_hash info) sha256)
          then _ ← on_meta (DecrementRefCount (oi_sha256_hash info)); mret (Ok tt)
          else mret (Ok tt)
      | Err _ => mret (Ok tt)
      end
    else mret (Ok tt)).

Definition ObjectService_PutObject (bucket_id : Z) (key : string) (content : list ascii)
    (content_type owner_id : string) : SM (Result string) :=
  let sha256 := SHA256 (string_of content) in
  let size := Z.of_nat (length content) in
  or_err (store_content content sha256) (fun _ =>
    or_err (release_old bucket_id key sha256) (fun _ =>
      or_err (on_meta (PutObject bucket_id key size (quoted sha256) content_type sha256 owner_id "{}"))
        (fun _ => mret (Ok sha256)))).

Definition ObjectService_GetObject (bucket_id : Z) (key : string) : SM (Result (list ascii * ObjectInfo)) :=
  or_err (HeadObject bucket_id key) (fun info =>
    or_err (on_os (Read cfg (oi_sha256_hash info))) (fun content => mret (Ok (content, info)))).

(** The last byte asked for; a negative one means the end of the object. *)
Definition range_end (size last : Z) : Z :=
  let last := if last <? 0 then size - 1 else last in
  if size <=? last then size - 1 else last.

Definition GetObjectRange (bucket_id : Z) (key : string) (start last : Z) : SM (Result (list ascii * ObjectInfo)) :=
  or_err (HeadObject bucket_id key) (fun info =>
    if (start <? 0) || (oi_size info <=? start) then mret (Err (Status_InvalidArgument "Invalid range start"))
    else
      let last := range_end (oi_size info) last in
      if last <? start then mret (Err (Status_InvalidArgument "Invalid range: start > end"))
      else
        '(status, content) ← on_os (StreamRead cfg (oi_sha256_hash info) (Z.to_nat start)
                                      (Z.to_nat (last - start + 1)) collect []);
        if status_ok status then mret (Ok (content, info)) else mret (Err status)).

Definition ObjectService_DeleteObject (bucket_id : Z) (key : string) : SM Status :=
  or_status (HeadObject bucket_id key) (fun info =>
    status ← on_meta (DeleteObject bucket_id key);
    if status_ok status then on_meta (DecrementRefCount (oi_sha256_hash info)) else mret status).

Definition ObjectService_ListObjects (bucket_id : Z) (prefix delimiter start_after : string) (limit : Z)
    : SM (Result ListObjectsResult) :=
  on_meta (ListObjects bucket_id prefix delimiter start_after limit).

Definition CopyObject (src_bucket_id : Z) (src_key : string) (dst_bucket_id : Z) (dst_key owner_id : string)
    : SM (Result string) :=
  or_err (HeadObject src_bucket_id src_key) (fun src =>
    let sha256 := oi_sha256_hash src in
    or_err (release_old dst_bucket_id dst_key sha256) (fun _ =>
      or_err (on_meta (PutObject dst_bucket_id dst_key (oi_size src) (oi_etag src) (oi_content_type src)
                         sha256 owner_id "{}")) (fun _ =>
        status ← on_meta (IncrementRefCount sha256);
        if status_ok status then mret (Ok sha256) else mret (Err status)))).

(** ** Uploads *)

Definition GetUpload (upload_id : string) : SM (Result MultipartUploadInfo) := on_meta (GetMultipartUpload upload_id).

(** [system_clock::now()]. *)
Definition system_now : SM Z := fun w => (Ret (m_now (sw_meta w)), w).

Definition InitiateMultipartUpload (bucket_id : Z) (key content_type owner_id : string) : SM (Result string) :=
  upload_id ← Generate;
  now ← system_now;
  on_meta (CreateMultipartUpload upload_id bucket_id key content_type owner_id (now + 24 * 7 * 3600)).

Definition MultipartService_UploadPart (upload_id : string) (part_number : Z) (content : list ascii)
    : SM (Result string) :=
  or_err (GetUpload upload_id) (fun _ =>
    if (part_number <? 1) || (10000 <? part_number)
    then mret (Err (Status_InvalidArgument "Part number must be between 1 and 10000"))
    else
      let sha256 := SHA256 (string_of content) in
      or_err (store_content content sha256) (fun _ =>
        or_err (on_meta (CreateOrUpdatePart upload_id part_number sha256 (Z.of_nat (length content)) (quoted sha256)))
          (fun _ => mret (Ok (quoted sha256))))).

Definition MultipartService_ListParts (upload_id : string) (part_number_marker max_parts : Z)
    : SM (Result ListPartsResult) := on_meta (ListParts upload_id part_number_marker max_parts).

(** The stored part of a number, the first that has it. *)
Definition find_part (part_num : Z) (stored : list MultipartPartInfo) : option MultipartPartInfo :=
  snd <$> list_find (fun p => pi_part_number p = part_num) stored.

(** The keys of the parts the client names, in the order of the client. *)
Fixpoint part_keys (parts : list (Z * string)) (stored : list MultipartPartInfo) : Result (list string) :=
  match parts with
  | [] => Ok []
  | (part_num, etag) :: parts =>
      match find_part part_num stored with
      | None => Err (Status_NotFound ("Part not found: " +:+ to_string part_num))
      | Some p =>
          if negb (String.eqb (pi_etag p) etag)
          then Err (Status_InvalidArgument ("ETag mismatch for part " +:+ to_string part_num))
          else match part_keys parts stored with
               | Ok keys => Ok (pi_sha256_hash p :: keys)
               | Err s => Err s
               end
      end
  end.

Definition Service_CompleteMultipartUpload (upload_id : string) (parts : list (Z * string)) : SM (Result string) :=
  or_err (GetUpload upload_id) (fun upload =>
    or_err (MultipartService_ListParts upload_id 0 1000) (fun result =>
      let stored := lp_parts result in
      if negb (Nat.eqb (length parts) (length stored))
      then mret (Err (Status_InvalidArgument "Part count mismatch"))
      else
        match part_keys parts stored with
        | Err s => mret (Err s)
        | Ok cas_keys =>
            or_err (on_os (Merge cfg cas_keys)) (fun final_sha256 =>
              let total_size := foldl (fun n p => n + pi_size p) 0 stored in
              or_err (on_meta (RegisterCasBlob final_sha256 total_size)) (fun _ =>
                or_err (on_meta (PutObject (ui_bucket_id upload) (ui_key upload) total_size (quoted final_sha256)
                                   (ui_content_type upload) final_sha256 (ui_owner_id upload) "{}")) (fun _ =>
                  _ ← on_meta (CompleteMultipartUpload upload_id); mret (Ok final_sha256))))
        end)).

Fixpoint release_all (parts : list MultipartPartInfo) : SM unit :=
  match parts with
  | [] => mret tt
  | p :: parts => _ ← on_meta (DecrementRefCount (pi_sha256_hash p)); release_all parts
  end.

Definition Service_AbortMultipartUpload (upload_id : string) : SM Status :=
  result ← MultipartService_ListParts upload_id 0 1000;
  _ ← (match result with Ok r => release_all (lp_parts r) | Err _ => mret tt end);
  on_meta (AbortMultipartUpload upload_id).

Definition Service_ListMultipartUploads (bucket_id : Z) (prefix : string) : SM (Result (list MultipartUploadInfo)) :=
  on_meta (ListMultipartUploads bucket_id prefix 1000).

(** ** Ranges *)

Context `{!PosixLaws}.

Lemma wp_or_err {A B} (m : SM (Result A)) (k : A -> SM (Result B)) (Q : exn (Result B) -> StoreW -> Prop) w :
  wp m (fun r w' => match r with
                    | Ret (Ok a) => wp (k a) Q w'
                    | Ret (Err s) => Q (Ret (Err s)) w'
                    | Throw e => Q (Throw e) w'
                    end) w -> wp (or_err m k) Q w.
Proof.
  intros Hm. unfold or_err. apply wp_bind. eapply wp_mono; [exact Hm|]. intros [[a|s]|e] w' Hw; [done| |done].
  by apply wp_ret.
Qed.

Lemma on_meta_files {A} (m : MM A) w : wp (on_meta m) (fun _ w' => sw_os w' = sw_os w) w.
Proof. apply wp_on_meta. done. Qed.

(** A range read answers, for a start within the object, exactly the bytes from
    the start to the end asked for, which is cut to the last byte of the object and
    is that byte when it is negative. *)
Lemma GetObjectRange_exact bucket_id key start last w content info w' :
  GetObjectRange bucket_id key start last w = (Ret (Ok (content, info)), w') ->
  (forall c, os_file (sw_os w) (cas_path cfg (oi_sha256_hash info)) = Some c -> oi_size info = Z.of_nat (length c)) ->
  let stop := range_end (oi_size info) last in
  0 <= start <= stop /\ stop < oi_size info /\
  exists c, os_file (sw_os w) (cas_path cfg (oi_sha256_hash info)) = Some c /\
    content = range_from c (Z.to_nat start) (Z.to_nat (stop - start + 1)).
Proof.
  intros E Hsize. cbv zeta. revert Hsize.
  enough (Hw : wp (GetObjectRange bucket_id key start last) (fun r _ => forall content info, r = Ret (Ok (content, info)) ->
    (forall c, os_file (sw_os w) (cas_path cfg (oi_sha256_hash info)) = Some c -> oi_size info = Z.of_nat (length c)) ->
    0 <= start <= range_end (oi_size info) last /\ range_end (oi_size info) last < oi_size info /\
    exists c, os_file (sw_os w) (cas_path cfg (oi_sha256_hash info)) = Some c /\
      content = range_from c (Z.to_nat start) (Z.to_nat (range_end (oi_size info) last - start + 1))) w)
    by exact (wp_run _ _ _ _ _ E Hw content info eq_refl).
  clear E content info w'. unfold GetObjectRange. apply wp_or_err. eapply wp_mono; [apply on_meta_files|].
  intros [[info|s]|e] w1 Hos; [|done..].
  destruct (Z.ltb_spec start 0); cbn [orb]; [by apply wp_ret|]. destruct (Z.leb_spec (oi_size info) start); [by apply wp_ret|].
  set (stop := range_end (oi_size info) last). assert (Hstop : stop < oi_size info).
  { subst stop. unfold range_end. destruct (Z.ltb_spec last 0), (Z.leb_spec (oi_size info) last);
      repeat case_match; lia. }
  destruct (Z.ltb_spec stop start); [by apply wp_ret|]. apply wp_bind, wp_on_os.
  pose proof (wp_stream_read cfg (oi_sha256_hash info) (Z.to_nat start) (Z.to_nat (stop - start + 1)) (sw_os w1)) as Hr.
  unfold wp in *. rewrite Hos in *. destruct (StreamRead _ _ _ _ _ _) as [r s2]. cbn [fst snd] in *.
  destruct r as [[status acc]|e]; [|done]. destruct (status_ok status) eqn:Es; [|done].
  intros content info' [= <- <-] Hsize. fold stop. split_and!; [lia|lia|lia|].
  destruct Hr as (_ & st & acc' & [= <- <-] & Hc); [|by apply Hc]. intros c Hfile. apply Hsize in Hfile. lia.
Qed.
End services.

(** ** Counts *)

(** The tag of the service is the quoted digest, 66 characters, and the column has 64:
    the server refuses the object after its content has been counted, and nothing
    releases the count. The handlers use half of the digest ([etag_value]). *)
Definition service_put : exn (Result string) * StoreW :=
  ObjectService_PutObject mem_cfg 1 "o" (bytes_of "hello") "text/plain" "" sample_world.

Example service_put_refused :
  fits 64 (quoted sample_key) = false /\
  (match fst service_put with Ret (Err s) => code_ s | _ => OK end) = DatabaseError /\
  (cr_ref <$> cas_blobs (tables_of (snd service_put)) !! sample_key) = Some 1 /\
  size (objects (tables_of (snd service_put))) = 0%nat.
Proof. vm_compute. done. Qed.
