(* ===== verification/ObjectProps.v ===== *)
(** * Properties of the object handlers: ranges, PUT and GET *)
From S2P Require Import Prelude Status Json Crypto Sql MySQLTx MetaStore Sessions MetaStoreSpec.
From S2P Require Import MetaStoreProps MemServer Uuid FileSys DataStore DataStoreSpec.
From S2P Require Import DataStoreProps HttpResponse HttpRequest HttpRouter Auth World StoreSpec Gc.
From S2P Require Import GcProps ObjectHandlers StoreProps.

Open Scope Z_scope.

(** ** Ranges *)

Lemma span_digits_app a c r :
  str_all is_digit a = true -> is_digit c = false -> span_digits (a +:+ String c r) = (a, String c r).
Proof.
  intros Ha Hc. induction a as [|d a IH]; cbn; [by rewrite Hc|].
  cbn in Ha. apply andb_true_iff in Ha as [Hd Ha]. rewrite Hd. by rewrite IH.
Qed.

Lemma span_digits_all a : str_all is_digit a = true -> span_digits a = (a, "").
Proof.
  intros Ha. induction a as [|d a IH]; cbn; [done|].
  cbn in Ha. apply andb_true_iff in Ha as [Hd Ha]. rewrite Hd. by rewrite IH.
Qed.

(** The header of a range with the given digits. *)
Definition range_header (a b : string) : string := "bytes=" +:+ a +:+ "-" +:+ b.

Lemma range_match_header a b :
  str_all is_digit a = true -> str_all is_digit b = true -> range_match (range_header a b) = Some (a, b).
Proof.
  intros Ha Hb. unfold range_match, range_header. cbn [String.append str_take String.eqb].
  cbn [Ascii.eqb Bool.eqb andb str_drop].
  change ("-" +:+ b) with (String "-" b). rewrite span_digits_app by done. cbn.
  by rewrite span_digits_all.
Qed.

Lemma to_string_nonempty n : 0 <= n -> str_empty (to_string n) = false.
Proof. intros H. destruct (to_string_cons n H) as (c & r & -> & _). done. Qed.

Lemma scan_digits_nonneg acc s : 0 <= acc -> 0 <= fst (scan_digits acc s).
Proof.
  revert acc. induction s as [|c s IH]; intros acc Ha; [done|]. cbn.
  destruct (digit_val c) as [d|] eqn:E; [|done]. apply IH.
  unfold digit_val in E. case_match eqn:F; [|done]. injection E as <-.
  apply andb_true_iff in F as [F _]. apply Z.leb_le in F. lia.
Qed.

Lemma stoull_range s n : stoull s = Conv n -> 0 <= n < two64.
Proof.
  unfold stoull, strto. destruct (read_sign _) as [neg r]. destruct r as [|c r]; [done|].
  destruct (is_digit c); [|done]. pose proof (scan_digits_nonneg 0 (String c r)).
  destruct (scan_digits 0 (String c r)) as [m rest]. cbn [fst] in *.
  destruct (Z.ltb_spec m two64); [|done]. intros [= <-].
  destruct neg; [apply u64_range|lia].
Qed.

Lemma conv_exn_stoull s n : conv_exn (stoull s) = Ret n -> 0 <= n < two64.
Proof. destruct (stoull s) as [m| |] eqn:E; cbn; try done. intros [= <-]. by eapply stoull_range. Qed.

Lemma parse_range_suffix size b :
  0 < size < two63 -> 0 <= b < two64 ->
  ParseRange (range_header "" (to_string b)) size = Ret (Some (size - Z.min b size, size - 1)).
Proof.
  intros Hs Hb. unfold ParseRange. pose proof (to_string_digits b ltac:(lia)) as Db.
  destruct (Z.eqb_spec size 0); [lia|]. rewrite range_match_header by done.
  rewrite (to_string_nonempty b) by lia. cbn [str_empty andb].
  rewrite stoull_to_string by done. cbn [conv_exn mbind exn_bind].
  rewrite u64_small by (destruct (Z.ltb_spec size b); unfold two63, two64 in *; lia).
  destruct (Z.ltb_spec size b); do 3 f_equal; lia.
Qed.

(** C27. Ranges: the three forms of a range are read as RFC 7233 has them, cut
    to the file: [first-last] when it starts inside the file, [first-] to the
    end, [-n] the last [n] bytes. *)
Theorem parse_range_forms size a b :
  0 < size < two63 -> 0 <= a < two64 -> 0 <= b < two64 ->
  ParseRange (range_header (to_string a) (to_string b)) size =
    Ret (if (a <=? b) && (a <? size) then Some (a, Z.min b (size - 1)) else None) /\
  ParseRange (range_header (to_string a) "") size =
    Ret (if a <? size then Some (a, size - 1) else None) /\
  ParseRange (range_header "" (to_string b)) size = Ret (Some (size - Z.min b size, size - 1)).
Proof.
  intros Hs Ha Hb. rewrite parse_range_suffix by done. unfold ParseRange.
  pose proof (to_string_digits a ltac:(lia)) as Da. pose proof (to_string_digits b ltac:(lia)) as Db.
  destruct (Z.eqb_spec size 0); [lia|].
  rewrite !range_match_header by done.
  rewrite (to_string_nonempty a), (to_string_nonempty b) by lia. cbn [str_empty andb].
  rewrite !stoull_to_string by done. cbn [conv_exn mbind exn_bind].
  split_and!.
  - destruct (Z.ltb_spec b a), (Z.leb_spec size a), (Z.leb_spec a b), (Z.ltb_spec a size);
      cbn; try lia; try done. destruct (Z.leb_spec size b); do 3 f_equal; lia.
  - destruct (Z.leb_spec size a), (Z.ltb_spec a size); (done || lia).
  - done.
Qed.

(** ** What a Range header asks for *)

(** A number of the header: digits, and their value. *)
Definition number (s : string) : Prop := str_empty s = false /\ str_all is_digit s = true.
Definition value (s : string) : Z := fst (scan_digits 0 s).

(** First and last byte the header of one range asks of [size] bytes (RFC 7233, 2.1). *)
Inductive asks (size : Z) : string -> Z -> Z -> Prop :=
  | asks_span a b : number a -> number b -> value a <= value b -> value a < size ->
      asks size (range_header a b) (value a) (Z.min (value b) (size - 1))
  | asks_from a : number a -> value a < size -> asks size (range_header a "") (value a) (size - 1)
  | asks_suffix b : number b -> asks size (range_header "" b) (size - Z.min (value b) size) (size - 1).

Lemma span_digits_inv s d r : span_digits s = (d, r) -> s = d +:+ r /\ str_all is_digit d = true.
Proof.
  revert d r. induction s as [|c s IH]; intros d r; cbn; [by intros [= <- <-]|].
  destruct (is_digit c) eqn:Ec; [|by intros [= <- <-]].
  destruct (span_digits s) as [d' r'] eqn:E. destruct (IH d' r' eq_refl) as [-> Hd]. intros [= <- <-].
  split; [done|]. cbn. by rewrite Ec.
Qed.

Lemma range_match_inv s x y :
  range_match s = Some (x, y) -> s = range_header x y /\ str_all is_digit x = true /\ str_all is_digit y = true.
Proof.
  unfold range_match. destruct (String.eqb_spec (str_take 6 s) "bytes=") as [E|]; [|done].
  destruct (span_digits (str_drop 6 s)) as [a r] eqn:Ea. apply span_digits_inv in Ea as [Ea Da].
  destruct r as [|c r]; [done|]. destruct (Ascii.eqb_spec c "-") as [->|]; [|done].
  destruct (span_digits r) as [b q] eqn:Eb. apply span_digits_inv in Eb as [-> Db].
  destruct (str_empty q) eqn:Eq; [|done]. apply str_empty_spec in Eq as ->. intros [= <- <-].
  split; [|done]. rewrite <-(str_take_drop 6 s), E, Ea, str_app_nil_r. done.
Qed.

Lemma stoull_number s n : number s -> conv_exn (stoull s) = Ret n -> n = value s.
Proof.
  intros [He Hs]. destruct s as [|c r]; [done|]. cbn in Hs. apply andb_true_iff in Hs as [Hc _].
  unfold stoull, strto, value. cbn [skip_spaces]. rewrite digit_not_space, digit_not_sign, Hc by done.
  case_match; cbn; [|done]. by intros [= ->].
Qed.

Lemma parse_range_asks s size a b :
  0 < size < two63 -> ParseRange s size = Ret (Some (a, b)) -> asks size s a b.
Proof.
  intros Hs. unfold ParseRange. destruct (Z.eqb_spec size 0) as [|_]; [lia|].
  destruct (range_match s) as [[x y]|] eqn:E; [|done]. apply range_match_inv in E as (-> & Dx & Dy).
  destruct (str_empty x) eqn:Ex, (str_empty y) eqn:Ey; cbn [andb]; [done|..].
  - apply str_empty_spec in Ex as ->. destruct (conv_exn (stoull y)) as [n|] eqn:En; cbn [mbind exn_bind]; [|done].
    pose proof (conv_exn_stoull _ _ En) as Hn. apply stoull_number in En as ->; [|done]. intros [= <- <-].
    rewrite u64_small by (destruct (Z.ltb_spec size (value y)); unfold two63, two64 in *; lia).
    replace (if size <? value y then size else value y) with (Z.min (value y) size)
      by (destruct (Z.ltb_spec size (value y)); lia). by apply asks_suffix.
  - apply str_empty_spec in Ey as ->. destruct (conv_exn (stoull x)) as [n|] eqn:En; cbn [mbind exn_bind]; [|done].
    apply stoull_number in En as ->; [|done]. destruct (Z.leb_spec size (value x)); intros [= <- <-]. by apply asks_from.
  - destruct (conv_exn (stoull x)) as [n|] eqn:En; cbn [mbind exn_bind]; [|done].
    destruct (conv_exn (stoull y)) as [m|] eqn:Em; cbn [mbind exn_bind]; [|done].
    apply stoull_number in En as ->; [|done]. apply stoull_number in Em as ->; [|done].
    destruct (Z.ltb_spec (value y) (value x)), (Z.leb_spec size (value x)); cbn; try done. intros [= <- <-].
    replace (if size <=? value y then size - 1 else value y) with (Z.min (value y) (size - 1))
      by (destruct (Z.leb_spec size (value y)); lia). by apply asks_span.
Qed.

(** A range that is accepted lies inside the file. *)
Lemma range_in_file s size a b :
  0 < size < two63 -> ParseRange s size = Ret (Some (a, b)) ->
  0 <= a <= b + 1 /\ b < size /\ (a = b + 1 -> exists n, range_match s = Some ("", n)).
Proof.
  intros Hs. unfold ParseRange. destruct (Z.eqb_spec size 0) as [|_]; [lia|].
  destruct (range_match s) as [[x y]|] eqn:E; [|done].
  destruct (str_empty x && str_empty y); [done|]. destruct (str_empty x) eqn:Ex.
  - apply str_empty_spec in Ex as ->. destruct (conv_exn (stoull y)) as [n|] eqn:En; cbn; [|done].
    apply conv_exn_stoull in En. intros [= <- <-].
    rewrite u64_small by (destruct (Z.ltb_spec size n); unfold two63, two64 in *; lia).
    split; [destruct (Z.ltb_spec size n); lia|]. split; [lia|]. eauto.
  - destruct (str_empty y).
    + destruct (conv_exn (stoull x)) as [n|] eqn:En; cbn; [|done]. apply conv_exn_stoull in En.
      destruct (Z.leb_spec size n); intros [= <- <-]. split; [lia|]. split; [lia|]. intros; lia.
    + destruct (conv_exn (stoull x)) as [n|] eqn:En; cbn; [|done]. apply conv_exn_stoull in En.
      destruct (conv_exn (stoull y)) as [m|] eqn:Em; cbn; [|done]. apply conv_exn_stoull in Em.
      destruct (Z.ltb_spec m n), (Z.leb_spec size n); cbn; try done.
      intros [= <- <-]. destruct (Z.leb_spec size m); (split; [lia|]; split; [lia|]; intros; lia).
Qed.

(** A range that is accepted lies inside the file, whatever the header: its
    first byte is at most one past its last, its last is the file's last at most;
    only the suffix of zero bytes gives an empty range. *)
Theorem parse_range_bounds s size a b :
  0 < size < two63 -> ParseRange s size = Ret (Some (a, b)) ->
  0 <= a <= b + 1 /\ b < size /\ (a = b + 1 -> exists n, range_match s = Some ("", n)).
Proof. apply range_in_file. Qed.

(** ** What GET serves *)

Section objects.
Context `{HC : Collation, HCal : Calendar, HS : MySQL, HP : ConnPool, HR : Redis, HX : Posix}.
Context `{HJ : JsonLib, HD : Digest} `{HL : !MySQLLaws, HLX : !PosixLaws}.
Context (cfg : StoreConfig).
Implicit Types (w : StoreW) (m : MetaW).

Definition info_of (o : AObject) (info : ObjectInfo) : Prop :=
  oi_sha256_hash info = ao_cas o /\ oi_size info = ao_size o /\ oi_etag info = ao_etag o /\
  oi_content_type info = ao_type o.

Lemma object_of_row_info now r info :
  object_of_row now (object_text r) = Ret info -> info_of (aobject r) info.
Proof.
  unfold object_of_row.
  change (col_ll (object_text r) 0) with (conv_exn (stoll (to_string (or_id r)))).
  change (col_ll (object_text r) 1) with (conv_exn (stoll (to_string (or_bucket r)))).
  change (ll_or0 (object_text r) 4) with (conv_exn (stoll (to_string (or_size r)))).
  unfold mbind, exn_bind.
  destruct (conv_exn (stoll (to_string (or_id r)))); [|done].
  destruct (conv_exn (stoll (to_string (or_bucket r)))); [|done].
  destruct (conv_exn (stoll (to_string (or_size r)))) as [n|] eqn:En; [|done].
  apply stoll_num in En as ->. by intros [= <-].
Qed.

(** Without the Redis cache a lookup answers the row. *)
Lemma wp_get_object b k m :
  open_tx m = None -> redis_live m = None ->
  wp (GetObject b k) (fun r m' => open_tx m' = None /\ abs (committed m') = abs (committed m) /\
    forall info, r = Ret (Ok info) ->
      exists o, a_find b k (abs (committed m)) = Some o /\ info_of o info) m.
Proof.
  intros Hm Hr. assert (Hq : wp (GetObject b k) (fun _ m' => open_tx m' = None /\
    abs (committed m') = abs (committed m)) m) by by apply quiet_GetObject.
  assert (Hres : wp (GetObject b k) (fun r _ => forall info, r = Ret (Ok info) ->
    exists o, a_find b k (abs (committed m)) = Some o /\ info_of o info) m).
  { unfold GetObject, cached_object. apply wp_bind. apply wp_bind. unfold wp at 1, get_world.
    cbn [fst snd]. rewrite Hr. apply wp_ret. apply wp_with_conn; intros p; [done|].
    apply wp_bind. unfold wp at 1, get_world. cbn [fst snd]. apply wp_bind.
    apply wp_conn_run; [done|done| |]; [|intros m' e _ _ _ _; by apply wp_ret].
    intros m' t' rows aff id ids _ He _ _ _. cbn -[abs] in He. unfold rows_of in He.
    injection He as <- <- <- <-. change (committed (set_pool p m)) with (committed m).
    unfold find_object. destruct (objects (committed m) !! (b, uk255 k)) as [row|] eqn:Er; [|by apply wp_ret].
    destruct (sql_eq (or_key row) k) eqn:Ek; [|by apply wp_ret]. cbn [opt_rows].
    apply wp_bind, wp_lift.
    destruct (object_of_row (m_now (set_pool p m)) (object_text row)) as [info|e] eqn:Ei; [|done].
    apply wp_bind. unfold wp at 1. destruct (cache_object b k info m') as [[u|e] m2]; [|done].
    apply wp_ret. intros p' info' [= <-]. exists (aobject row). split.
    - unfold a_find. cbn. rewrite lookup_fmap, Er. cbn. by rewrite Ek.
    - by eapply object_of_row_info. }
  unfold wp in *. destruct Hq as [Q1 Q2]. split; [exact Q1|]. split; [exact Q2|exact Hres].
Qed.

(** The bucket [bid] is the one the name stands for: by the process's cache of
    names when it has the name, by the table otherwise. *)
Definition names_bucket (n : string) (bid : Z) m : Prop :=
  match bucket_cache_ m !! n with
  | Some info => bi_id info = bid
  | None => exists row, buckets (committed m) !! coll n = Some row /\ br_id row = bid
  end.

Lemma bucket_of_row_id now r info : bucket_of_row now (bucket_text r) = Ret info -> bi_id info = br_id r.
Proof.
  unfold bucket_of_row, col_ll. cbn. unfold mbind, exn_bind.
  destruct (conv_exn (stoll (to_string (br_id r)))) as [n|] eqn:En; [|done].
  apply stoll_num in En as ->. by intros [= <-].
Qed.

Lemma wp_get_bucket n m :
  open_tx m = None ->
  wp (GetBucket n) (fun r m' => redis_cache_ m' = redis_cache_ m /\
    forall info, r = Ret (Ok info) -> names_bucket n (bi_id info) m) m.
Proof.
  intros Hm. unfold GetBucket, names_bucket. apply wp_bind. unfold wp at 1, get_world. cbn [fst snd].
  destruct (bucket_cache_ m !! n) as [i|] eqn:En.
  { apply wp_ret. split; [done|]. by intros info [= <-]. }
  apply wp_with_conn; intros p; [done|]. apply wp_bind.
  apply wp_conn_run; [done|done| |].
  - intros m' t' rows aff id ids (_ & _ & Hf & _) He _ _ _. cbn in He. injection He as <- <- <- <-.
    change (committed (set_pool p m)) with (committed m).
    destruct (buckets (committed m) !! coll n) as [row|]; cbn [opt_rows].
    2: { apply wp_ret. intros p'. by split. }
    apply wp_bind, wp_lift. destruct (bucket_of_row _ _) as [info|e] eqn:Ei.
    2: { intros p'. by split. }
    apply wp_bind. unfold wp at 1, put_world. cbn [fst snd]. apply wp_ret. intros p'. split; [done|].
    intros i [= <-]. apply bucket_of_row_id in Ei. by exists row.
  - intros m' e (_ & _ & Hf & _) _ _ _. apply wp_ret. intros p'. by split.
Qed.

(** A response that sends all of an object, without a Range header, or else the bytes
    the header asks for. (The suffix of zero bytes, whose first byte is one past its
    last, is the exception: [suffix_zero_sends_file].) *)
Definition serves_range (o : AObject) (header : string) (resp : HttpResponse) : Prop :=
  file_path_ resp = cas_path cfg (ao_cas o) /\
  HttpResponse.headers_ resp !! "Content-Type" = Some (ao_type o) /\
  HttpResponse.headers_ resp !! "ETag" = Some (ao_etag o) /\
  if str_empty header then
    status_code_ resp = 200 /\ file_offset_ resp = 0 /\ FileLength resp = ao_size o /\
    HttpResponse.headers_ resp !! "Content-Length" = Some (to_string (ao_size o))
  else exists first last, asks (ao_size o) header first last /\
    status_code_ resp = 206 /\ file_offset_ resp = first /\
    (first <= last -> FileLength resp = last - first + 1 /\
     HttpResponse.headers_ resp !! "Content-Length" = Some (to_string (last - first + 1)) /\
     HttpResponse.headers_ resp !! "Content-Range" =
       Some ("bytes " +:+ to_string first +:+ "-" +:+ to_string last +:+ "/" +:+ to_string (ao_size o))).

Lemma object_response_full o info header :
  info_of o info -> str_empty header = true -> 0 <= ao_size o < two63 ->
  serves_range o header (object_response cfg info None).
Proof.
  intros (E1 & E2 & E3 & E4) He Hsz. unfold serves_range, object_response, object_headers. rewrite He.
  cbn -[GetFilePath u64 to_string]. rewrite E1, E2, E3, E4, u64_small by (unfold two63, two64 in *; lia).
  split; [done|]. split_and!; [by simplify_map_eq..|done|done| |by simplify_map_eq].
  unfold FileLength. cbn -[u64]. by destruct (0 <? ao_size o) eqn:E; rewrite ?E.
Qed.

Lemma range_response o info header range :
  info_of o info -> str_empty header = false -> ParseRange header (u64 (oi_size info)) = Ret (Some range) ->
  0 <= ao_size o < two63 -> serves_range o header (object_response cfg info (Some range)).
Proof.
  destruct range as [first last]. intros (E1 & E2 & E3 & E4) He Ep Hsz. rewrite E2 in Ep.
  destruct (decide (ao_size o = 0)) as [E0|Hne].
  { rewrite E0 in Ep. discriminate. }
  assert (Hu : 0 < ao_size o < two63) by lia.
  rewrite u64_small in Ep by (unfold two63, two64 in *; lia).
  pose proof (range_in_file _ _ _ _ Hu Ep) as (B1 & B2 & _). apply parse_range_asks in Ep; [|done].
  unfold serves_range, object_response, object_headers. rewrite He.
  cbn -[GetFilePath u64 to_string]. rewrite E1, E2, E3, E4.
  split; [done|]. split_and!; [by simplify_map_eq..|]. exists first, last. split_and!; [done..|]. intros Hle.
  unfold two63, two64 in *. rewrite (u64_small (last - first + 1)) by (unfold two64; lia).
  rewrite (u64_small (first + _ - 1)) by (unfold two64; lia).
  split_and!; [|by simplify_map_eq|simplify_map_eq; by replace (first + (last - first + 1) - 1) with last by lia].
  unfold FileLength. cbn -[u64]. assert (E : (0 <? last - first + 1) = true) by (apply Z.ltb_lt; lia).
  by rewrite E, E.
Qed.

(** Reading the outcome of a handler: nothing is said of an exception or of a
    response without [P]. *)
Definition on_resp (P : HttpResponse -> bool) (Q : HttpResponse -> StoreW -> Prop)
    (r : exn HttpResponse) (w : StoreW) : Prop :=
  forall resp, r = Ret resp -> P resp = true -> Q resp w.

Lemma error_status code c msg t resp :
  Resp_Error code c msg t = Ret resp -> status_code_ resp = code /\ HasFile resp = false.
Proof.
  unfold Resp_Error, mbind, exn_bind. destruct (json_dump _); [|done]. by intros [= <-].
Qed.

(** An error response of a handler that only promises something otherwise. *)
Lemma wp_refuse_error P Q code c msg t w :
  (forall resp, status_code_ resp = code -> HasFile resp = false -> P resp = false) ->
  wp (refuse (Resp_Error code c msg t)) (on_resp P Q) w.
Proof.
  intros Hcode resp E Hp. apply error_status in E as [E1 E2]. by rewrite Hcode in Hp.
Qed.

Lemma wp_bind_throw {A} (op : SM A) (k : A -> SM HttpResponse) (R : exn A -> StoreW -> Prop) P Q w :
  wp op R w -> (forall a w', R (Ret a) w' -> wp (k a) (on_resp P Q) w') ->
  wp (op ≫= k) (on_resp P Q) w.
Proof.
  intros Ho Hk. apply wp_bind. eapply wp_mono; [exact Ho|].
  intros [a|e] w' Hpost; [by apply Hk|]. by intros resp.
Qed.

(** The bucket lookup, for what follows a bucket. *)
Lemma wp_bucket P Q n k w :
  open_tx (sw_meta w) = None ->
  (forall code resp, code <> 200 -> status_code_ resp = code -> HasFile resp = false -> P resp = false) ->
  (forall id w', names_bucket n id (sw_meta w) -> same_store w w' -> (redis_live (sw_meta w) = None -> redis_live (sw_meta w') = None) ->
     sw_os w' = sw_os w -> wp (k id) (on_resp P Q) w') ->
  wp (with_bucket n k) (on_resp P Q) w.
Proof.
  intros Ho Hcode Hk. unfold with_bucket.
  eapply (wp_bind_throw _ _ (fun x w' => same_store w w' /\
    (redis_live (sw_meta w) = None -> redis_live (sw_meta w') = None) /\ sw_os w' = sw_os w /\
    forall info, x = Ret (Ok info) -> names_bucket n (bi_id info) (sw_meta w))).
  - apply wp_on_meta_runs; [auto with minis3|]. unfold wp. pose proof (wp_get_bucket n (sw_meta w) Ho) as [D3 D4].
    pose proof (quiet_GetBucket n (sw_meta w) Ho) as [D1 D2]. intros Hl.
    split; [split_and!; done|]. split; [|done]. cbn [sw_meta set_meta].
    intros Hr. unfold redis_live. by rewrite D3.
  - intros br w' (S & Hr & Hs & Hn). destruct br as [b|s]; [by eapply Hk; [apply Hn|..]|].
    case_match; apply wp_refuse_error; intros resp E1 E2; by eapply Hcode; [|exact E1|].
Qed.

Lemma wp_GetObject_serves r w :
  store_ok cfg w -> redis_live (sw_meta w) = None ->
  wp (ObjectHandlers_GetObject cfg r) (on_resp HasFile (fun resp w' =>
    same_store w w' /\ exists bid o, names_bucket (GetPathParam "bucket" r) bid (sw_meta w) /\
    a_find bid (GetPathParam "object" r) (abs (tables_of w)) = Some o /\
      (0 <= ao_size o < two63 -> serves_range o (GetHeader "Range" r) resp))) w.
Proof.
  intros Hok Hr. assert (Hcode : forall code resp, code <> 200 -> status_code_ resp = code ->
    HasFile resp = false -> HasFile resp = false) by done.
  unfold ObjectHandlers_GetObject, with_params.
  case_match; [by apply wp_refuse_error|].
  apply wp_bucket; [apply Hok|done|]. intros id w1 Hn S1 Hr1 _. unfold with_object.
  eapply (wp_bind_throw _ _ (fun x w' => same_store w1 w' /\ forall info, x = Ret (Ok info) ->
    exists o, a_find id (GetPathParam "object" r) (abs (tables_of w1)) = Some o /\ info_of o info)).
  { apply wp_on_meta_runs; [auto with minis3|]. eapply wp_mono; [apply wp_get_object; [apply S1|by apply Hr1]|].
    intros x m' (D1 & D2 & D3) Hl. split; [by split_and!|]. exact D3. }
  intros obr w2 [S2 Hobj]. destruct obr as [info|s]; [|case_match; by apply wp_refuse_error].
  destruct (Hobj info eq_refl) as (o & Ho & Hi).
  assert (S : same_store w w2) by by eapply same_store_trans.
  assert (Ho' : a_find id (GetPathParam "object" r) (abs (tables_of w)) = Some o)
    by (destruct S1 as (_ & E & _); by rewrite <-E).
  apply wp_bind, wp_ask_os. case_match; [by apply wp_refuse_error|].
  destruct (str_empty (GetHeader "Range" r)) eqn:Ee.
  { apply wp_ret. intros resp [= <-] _. split; [done|]. exists id, o. split; [done|]. split; [done|].
    intros Hsz. by apply object_response_full. }
  apply wp_bind, wp_lift.
  destruct (ParseRange (GetHeader "Range" r) (u64 (oi_size info))) as [[[a b]|]|e] eqn:Ep; [| |done].
  - apply wp_ret. intros resp [= <-] _. split; [done|]. exists id, o. split; [done|]. split; [done|].
    intros Hsz. exact (range_response o info (GetHeader "Range" r) (a, b) Hi Ee Ep Hsz).
  - apply wp_ret. intros resp [= <-]. done.
Qed.

(** ** What PUT stores *)

(** The row is the one a PUT writes: the digest, the size and the type of its body. *)
Definition put_row (r : HttpRequest) (o : AObject) : Prop :=
  ao_cas o = put_cas r /\ ao_size o = i64_of_u64 (put_size r) /\
  ao_type o = content_type_of r /\ ao_etag o = quoted (etag_value (put_cas r)).

(** The object a PUT leaves under [key], its content in place. *)
Definition holds_put (bid : Z) (key : string) (r : HttpRequest) w : Prop :=
  exists o d, a_find bid key (abs (tables_of w)) = Some o /\ put_row r o /\
    os_file (sw_os w) (cas_path cfg (put_cas r)) = Some d /\ Final d = put_cas r.

Lemma a_put_find b k cas size ct etag a :
  no_prefix_clash b k a -> sql_eq k k = true ->
  exists key, a_find b k (snd (a_put b k cas size ct etag a)) = Some (MkAObject key cas size ct etag).
Proof.
  intros Hc Hk. unfold a_put. set (old := match a_find b k a with Some o => ao_cas o | None => "" end).
  destruct (a_move old cas a) as [gc a1] eqn:E. cbn.
  assert (Eo : a_objs a1 = a_objs a) by (rewrite <-(move_objs old cas a), E; done).
  unfold a_find, a_upsert, a_set_object. cbn. rewrite lookup_insert_eq, Eo.
  unfold no_prefix_clash in Hc.
  destruct (a_objs a !! (b, uk255 k)) as [o|]; cbn; [rewrite Hc by done|rewrite Hk]; eauto.
Qed.

Definition is_ok (resp : HttpResponse) : bool := status_code_ resp =? 200.

Lemma not_ok_error code resp : code <> 200 -> status_code_ resp = code -> is_ok resp = false.
Proof. unfold is_ok. intros H ->. by apply Z.eqb_neq. Qed.

Lemma wp_refused Q code c msg t w :
  code <> 200 -> wp (refuse (Resp_Error code c msg t)) (on_resp is_ok Q) w.
Proof. intros Hc. apply wp_refuse_error. intros resp E _. by eapply not_ok_error. Qed.

Lemma wp_any {A} (op : SM A) w : wp op (fun _ _ => True) w.
Proof. done. Qed.

Lemma wp_put_stored_body r bn bid h sb w :
  let key := GetPathParam "object" r in
  store_ok cfg w -> in_place cfg (sb_cas_key sb) (sw_os w) ->
  GetHeader "Idempotency-Key" r = "" -> no_prefix_clash bid key (abs (tables_of w)) ->
  put_stored_body r sb ->
  wp (put_stored cfg r bn key bid h sb) (on_resp is_ok (fun _ w' => holds_put bid key r w')) w.
Proof.
  intros key Hok Hp Hid Hc [Hcas Hsize]. unfold put_stored. rewrite Hid. cbn [str_empty].
  eapply wp_bind_throw; [by apply wp_put_ref|]. intros x w1 (Hok1 & Hs1 & Hg & Hput).
  destruct x as [gc|s].
  2: { eapply wp_bind_throw; [apply wp_any|]. intros [] w2 _. by apply wp_refused. }
  specialize (Hput gc eq_refl). pose proof (f_equal snd Hput) as Hab. cbn [snd] in Hab.
  eapply wp_bind_throw.
  { apply still_queue; [|apply Hok1]. intros c ->. by apply Hg. }
  intros [] w2 (S1 & S2 & S3 & _). apply wp_bind, wp_lift.
  destruct (json_dump _) as [text|e]; [|done]. apply wp_bind, wp_ret, wp_ret.
  intros resp _ _. rewrite Hcas, Hsize in Hab. rewrite Hcas in Hp. unfold holds_put.
  destruct (a_put_find bid key (put_cas r) (i64_of_u64 (put_size r)) (content_type_of r)
    (quoted (etag_value (put_cas r))) _ Hc) as [kk Hf].
  { unfold sql_eq. apply String.eqb_refl. }
  destruct Hp as [Hv [d Hd]]. eexists _, d. split; [rewrite S2, Hab; exact Hf|]. split; [done|].
  split; [by rewrite S3, Hs1|]. by eapply (so_cas _ _ Hok).
Qed.

Lemma wp_PutObject_stores r w :
  store_ok cfg w -> streamed cfg r w -> GetHeader "Idempotency-Key" r = "" ->
  (forall bid, names_bucket (GetPathParam "bucket" r) bid (sw_meta w) ->
    no_prefix_clash bid (GetPathParam "object" r) (abs (tables_of w))) ->
  wp (ObjectHandlers_PutObject cfg r) (on_resp is_ok (fun _ w' =>
    exists bid, names_bucket (GetPathParam "bucket" r) bid (sw_meta w) /\
    holds_put bid (GetPathParam "object" r) r w')) w.
Proof.
  intros Hok Hst Hid Hc. unfold ObjectHandlers_PutObject, with_params.
  case_match; [by apply wp_refused|].
  apply wp_bucket; [apply Hok|intros; by eapply not_ok_error|]. intros bid w1 Hn S1 _ _.
  case_match; [by apply wp_refused|].
  pose proof (store_ok_same cfg _ _ S1 Hok) as Hok1.
  eapply wp_bind_throw; [apply wp_store_body; [done|by eapply streamed_still]|].
  intros o w2 (Hok2 & Hab & res & Hres & Hsb). injection Hres as <-.
  destruct o as [sb|]; [|by apply wp_refused].
  destruct (Hsb sb eq_refl) as (Hp & Hput).
  case_match.
  { eapply wp_bind_throw; [apply wp_any|]. intros [] w3 _. by apply wp_refused. }
  rewrite Hid. unfold check_idempotency. cbn [str_empty]. apply wp_bind, wp_ret.
  eapply wp_mono; [apply wp_put_stored_body; try done|].
  - destruct S1 as (_ & E & _). rewrite Hab, E. by apply Hc.
  - intros x w' Hx resp E Hp'. exists bid. split; [done|]. by apply (Hx resp).
Qed.

(** ** Properties of PUT and GET *)

(** C6. PUT stores the body: answered 200, a PUT leaves under its key, in the bucket its
    name stands for, an object with the digest, the length and the type of the body
    ([put_cas], [put_size]; for a body that came as a stream, the digest and the length
    its upload has left in the internal headers, of a content in place: [streamed]), and
    with the content of that digest in place. The request has no Idempotency-Key (with
    one it may be given the answer of another request), and its key does not share its
    first 255 characters with another object of the bucket. *)
Theorem put_object_stores r w resp w' :
  store_ok cfg w -> streamed cfg r w -> GetHeader "Idempotency-Key" r = "" ->
  (forall bid, names_bucket (GetPathParam "bucket" r) bid (sw_meta w) ->
    no_prefix_clash bid (GetPathParam "object" r) (abs (tables_of w))) ->
  ObjectHandlers_PutObject cfg r w = (Ret resp, w') -> status_code_ resp = 200 ->
  exists bid, names_bucket (GetPathParam "bucket" r) bid (sw_meta w) /\
    holds_put bid (GetPathParam "object" r) r w'.
Proof.
  intros Hok Hst Hid Hc E Hs.
  apply (wp_run _ _ _ _ _ E (wp_PutObject_stores r w Hok Hst Hid Hc) resp); [done|].
  unfold is_ok. by apply Z.eqb_eq.
Qed.


(** The suffix of zero bytes: [bytes=-0] is accepted as a range of a
    non-empty object and answered 206 with [Content-Length: 0], but the response
    sends the whole file, since a length of zero stands for all of it. *)
Theorem suffix_zero_sends_file info :
  0 < oi_size info < two63 ->
  ParseRange "bytes=-0" (u64 (oi_size info)) = Ret (Some (oi_size info, oi_size info - 1)) /\
  let resp := object_response cfg info (Some (oi_size info, oi_size info - 1)) in
  status_code_ resp = 206 /\
  HttpResponse.headers_ resp !! "Content-Length" = Some "0" /\ FileLength resp = oi_size info.
Proof.
  intros Hs. rewrite u64_small by (unfold two63, two64 in *; lia). split.
  - change "bytes=-0" with (range_header "" (to_string 0)).
    rewrite parse_range_suffix by done. do 3 f_equal; lia.
  - unfold object_response, object_headers. cbn -[u64 to_string GetFilePath].
    replace (oi_size info - 1 - oi_size info + 1) with 0 by lia. split; [done|].
    split; [by simplify_map_eq|]. unfold FileLength. cbn -[u64].
    rewrite (u64_small (oi_size info)) by (unfold two63, two64 in *; lia).
    change (u64 0) with 0. cbn. by destruct (0 <? oi_size info).
Qed.
End objects.

(** ** Witnesses *)

Lemma parse_range_forms_witness :
  ParseRange "bytes=2-5" 10 = Ret (Some (2, 5)) /\ ParseRange "bytes=2-" 10 = Ret (Some (2, 9)) /\
  ParseRange "bytes=-5" 10 = Ret (Some (5, 9)).
Proof.
  destruct (parse_range_forms 10 2 5) as (E1 & E2 & E3).
  - split; reflexivity.
  - split; [discriminate|reflexivity].
  - split; [discriminate|reflexivity].
  - split; [exact E1|]. split; [exact E2|exact E3].
Defined.

Lemma parse_range_bounds_witness : 0 <= 2 <= 9 + 1 /\ 9 < 10.
Proof.
  destruct (parse_range_bounds "bytes=2-99" 10 2 9) as (E1 & E2 & _).
  - split; reflexivity.
  - reflexivity.
  - split; [exact E1|exact E2].
Defined.

(** The world after the sample PUT. *)
Definition put_world : StoreW := snd (ObjectHandlers_PutObject mem_cfg put_request sample_world).

Definition put_answer : HttpResponse :=
  match fst (ObjectHandlers_PutObject mem_cfg put_request sample_world) with
  | Ret resp => resp
  | Throw _ => new_response
  end.

Lemma sample_put : ObjectHandlers_PutObject mem_cfg put_request sample_world = (Ret put_answer, put_world).
Proof. 
  unfold put_world. apply (pair_of_fst (ObjectHandlers_PutObject mem_cfg put_request sample_world)).
  vm_compute. reflexivity.
 Qed.

Lemma put_world_ok : store_ok mem_cfg put_world.
Proof.
  apply (wp_run _ _ _ _ _ sample_put (wp_PutObject mem_cfg put_request sample_world sample_world_ok
    ltac:(intros H; by destruct H))).
Qed.

Lemma put_object_stores_witness : exists bid, names_bucket "b" bid (sw_meta sample_world) /\
  holds_put mem_cfg bid "o" put_request put_world.
Proof.
  apply (put_object_stores mem_cfg put_request sample_world put_answer put_world sample_world_ok).
  - intros H. by destruct H.
  - reflexivity.
  - intros bid _. by apply no_clash_empty.
  - exact sample_put.
  - vm_compute. reflexivity.
Defined.

Definition get_request : HttpRequest :=
  SetHeader "Range" "bytes=1-3" (SetPathParam "object" "o" (SetPathParam "bucket" "b"
    (SetMethod GET new_request))).


Definition sample_info : ObjectInfo :=
  MkObjectInfo 1 1 "o" "" true false 5 "e" "text/plain" "standard" sample_key "{}" "" 0.

Lemma suffix_zero_sends_file_witness :
  FileLength (object_response mem_cfg sample_info (Some (5, 4))) = 5.
Proof.
  destruct (suffix_zero_sends_file mem_cfg sample_info) as (_ & _ & _ & E).
  - split; reflexivity.
  - exact E.
Defined.
