(* ===== verification/Linear.v ===== *)
(** * Each request takes effect at one call

    Requests that are interleaved call by call (Interleaving) appear to be served
    one at a time: at most one call of a PUT, a DELETE or a GET changes or reads the
    objects as the abstract store prescribes, its other calls change no object, and it
    succeeds only if there was such a call. *)
From S2P Require Import Prelude Status Json Crypto Sql MySQLTx MetaStore Sessions MetaStoreSpec MetaStoreProps MemServer.
From S2P Require Import Uuid FileSys DataStore DataStoreSpec DataStoreProps HttpResponse.
From S2P Require Import HttpRequest HttpRouter Auth World StoreSpec Gc GcProps ObjectHandlers.
From S2P Require Import MultipartHandlers BucketHandlers Programs StoreProps Interleaving ObjectProps.

Open Scope Z_scope.

Section linear.
Context `{HC : Collation, HCal : Calendar, HS : MySQL, HP : ConnPool, HR : Redis, HX : Posix}.
Context `{HJ : JsonLib, HD : Digest} `{HL : !MySQLLaws, HLX : !PosixLaws}.
Context (cfg : StoreConfig).
Implicit Types (w : StoreW).

(** The calls of request [i] in a run, each with the store before and after. *)
Inductive calls (i : nat) : Sys -> list (StoreW * StoreW) -> Sys -> Prop :=
  | Calls_end s : calls i s [] s
  | Calls_own s s1 s2 l :
      exclusive s -> sys_step cfg (Some i) s s1 -> calls i s1 l s2 ->
      calls i s ((sys_store s, sys_store s1) :: l) s2
  | Calls_other s s1 s2 l who :
      exclusive s -> sys_step cfg who s s1 -> who <> Some i -> calls i s1 l s2 -> calls i s l s2.

(** No object changes. *)
Definition same_objects w w' : Prop := a_objs (abs (tables_of w')) = a_objs (abs (tables_of w)).

(** ** Programs with at most one effect *)

Section points.
Context {X : Type} (C : StoreW -> Prop) (Q : HttpResponse -> Prop).
Context (T : X -> StoreW -> StoreW -> Prop) (R : X -> HttpResponse -> Prop).

(** After the effect: no object changes, and a success is the one prescribed. *)
Fixpoint after (x : X) (p : Prog HttpResponse) : Prop :=
  match p with
  | Done _ r => forall resp, r = Ret resp -> Q resp -> R x resp
  | Call _ u op k => forall w r w', store_ok cfg w -> op w = (r, w') ->
      same_objects w w' /\ forall b, r = Ret b -> after x (k b)
  end.

(** At most one effect, without which there is no success. *)
Fixpoint once (p : Prog HttpResponse) : Prop :=
  match p with
  | Done _ r => forall resp, r = Ret resp -> ~ Q resp
  | Call _ u op k => forall w r w', store_ok cfg w -> C w -> op w = (r, w') ->
      (exists x, T x w w' /\ forall b, r = Ret b -> after x (k b)) \/
      (same_objects w w' /\ forall b, r = Ret b -> once (k b))
  end.

(** The first call changes no object, and what follows is described by [P]. *)
Definition first (P : StoreW -> Prog HttpResponse -> Prop) (p : Prog HttpResponse) : Prop :=
  match p with
  | Done _ _ => False
  | Call _ u op k => forall w r w', store_ok cfg w -> op w = (r, w') ->
      same_objects w w' /\ forall b, r = Ret b -> P w (k b)
  end.

Definition in_class (l : list (StoreW * StoreW)) : Prop := Forall (fun c => C (fst c)) l.
Definition unchanged (l : list (StoreW * StoreW)) : Prop := Forall (fun c => same_objects (fst c) (snd c)) l.

(** What a step does to the program of request [i]. *)
Lemma step_own i s s1 p :
  sys_step cfg (Some i) s s1 -> sys_requests s !! i = Some p ->
  exists B u (op : SM B) k r, p = Call _ u op k /\ op (sys_store s) = (r, sys_store s1) /\
    sys_requests s1 !! i = Some (resume r k).
Proof.
  intros S Hp. inversion S as [|j B u op k r w w' ps c Hi Eop| |]; subst. cbn in *. rewrite Hi in Hp. injection Hp as <-.
  eexists _, _, _, _, _. split; [done|]. split; [done|].
  rewrite list_lookup_insert_eq; [done|]. by apply lookup_lt_is_Some_1.
Qed.

Lemma step_other who i s s1 p :
  sys_step cfg who s s1 -> who <> Some i -> sys_requests s !! i = Some p -> sys_requests s1 !! i = Some p.
Proof.
  intros S Hne Hp. destruct S as [route request w ps c Hs|j B u op k r w w' ps c Hi Eop|n r w ps|B u op k r w w' ps Eop];
    cbn in *; [|by rewrite list_lookup_insert_ne by congruence|done..].
  by apply lookup_app_l_Some.
Qed.

(** A request that is answered makes no call. *)
Lemma calls_done i s l s2 r :
  calls i s l s2 -> sys_requests s !! i = Some (Done _ r) -> l = [] /\ sys_requests s2 !! i = Some (Done _ r).
Proof.
  induction 1 as [s|s s1 s2 l He S Hl IH|s s1 s2 l who He S Hne Hl IH]; intros Hi; [done| |].
  - by destruct (step_own i s s1 _ S Hi) as (B & u & op & k & x & ? & _).
  - apply IH. by eapply step_other.
Qed.

Lemma own_ok who s s1 : exclusive s -> sys_step cfg who s s1 -> sys_ok cfg s -> sys_ok cfg s1.
Proof. intros He S. apply (sys_step_ok cfg s s1). split; [exact He|by exists who]. Qed.

(** The request has been answered, and the answer is this. *)
Definition answered i s (resp : HttpResponse) : Prop := sys_requests s !! i = Some (Done _ (Ret resp)).

Lemma answered_done i s r : sys_requests s !! i = Some (Done _ r) -> forall resp, answered i s resp -> r = Ret resp.
Proof. intros E resp. unfold answered. rewrite E. by intros [= ->]. Qed.

(** A failed call ends a request. *)
Lemma calls_throw i s l s2 e :
  calls i s l s2 -> sys_requests s !! i = Some (Done _ (Throw e)) -> l = [] /\ forall resp, ~ answered i s2 resp.
Proof.
  intros Hl Hi. destruct (calls_done _ _ _ _ _ Hl Hi) as [-> E]. split; [done|].
  intros resp Hd. by apply (answered_done _ _ _ E) in Hd.
Qed.

Lemma after_calls x i s l s2 p :
  calls i s l s2 -> sys_ok cfg s -> sys_requests s !! i = Some p -> after x p ->
  unchanged l /\ forall resp, answered i s2 resp -> Q resp -> R x resp.
Proof.
  intros Hl. revert p. induction Hl as [s|s s1 s2 l He S Hl IH|s s1 s2 l who He S Hne Hl IH]; intros p Hok Hi Ha.
  - split; [constructor|]. intros resp Hd. destruct p; [|by unfold answered in Hd; rewrite Hi in Hd].
    by apply Ha, (answered_done _ _ _ Hi).
  - destruct (step_own i s s1 p S Hi) as (B & u & op & k & r & -> & Eop & Hi1).
    destruct (Ha _ _ _ (sys_store_ok _ _ Hok) Eop) as [Hs Hk]. destruct r as [b|e].
    + destruct (IH (k b)) as [IH1 IH2]; [by eapply own_ok|done|by apply Hk|]. split; [by constructor|done].
    + destruct (calls_throw _ _ _ _ _ Hl Hi1) as [-> Hd]. split; [by repeat constructor|]. by intros resp ?%Hd.
  - apply (IH p); [by eapply own_ok|by eapply step_other|done].
Qed.

(** The calls of a program with at most one effect: none changed an object and the
    request has not succeeded, or one had the effect. *)
Definition none_or_one i (l : list (StoreW * StoreW)) s2 : Prop :=
  (unchanged l /\ forall resp, answered i s2 resp -> ~ Q resp) \/
  exists pre x w w' post, l = pre ++ (w, w') :: post /\ T x w w' /\ unchanged (pre ++ post) /\
    forall resp, answered i s2 resp -> Q resp -> R x resp.

Lemma none_or_one_cons i w w' l s2 : same_objects w w' -> none_or_one i l s2 -> none_or_one i ((w, w') :: l) s2.
Proof.
  intros Hs [[Hu Hd]|(pre & x & v & v' & post & -> & H1 & H2 & H3)]; [left; split; [by constructor|done]|].
  right. exists ((w, w') :: pre), x, v, v', post. split_and!; [done..|by constructor|done].
Qed.

Lemma once_calls i s l s2 p :
  calls i s l s2 -> sys_ok cfg s -> sys_requests s !! i = Some p -> once p -> in_class l -> none_or_one i l s2.
Proof.
  intros Hl. revert p. induction Hl as [s|s s1 s2 l He S Hl IH|s s1 s2 l who He S Hne Hl IH]; intros p Hok Hi Ho Hc.
  - left. split; [constructor|]. intros resp Hd. destruct p; [|by unfold answered in Hd; rewrite Hi in Hd].
    by apply Ho, (answered_done _ _ _ Hi).
  - destruct (step_own i s s1 p S Hi) as (B & u & op & k & r & -> & Eop & Hi1).
    apply Forall_cons in Hc as [Hc Hcl]. pose proof (own_ok _ _ _ He S Hok) as Hok1.
    destruct (Ho _ _ _ (sys_store_ok _ _ Hok) Hc Eop) as [(x & Hx & Hk)|[Hs Hk]].
    + right. exists [], x, (sys_store s), (sys_store s1), l. split; [done|]. split; [done|]. destruct r as [b|e].
      * by apply (after_calls x _ _ _ _ _ Hl Hok1 Hi1), Hk.
      * destruct (calls_throw _ _ _ _ _ Hl Hi1) as [-> Hd]. split; [constructor|]. by intros resp ?%Hd.
    + apply none_or_one_cons; [done|]. destruct r as [b|e]; [by apply (IH (k b)); [..|apply Hk|]|].
      destruct (calls_throw _ _ _ _ _ Hl Hi1) as [-> Hd]. left. split; [constructor|]. by intros resp ?%Hd.
  - apply (IH p); [by eapply own_ok|by eapply step_other|done..].
Qed.

Lemma first_call P i s l s2 p :
  calls i s l s2 -> sys_ok cfg s -> sys_requests s !! i = Some p -> first P p ->
  (unchanged l /\ forall resp, ~ answered i s2 resp) \/
  exists w w' s1 l' p', l = (w, w') :: l' /\ same_objects w w' /\ P w p' /\ sys_ok cfg s1 /\
    sys_requests s1 !! i = Some p' /\ calls i s1 l' s2.
Proof.
  intros Hl. revert p. induction Hl as [s|s s1 s2 l He S Hl IH|s s1 s2 l who He S Hne Hl IH]; intros p Hok Hi Hf.
  - left. split; [constructor|]. intros resp Hd. unfold answered in Hd. rewrite Hi in Hd. by injection Hd as ->.
  - destruct (step_own i s s1 p S Hi) as (B & u & op & k & r & -> & Eop & Hi1).
    destruct (Hf _ _ _ (sys_store_ok _ _ Hok) Eop) as [Hs Hk]. destruct r as [b|e].
    + right. exists (sys_store s), (sys_store s1), s1, l, (k b).
      split_and!; [done|done|by apply Hk|by eapply own_ok|done|done].
    + left. destruct (calls_throw _ _ _ _ _ Hl Hi1) as [-> Hd]. split; [by repeat constructor|done].
  - apply (IH p); [by eapply own_ok|by eapply step_other|done..].
Qed.

(** ** The steps of a handler *)

Lemma same_store_objects w w' : same_store w w' -> same_objects w w'.
Proof. intros (_ & E & _). unfold same_objects. by rewrite E. Qed.

Lemma once_call {B} u (op : SM B) (k : B -> Prog HttpResponse) :
  (forall w, store_ok cfg w -> C w -> wp op (fun r w' =>
     (exists x, T x w w' /\ forall b, r = Ret b -> after x (k b)) \/
     (same_objects w w' /\ forall b, r = Ret b -> once (k b))) w) ->
  once (call u op ≫= k).
Proof. intros Hop w r w' Hok Hc Er. exact (wp_run _ _ _ _ _ Er (Hop w Hok Hc)). Qed.

Lemma after_call {B} x u (op : SM B) (k : B -> Prog HttpResponse) :
  (forall w, store_ok cfg w -> wp op (fun r w' => same_objects w w' /\ forall b, r = Ret b -> after x (k b)) w) ->
  after x (call u op ≫= k).
Proof. intros Hop w r w' Hok Er. exact (wp_run _ _ _ _ _ Er (Hop w Hok)). Qed.

(** Calls that change no object: those that leave the store as it is, and those on
    the files. *)
Definition no_change {B} (op : SM B) : Prop := forall w, store_ok cfg w -> wp op (fun _ w' => same_objects w w') w.

Lemma still_no_change {B} (op : SM B) : still op -> no_change op.
Proof.
  intros Ho w Hok. eapply wp_mono; [exact (Ho w (so_closed cfg _ Hok))|]. intros r w'. apply same_store_objects.
Qed.

Lemma os_no_change {B} (op : M os B) : no_change (on_os op).
Proof. intros w Hok. apply wp_on_os. unfold wp. by destruct (op (sw_os w)). Qed.

Lemma queue_no_change c : no_change (AddPendingDelete c).
Proof. intros w Hok. unfold wp, AddPendingDelete. by destruct (sw_gc w). Qed.

Lemma once_quiet {B} u (op : SM B) (k : B -> Prog HttpResponse) :
  no_change op -> (forall b, once (k b)) -> once (call u op ≫= k).
Proof. intros Ho Hk. apply once_call. intros w Hok _. eapply wp_mono; [by apply Ho|]. intros r w' Hs. right. auto. Qed.

Lemma after_quiet {B} x u (op : SM B) (k : B -> Prog HttpResponse) :
  no_change op -> (forall b, after x (k b)) -> after x (call u op ≫= k).
Proof. intros Ho Hk. apply after_call. intros w Hok. eapply wp_mono; [by apply Ho|]. intros r w' Hs. auto. Qed.

Lemma after_queue x g (k : unit -> Prog HttpResponse) : after x (k tt) -> after x (queue_prog g ≫= k).
Proof. intros Hk. destruct g as [c|]; [|exact Hk]. apply after_quiet; [apply queue_no_change|by intros []]. Qed.

Lemma once_cleanup_if b c (k : unit -> Prog HttpResponse) : once (k tt) -> once (cleanup_if_prog cfg b c ≫= k).
Proof.
  intros Hk. destruct b; [|exact Hk]. unfold cleanup_if_prog, cleanup_prog. rewrite bind_call.
  apply once_quiet; [apply still_no_change; auto with minis3|].
  intros [info|s]; case_match; try exact Hk; rewrite bind_call; (apply once_quiet; [apply os_no_change|by intros _]).
Qed.

Lemma after_cleanup_if x b c (k : unit -> Prog HttpResponse) : after x (k tt) -> after x (cleanup_if_prog cfg b c ≫= k).
Proof.
  intros Hk. destruct b; [|exact Hk]. unfold cleanup_if_prog, cleanup_prog. rewrite bind_call.
  apply after_quiet; [apply still_no_change; auto with minis3|].
  intros [info|s]; case_match; try exact Hk; rewrite bind_call; (apply after_quiet; [apply os_no_change|by intros _]).
Qed.

(** No error is a success. *)
Context (HQ : forall resp, 400 <= status_code_ resp -> HasFile resp = false -> ~ Q resp).

Lemma once_error code c msg t : 400 <= code -> once (Done _ (Resp_Error code c msg t)).
Proof. intros Hc resp Er. apply error_status in Er as [E1 E2]. apply HQ; [by rewrite E1|done]. Qed.

Lemma after_error x code c msg t : 400 <= code -> after x (Done _ (Resp_Error code c msg t)).
Proof. intros Hc resp Er HQr. by destruct (once_error code c msg t Hc resp Er). Qed.

Lemma first_intro {B} P u (op : SM B) (k : B -> Prog HttpResponse) :
  (forall w r w', store_ok cfg w -> op w = (r, w') -> same_objects w w' /\ forall b, r = Ret b -> P w (k b)) ->
  first P (call u op ≫= k).
Proof. exact id. Qed.

Lemma first_bucket u n k :
  first (fun w p => (exists b, names_bucket n b (sw_meta w) /\ p = k b) \/ once p) (with_bucket_prog u n k).
Proof.
  apply first_intro. intros w r w' Hok Er. pose proof (so_closed cfg _ Hok) as Ho. split.
  - apply same_store_objects. exact (wp_run _ _ _ _ _ Er (still_meta _ (quiet_GetBucket n) (runs_GetBucket n) w Ho)).
  - intros [info|s] ->; [left|right; case_match; by apply once_error].
    exists (bi_id info). split; [|done].
    assert (Hw : wp (on_meta (GetBucket n)) (fun x _ => forall i, x = Ret (Ok i) -> names_bucket n (bi_id i) (sw_meta w)) w).
    { apply wp_on_meta. eapply wp_mono; [by apply wp_get_bucket|]. intros x m' [_ Hn]. exact Hn. }
    exact (wp_run _ _ _ _ _ Er Hw info eq_refl).
Qed.

Lemma once_with_object b o k : (forall info, once (k info)) -> once (with_object_prog b o k).
Proof.
  intros Hk. apply once_quiet; [apply still_no_change; auto with minis3|]. intros [info|s]; [apply Hk|].
  case_match; by apply once_error.
Qed.
End points.

(** ** The effect of each request *)

(** A request for an object of a bucket: none of its calls changed an object and
    it has not succeeded, or one had the effect and the others change nothing. *)
Definition none_or_one_in {X} Q (T : Z -> X -> StoreW -> StoreW -> Prop) R request i l s2 : Prop :=
  (unchanged l /\ forall resp, answered i s2 resp -> ~ Q resp) \/
  exists bid wb wb' pre x w w' post, l = (wb, wb') :: pre ++ (w, w') :: post /\
    names_bucket (GetPathParam "bucket" request) bid (sw_meta wb) /\ T bid x w w' /\
    unchanged ((wb, wb') :: pre ++ post) /\ forall resp, answered i s2 resp -> Q resp -> R x resp.

Lemma effect_calls {X} (C : StoreW -> Prop) Q (T : Z -> X -> StoreW -> StoreW -> Prop) R request u k i s l s2 :
  (forall resp, 400 <= status_code_ resp -> HasFile resp = false -> ~ Q resp) ->
  (forall bid, once C Q (T bid) R (k (GetPathParam "bucket" request) (GetPathParam "object" request) bid)) ->
  calls i s l s2 -> sys_ok cfg s ->
  sys_requests s !! i = Some (with_params_prog request (fun b o => with_bucket_prog u b (k b o))) ->
  in_class C l -> none_or_one_in Q T R request i l s2.
Proof.
  intros HQ Hk Hl Hok Hi Hc. unfold with_params_prog in Hi. cbv zeta in Hi. case_match.
  { left. destruct (calls_done _ _ _ _ _ Hl Hi) as [-> E]. split; [constructor|]. intros resp Hd.
    apply (once_error C Q (T 0) R HQ 400 "BadRequest" "Bucket and object key are required" ""); [done|].
    by apply (answered_done _ _ _ E). }
  pose proof (first_bucket C Q (fun (_ : X) _ _ => False) R HQ u) as Hf.
  destruct (first_call _ _ _ _ _ _ Hl Hok Hi (Hf _ _)) as [[Hu Hd]|(wb & wb' & s1 & l' & p & -> & Hb & Hp & Hok1 & Hi1 & Hl1)].
  { left. split; [done|]. by intros resp ?%Hd. }
  apply Forall_cons in Hc as [_ Hc]. destruct Hp as [(bid & Hn & ->)|Hp].
  - destruct (once_calls C Q (T bid) R _ _ _ _ _ Hl1 Hok1 Hi1 (Hk bid) Hc)
      as [[Hu Hd]|(pre & x & w & w' & post & -> & H1 & H2 & H3)]; [left; split; [by constructor|done]|].
    right. exists bid, wb, wb', pre, x, w, w', post. split_and!; [done..|by constructor|done].
  - destruct (once_calls _ _ _ _ _ _ _ _ _ Hl1 Hok1 Hi1 Hp Hc) as [[Hu Hd]|(pre & x & w & w' & post & _ & [] & _)].
    left. split; [by constructor|done].
Qed.

Definition put_effect request bid (gc : option string) w w' : Prop :=
  (gc, abs (tables_of w')) =
    a_put bid (GetPathParam "object" request) (put_cas request) (i64_of_u64 (put_size request))
      (content_type_of request) (quoted (etag_value (put_cas request))) (abs (tables_of w)).

Definition delete_effect request bid (gc : option string) w w' : Prop :=
  a_delete bid (GetPathParam "object" request) (abs (tables_of w)) = Some (gc, abs (tables_of w')).

Definition get_effect request bid (o : AObject) w w' : Prop :=
  abs (tables_of w') = abs (tables_of w) /\ a_find bid (GetPathParam "object" request) (abs (tables_of w)) = Some o.

Definition any_world w : Prop := True.
Definition no_redis w : Prop := redis_live (sw_meta w) = None.
Definition sends_file (resp : HttpResponse) : Prop := HasFile resp = true.
(** The answers prescribed: the tag and the summary of what a PUT has stored, an empty
    204 to a DELETE, the object or the range asked for to a GET. *)
Definition put_response request (resp : HttpResponse) : Prop :=
  exists text,
    json_dump (JObj [("bucket", JStr (GetPathParam "bucket" request)); ("key", JStr (GetPathParam "object" request));
                     ("etag", JStr (etag_value (put_cas request))); ("size", JInt (put_size request))]) = Ret text /\
    resp = HttpResponse.SetBody text (HttpResponse.SetHeader "Content-Type" "application/json"
      (HttpResponse.SetHeader "ETag" (quoted (etag_value (put_cas request))) (response_of_code 200))).

Definition is_put_answer request {X} (x : X) (resp : HttpResponse) : Prop := put_response request resp.
Definition is_no_content {X} (x : X) (resp : HttpResponse) : Prop := resp = Resp_NoContent.
Definition sends_object request (o : AObject) (resp : HttpResponse) : Prop :=
  0 <= ao_size o < two63 -> serves_range cfg o (GetHeader "Range" request) resp.

(** A PUT with an idempotency key may be answered with the answer of another one. *)
Definition put_done request (resp : HttpResponse) : Prop :=
  status_code_ resp = 200 /\ GetHeader "Idempotency-Key" request = "".

Definition delete_done (resp : HttpResponse) : Prop := status_code_ resp = 204.

Lemma put_no_error request resp : 400 <= status_code_ resp -> HasFile resp = false -> ~ put_done request resp.
Proof. unfold put_done. lia. Qed.

Lemma delete_no_error resp : 400 <= status_code_ resp -> HasFile resp = false -> ~ delete_done resp.
Proof. unfold delete_done. lia. Qed.

Lemma get_no_error resp : 400 <= status_code_ resp -> HasFile resp = false -> ~ sends_file resp.
Proof. unfold sends_file. congruence. Qed.

Lemma once_store_body {X} C Q (T : X -> StoreW -> StoreW -> Prop) R request (k : option StoredBody -> Prog HttpResponse) :
  (forall sb, put_stored_body request sb -> once C Q T R (k (Some sb))) -> once C Q T R (k None) ->
  once C Q T R (store_body_prog cfg request ≫= k).
Proof.
  intros Hk Hn. unfold store_body_prog. cbv zeta.
  destruct (str_empty (GetHeader "X-Internal-CAS-Key" request)) eqn:Ee; cbn [negb].
  - apply once_quiet; [apply still_no_change, still_ask|]. intros existed.
    apply once_call. intros w Hok _. apply wp_on_os. eapply wp_mono; [apply wp_data_write, Hok|].
    intros r s' S. destruct (stored_ok cfg _ _ _ _ Hok S) as (_ & res & -> & Hr). right. split; [done|].
    intros b [= <-]. destruct res as [key|e]; [|exact Hn].
    destruct (Hr key eq_refl) as (-> & _). apply Hk.
    unfold put_stored_body, put_cas, put_size. cbv zeta. by rewrite Ee.
  - apply Hk. unfold put_stored_body, put_cas, put_size. cbv zeta. by rewrite Ee.
Qed.
(** The transaction of a PUT: it commits the effect or nothing, whatever it answers. *)
Lemma once_put_ref C Q R request bid u (k : GcKey -> Prog HttpResponse) :
  let T := put_effect request bid in
  (forall x r, after Q R x (k r)) -> (forall s, once C Q T R (k (Err s))) ->
  once C Q T R (call u (on_meta (PutObjectWithRefCount bid (GetPathParam "object" request)
    (i64_of_u64 (put_size request)) (quoted (etag_value (put_cas request))) (content_type_of request)
    (put_cas request))) ≫= k).
Proof.
  intros T Ha Ho. apply once_call. intros w Hok _. apply wp_on_meta.
  eapply wp_mono; [apply put_object_refines; apply Hok|]. intros r m' [_ D].
  assert (Hfail : (forall b, r = Ret b -> exists s, b = Err s) ->
    committed m' = tables_of w \/ abs (committed m') = snd (a_put bid (GetPathParam "object" request) (put_cas request)
      (i64_of_u64 (put_size request)) (content_type_of request) (quoted (etag_value (put_cas request))) (abs (tables_of w))) ->
    (exists x, T x w (set_meta m' w) /\ forall b, r = Ret b -> after Q R x (k b)) \/
    (same_objects w (set_meta m' w) /\ forall b, r = Ret b -> once C Q T R (k b))).
  { intros Hb [E|E]; [right|left].
    - split; [unfold same_objects, tables_of; cbn; by rewrite E|]. intros b Eb. destruct (Hb b Eb) as [s ->]. apply Ho.
    - eexists. split; [|intros; apply Ha]. unfold T, put_effect. change (tables_of (set_meta m' w)) with (committed m').
      rewrite E. symmetry. apply surjective_pairing. }
  destruct r as [[gc|s]|e].
  - left. exists gc. split; [exact D|]. intros; apply Ha.
  - apply Hfail; [intros b [= <-]; by eexists|exact D].
  - by apply Hfail.
Qed.

Lemma once_put_stored request bid hash sb :
  put_stored_body request sb ->
  once any_world (put_done request) (put_effect request bid) (is_put_answer request)
    (put_stored_prog cfg request (GetPathParam "bucket" request) (GetPathParam "object" request) bid hash sb).
Proof.
  intros [E1 E2]. unfold put_stored_prog. cbv zeta. rewrite E1, E2. apply once_put_ref.
  - intros x [gc|s].
    + apply after_queue. destruct (json_dump _) as [text|e] eqn:Ej; [|done]. cbn [mbind prog_bind].
      assert (Ha : forall resp, Ret (A := HttpResponse) resp = Ret (HttpResponse.SetBody text
          (HttpResponse.SetHeader "Content-Type" "application/json" (HttpResponse.SetHeader "ETag"
            (quoted (etag_value (put_cas request))) (response_of_code 200)))) -> put_response request resp)
        by (intros resp [= ->]; by exists text).
      case_match; [intros resp [= <-] _; by apply Ha|]. rewrite bind_call.
      apply after_quiet; [apply still_no_change; auto with minis3|]. intros b resp [= <-] _. by apply Ha.
    + apply after_cleanup_if. by apply (after_error any_world _ (put_effect request bid) _ (put_no_error request)).
  - intros s. apply once_cleanup_if. by apply once_error; [apply put_no_error|].
Qed.
Lemma put_calls request i s l s2 :
  calls i s l s2 -> sys_ok cfg s -> sys_requests s !! i = Some (PutObject_prog cfg request) ->
  none_or_one_in (put_done request) (put_effect request) (is_put_answer request) request i l s2.
Proof.
  intros Hl Hok Hp. eapply (effect_calls any_world); [apply put_no_error| |done|done|exact Hp|by apply Forall_forall].
  intros bid. cbv beta. destruct (no_body request); [by apply once_error; [apply put_no_error|]|].
  apply once_store_body; [|by apply once_error; [apply put_no_error|]].
  intros sb Hsb. cbv zeta. destruct (_ && _).
  { apply once_cleanup_if. by apply once_error; [apply put_no_error|]. }
  unfold idempotency_prog. destruct (str_empty (GetHeader "Idempotency-Key" request)) eqn:Ei; [by apply once_put_stored|].
  rewrite bind_call. apply once_quiet; [apply still_no_change; auto with minis3|].
  intros [[record|]|e]; [|by apply once_put_stored|by apply once_error; [apply put_no_error|]].
  cbn. destruct (negb _); intros resp _ [_ He]; by rewrite He in Ei.
Qed.

Lemma delete_calls request i s l s2 :
  calls i s l s2 -> sys_ok cfg s -> sys_requests s !! i = Some (DeleteObject_prog request) ->
  none_or_one_in delete_done (delete_effect request) is_no_content request i l s2.
Proof.
  intros Hl Hok Hp. eapply (effect_calls any_world); [apply delete_no_error| |done|done|exact Hp|by apply Forall_forall].
  intros bid. cbv beta. apply once_with_object; [apply delete_no_error|]. intros _.
  apply once_call. intros w Hw _. apply wp_on_meta.
  eapply wp_mono; [apply delete_object_refines; apply Hw|]. intros r m' [_ D].
  assert (Hfail : committed m' = tables_of w \/ (exists gc, delete_effect request bid gc w (set_meta m' w)) ->
    same_objects w (set_meta m' w) \/ exists gc, delete_effect request bid gc w (set_meta m' w))
    by (intros [E|E]; [left; unfold same_objects, tables_of; cbn; by rewrite E|by right]).
  destruct r as [[gc|st]|e]; cbn in D.
  - left. exists gc. split; [exact D|]. intros b [= <-]. apply after_queue. by intros resp [= <-] _.
  - destruct (Hfail (proj2 D)) as [Hs|[gc Hd]]; [right|left; exists gc]; (split; [done|]); intros b [= <-].
    + by apply once_error; [apply delete_no_error|].
    + by apply (after_error any_world _ (delete_effect request bid) _ delete_no_error).
  - destruct (Hfail D) as [Hs|[gc Hd]]; [by right|left; by exists gc].
Qed.

Lemma get_calls request i s l s2 :
  calls i s l s2 -> sys_ok cfg s -> sys_requests s !! i = Some (GetObject_prog cfg request) -> in_class no_redis l ->
  none_or_one_in sends_file (get_effect request) (sends_object request) request i l s2.
Proof.
  intros Hl Hok Hp. eapply (effect_calls no_redis); [exact get_no_error| |done|done|exact Hp].
  intros bid. cbv beta. apply once_call. intros w Hw Hr. apply wp_on_meta.
  eapply wp_mono; [apply wp_get_object; [apply Hw|exact Hr]|]. intros r m' (_ & D2 & D3).
  assert (Hs : same_objects w (set_meta m' w)) by (unfold same_objects; change (tables_of (set_meta m' w)) with (committed m'); by rewrite D2).
  destruct r as [[info|e]|e]; [|right; split; [done|]; intros b [= <-]; case_match; by apply once_error; [exact get_no_error|]
    |by right].
  destruct (D3 info eq_refl) as (o & Ho & Hi). left. exists o. split; [done|]. intros b [= <-].
  apply after_quiet; [apply still_no_change, still_ask|]. intros found. destruct (negb found).
  { by apply (after_error no_redis _ (get_effect request bid) _ get_no_error). }
  cbv zeta. destruct (str_empty _) eqn:Ee.
  { intros resp [= <-] _ Hsz. by apply object_response_full. }
  destruct (ParseRange (GetHeader "Range" request) (u64 (oi_size info))) as [[range|]|] eqn:Ep; [| |done].
  - intros resp [= <-] _ Hsz. exact (range_response cfg o info _ range Hi Ee Ep Hsz).
  - by intros resp [= <-].
Qed.

(** ** Linearization *)

(** The answers that tell a client its request was done. *)
Definition succeeds (route : Route) (request : HttpRequest) (resp : HttpResponse) : Prop :=
  match route with
  | R_PutObject => put_done request resp
  | R_DeleteObject => delete_done resp
  | R_GetObject => sends_file resp
  | _ => False
  end.

(** What the abstract store does for the request; [o] is the object a GET finds. *)
Definition effect (route : Route) (request : HttpRequest) (bid : Z) (o : option AObject) w w' : Prop :=
  match route with
  | R_PutObject => exists gc, put_effect request bid gc w w'
  | R_DeleteObject => exists gc, delete_effect request bid gc w w'
  | R_GetObject => exists x, o = Some x /\ get_effect request bid x w w'
  | _ => False
  end.

(** The answer to it. *)
Definition answers (route : Route) (request : HttpRequest) (o : option AObject) (resp : HttpResponse) : Prop :=
  match route with
  | R_PutObject => put_response request resp
  | R_DeleteObject => resp = Resp_NoContent
  | _ => exists x, o = Some x /\ sends_object request x resp
  end.

Definition linearized (route : Route) (request : HttpRequest) i (l : list (StoreW * StoreW)) s2 : Prop :=
  none_or_one_in (succeeds route request) (effect route request) (answers route request) request i l s2.

Lemma none_or_one_mono {X Y} (f : X -> Y) Q (T : Z -> X -> StoreW -> StoreW -> Prop) R T' R' request i l s2 :
  (forall b x w w', T b x w w' -> T' b (f x) w w') -> (forall x resp, R x resp -> R' (f x) resp) ->
  none_or_one_in Q T R request i l s2 -> none_or_one_in Q T' R' request i l s2.
Proof.
  intros Ht Ha [H|(bid & wb & wb' & pre & x & w & w' & post & H1 & H2 & H3 & H4 & H5)]; [by left|].
  right. exists bid, wb, wb', pre, (f x), w, w', post. split_and!; auto.
Qed.

(** C3. PUT, DELETE and GET are linearizable: let a request arrive among any others in
    progress (every handler but CompleteUpload and AbortUpload), and let their calls and
    those of the collector fall between its own as they may, as long as no thread is
    about to remove a content that another has stored and not yet counted ([exclusive]).
    Then either none of its calls has changed an object and it has not been answered
    with a success; or exactly one of its calls took effect, where the abstract store
    makes the step prescribed for the request in the bucket its first call found
    under the name (a GET finds its object there), its other calls change no object,
    and a successful answer is the one prescribed: the tag and the size of what a PUT
    without an Idempotency-Key stored, an empty 204 to a DELETE, the object or the bytes
    the Range header asks for to a GET. For a GET no Redis cache is live. A metadata
    operation is one call; the session of the database accepts START TRANSACTION,
    whatever any other statement and the file system answer; a request that arrives
    names by X-Internal-CAS-Key only what the server has stored. *)
Theorem requests_linearize route request w0 s1 s2 l s3 :
  store_ok cfg w0 -> rtc (careful cfg) (idle w0) s1 ->
  careful cfg s1 s2 -> sys_requests s2 = sys_requests s1 ++ [prog_of cfg route request] ->
  calls (length (sys_requests s1)) s2 l s3 ->
  route = R_PutObject \/ route = R_DeleteObject \/ (route = R_GetObject /\ in_class no_redis l) ->
  linearized route request (length (sys_requests s1)) l s3.
Proof.
  intros Hok Hrun Hs Hps Hl Hroute. assert (Hok2 : sys_ok cfg s2).
  { apply (run_ok cfg (idle w0)); [by eapply rtc_r|by apply idle_ok]. }
  assert (Hi : sys_requests s2 !! length (sys_requests s1) = Some (prog_of cfg route request))
    by (rewrite Hps; by apply list_lookup_middle).
  destruct Hroute as [->|[->|[-> Hc]]].
  - apply (none_or_one_mono (fun _ => None) _ (put_effect request) (is_put_answer request));
      [by eexists|done|by eapply put_calls].
  - apply (none_or_one_mono (fun _ => None) _ (delete_effect request) is_no_content);
      [by eexists|done|by eapply delete_calls].
  - apply (none_or_one_mono Some _ (get_effect request) (sends_object request));
      [by eexists|by eexists|by eapply get_calls].
Qed.

(** The calls of request [i] in an executable run. *)
Fixpoint call_moves (i : nat) (l : list Move) (s : Sys) : option (list (StoreW * StoreW) * Sys) :=
  match l with
  | [] => Some ([], s)
  | m :: l =>
      if exclusiveb s then
        s1 ← move cfg m s;
        r ← call_moves i l s1;
        Some (if bool_decide (mover m = Some i) then (sys_store s, sys_store s1) :: fst r else fst r, snd r)
      else None
  end.

Lemma call_moves_calls i l s c s2 : call_moves i l s = Some (c, s2) -> calls i s c s2.
Proof.
  revert s c. induction l as [|m l IH]; intros s c; cbn; [intros [= <- <-]; constructor|].
  destruct (exclusiveb s) eqn:He; [|done]. apply exclusiveb_exclusive in He.
  destruct (move cfg m s) as [s1|] eqn:Em; [|done]. cbn.
  destruct (call_moves i l s1) as [[c1 s3]|] eqn:Ec; [|done]. cbn. intros [= <- <-].
  apply move_step in Em. case_bool_decide as E; [rewrite E in Em|]; econstructor; eauto.
Qed.

(** The state when a request without a streamed body has arrived. *)
Definition arrived_sys (route : Route) (request : HttpRequest) (s : Sys) : Sys :=
  MkSys (sys_store s) (sys_requests s ++ [prog_of cfg route request]) (sys_collector s).

Lemma arrive_careful route request s :
  GetHeader "X-Internal-CAS-Key" request = "" -> exclusiveb s = true -> careful cfg s (arrived_sys route request s).
Proof.
  intros Hh He. split; [by apply exclusiveb_exclusive|]. exists None. destruct s as [w ps c].
  constructor. by intros _ Hne.
Qed.
End linear.

(** ** Witness *)

(** A PUT that arrives while another PUT of the same content and the collector are
    at work, and whose calls fall between theirs. *)
Definition linear_start : Sys :=
  default (idle sample_world) (careful_moves mem_cfg
    [Arrive R_PutObject (put_request_to "o1"); TakeBatch 10; Request 0; Collect] (idle sample_world)).

Definition linear_arrived : Sys := arrived_sys mem_cfg R_PutObject (put_request_to "o2") linear_start.

Definition linear_moves : list Move :=
  [Request 1; Collect; Collect; Collect; Collect; Collect; Collect;
   Request 0; Request 1; Request 0; Request 1; Request 0; Request 1].

Definition linear_end : list (StoreW * StoreW) * Sys :=
  default ([], linear_arrived) (call_moves mem_cfg 1 linear_moves linear_arrived).

Definition answer_of (i : nat) (s : Sys) : HttpResponse :=
  match sys_requests s !! i with Some (Done _ (Ret resp)) => resp | _ => response_of_code 0 end.

Lemma requests_linearize_witness :
  length (fst linear_end) = 4%nat /\ status_code_ (answer_of 1 (snd linear_end)) = 200 /\
  linearized mem_cfg R_PutObject (put_request_to "o2") (length (sys_requests linear_start))
    (fst linear_end) (snd linear_end).
Proof.
  assert (Hrun : rtc (careful mem_cfg) (idle sample_world) linear_start).
  { eapply careful_moves_rtc. apply some_default. vm_compute. reflexivity. }
  assert (Hcare : careful mem_cfg linear_start linear_arrived).
  { apply arrive_careful; [reflexivity|vm_compute; reflexivity]. }
  assert (Hcalls : calls mem_cfg (length (sys_requests linear_start)) linear_arrived (fst linear_end) (snd linear_end)).
  { assert (Hlen : length (sys_requests linear_start) = 1%nat) by (vm_compute; reflexivity).
    rewrite Hlen. apply (call_moves_calls mem_cfg 1 linear_moves).
    rewrite <-surjective_pairing. apply some_default. vm_compute. reflexivity. }
  split; [vm_compute; reflexivity|]. split; [vm_compute; reflexivity|].
  exact (requests_linearize mem_cfg R_PutObject (put_request_to "o2") sample_world linear_start linear_arrived
           (fst linear_end) (snd linear_end) sample_world_ok Hrun Hcare eq_refl Hcalls (or_introl eq_refl)).
Defined.
