(* ===== verification/Durability.v ===== *)
(** * What a PUT has stored stays until the object itself is written

    A successful PUT, any requests to other objects and batches of the collector,
    and a GET: the GET serves the body of the PUT. Composes the handlers of
    src/src/api/handlers with the collector of src/src/storage/gc.cpp. *)
From S2P Require Import Prelude Status Json Crypto Sql MySQLTx MetaStore Sessions MetaStoreSpec MetaStoreProps.
From S2P Require Import MemServer Uuid FileSys DataStore DataStoreSpec DataStoreProps HttpResponse.
From S2P Require Import HttpRequest HttpRouter Auth World StoreSpec Gc GcProps ObjectHandlers.
From S2P Require Import MultipartHandlers BucketHandlers StoreProps ObjectProps.

Open Scope Z_scope.

(** ** Operations that leave one row of [objects] alone *)

Section row.
Context `{HC : Collation, HCal : Calendar, HS : MySQL, HP : ConnPool, HR : Redis, HX : Posix}.
Context `{HJ : JsonLib, HD : Digest} `{HL : !MySQLLaws, HLX : !PosixLaws}.
Context (cfg : StoreConfig) (i : Z * string).
Implicit Types (w : StoreW) (m : MetaW).

(** On a session that accepts START TRANSACTION. *)
Definition row_stays {A} (op : MM A) : Prop := forall m, starts (m_srv m) -> open_tx m = None ->
  wp op (fun _ m' => open_tx m' = None /\ a_objs (abs (committed m')) !! i = a_objs (abs (committed m)) !! i) m.

Lemma row_quiet {A} (op : MM A) : quiet op -> row_stays op.
Proof. intros Ho m _ Hm. eapply wp_mono; [by apply Ho|]. intros r m' [D1 D2]. by rewrite D2. Qed.

Lemma move_row old new a : a_objs (snd (a_move old new a)) !! i = a_objs a !! i.
Proof. by rewrite move_objs. Qed.

(** PutObject, DeleteObject and PutPart of something else. *)
Lemma row_put b k size etag ct cas : (b, uk255 k) <> i -> row_stays (PutObjectWithRefCount b k size etag ct cas).
Proof.
  intros Hi m Hs Hm. eapply wp_mono; [by apply put_object_refines|]. intros r m' [D1 D2]. split; [done|].
  assert (E : a_objs (snd (a_put b k cas size ct etag (abs (committed m)))) !! i = a_objs (abs (committed m)) !! i).
  { unfold a_put. set (old := match a_find _ _ _ with Some o => ao_cas o | None => "" end).
    rewrite <-(move_row old cas (abs (committed m))). destruct (a_move old cas _) as [gc a1]. cbn.
    by rewrite lookup_insert_ne. }
  unfold gc_outcome in D2. destruct r as [[gc|s]|e]; [by rewrite <-E, <-D2|..];
    (destruct D2 as [->|D2]; [done|by rewrite <-E, <-D2]).
Qed.

Lemma row_put_part u n cas size etag : row_stays (PutPartWithRefCount u n cas size etag).
Proof.
  intros m Hs Hm. eapply wp_mono; [by apply put_part_refines|]. intros r m' [D1 D2]. split; [done|].
  assert (E : a_objs (snd (a_put_part u n cas (abs (committed m)))) !! i = a_objs (abs (committed m)) !! i).
  { unfold a_put_part. set (old := default "" _).
    rewrite <-(move_row old cas (abs (committed m))). by destruct (a_move old cas _) as [gc a1]. }
  unfold gc_outcome in D2. destruct r as [[gc|s]|e]; [by rewrite <-E, <-D2|..];
    (destruct D2 as [->|D2]; [done|by rewrite <-E, <-D2]).
Qed.

Lemma row_delete b k : (b, uk255 k) <> i -> row_stays (DeleteObjectWithRefCount b k).
Proof.
  intros Hi m Hs Hm. eapply wp_mono; [by apply delete_object_refines|]. intros r m' [D1 D2]. split; [done|].
  assert (E : forall gc a', a_delete b k (abs (committed m)) = Some (gc, a') -> a_objs a' !! i = a_objs (abs (committed m)) !! i).
  { unfold a_delete, a_dec. intros gc a' Ed. repeat case_match; simplify_eq; cbn; by rewrite lookup_delete_ne. }
  unfold delete_outcome in D2. destruct r as [[gc|s]|e]; [by eapply E| |].
  - destruct D2 as [_ [->|[gc D2]]]; [done|by eapply E].
  - destruct D2 as [->|[gc D2]]; [done|by eapply E].
Qed.

(** The same for operations of the whole store. *)
Definition row w : option AObject := a_objs (abs (tables_of w)) !! i.

(** No transaction is open and the session accepts the next. *)
Definition session w : Prop := open_tx (sw_meta w) = None /\ starts (m_srv (sw_meta w)).

Lemma session_later w m' :
  session w -> open_tx m' = None -> later (m_srv (sw_meta w)) (m_srv m') -> session (set_meta m' w).
Proof. intros [_ Hs] Ho Hl. split; [done|]. by eapply starts_later. Qed.

Lemma session_same w w' : same_store w w' -> session w -> session w'.
Proof. intros (H1 & _ & _ & _ & Hl) [_ Hs]. split; [done|]. by eapply starts_later. Qed.

Lemma store_ok_session w : store_ok cfg w -> session w.
Proof. intros Hok. split; apply Hok. Qed.

Definition row_post w {A} (_ : exn A) w' : Prop := session w' /\ row w' = row w.

Definition spares_row {A} (op : SM A) : Prop := forall w, session w -> wp op (row_post w) w.

Lemma spares_still {A} (op : SM A) : still op -> spares_row op.
Proof.
  intros Ho w Hw. eapply wp_mono; [apply Ho, Hw|]. intros r w' S. split; [exact (session_same _ _ S Hw)|].
  destruct S as (_ & D2 & _). unfold row. by rewrite D2.
Qed.

Lemma spares_meta {A} (op : MM A) : row_stays op -> runs op -> spares_row (on_meta op).
Proof.
  intros Ho Hr w Hw. apply wp_on_meta_runs; [done|]. eapply wp_mono; [apply Ho; apply Hw|].
  intros r m' [D1 D2] Hl. split; [by apply session_later|done].
Qed.

Lemma spares_os {A} (op : M os A) : spares_row (on_os op).
Proof. intros w Hw. apply wp_on_os. unfold wp. done. Qed.

Lemma row_post_bind {A B} (op : SM A) (k : A -> SM B) w :
  wp op (row_post w) w -> (forall a, spares_row (k a)) -> wp (op ≫= k) (row_post w) w.
Proof.
  intros Ho Hk. apply wp_bind. eapply wp_mono; [exact Ho|]. intros [a|e] w' [D1 D2]; [|done].
  eapply wp_mono; [by apply Hk|]. intros r w2 [D3 D4]. split; [done|]. by rewrite D4.
Qed.

Lemma spares_bind {A B} (op : SM A) (k : A -> SM B) :
  spares_row op -> (forall a, spares_row (k a)) -> spares_row (op ≫= k).
Proof. intros Ho Hk w Hw. apply row_post_bind; [by apply Ho|done]. Qed.

Lemma spares_queue g : spares_row (queue_garbage g).
Proof.
  unfold queue_garbage. destruct g as [k|]; [|by apply spares_still, still_ret].
  intros w Hw. unfold wp, AddPendingDelete. by destruct (sw_gc w).
Qed.

(** The bucket a name stands for, for what follows. *)
Lemma wp_bucket_row n k w :
  session w -> (forall b, names_bucket n b (sw_meta w) -> spares_row (k b)) ->
  wp (with_bucket n k) (row_post w) w.
Proof.
  intros Hw Hk. unfold with_bucket. apply wp_bind, wp_on_meta_runs; [auto with minis3|].
  eapply wp_mono; [apply wp_both; [apply wp_get_bucket, Hw|apply quiet_GetBucket, Hw]|].
  intros [br|e] m' [[_ Hn] [D1 D2]] Hl; pose proof (session_later _ _ Hw D1 Hl) as Hw'.
  2: { split; [done|]. unfold row, tables_of. cbn [sw_meta set_meta]. by rewrite D2. }
  assert (E : row (set_meta m' w) = row w) by (unfold row, tables_of; cbn [sw_meta set_meta]; by rewrite D2).
  assert (Hrest : forall op : SM HttpResponse, spares_row op -> wp op (row_post w) (set_meta m' w)).
  { intros op Hop. eapply wp_mono; [by apply Hop|]. intros r w2 [D3 D4]. split; [done|]. by rewrite D4. }
  destruct br as [info|s]; [by apply Hrest, Hk, Hn|].
  case_match; apply Hrest, spares_still, still_refuse.
Qed.

Lemma spares_refuse r : spares_row (refuse r).
Proof. apply spares_still, still_refuse. Qed.

Lemma spares_cleanup_if b c : spares_row (cleanup_if cfg b c).
Proof.
  unfold cleanup_if, CleanupUnreferencedCas. destruct b; [|by apply spares_still, still_ret].
  apply spares_bind; [by apply spares_meta; [apply row_quiet, quiet_GetCasBlob|auto with minis3]|]. intros r.
  repeat case_match; try (by apply spares_still, still_ret);
    (apply spares_bind; [apply spares_os|intros ?; by apply spares_still, still_ret]).
Qed.

Lemma spares_store_body r : spares_row (store_body cfg r).
Proof.
  unfold store_body. case_match; [by apply spares_still, still_ret|].
  apply spares_bind; [by apply spares_still, still_ask|]. intros e.
  apply spares_bind; [apply spares_os|]. intros res. by apply spares_still, still_ret.
Qed.
End row.

(** Splits an operation into steps; [tac] treats the writes. *)
Ltac spares_tac tac :=
  repeat first
    [ solve [apply spares_refuse]
    | solve [apply spares_still; unfold check_idempotency; still_tac]
    | solve [apply spares_queue] | solve [apply spares_cleanup_if] | solve [apply spares_store_body]
    | solve [tac]
    | apply spares_bind; [|intros ?]
    | case_match ].

Section handlers.
Context `{HC : Collation, HCal : Calendar, HS : MySQL, HP : ConnPool, HR : Redis, HX : Posix}.
Context `{HJ : JsonLib, HD : Digest} `{HL : !MySQLLaws, HLX : !PosixLaws}.
Context (cfg : StoreConfig) (i : Z * string).
Implicit Types (w : StoreW) (m : MetaW).

(** The object a request is for, by the row it falls in, is not [i]. *)
Definition other_object (r : HttpRequest) w : Prop :=
  forall b, names_bucket (GetPathParam "bucket" r) b (sw_meta w) -> (b, uk255 (GetPathParam "object" r)) <> i.

Lemma wp_with_params_row r k w :
  session w ->
  wp (k (GetPathParam "bucket" r) (GetPathParam "object" r)) (row_post i w) w ->
  wp (with_params r k) (row_post i w) w.
Proof. intros Hw Hk. unfold with_params. case_match; [by apply spares_refuse|done]. Qed.

Lemma row_PutObject r w :
  session w -> other_object r w -> wp (ObjectHandlers_PutObject cfg r) (row_post i w) w.
Proof.
  intros Hw Ho. apply wp_with_params_row; [done|]. apply wp_bucket_row; [done|]. intros b Hb. specialize (Ho b Hb).
  unfold put_stored. spares_tac ltac:(by apply spares_meta; [by apply row_put|auto with minis3]).
Qed.

Lemma row_DeleteObject r w :
  session w -> other_object r w -> wp (ObjectHandlers_DeleteObject r) (row_post i w) w.
Proof.
  intros Hw Ho. apply wp_with_params_row; [done|]. apply wp_bucket_row; [done|]. intros b Hb. specialize (Ho b Hb).
  unfold with_object. spares_tac ltac:(by apply spares_meta; [by apply row_delete|auto with minis3]).
Qed.

Lemma row_UploadPart r : spares_row i (MultipartHandlers_UploadPart cfg r).
Proof.
  unfold MultipartHandlers_UploadPart, with_upload, put_stored_part.
  spares_tac ltac:(by apply spares_meta; [apply row_put_part|auto with minis3]).
Qed.

(** Deleting the bucket of another row. *)
Definition other_bucket (n : string) w : Prop :=
  forall br row, buckets (tables_of w) !! coll n = Some br -> objects (tables_of w) !! i = Some row ->
    or_bucket row <> br_id br.

Lemma exec_delete_bucket_row n t t' rows aff ids :
  (forall br row, buckets t !! coll n = Some br -> objects t !! i = Some row -> or_bucket row <> br_id br) ->
  exec_delete_bucket t n = Done t' rows aff ids -> a_objs (abs t') !! i = a_objs (abs t) !! i.
Proof.
  intros Ho. unfold exec_delete_bucket. destruct (buckets t !! coll n) as [br|]; intros E; injection E as <- <- <- <-; [|done].
  cbn. rewrite !lookup_fmap. f_equal. destruct (objects t !! i) as [row|] eqn:Er.
  - apply map_lookup_filter_Some. split; [done|]. cbn.
    by rewrite (proj2 (Z.eqb_neq _ _)) by by apply Ho.
  - apply map_lookup_filter_None. by left.
Qed.

Lemma row_delete_bucket n m :
  open_tx m = None ->
  (forall br row, buckets (committed m) !! coll n = Some br -> objects (committed m) !! i = Some row -> or_bucket row <> br_id br) ->
  wp (DeleteBucket n) (fun _ m' => open_tx m' = None /\ a_objs (abs (committed m')) !! i = a_objs (abs (committed m)) !! i) m.
Proof.
  intros Hm Ho. apply wp_with_conn; intros p; [by split|]. apply wp_bind. unfold execute_one.
  apply wp_bind. apply wp_conn_run; [done|done| |].
  - intros m' t' rows aff id ids _ He _ Hc Hn. change (committed (set_pool p m)) with (committed m) in He.
    apply exec_delete_bucket_row in He; [|done].
    assert (Hq : a_objs (abs (committed m')) !! i = a_objs (abs (committed m)) !! i) by by rewrite Hc.
    case_match; apply wp_ret; case_match; try (by apply wp_ret); by apply wp_bind.
  - intros m' e _ Hc Hn _. change (committed (set_pool p m)) with (committed m) in Hc.
    assert (Hq : a_objs (abs (committed m')) !! i = a_objs (abs (committed m)) !! i) by by rewrite Hc.
    apply wp_ret. by apply wp_ret.
Qed.

(** Lookups leave the tables as they are. *)
Abbreviation reads := (stays (fun t : Tables => t)).

Lemma reads_run st :
  is_tx_stmt st = false -> (forall now t, exists rows, exec_stmt now t st = rows_of t rows) -> reads (conn_run st).
Proof.
  intros Hst Hr. apply stays_run; [done|]. intros now t t' rows aff ids E. destruct (Hr now t) as [l El].
  rewrite El in E. by injection E.
Qed.

Lemma reads_GetBucket n : reads (GetBucket n).
Proof. unfold GetBucket. stays_tac ltac:(apply reads_run; [done|by eexists]). Qed.

Lemma reads_IsBucketEmpty b : reads (IsBucketEmpty b).
Proof. unfold IsBucketEmpty. stays_tac ltac:(apply reads_run; [done|by eexists]). Qed.

Lemma wp_read_then {A B} (op : MM A) (k : A -> SM B) w0 w :
  reads op -> runs op -> session w -> tables_of w = tables_of w0 ->
  (forall a w', session w' -> tables_of w' = tables_of w0 -> wp (k a) (row_post i w0) w') ->
  wp (on_meta op ≫= k) (row_post i w0) w.
Proof.
  intros Hop Hr Hw Ht Hk. apply wp_bind, wp_on_meta_runs; [done|]. eapply wp_mono; [apply Hop, Hw|].
  intros [a|e] m' [D1 D2] Hl; pose proof (session_later _ _ Hw D1 Hl) as Hw'.
  - apply Hk; [done|]. unfold tables_of in *. cbn. congruence.
  - split; [done|]. unfold row, tables_of in *. cbn. congruence.
Qed.

Lemma wp_refuse_row r w0 w :
  session w -> tables_of w = tables_of w0 -> wp (refuse r) (row_post i w0) w.
Proof. intros Hw Ht. split; [done|]. change (row i w = row i w0). unfold row. by rewrite Ht. Qed.

Lemma row_DeleteBucket r w :
  session w -> other_bucket (GetPathParam "bucket" r) w -> wp (BucketHandlers_DeleteBucket r) (row_post i w) w.
Proof.
  intros Hw Ho. unfold BucketHandlers_DeleteBucket, with_bucket_name, bucket_info.
  case_match; [by apply spares_refuse|].
  apply wp_read_then; [apply reads_GetBucket|auto with minis3|done..|]. intros br w1 H1 E1.
  destruct br as [info|s]; [|case_match; by apply wp_refuse_row].
  apply wp_read_then; [apply reads_IsBucketEmpty|auto with minis3|done..|]. intros er w2 H2 E2.
  destruct er as [[]|s]; [|by apply wp_refuse_row..].
  apply wp_bind, wp_on_meta_runs; [auto with minis3|].
  assert (Ho2 : other_bucket (GetPathParam "bucket" r) w2) by (unfold other_bucket; by rewrite E2).
  eapply wp_mono; [apply row_delete_bucket; [apply H2|done]|]. intros st m' [D1 D2] Hl.
  pose proof (session_later _ _ H2 D1 Hl) as H3.
  assert (Hrow : row i (set_meta m' w2) = row i w) by (unfold row; exact (eq_trans D2 (f_equal (fun t => a_objs (abs t) !! i) E2))).
  destruct st as [st|e]; [|done]. by case_match.
Qed.

(** ** Runs that do not write the object *)

(** One request or one batch of the collector that does not write the row [i]: what
    writes objects names another one, and a bucket that is deleted is another one. *)
Inductive spares w w' : Prop :=
  | Spares_PutObject r x : streamed cfg r w -> other_object r w -> ObjectHandlers_PutObject cfg r w = (x, w') -> spares w w'
  | Spares_GetObject r x : ObjectHandlers_GetObject cfg r w = (x, w') -> spares w w'
  | Spares_HeadObject r x : ObjectHandlers_HeadObject r w = (x, w') -> spares w w'
  | Spares_DeleteObject r x : other_object r w -> ObjectHandlers_DeleteObject r w = (x, w') -> spares w w'
  | Spares_ListObjects r x : ObjectHandlers_ListObjects r w = (x, w') -> spares w w'
  | Spares_InitUpload r x : MultipartHandlers_InitUpload r w = (x, w') -> spares w w'
  | Spares_UploadPart r x : streamed cfg r w -> MultipartHandlers_UploadPart cfg r w = (x, w') -> spares w w'
  | Spares_ListParts r x : MultipartHandlers_ListParts r w = (x, w') -> spares w w'
  | Spares_CreateBucket r x : BucketHandlers_CreateBucket r w = (x, w') -> spares w w'
  | Spares_GetBucket r x : BucketHandlers_GetBucket r w = (x, w') -> spares w w'
  | Spares_DeleteBucket r x : other_bucket (GetPathParam "bucket" r) w -> BucketHandlers_DeleteBucket r w = (x, w') -> spares w w'
  | Spares_ListBuckets r x : BucketHandlers_ListBuckets r w = (x, w') -> spares w w'
  | Spares_collect n x : ProcessBatch cfg n w = (x, w') -> spares w w'.

Lemma spares_serve w w' : spares w w' -> serve cfg w w'.
Proof.
  intros [r x Hs _ E|r x E|r x E|r x _ E|r x E|r x E|r x Hs E|r x E|r x E|r x E|r x _ E|r x E|n x E].
  - by eapply Serve_PutObject.
  - by eapply Serve_GetObject.
  - by eapply Serve_HeadObject.
  - by eapply Serve_DeleteObject.
  - by eapply Serve_ListObjects.
  - by eapply Serve_InitUpload.
  - by eapply Serve_UploadPart.
  - by eapply Serve_ListParts.
  - by eapply Serve_CreateBucket.
  - by eapply Serve_GetBucket.
  - by eapply Serve_DeleteBucket.
  - by eapply Serve_ListBuckets.
  - by eapply Serve_collect.
Qed.

Lemma still_row {A} (op : SM A) x w w' : still op -> op w = (x, w') -> session w -> row i w' = row i w.
Proof. intros Ho E Hw. exact (proj2 (wp_run _ _ _ _ _ E (spares_still i op Ho w Hw))). Qed.

Lemma spares_same_row w w' : store_ok cfg w -> spares w w' -> row i w' = row i w.
Proof.
  intros Hok S. pose proof (store_ok_session _ _ Hok) as Hw.
  destruct S as [r x Hs Ho E|r x E|r x E|r x Ho E|r x E|r x E|r x Hs E|r x E|r x E|r x E|r x Ho E|r x E|n x E].
  - exact (proj2 (wp_run _ _ _ _ _ E (row_PutObject r w Hw Ho))).
  - eapply still_row; [apply still_GetObject|done..].
  - eapply still_row; [apply still_HeadObject|done..].
  - exact (proj2 (wp_run _ _ _ _ _ E (row_DeleteObject r w Hw Ho))).
  - eapply still_row; [apply still_ListObjects|done..].
  - eapply still_row; [apply still_InitUpload|done..].
  - exact (proj2 (wp_run _ _ _ _ _ E (row_UploadPart r w Hw))).
  - eapply still_row; [apply still_ListParts|done..].
  - eapply still_row; [apply still_CreateBucket|done..].
  - eapply still_row; [apply still_GetBucket|done..].
  - exact (proj2 (wp_run _ _ _ _ _ E (row_DeleteBucket r w Hw Ho))).
  - eapply still_row; [apply still_ListBuckets|done..].
  - unfold row. by rewrite (gs_objs _ _ _ (wp_run _ _ _ _ _ E (wp_process_batch cfg n w Hok))).
Qed.

Lemma run_same_row w w' : store_ok cfg w -> rtc spares w w' -> store_ok cfg w' /\ row i w' = row i w.
Proof.
  intros Hok Hr. induction Hr as [w|w1 w2 w3 S _ IH]; [done|].
  destruct IH as [H1 H2]; [by eapply serve_ok; [apply spares_serve|]|].
  split; [done|]. rewrite H2. by apply spares_same_row.
Qed.
End handlers.

(** ** The property *)

Section durable.
Context `{HC : Collation, HCal : Calendar, HS : MySQL, HP : ConnPool, HR : Redis, HX : Posix}.
Context `{HJ : JsonLib, HD : Digest} `{HL : !MySQLLaws, HLX : !PosixLaws}.
Context (cfg : StoreConfig).
Implicit Types (w : StoreW).

(** A row that is the same, in a consistent store, still holds its body. *)
Lemma holds_put_row bid key r w w' :
  store_ok cfg w' -> row (bid, uk255 key) w' = row (bid, uk255 key) w -> holds_put cfg bid key r w -> holds_put cfg bid key r w'.
Proof.
  intros Hok Hrow (o & d & F & Hput & _). assert (F' : a_find bid key (abs (tables_of w')) = Some o).
  { unfold a_find, row in *. by rewrite Hrow. }
  assert (Hr : refers (abs (tables_of w')) (ao_cas o)) by (apply a_find_Some in F' as [F' _]; left; eauto).
  destruct (so_backed _ _ Hok _ Hr) as [Hv [d' Hd']]. exists o, d'. pose proof Hput as (Hcas & _).
  rewrite Hcas in *. split_and!; [done..|]. by apply (so_cas _ _ Hok).
Qed.

Lemma names_bucket_same n b b' (m : MetaW) : names_bucket n b m -> names_bucket n b' m -> b = b'.
Proof.
  unfold names_bucket. destruct (bucket_cache_ m !! n); [congruence|].
  intros (r & E & <-) (r' & E' & <-). rewrite E in E'. by injection E' as <-.
Qed.

(** C4. What was stored is served until the object itself is written: after a PUT
    answered 200, and any requests that write no object of its row, served one at a time
    ([spares]: PUTs and DELETEs of other objects, deletions of other buckets, reads,
    InitUpload, UploadPart, ListParts, and batches of the collector; no CompleteUpload
    or AbortUpload), a GET of the object that sends a file sends the content of the PUT,
    in full or the bytes its Range header asks for, and that content is in place and
    hashes to its key. The session of the database accepts START TRANSACTION (in
    [store_ok]); whatever any other statement and the file system answer on the way. The
    PUT has no Idempotency-Key (else its 200 may be a replayed one), its
    X-Internal-CAS-Key, if any, is the server's ([streamed]), its key shares its first 255
    characters with no other object of the bucket, and no Redis cache is live at the GET. *)
Theorem put_durable bid r w resp w1 w2 rg resp2 w3 :
  store_ok cfg w -> streamed cfg r w -> GetHeader "Idempotency-Key" r = "" ->
  names_bucket (GetPathParam "bucket" r) bid (sw_meta w) ->
  no_prefix_clash bid (GetPathParam "object" r) (abs (tables_of w)) ->
  0 <= put_size r < two63 ->
  ObjectHandlers_PutObject cfg r w = (Ret resp, w1) -> status_code_ resp = 200 ->
  rtc (spares cfg (bid, uk255 (GetPathParam "object" r))) w1 w2 ->
  redis_live (sw_meta w2) = None -> names_bucket (GetPathParam "bucket" rg) bid (sw_meta w2) ->
  GetPathParam "object" rg = GetPathParam "object" r ->
  ObjectHandlers_GetObject cfg rg w2 = (Ret resp2, w3) -> HasFile resp2 = true ->
  exists o d, put_row r o /\ ao_size o = put_size r /\
    serves_range cfg o (GetHeader "Range" rg) resp2 /\
    os_file (sw_os w3) (file_path_ resp2) = Some d /\ Final d = put_cas r.
Proof.
  intros Hok Hst Hid Hb Hc Hlen E1 Hs1 Hrun Hredis Hb2 Hkey E2 Hf.
  destruct (wp_run _ _ _ _ _ E1 (wp_PutObject_stores cfg r w Hok Hst Hid
    ltac:(intros b Hn; by rewrite (names_bucket_same _ _ _ _ Hn Hb))) resp) as (b & Hn & Hold);
    [done|by apply Z.eqb_eq|].
  rewrite (names_bucket_same _ _ _ _ Hn Hb) in Hold.
  assert (Hok1 : store_ok cfg w1) by exact (wp_run _ _ _ _ _ E1 (wp_PutObject cfg r w Hok Hst)).
  destruct (run_same_row cfg _ _ _ Hok1 Hrun) as [Hok2 Hrow].
  destruct (holds_put_row _ _ _ _ _ Hok2 Hrow Hold) as (o & d & F & Hput & Hd & Hh).
  destruct (wp_run _ _ _ _ _ E2 (wp_GetObject_serves cfg rg w2 Hok2 Hredis) resp2 eq_refl Hf) as (S & b2 & o2 & Hn2 & F2 & Hr2).
  rewrite (names_bucket_same _ _ _ _ Hn2 Hb2), Hkey, F in F2. injection F2 as <-.
  pose proof Hput as (Hcas & Hsize & _).
  assert (Hz : ao_size o = put_size r).
  { rewrite Hsize. unfold i64_of_u64. destruct (Z.ltb_spec (put_size r) two63); [done|lia]. }
  specialize (Hr2 ltac:(lia)). exists o, d. split_and!; [done..| |done].
  destruct Hr2 as (-> & _). destruct S as (_ & _ & Hsame & _). by rewrite Hsame, Hcas.
Qed.
End durable.

(** ** Witness *)

(** A PUT of another object and a batch of the collector, whose queue holds the
    content of the first, between the PUT and the GET. *)
Definition other_put : HttpRequest := SetBody "world" (SetPathParam "object" "p" put_request).

Definition after_other : StoreW := snd (ObjectHandlers_PutObject mem_cfg other_put put_world).
Definition after_batch : StoreW := snd (ProcessBatch mem_cfg 100 after_other).

Definition get_answer : HttpResponse :=
  match fst (ObjectHandlers_GetObject mem_cfg get_request after_batch) with
  | Ret resp => resp
  | Throw _ => new_response
  end.

Lemma other_put_run : rtc (spares mem_cfg (1, uk255 "o")) put_world after_batch.
Proof.
  eapply rtc_l; [|apply rtc_once].
  - eapply (Spares_PutObject _ _ _ after_other other_put _).
    + intros H. by destruct H.
    + intros b _ [= _ H].
    + apply surjective_pairing.
  - eapply (Spares_collect _ _ _ _ 100). apply surjective_pairing.
Qed.

Lemma put_durable_witness :
  (status_code_ get_answer, file_offset_ get_answer, file_length_ get_answer) = (206, 1, 3) /\
  exists w3 d, os_file (sw_os w3) (file_path_ get_answer) = Some d /\ Final d = SHA256 "hello".
Proof.
  split; [vm_compute; reflexivity|].
  destruct (put_durable mem_cfg 1 put_request sample_world put_answer put_world after_batch get_request get_answer
    (snd (ObjectHandlers_GetObject mem_cfg get_request after_batch))) as (o & d & _ & _ & _ & Hd & Hf).
  - exact sample_world_ok.
  - intros H. by destruct H.
  - reflexivity.
  - eexists. split; vm_compute; reflexivity.
  - by apply no_clash_empty.
  - split; [vm_compute; discriminate|vm_compute; reflexivity].
  - exact sample_put.
  - vm_compute. reflexivity.
  - exact other_put_run.
  - vm_compute. reflexivity.
  - vm_compute. reflexivity.
  - reflexivity.
  - apply (pair_of_fst (ObjectHandlers_GetObject mem_cfg get_request after_batch)). vm_compute. reflexivity.
  - vm_compute. reflexivity.
  - eexists _, d. split; [exact Hd|exact Hf].
Defined.
