(* ===== verification/MultipartProps.v ===== *)
(** * Properties of the multipart handlers: completing and aborting *)
From S2P Require Import Prelude Status Json Crypto Sql MySQLTx MetaStore Sessions MetaStoreSpec.
From S2P Require Import MetaStoreProps MemServer Uuid FileSys DataStore DataStoreSpec.
From S2P Require Import DataStoreProps HttpResponse HttpRequest HttpRouter Auth World StoreSpec Gc.
From S2P Require Import GcProps ObjectHandlers MultipartHandlers StoreProps ObjectProps.

Open Scope Z_scope.

(** ** The comparison of the two part lists *)

Definition same_part (c : Z * string) (p : MultipartPartInfo) : Prop :=
  fst c = pi_part_number p /\ snd c = NormalizeEtagValue (pi_etag p).

Definition total_size (z : Z) (l : list MultipartPartInfo) : Z :=
  fold_left (fun acc p => u64 (acc + pi_size p)) l z.

Lemma match_parts_inr client server z keys size :
  length client = length server -> match_parts client server z = inr (keys, size) ->
  Forall2 same_part client server /\ keys = pi_sha256_hash <$> server /\ size = total_size z server.
Proof.
  revert server z keys size. induction client as [|[n e] client IH]; intros [|p server] z keys size Hl; try done.
  { cbn. intros [= <- <-]. done. }
  cbn in Hl. injection Hl as Hl. cbn [match_parts].
  destruct (Z.eqb_spec n (pi_part_number p)) as [En|]; cbn [negb]; [|done].
  destruct (String.eqb_spec e (NormalizeEtagValue (pi_etag p))) as [Ee|]; cbn [negb]; [|done].
  destruct (match_parts client server _) as [m|[ks sz]] eqn:E; [done|]. intros [= <- <-].
  apply IH in E as (H1 & -> & ->); [|done]. split_and!; [by constructor|done|done].
Qed.

(** ** Objects across the release of the parts *)

Definition keeps_objs (st : Stmt) : bool :=
  match st with
  | DecCas _ | SelectRefCount _ _ | DeleteUploadRow _ => true
  | _ => false
  end.

Lemma exec_objs `{Collation, Calendar} now t st t' rows aff ids :
  keeps_objs st = true -> exec_stmt now t st = Done t' rows aff ids -> a_objs (abs t') = a_objs (abs t).
Proof.
  intros Hk E. destruct st; try done.
  - apply exec_dec_abs in E as ->. unfold a_dec. done.
  - by apply exec_select_ref in E as [-> _].
  - cbn in E. unfold exec_delete_upload in E. case_match; by injection E as <- <- <- <-.
Qed.

Section multipart.
Context `{HC : Collation, HCal : Calendar, HS : MySQL, HP : ConnPool, HR : Redis, HX : Posix}.
Context `{HJ : JsonLib, HD : Digest} `{HL : !MySQLLaws, HLX : !PosixLaws}.
Context (cfg : StoreConfig).
Implicit Types (w : StoreW) (m : MetaW).

Abbreviation objs_stay := (stays (fun t => a_objs (abs t))).

Lemma objs_stay_run st : keeps_objs st = true -> objs_stay (conn_run st).
Proof. intros Hk. apply stays_run; [by destruct st|]. intros. by eapply exec_objs. Qed.

Lemma objs_stay_release c : objs_stay (DecrementRefCountAndCheckZero c).
Proof. unfold DecrementRefCountAndCheckZero. stays_tac ltac:(by apply objs_stay_run). Qed.

Lemma objs_stay_delete_upload u : objs_stay (DeleteMultipartUpload u).
Proof. unfold DeleteMultipartUpload, execute_one. stays_tac ltac:(by apply objs_stay_run). Qed.

(** The objects and the files stay. *)
Definition same_objs w w' : Prop :=
  open_tx (sw_meta w') = None /\ a_objs (abs (tables_of w')) = a_objs (abs (tables_of w)) /\
  same_files (sw_os w) (sw_os w').

Lemma same_objs_trans w1 w2 w3 : same_objs w1 w2 -> same_objs w2 w3 -> same_objs w1 w3.
Proof.
  intros (A1 & A2 & A3) (B1 & B2 & B3). split_and!; [done|by rewrite B2|by eapply same_files_trans].
Qed.

Lemma wp_meta_objs {A} (op : MM A) w :
  objs_stay op -> open_tx (sw_meta w) = None -> wp (on_meta op) (fun _ w' => same_objs w w') w.
Proof.
  intros Ho Hw. apply wp_on_meta. eapply wp_mono; [by apply Ho|]. intros r m' [D1 D2]. done.
Qed.

Lemma wp_release_parts keys w :
  open_tx (sw_meta w) = None -> wp (release_parts keys) (fun _ w' => same_objs w w') w.
Proof.
  revert w. induction keys as [|k keys IH]; intros w Hw; [by apply wp_ret|].
  cbn [release_parts]. apply wp_bind.
  eapply wp_mono; [apply wp_meta_objs; [apply objs_stay_release|done]|].
  intros r w1 S1. destruct r as [r|e]; [|done].
  assert (Hrest : forall w2, same_objs w w2 -> wp (release_parts keys) (fun _ w' => same_objs w w') w2).
  { intros w2 S2. eapply wp_mono; [apply IH; apply S2|]. intros x w3. by apply same_objs_trans. }
  apply wp_bind. unfold wp at 1. destruct r as [[]|s]; [|by apply Hrest..].
  unfold AddPendingDelete. cbn [fst snd]. apply Hrest. by destruct (sw_gc w1).
Qed.

(** ** Completing *)

(** The object holds the concatenation of the contents [l]. *)
Definition holds_merge (bid : Z) (key : string) (l : list (list ascii)) (size : Z) w : Prop :=
  exists o d, a_find bid key (abs (tables_of w)) = Some o /\ ao_cas o = Final (mjoin l) /\
    ao_size o = i64_of_u64 size /\ os_file (sw_os w) (cas_path cfg (ao_cas o)) = Some d /\
    Final d = Final (mjoin l).

Lemma holds_merge_same bid key l size w w' :
  same_objs w w' -> holds_merge bid key l size w -> holds_merge bid key l size w'.
Proof.
  intros (_ & E & S) (o & d & H1 & H2 & H3 & H4 & H5). exists o, d.
  unfold a_find. rewrite E. split; [exact H1|]. split_and!; [done..|by rewrite S|done].
Qed.

Lemma wp_complete_with bn ok uid up keys size w :
  store_ok cfg w -> no_prefix_clash (ui_bucket_id up) (ui_key up) (abs (tables_of w)) ->
  wp (complete_with cfg bn ok uid up keys size) (on_resp is_ok (fun _ w' =>
    exists l, contents_of cfg (sw_os w) keys l /\
      holds_merge (ui_bucket_id up) (ui_key up) l size w')) w.
Proof.
  intros Hok Hc. unfold complete_with.
  eapply (wp_bind_throw _ _ (fun r w' => forall k, r = Ret (Ok k) ->
    store_ok cfg w' /\ abs (tables_of w') = abs (tables_of w) /\
    exists l, contents_of cfg (sw_os w) keys l /\ k = Final (mjoin l) /\ in_place cfg k (sw_os w') /\
      exists d, os_file (sw_os w') (cas_path cfg k) = Some d /\ Final d = Final (mjoin l))).
  { apply wp_on_os. eapply wp_mono; [apply wp_merge, Hok|]. intros r s' Hm k ->.
    destruct Hm as [(e & He & _)|(l & Hl & Hst)]; [done|].
    destruct (stored_ok cfg _ _ _ _ Hok Hst) as (H1 & res & Hres & H2). injection Hres as <-.
    destruct (H2 k eq_refl) as (-> & Hp & Hd). split; [done|]. split; [done|]. by exists l. }
  intros mr w1 Hm. destruct mr as [k|s]; [|by apply wp_refused].
  destruct (Hm k eq_refl) as (Hok1 & Hab & l & Hl & -> & Hp & d & Hd & Hf).
  eapply wp_bind_throw; [by apply wp_put_ref|]. intros x w2 (Hok2 & Hs2 & Hg & Hput).
  destruct x as [gc|s].
  2: { eapply wp_bind_throw; [apply wp_any|]. intros [] w3 _. by apply wp_refused. }
  pose proof (f_equal snd (Hput gc eq_refl)) as Hab2. cbn [snd] in Hab2.
  assert (Hhold : holds_merge (ui_bucket_id up) (ui_key up) l size w2).
  { rewrite Hab in Hab2.
    destruct (a_put_find (ui_bucket_id up) (ui_key up) (Final (mjoin l)) (i64_of_u64 size)
      (ui_content_type up) (quoted (etag_value (Final (mjoin l)))) _ Hc) as [kk Hk].
    { unfold sql_eq. apply String.eqb_refl. }
    eexists _, d. split; [rewrite Hab2; exact Hk|]. cbn. rewrite Hs2. by split_and!. }
  eapply wp_bind_throw.
  { apply still_queue; [|apply Hok2]. intros c ->. by apply Hg. }
  intros [] w3 (S1 & S2 & S3 & _).
  assert (S23 : same_objs w2 w3) by (split_and!; [done|by rewrite S2|done]).
  eapply wp_bind_throw; [by apply wp_release_parts|]. intros [] w4 S34.
  eapply wp_bind_throw; [apply wp_meta_objs; [apply objs_stay_delete_upload|apply S34]|]. intros st w5 S45.
  apply wp_bind, wp_lift. destruct (json_dump _) as [text|e]; [|done]. apply wp_ret.
  intros resp _ _. exists l. split; [done|]. eapply holds_merge_same; [|exact Hhold].
  eapply same_objs_trans; [exact S23|]. by eapply same_objs_trans.
Qed.

(** ** Reading the upload and its parts *)

Definition upload_ref (u : MultipartUploadInfo) : Z * string := (ui_bucket_id u, ui_key u).

Lemma upload_of_row_ref now r u : upload_of_row now (upload_text r) = Ret u -> upload_ref u = (ur_bucket r, ur_key r).
Proof.
  unfold upload_of_row.
  change (ll_or0 (upload_text r) 1) with (conv_exn (stoll (to_string (ur_bucket r)))).
  unfold mbind, exn_bind. destruct (conv_exn (stoll (to_string (ur_bucket r)))) as [n|] eqn:En; [|done].
  apply stoll_num in En as ->. by intros [= <-].
Qed.

Lemma wp_get_upload u m :
  open_tx m = None ->
  wp (GetMultipartUpload u) (fun r m' => open_tx m' = None /\ committed m' = committed m /\
    forall up, r = Ret (Ok up) -> exists row, uploads (committed m) !! coll u = Some row /\
      upload_ref up = (ur_bucket row, ur_key row)) m.
Proof.
  intros Hm. unfold GetMultipartUpload. apply wp_with_conn; intros p; [done|].
  apply wp_bind. unfold wp at 1, get_world. cbn [fst snd]. apply wp_bind.
  apply wp_conn_run; [done|done| |].
  - intros m' t' rows aff id ids _ He _ Hc Ho. cbn in He.
    change (committed (set_pool p m)) with (committed m) in He.
    injection He as Ht <- _ _. rewrite <-Ht in Hc.
    destruct (uploads (committed m) !! coll u) as [row|]; cbn [opt_rows]; [|by apply wp_ret; intros p'].
    apply wp_bind, wp_lift. destruct (upload_of_row _ _) as [up|e] eqn:Eu; [apply wp_ret|]; intros p'; split_and!; try done.
    intros up' [= <-]. apply upload_of_row_ref in Eu. by exists row.
  - intros m' e _ Hc Ho _. by apply wp_ret; intros p'.
Qed.

(** A part as the handlers see it, and as its row has it. *)
Definition part_ref (p : MultipartPartInfo) : Z * string := (pi_part_number p, pi_sha256_hash p).
Definition row_ref (r : PartRow) : Z * string := (pr_number r, pr_cas r).

Lemma part_of_row_ref now r p : part_of_row now (part_text r) = Ret p -> part_ref p = row_ref r.
Proof.
  unfold part_of_row.
  change (int_or0 (part_text r) 1) with (conv_exn (stoi (to_string (pr_number r)))).
  change (ll_or0 (part_text r) 3) with (conv_exn (stoll (to_string (pr_size r)))).
  unfold mbind, exn_bind.
  destruct (conv_exn (stoi (to_string (pr_number r)))) as [n|] eqn:En; [|done].
  destruct (conv_exn (stoll (to_string (pr_size r)))); [|done].
  apply stoi_num in En as ->. by intros [= <-].
Qed.

Lemma part_rows_refs now mx count rs l :
  part_rows now mx count (part_text <$> rs) = Ret l ->
  part_ref <$> lp_parts l = row_ref <$> take (Z.to_nat (mx - count)) rs.
Proof.
  revert count l. induction rs as [|r rs IH]; intros count l; cbn [fmap list_fmap part_rows].
  { intros [= <-]. by rewrite take_nil. }
  destruct (Z.leb_spec mx count) as [Hle|Hlt].
  { unfold mbind, exn_bind. destruct (int_or0 _ _); [|done]. intros [= <-].
    by replace (Z.to_nat (mx - count)) with 0%nat by lia. }
  unfold mbind, exn_bind. destruct (part_of_row now (part_text r)) as [p|] eqn:Ep; [|done].
  destruct (part_rows now mx (count + 1) _) as [l'|] eqn:El; [|done]. intros [= <-]. cbn [lp_parts].
  apply part_of_row_ref in Ep. apply IH in El.
  replace (Z.to_nat (mx - count)) with (S (Z.to_nat (mx - (count + 1)))) by lia.
  cbn. by rewrite Ep, El.
Qed.

Lemma wp_list_parts u n m :
  open_tx m = None ->
  wp (ListParts u 0 n) (fun r m' => open_tx m' = None /\ committed m' = committed m /\
    forall l, r = Ret (Ok l) ->
      part_ref <$> lp_parts l = row_ref <$> take (Z.to_nat n) (listed_parts (committed m) u 0)) m.
Proof.
  intros Hm. unfold ListParts. apply wp_with_conn; intros p; [done|].
  apply wp_bind. unfold wp at 1, get_world. cbn [fst snd]. apply wp_bind.
  apply wp_conn_run; [done|done| |].
  - intros m' t' rows aff id ids _ He _ Hc Ho. cbn in He. unfold limited, int_succ in He.
    change (committed (set_pool p m)) with (committed m) in He.
    destruct (Z.ltb_spec n 2147483647); [|done]. case_match eqn:Hn; [done|]. injection He as Ht <- _ _. rewrite <-Ht in Hc.
    apply wp_bind, wp_lift.
    set (rs := listed_parts (committed m) u 0) in *. rewrite <-fmap_take.
    destruct (part_rows _ n 0 _) as [l|e] eqn:El; [apply wp_ret|]; intros p'; split_and!; try done.
    intros l' [= <-]. apply part_rows_refs in El. rewrite El. rewrite Z.sub_0_r, take_take.
    do 2 f_equal. lia.
  - intros m' e _ Hc Ho _. by apply wp_ret; intros p'.
Qed.

(** What a completed upload leaves: the client's list matches the parts, the parts
    are the rows of the upload in the order of their numbers, and the object the
    upload is for holds the concatenation of their contents. *)
Definition completed (uid : string) (body : string) w w' : Prop :=
  exists client server l up,
    uploads (tables_of w) !! coll uid = Some up /\ client_parts_of body = Ret (inr client) /\ Forall2 same_part client server /\
    part_ref <$> server = row_ref <$> take (Z.to_nat 10000) (listed_parts (tables_of w) uid 0) /\
    contents_of cfg (sw_os w) (pi_sha256_hash <$> server) l /\
    holds_merge (ur_bucket up) (ur_key up) l (total_size 0 server) w'.

(** No object of another key shares the index prefix of the upload's key. *)
Definition clear_upload (uid : string) w : Prop :=
  forall up, uploads (tables_of w) !! coll uid = Some up ->
    no_prefix_clash (ur_bucket up) (ur_key up) (abs (tables_of w)).

Lemma same_tables_ok m' w :
  store_ok cfg w -> open_tx m' = None -> committed m' = tables_of w ->
  later (m_srv (sw_meta w)) (m_srv m') -> store_ok cfg (set_meta m' w).
Proof.
  intros Hok Ho E Hl. eapply store_ok_same; [|exact Hok]. split_and!; [done| |done|done|done].
  unfold tables_of in *. cbn. by rewrite E.
Qed.

Lemma wp_CompleteUpload r w :
  store_ok cfg w -> clear_upload (GetPathParam "upload_id" r) w ->
  wp (MultipartHandlers_CompleteUpload cfg r)
     (on_resp is_ok (fun _ w' => completed (GetPathParam "upload_id" r) (body_ r) w w')) w.
Proof.
  intros Hok Hc. unfold MultipartHandlers_CompleteUpload, with_upload_params.
  case_match; [by apply wp_refused|]. set (uid := GetPathParam "upload_id" r).
  unfold with_upload. eapply (wp_bind_throw _ _ (fun x w' => store_ok cfg w' /\ tables_of w' = tables_of w /\
    sw_os w' = sw_os w /\ forall up, x = Ret (Ok up) ->
    exists row, uploads (tables_of w) !! coll uid = Some row /\ upload_ref up = (ur_bucket row, ur_key row))).
  { apply wp_on_meta_runs; [auto with minis3|]. eapply wp_mono; [apply wp_get_upload, Hok|]. intros x m' (D1 & D2 & D3) Hlt.
    split; [by apply same_tables_ok|done]. }
  intros ur w1 (Hok1 & E1 & Es1 & Hup). destruct ur as [up|s]; [|case_match; by apply wp_refused].
  apply wp_bind, wp_lift. destruct (client_parts_of (body_ r)) as [[msg|client]|e] eqn:Ecl;
    [by apply wp_refused| |done].
  eapply (wp_bind_throw _ _ (fun x w' => store_ok cfg w' /\ tables_of w' = tables_of w /\ sw_os w' = sw_os w /\
    forall l, x = Ret (Ok l) ->
      part_ref <$> lp_parts l = row_ref <$> take (Z.to_nat 10000) (listed_parts (tables_of w) uid 0))).
  { apply wp_on_meta_runs; [auto with minis3|]. eapply wp_mono; [apply wp_list_parts, Hok1|]. intros x m' (D1 & D2 & D3) Hlt.
    split; [by apply same_tables_ok|]. unfold tables_of in *. cbn. rewrite D2, <-E1. done. }
  intros pr w2 (Hok2 & E2 & Es2 & Hl). destruct pr as [pl|s]; [|by apply wp_refused].
  case_match eqn:Elen; [by apply wp_refused|]. apply negb_false_iff, Nat.eqb_eq in Elen.
  destruct (match_parts client (lp_parts pl) 0) as [msg|[keys size]] eqn:Em; [by apply wp_refused|].
  apply match_parts_inr in Em as (Hsame & -> & ->); [|done].
  destruct (Hup up eq_refl) as (row & Hrow & Href). unfold upload_ref in Href. injection Href as Eb Ek.
  eapply wp_mono; [apply wp_complete_with; [done|rewrite Eb, Ek, E2; by apply Hc]|].
  intros x w' Hx resp E Hp. destruct (Hx resp E Hp) as (l & Hcont & Hhold). rewrite Es2 in Hcont.
  rewrite Eb, Ek in Hhold. exists client, (lp_parts pl), l, row. split_and!; [done..|by apply Hl|done|done].
Qed.

(** ** Properties *)

(** C12. Completing an upload assembles its parts: answered 200, the client's part
    list, sorted, matches the stored parts in number and tag, the parts are the
    upload's rows in the order of their numbers, and the object holds exactly the
    concatenation of their contents, with the sum of their sizes. The session accepts
    START TRANSACTION (in [store_ok]), no other request runs at the same time, and the
    upload's key shares its first 255 characters with no other object of the bucket. *)
Theorem complete_upload_concatenates r w resp w' :
  store_ok cfg w -> clear_upload (GetPathParam "upload_id" r) w ->
  MultipartHandlers_CompleteUpload cfg r w = (Ret resp, w') -> status_code_ resp = 200 ->
  completed (GetPathParam "upload_id" r) (body_ r) w w'.
Proof.
  intros Hok Hc E Hs. apply (wp_run _ _ _ _ _ E (wp_CompleteUpload r w Hok Hc) resp); [done|].
  unfold is_ok. by apply Z.eqb_eq.
Qed.
End multipart.

(** ** Witnesses *)

(** The tree library with a part list to read, its parts out of order. *)
Definition part_json (n : Z) (content : string) : Json :=
  JObj [("part_number", JInt n); ("etag", JStr (etag_value (@SHA256 toy_digest content)))].

#[local] Instance parts_json : JsonLib := {|
  json_dump := @json_dump tree_json;
  json_parse s :=
    if String.eqb s "parts" then Ret (JObj [("parts", JArr [part_json 2 "world"; part_json 1 "hello "])])
    else Throw "parse_error";
  json_get_int := @json_get_int tree_json;
  json_get_i64 := @json_get_i64 tree_json;
  json_get_string := @json_get_string tree_json
|}.

(** A bucket and an upload of the key [o] of it; the parts are stored by the
    handler itself. *)
Definition upload_tables : Tables :=
  set_uploads {["u" := MkUploadRow "u" 1 "o" "text/plain" 0 2000]}
    (set_buckets {["b" := MkBucketRow 1 "b" 0]} (set_counters 2 1 empty_tables)).

Definition upload_world (faults : list (option string)) : StoreW := fresh_world upload_tables faults.

Lemma upload_world_ok faults : store_ok mem_cfg (upload_world faults).
Proof. by apply fresh_world_ok. Qed.

Definition upload_request (params : list (string * string)) (body : string) : HttpRequest :=
  fold_left (fun r kv => SetPathParam (fst kv) (snd kv) r)
    ([("bucket", "b"); ("object", "o"); ("upload_id", "u")] ++ params) (SetBody body new_request).

Definition put_part (n : string) (body : string) (w : StoreW) : StoreW :=
  snd (MultipartHandlers_UploadPart mem_cfg (upload_request [("part_number", n)] body) w).

Lemma put_part_ok n body w : store_ok mem_cfg w -> store_ok mem_cfg (put_part n body w).
Proof.
  intros Hw. exact (wp_UploadPart mem_cfg (upload_request [("part_number", n)] body) w Hw (fun H => False_ind _ (H eq_refl))).
Qed.

Definition parts_world (faults : list (option string)) : StoreW :=
  put_part "2" "world" (put_part "1" "hello " (upload_world faults)).

Lemma parts_world_ok faults : store_ok mem_cfg (parts_world faults).
Proof. apply put_part_ok, put_part_ok, upload_world_ok. Qed.

Definition complete_run : exn HttpResponse * StoreW :=
  MultipartHandlers_CompleteUpload mem_cfg (upload_request [] "parts") (parts_world []).

Definition complete_answer : HttpResponse :=
  match fst complete_run with Ret resp => resp | Throw _ => new_response end.

Lemma complete_upload_concatenates_witness :
  status_code_ complete_answer = 200 /\
  completed mem_cfg "u" "parts" (parts_world []) (snd complete_run).
Proof.
  split; [vm_compute; reflexivity|].
  apply (complete_upload_concatenates mem_cfg (upload_request [] "parts") (parts_world []) complete_answer
    (snd complete_run)).
  - apply parts_world_ok.
  - intros up _. apply no_clash_empty. vm_compute. reflexivity.
  - apply (pair_of_fst complete_run). vm_compute. reflexivity.
  - vm_compute. reflexivity.
Defined.

(** The same world, on a server that fails the [n+1]-th statement from here. *)
Definition failing (n : nat) (w : StoreW) : StoreW :=
  let s := m_srv (sw_meta w) in
  set_meta (set_srv (MkMem (mem_tables s) (mem_tx s) (mem_clock s)
    (replicate n None ++ [Some "server has gone away"])) (sw_meta w)) w.

Lemma failing_ok n w : store_ok mem_cfg w -> store_ok mem_cfg (failing n w).
Proof.
  intros [H1 H2 H3 H4 H5 _]. by split; [..|apply mem_starts].
Qed.

Definition failing_world (n : nat) : StoreW := failing n (parts_world []).

Lemma failing_world_ok n : store_ok mem_cfg (failing_world n).
Proof. apply failing_ok, parts_world_ok. Qed.

Definition abort_run : exn HttpResponse * StoreW :=
  MultipartHandlers_AbortUpload (upload_request [] "") (failing_world 6).

(** An abort that fails half way leaves counts too low: the references of the
    parts are released in statements of their own before the upload's row is
    deleted, so when that deletion fails the abort is answered 500, the upload and
    its parts are still there, and their contents have the count 0 and are queued
    for the collector. *)
Theorem abort_failure_undercounts :
  exists resp w',
    store_ok mem_cfg (failing_world 6) /\
    MultipartHandlers_AbortUpload (upload_request [] "") (failing_world 6) = (Ret resp, w') /\
    status_code_ resp = 500 /\
    uploads (tables_of w') !! "u" = uploads (tables_of (failing_world 6)) !! "u" /\
    exists c, refers (abs (tables_of w')) c /\ a_refs (abs (tables_of w')) !! coll c = Some 0 /\
      (c ∈ default [] (sw_gc w')).
Proof.
  exists (match fst abort_run with Ret r => r | Throw _ => new_response end), (snd abort_run).
  split; [apply failing_world_ok|].
  split; [apply (pair_of_fst abort_run); vm_compute; reflexivity|].
  split; [vm_compute; reflexivity|]. split; [vm_compute; reflexivity|].
  exists (@SHA256 toy_digest "world"). split; [right; exists ("u", 2); vm_compute; reflexivity|].
  split; [vm_compute; reflexivity|].
  apply (bool_decide_unpack _). vm_compute. exact I.
Qed.
