(* ===== verification/Races.v ===== *)
(** * Interleavings that go wrong

    Runs of several requests and the collector, call by call, in which an object that
    was acknowledged is lost or a count ends below the number of references: what
    the conditions of [interleaved_store_consistent] exclude. *)
From S2P Require Import Prelude Status Json Crypto Sql MySQLTx MetaStore Sessions MetaStoreSpec MetaStoreProps MemServer.
From S2P Require Import Uuid FileSys DataStore DataStoreSpec DataStoreProps HttpResponse.
From S2P Require Import HttpRequest HttpRouter Auth World StoreSpec Gc GcProps ObjectHandlers.
From S2P Require Import MultipartHandlers BucketHandlers Programs StoreProps Interleaving ObjectProps MultipartProps.

Open Scope Z_scope.

(** The status a request is answered with. *)
Definition status_of (p : Prog HttpResponse) : Z :=
  match p with Done _ (Ret r) => status_code_ r | _ => 0 end.

(** ** The clean-up of a failed request against another request *)

(** An empty store whose third statement fails. *)
Definition failing_put_world : StoreW :=
  fresh_world (set_buckets {["b" := MkBucketRow 1 "b" 0]} (set_counters 2 1 empty_tables))
    [None; None; Some "Lock wait timeout"].

Lemma failing_put_world_ok : store_ok mem_cfg failing_put_world.
Proof. by apply fresh_world_ok. Qed.

Definition cleanup_moves : list Move :=
  [Arrive R_PutObject (put_request_to "o1"); Arrive R_PutObject (put_request_to "o2");
   Request 0; Request 0; Request 0; Request 1; Request 1; Request 1; Request 0; Request 0; Request 0; Request 1].

Definition cleanup_end : Sys :=
  default (idle failing_put_world) (moves mem_cfg cleanup_moves (idle failing_put_world)).

(** Without the condition an object can be lost, and it does not take the collector:
    two PUTs write the same content, the transaction of the first fails and its
    clean-up removes the content, which nobody has counted yet; the second then
    counts it and is answered 200, and the file of its object is gone. *)
Theorem cleanup_loses_object :
  exists s o,
    store_ok mem_cfg failing_put_world /\ rtc (any_step mem_cfg) (idle failing_put_world) s /\
    answered_200 <$> sys_requests s = [false; true] /\
    a_find 1 "o2" (abs (tables_of (sys_store s))) = Some o /\
    os_file (sw_os (sys_store s)) (cas_path mem_cfg (ao_cas o)) = None.
Proof.
  exists cleanup_end, (default (MkAObject "" "" 0 "" "") (a_find 1 "o2" (abs (tables_of (sys_store cleanup_end))))).
  split; [apply failing_put_world_ok|]. split.
  { apply (moves_rtc mem_cfg cleanup_moves). apply some_default. vm_compute. reflexivity. }
  split; [|split]; vm_compute; reflexivity.
Qed.

(** ** Deleting a bucket against a PUT *)

Definition delete_moves : list Move :=
  [Arrive R_DeleteBucket (SetPathParam "bucket" "b" new_request); Request 0; Request 0;
   Arrive R_PutObject (put_request_to "o"); Request 1; Request 1; Request 1; Request 1; Request 0].

Definition delete_end : Sys := default (idle sample_world) (careful_moves mem_cfg delete_moves (idle sample_world)).

(** The test that a bucket is empty does not protect a PUT: when it comes between the
    test and the deletion, both requests succeed, and the object went with the
    bucket. No content is lost, and the count of this one stays too high. *)
Theorem delete_bucket_loses_object :
  exists s, rtc (careful mem_cfg) (idle sample_world) s /\
    status_of <$> sys_requests s = [204; 200] /\
    a_find 1 "o" (abs (tables_of (sys_store s))) = None /\
    default 0 (a_refs (abs (tables_of (sys_store s))) !! sample_key) = 1.
Proof.
  exists delete_end. split.
  { apply (careful_moves_rtc mem_cfg delete_moves). apply some_default. vm_compute. reflexivity. }
  split; [|split]; vm_compute; reflexivity.
Qed.

(** ** Two clients that abort one upload *)

(** The world of an upload whose second part has the content of an object. *)
Definition shared_put : HttpRequest :=
  SetPathParam "object" "kept" (SetPathParam "bucket" "b" (SetBody "world" (SetMethod PUT new_request))).

Definition shared_world : StoreW := snd (ObjectHandlers_PutObject mem_cfg shared_put (parts_world [])).

Lemma shared_world_ok : store_ok mem_cfg shared_world.
Proof.
  exact (wp_PutObject mem_cfg shared_put (parts_world []) (parts_world_ok []) (fun H => False_ind _ (H eq_refl))).
Qed.

Definition aborts : Sys :=
  MkSys shared_world [AbortUpload_prog (upload_request [] ""); AbortUpload_prog (upload_request [] "")] (Done _ (Ret tt)).

Definition abort_moves : list Move :=
  [Request 0; Request 1; Request 0; Request 1] ++ replicate 4 (Request 0) ++ replicate 5 (Request 1) ++
  TakeBatch 10 :: replicate 10 Collect.

Definition abort_end : Sys := default aborts (careful_moves mem_cfg abort_moves aborts).

(** Two aborts of one upload, as a client makes when it repeats a request: both read
    the parts, and both release a reference of each; the second is answered 500, for
    the upload is gone. The count of the content of a part that an object also has
    is then 0. The collector does not remove it: it looks for references beside the
    count. The clean-up of a failed request looks at the count alone. *)
Theorem double_abort_undercounts :
  exists s o,
    store_ok mem_cfg shared_world /\ rtc (careful mem_cfg) aborts s /\
    status_of <$> sys_requests s = [204; 500] /\
    a_find 1 "kept" (abs (tables_of (sys_store s))) = Some o /\
    a_refs (abs (tables_of (sys_store s))) !! ao_cas o = Some 0 /\
    is_Some (os_file (sw_os (sys_store s)) (cas_path mem_cfg (ao_cas o))).
Proof.
  exists abort_end, (default (MkAObject "" "" 0 "" "") (a_find 1 "kept" (abs (tables_of (sys_store abort_end))))).
  split; [apply shared_world_ok|]. split.
  { apply (careful_moves_rtc mem_cfg abort_moves). apply some_default. vm_compute. reflexivity. }
  split; [vm_compute; reflexivity|]. split; [vm_compute; reflexivity|]. split; [vm_compute; reflexivity|].
  apply (bool_decide_unpack _). vm_compute. exact I.
Qed.
