(* ===== verification/Atomicity.v ===== *)
(** * A PUT writes its object whole or not at all

    What a PUT leaves behind on every outcome: an error status, an exception, a
    commit whose answer was lost. Over src/src/api/handlers/object_handlers.cpp
    with the transactions of src/src/db/meta_store.cpp below it. *)
From S2P Require Import Prelude Status Json Crypto Sql MySQLTx MetaStore Sessions MetaStoreSpec MetaStoreProps.
From S2P Require Import MemServer Uuid FileSys DataStore DataStoreSpec DataStoreProps HttpResponse.
From S2P Require Import HttpRequest HttpRouter Auth World StoreSpec Gc GcProps ObjectHandlers.
From S2P Require Import MultipartHandlers BucketHandlers StoreProps ObjectProps Durability MultipartProps.

Open Scope Z_scope.

(** The statuses of a request that was refused for what it asks. *)
Definition is_refusal (resp : HttpResponse) : bool := (400 <=? status_code_ resp) && (status_code_ resp <? 500).

Section atomic.
Context `{HC : Collation, HCal : Calendar, HS : MySQL, HP : ConnPool, HR : Redis, HX : Posix}.
Context `{HJ : JsonLib, HD : Digest} `{HL : !MySQLLaws, HLX : !PosixLaws}.
Context (cfg : StoreConfig) (bid : Z) (key : string).
Implicit Types (w : StoreW) (m : MetaW).

Abbreviation here := (row (bid, uk255 key)).

(** The row of the object is as in [w0]. *)
Definition old_row w0 w : Prop := session w /\ here w = here w0.

(** The row is that of the PUT. *)
Definition new_row (r : HttpRequest) w : Prop :=
  exists o, a_find bid key (abs (tables_of w)) = Some o /\ put_row r o.

(** An outcome of the handler: the row is the old one, or the new one, and then the
    answer is no refusal. *)
Definition put_outcome (r : HttpRequest) w0 (x : exn HttpResponse) w : Prop :=
  session w /\
  (here w = here w0 \/ (new_row r w /\ forall resp, x = Ret resp -> is_refusal resp = false)).

Lemma outcome_old r w0 x w : old_row w0 w -> put_outcome r w0 x w.
Proof. intros [H1 H2]. split; [done|by left]. Qed.

(** A step that leaves the row alone. *)
Lemma wp_old_bind {A} (op : SM A) (k : A -> SM HttpResponse) r w0 w :
  old_row w0 w -> spares_row (bid, uk255 key) op ->
  (forall a w1, old_row w0 w1 -> wp (k a) (put_outcome r w0) w1) -> wp (op ≫= k) (put_outcome r w0) w.
Proof.
  intros [H1 H2] Hop Hk. apply wp_bind. eapply wp_mono; [by apply Hop|]. intros [a|e] w1 [D1 D2].
  - apply Hk. split; [done|]. by rewrite D2.
  - apply outcome_old. split; [done|]. by rewrite D2.
Qed.

Lemma wp_old_end r w0 (op : SM HttpResponse) w :
  old_row w0 w -> spares_row (bid, uk255 key) op -> wp op (put_outcome r w0) w.
Proof.
  intros [H1 H2] Hop. eapply wp_mono; [by apply Hop|]. intros x w1 [D1 D2]. apply outcome_old. split; [done|]. by rewrite D2.
Qed.

Lemma new_row_stays r w w' : here w' = here w -> new_row r w -> new_row r w'.
Proof.
  intros E (o & F & Ho). exists o. split; [|done]. unfold row in E. unfold a_find in *. by rewrite E.
Qed.

Lemma clash_row w w' :
  here w' = here w -> no_prefix_clash bid key (abs (tables_of w)) -> no_prefix_clash bid key (abs (tables_of w')).
Proof. unfold no_prefix_clash, row. by intros ->. Qed.

(** The write itself: the old row or the new one, on every outcome. *)
Lemma wp_put_row r sb w0 w :
  old_row w0 w -> no_prefix_clash bid key (abs (tables_of w0)) -> put_stored_body r sb ->
  wp (on_meta (PutObjectWithRefCount bid key (i64_of_u64 (sb_data_size sb)) (quoted (etag_value (sb_cas_key sb)))
       (content_type_of r) (sb_cas_key sb)))
    (fun _ w' => old_row w0 w' \/ (session w' /\ new_row r w')) w.
Proof.
  intros [Ho Hrow] Hc [Hcas Hsize]. rewrite Hcas, Hsize. apply wp_on_meta_runs; [auto with minis3|].
  assert (Hc' : no_prefix_clash bid key (abs (committed (sw_meta w)))) by by apply (clash_row w0).
  eapply wp_mono; [apply put_object_refines; apply Ho|]. intros x m' [D1 D2] Hl.
  pose proof (session_later _ _ Ho D1 Hl) as Ho'.
  destruct (a_put_find bid key (put_cas r) (i64_of_u64 (put_size r)) (content_type_of r) (quoted (etag_value (put_cas r))) _ Hc')
    as [kk Hf]; [apply String.eqb_refl|].
  assert (Hnew : abs (committed m') = snd (a_put bid key (put_cas r) (i64_of_u64 (put_size r)) (content_type_of r)
    (quoted (etag_value (put_cas r))) (abs (committed (sw_meta w)))) -> session (set_meta m' w) /\ new_row r (set_meta m' w)).
  { intros E. split; [done|]. eexists. unfold tables_of. cbn [sw_meta set_meta]. rewrite E. split; [exact Hf|done]. }
  assert (Hsame : committed m' = committed (sw_meta w) -> old_row w0 (set_meta m' w)).
  { intros E. split; [done|]. rewrite <-Hrow. unfold row, tables_of. cbn. by rewrite E. }
  unfold gc_outcome in D2. destruct x as [[gc|s]|e].
  - right. apply Hnew. by rewrite <-D2.
  - destruct D2 as [D2|D2]; [left; by apply Hsame|right; by apply Hnew].
  - destruct D2 as [D2|D2]; [left; by apply Hsame|right; by apply Hnew].
Qed.

(** Steps after the write, with the answers they may give. *)
Definition answers_ok {A} (op : SM A) (good : A -> Prop) : Prop :=
  forall w, session w -> wp op (fun x w' => session w' /\ here w' = here w /\ forall a, x = Ret a -> good a) w.

Lemma answers_bind {A B} (op : SM A) (k : A -> SM B) good :
  spares_row (bid, uk255 key) op -> (forall a, answers_ok (k a) good) -> answers_ok (op ≫= k) good.
Proof.
  intros Hop Hk w Hw. apply wp_bind. eapply wp_mono; [by apply Hop|]. intros [a|e] w1 [D1 D2]; [|done].
  eapply wp_mono; [by apply Hk|]. intros x w2 (D3 & D4 & D5). split_and!; [done|by rewrite D4|done].
Qed.

Lemma answers_ret {A} (a : A) (good : A -> Prop) : good a -> answers_ok (mret a) good.
Proof. intros Hg w Hw. apply wp_ret. split_and!; [done..|]. by intros ? [= <-]. Qed.

Lemma answers_refuse code c msg t :
  (code <? 400) || (500 <=? code) = true -> answers_ok (refuse (Resp_Error code c msg t)) (fun resp => is_refusal resp = false).
Proof.
  intros Hc w Hw. pose proof (wp_refuse_row (bid, uk255 key) (Resp_Error code c msg t) w w Hw eq_refl) as [D1 D2].
  split_and!; [exact D1|exact D2|]. intros resp E. apply error_status in E as [E _]. unfold is_refusal. rewrite E.
  apply orb_true_iff in Hc as [Hc|Hc]; [apply Z.ltb_lt in Hc; apply andb_false_iff; left|apply Z.leb_le in Hc; apply andb_false_iff; right]; lia.
Qed.

Lemma wp_new_end r w0 (op : SM HttpResponse) w :
  session w -> new_row r w -> answers_ok op (fun resp => is_refusal resp = false) ->
  wp op (put_outcome r w0) w.
Proof.
  intros Ho Hn Hop. eapply wp_mono; [by apply Hop|]. intros x w1 (D1 & D2 & D3).
  split; [done|]. right. split; [by eapply new_row_stays|done].
Qed.

(** ** The handler *)

Lemma wp_put_stored_outcome r bn hash sb w0 w :
  old_row w0 w -> no_prefix_clash bid key (abs (tables_of w0)) ->
  put_stored_body r sb -> wp (put_stored cfg r bn key bid hash sb) (put_outcome r w0) w.
Proof.
  intros Hold Hc Hsb. unfold put_stored. apply wp_bind.
  eapply wp_mono; [by apply (wp_put_row r sb w0)|].
  intros [x|e] w1 [Hold1|[Ho Hnew]].
  - apply wp_old_end; [done|]. spares_tac ltac:(by apply spares_still, still_ret).
  - apply wp_new_end; [done..|]. destruct x as [gc|s].
    + apply answers_bind; [apply spares_queue|]. intros _.
      apply answers_bind; [by apply spares_still, still_lift|]. intros text.
      apply answers_bind; [spares_tac ltac:(by apply spares_still, still_ret)|]. intros _. by apply answers_ret.
    + apply answers_bind; [apply spares_cleanup_if|]. intros _. by apply answers_refuse.
  - by apply outcome_old.
  - split; [done|]. by right.
Qed.

(** The bucket, for what follows it. *)
Lemma wp_bucket_outcome r n k w :
  store_ok cfg w ->
  (forall b w1, names_bucket n b (sw_meta w) -> store_ok cfg w1 -> same_store w w1 -> old_row w w1 ->
     wp (k b) (put_outcome r w) w1) ->
  wp (with_bucket n k) (put_outcome r w) w.
Proof.
  intros Hok Hk. pose proof (so_closed _ _ Hok) as Hw. unfold with_bucket. apply wp_bind.
  eapply wp_mono; [apply (wp_both (on_meta (GetBucket n)) (fun _ w' => same_store w w')
    (fun x _ => forall info, x = Ret (Ok info) -> names_bucket n (bi_id info) (sw_meta w)))|].
  { apply (still_meta (GetBucket n)); [apply quiet_GetBucket|auto with minis3|done]. }
  { apply wp_on_meta. eapply wp_mono; [by apply wp_get_bucket|]. by intros x m' [_ Hn]. }
  intros x w1 [S Hn].
  pose proof (store_ok_same cfg _ _ S Hok) as Hok1.
  assert (Hold : old_row w w1).
  { split; [exact (store_ok_session _ _ Hok1)|]. destruct S as (_ & S2 & _). unfold row. by rewrite S2. }
  destruct x as [[info|s]|e]; [|case_match; by apply wp_old_end; [done|apply spares_refuse]|by apply outcome_old].
  apply Hk; [by apply Hn|done..].
Qed.

Lemma wp_PutObject_outcome r w :
  store_ok cfg w -> streamed cfg r w -> key = GetPathParam "object" r ->
  (forall b, names_bucket (GetPathParam "bucket" r) b (sw_meta w) -> b = bid) ->
  no_prefix_clash bid key (abs (tables_of w)) ->
  wp (ObjectHandlers_PutObject cfg r) (put_outcome r w) w.
Proof.
  intros Hok Hst Hkey Hb Hc. assert (H0 : old_row w w) by (split; [exact (store_ok_session _ _ Hok)|done]).
  unfold ObjectHandlers_PutObject, with_params. case_match; [by apply wp_old_end; [done|apply spares_refuse]|].
  apply wp_bucket_outcome; [done|]. intros b w1 ->%Hb Hok1 S1 Hold1.
  case_match; [by apply wp_old_end; [done|apply spares_refuse]|].
  apply wp_bind. eapply wp_mono; [apply wp_store_body; [done|exact (streamed_still cfg r _ _ S1 Hst)]|].
  intros x w2 (Hok2 & Hab & res & -> & Hsb).
  assert (Hold2 : old_row w w2) by (split; [exact (store_ok_session _ _ Hok2)|unfold row; rewrite Hab; apply Hold1]).
  destruct res as [sb|]; [|by apply wp_old_end; [done|apply spares_refuse]].
  destruct (Hsb sb eq_refl) as (_ & Hput). case_match.
  { apply wp_old_end; [done|]. spares_tac fail. }
  apply wp_old_bind; [done|spares_tac fail|]. intros [answer|] w3 Hold3.
  - by apply wp_old_end; [done|apply spares_refuse].
  - rewrite <-Hkey. by apply wp_put_stored_outcome.
Qed.
End atomic.

(** ** The property *)

Section property.
Context `{HC : Collation, HCal : Calendar, HS : MySQL, HP : ConnPool, HR : Redis, HX : Posix}.
Context `{HJ : JsonLib, HD : Digest} `{HL : !MySQLLaws, HLX : !PosixLaws}.
Context (cfg : StoreConfig).
Implicit Types (w : StoreW).

(** In a consistent store the content of a new row is in place. *)
Lemma new_row_holds bid key r w : store_ok cfg w -> new_row bid key r w -> holds_put cfg bid key r w.
Proof.
  intros Hok (o & F & Hput). assert (Hr : refers (abs (tables_of w)) (ao_cas o)) by (apply a_find_Some in F as [F _]; left; eauto).
  destruct (so_backed _ _ Hok _ Hr) as [Hv [d Hd]]. pose proof Hput as (Hcas & _). rewrite Hcas in *.
  exists o, d. split_and!; [done..|]. by apply (so_cas _ _ Hok).
Qed.

(** C5. A PUT is all or nothing, on every outcome: whatever it answers or throws, the
    rows of all other objects are untouched, and the object itself is either as it was
    or holds the new body, in full, in place, hashing to its key. A request that is
    refused with a 4xx left it as it was. The session of the database accepts START
    TRANSACTION (in [store_ok]); whatever any other statement, the COMMIT included, and
    the file system answer. The key shares its first 255 characters with no other object
    of the bucket (else the row overwritten is that object's), and an X-Internal-CAS-Key
    header is the server's ([streamed]). *)
Theorem put_all_or_nothing bid r w x w' :
  store_ok cfg w -> streamed cfg r w ->
  names_bucket (GetPathParam "bucket" r) bid (sw_meta w) ->
  no_prefix_clash bid (GetPathParam "object" r) (abs (tables_of w)) ->
  ObjectHandlers_PutObject cfg r w = (x, w') ->
  store_ok cfg w' /\
  (forall i, i <> (bid, uk255 (GetPathParam "object" r)) -> row i w' = row i w) /\
  (row (bid, uk255 (GetPathParam "object" r)) w' = row (bid, uk255 (GetPathParam "object" r)) w \/
   (holds_put cfg bid (GetPathParam "object" r) r w' /\ forall resp, x = Ret resp -> is_refusal resp = false)).
Proof.
  intros Hok Hst Hb Hc E.
  assert (Hone : forall b, names_bucket (GetPathParam "bucket" r) b (sw_meta w) -> b = bid)
    by (intros b Hn; exact (names_bucket_same _ _ _ _ Hn Hb)).
  pose proof (wp_run _ _ _ _ _ E (wp_PutObject cfg r w Hok Hst)) as Hok'. cbn in Hok'.
  destruct (wp_run _ _ _ _ _ E (wp_PutObject_outcome cfg bid _ r w Hok Hst eq_refl Hone Hc)) as [_ Hout].
  split; [done|]. split.
  - intros i Hi. apply (wp_run _ _ _ _ _ E (row_PutObject cfg i r w (store_ok_session _ _ Hok) ltac:(intros b ->%Hone; congruence))).
  - destruct Hout as [Hout|[Hnew Hresp]]; [by left|right]. split; [by apply new_row_holds|done].
Qed.
End property.

(** ** Witness *)

(** A second PUT of the object, of another body, with a database that fails at the
    ninth statement: answered 500, and the object is the first one. *)
Definition again_request : HttpRequest := SetBody "world" put_request.
Definition failed_run : exn HttpResponse * StoreW := ObjectHandlers_PutObject mem_cfg again_request (failing 8 put_world).
Definition failed_answer : HttpResponse := match fst failed_run with Ret resp => resp | Throw _ => new_response end.

Lemma put_all_or_nothing_witness :
  status_code_ failed_answer = 500 /\
  fmap ao_cas (row (1, uk255 "o") (snd failed_run)) = Some (@SHA256 toy_digest "hello") /\
  store_ok mem_cfg (snd failed_run) /\
  forall i, i <> (1, uk255 "o") -> row i (snd failed_run) = row i (failing 8 put_world).
Proof.
  split; [vm_compute; reflexivity|]. split; [vm_compute; reflexivity|].
  destruct (put_all_or_nothing mem_cfg 1 again_request (failing 8 put_world) (Ret failed_answer) (snd failed_run)) as (H1 & H2 & _).
  - apply failing_ok, put_world_ok.
  - intros H. by destruct H.
  - vm_compute. reflexivity.
  - intros o. vm_compute. by intros [= <-].
  - apply (pair_of_fst failed_run). vm_compute. reflexivity.
  - split; [exact H1|exact H2].
Defined.
