(* ===== verification/ServerProps.v ===== *)
(** * Properties of the server

    The streaming of a request body from the socket to the store: whatever pieces
    the body arrives in, the handlers see the request once, with the key of the
    whole body; and the ways in which this can go wrong. *)
From S2P Require Import Prelude Metrics Logging Status ByteBuffer Json Crypto Sql MySQLTx FileSys DataStore DataStoreSpec World.
From S2P Require Import TimerWheel EventLoop HttpResponse HttpRequest HttpParser HttpRouter.
From S2P Require Import HttpConnection ConnProps ConnReads Server.
From S2P Require Import MemServer DataStoreProps StoreSpec StoreProps.

Open Scope Z_scope.

Section server_props.
Context `{HCo : Collation, HCa : Calendar, HMy : MySQL, HCp : ConnPool, HRe : Redis, HP : Posix}.
Context `{HJ : JsonLib, HD : Digest, HHo : HeaderOrder}.
Context `{HL : !PosixLaws} (cfg : ServerConfig) (router : HttpRouter StoreW).
Implicit Types (c : HttpConnection) (w : ServerW) (s : os).

Abbreviation os_of w := (sw_os (sv_store w)).

(** ** What the operations leave alone *)

(** The loop and the tables of connections. *)
Definition same_server w w' : Prop :=
  sv_loop w' = sv_loop w /\ sv_connections w' = sv_connections w /\ sv_conns w' = sv_conns w.

(** The connection stays open, under its name. *)
Definition same_conn c c' : Prop :=
  conn_id_ c' = conn_id_ c /\ sockfd_ c' = sockfd_ c /\ (state_ c <> CLOSED -> state_ c' <> CLOSED).

Lemma same_server_trans w1 w2 w3 : same_server w1 w2 -> same_server w2 w3 -> same_server w1 w3.
Proof. unfold same_server. intuition congruence. Qed.

Lemma same_conn_trans c1 c2 c3 : same_conn c1 c2 -> same_conn c2 c3 -> same_conn c1 c3.
Proof. unfold same_conn. intuition congruence. Qed.

Definition stays c w (cw : HttpConnection * ServerW) : Prop := same_conn c (fst cw) /\ same_server w (snd cw).

Lemma stays_trans c w c1 w1 cw : stays c w (c1, w1) -> stays c1 w1 cw -> stays c w cw.
Proof. intros [? ?] [? ?]. split; [by eapply same_conn_trans|by eapply same_server_trans]. Qed.

Lemma wp_store {A B} (m : SM A) (k : A -> CM ServerW B) (Q : exn B -> HttpConnection * ServerW -> Prop) c w :
  wp m (fun r st => match r with Ret a => wp (k a) Q (c, set_store st w) | Throw e => Q (Throw e) (c, set_store st w) end)
    (sv_store w) ->
  wp (on_world (on_store m) ≫= k) Q (c, w).
Proof.
  intros Hm. apply wp_world. unfold wp in *. unfold on_store. destruct (m (sv_store w)) as [r st]. exact Hm.
Qed.

(** The access log changes nothing but the log, and may throw. *)
Lemma wp_log {B} req resp (k : unit -> CM ServerW B) (Q : exn B -> HttpConnection * ServerW -> Prop) c w :
  (forall g, wp (k tt) Q (c, set_sv_log g w)) -> (forall e g, Q (Throw e) (c, set_sv_log g w)) ->
  wp (on_world (on_log (Logging_AccessLog req resp)) ≫= k) Q (c, w).
Proof.
  intros Hk He. apply wp_world. unfold wp, on_log. destruct (Logging_AccessLog req resp (sv_log w)) as [[[]|e] g]; [apply Hk|apply He].
Qed.

Lemma wp_Send_stays resp c w : wp (Send resp) (fun _ cw => stays c w cw) (c, w).
Proof.
  apply wp_get. case_bool_decide; [by apply wp_ret|]. apply wp_bind, wp_mod_last.
  assert (Hst : forall st c1 w1, st <> CLOSED -> stays c w (c1, w1) -> wp (start_writing st) (fun _ cw => stays c w cw) (c1, w1)).
  { intros st c1 w1 Hs Hc. apply wp_mod_last. eapply stays_trans; [done|]. by split. }
  destruct (HasFile resp); [|by apply Hst].
  apply wp_world. unfold wp at 1, open_file, server_files. destruct (sys_open_read _ (os_of w)) as [r s'].
  destruct r; cbn; [by apply wp_mod, Hst| |]; case_bool_decide; apply wp_mod, wp_bind;
    (match goal with |- wp (lift_exn ?e) _ _ => destruct e end); apply wp_lift; try done;
    apply wp_bind, wp_mod_last; by apply Hst.
Qed.

Lemma wp_take_upload {B} fd (k : UploadContext -> CM ServerW B) Q c w :
  wp (k (default new_upload (sv_uploads w !! fd))) Q (c, set_sv_uploads (delete fd (sv_uploads w)) w) ->
  wp (on_world (take_upload fd) ≫= k) Q (c, w).
Proof. done. Qed.

Lemma any_store c w st : stays c w (c, set_store st w).
Proof. done. Qed.

Lemma wp_commit_stays c w : wp (commit_upload cfg) (fun _ cw => stays c w cw) (c, w).
Proof.
  apply wp_get, wp_take_upload. destruct (default new_upload _) as [[ws|] sha n stream]; cbn; [|by apply wp_ret].
  destruct stream.
  - apply wp_store. unfold wp at 1. destruct (on_os _ _) as [[res|e] st]; cbn; [|done].
    destruct res as [key|err]; cbn; [by apply wp_mod, wp_ret|].
    apply wp_get, wp_bind, wp_lift. by destruct (Resp_BadRequest _ _).
  - apply wp_store. unfold wp at 1. destruct (on_os _ _) as [[[]|e] st]; cbn; [by apply wp_ret|done].
Qed.

(** The request callback never touches the loop nor the tables. *)
Lemma wp_OnRequest_stays c w : wp (OnRequest cfg router) (fun _ cw => stays c w cw) (c, w).
Proof.
  apply wp_bind. eapply wp_mono; [apply wp_commit_stays|]. intros [refused|e] [c1 w1] Hs; [|done].
  destruct refused as [resp|].
  - eapply wp_mono; [apply wp_Send_stays|]. intros r cw Hs'. by eapply stays_trans.
  - apply wp_get, wp_store. unfold wp at 1. destruct (Handle _ _ _) as [[[req resp]|e] st]; cbn; [|done].
    apply wp_mod, wp_log; [intros g|by intros].
    eapply wp_mono; [apply wp_Send_stays|]. intros r cw Hs'. apply (stays_trans _ _ c1 w1); [done|].
    by apply (stays_trans _ _ (set_conn_request req c1) (set_sv_log g (set_store st w1))).
Qed.

(** ** A streamed upload *)

Lemma wp_skip {V A B} (m : M V A) (k : A -> M V B) (Q : exn B -> V -> Prop) v :
  (forall a v', wp (k a) Q v') -> (forall e v', Q (Throw e) v') -> wp (m ≫= k) Q v.
Proof. intros Hk He. apply wp_bind. unfold wp at 1. destruct (m v) as [[a|e] v']; [apply Hk|apply He]. Qed.

(** A commit that succeeds has compared the digest the client announced. *)
Lemma wp_commit_checks ws expected s :
  wp (CommitWrite (storage_ cfg) ws expected)
    (fun r _ => forall k, r = Ret (Ok k) -> expected = "" \/ expected = Final (ws_sha256_ctx ws)) s.
Proof.
  unfold CommitWrite. apply wp_bind. destruct (ws_finished ws) eqn:Ef.
  { unfold Finish. rewrite Ef. apply wp_ret. by apply wp_ret. }
  eapply wp_mono; [by apply wp_finish|]. intros r s1 [_ ->]. case_match eqn:E.
  - apply wp_skip; [|done]. intros st s2. by apply wp_ret.
  - unfold wp. intros k _. destruct (str_empty expected) eqn:Ee.
    + left. by apply str_empty_spec in Ee.
    + right. cbn in E. destruct (String.eqb_spec (Final (ws_sha256_ctx ws)) expected); [done|discriminate].
Qed.

Context (c0 : HttpConnection) (q : HttpParser) (body : list ascii) (st0 : StoreW).

(** The descriptor's upload after the bytes [recv]: a session whose file and hash
    context hold them. *)
Definition session_holds (recv : list ascii) (sha : string) (o : option UploadContext) s : Prop :=
  if decide (recv = []) then o = None
  else exists ws, o = Some (MkUpload (Some ws) sha (zlen recv) true) /\ ws_finished ws = false /\
    is_temp (storage_ cfg) (ws_tmp_path ws) /\ ws_sha256_ctx ws = recv /\ os_file s (ws_tmp_path ws) = Some recv.

(** The rest of the server during the upload. *)
Record steady w : Prop := MkSteady {
  st_store : exists s, sv_store w = set_os s st0 /\ same_cas (storage_ cfg) (sw_os st0) s;
  st_pending : pending_functors_ (sv_loop w) = [];
  st_live : conn_id_ c0 ∈ sv_connections w
}.

Definition uploading (recv : list ascii) (r : HttpRequest) w : Prop :=
  r = request_ q /\ steady w /\
  session_holds recv (GetHeader "X-Content-SHA256" r) (sv_uploads w !! sockfd_ c0) (os_of w).

(** The upload is given up: the close of the connection is queued. *)
Definition given_up (x : exn unit) (cw : HttpConnection * ServerW) : Prop :=
  (exists e, x = Throw e) \/
  (conn_id_ (fst cw) = conn_id_ c0 /\ sockfd_ (fst cw) = sockfd_ c0 /\ state_ (fst cw) <> CLOSED /\
   pending_functors_ (sv_loop (snd cw)) = [CloseTask (conn_id_ c0)] /\ conn_id_ c0 ∈ sv_connections (snd cw)).

Lemma wp_give_up resp c w :
  conn_id_ c = conn_id_ c0 -> sockfd_ c = sockfd_ c0 -> state_ c <> CLOSED ->
  pending_functors_ (sv_loop w) = [] -> conn_id_ c0 ∈ sv_connections w ->
  wp (r ← lift_exn resp; _ ← Send r; ForceClose) given_up (c, w).
Proof.
  intros H1 H2 H3 H4 H5. apply wp_bind, wp_lift. destruct resp as [resp|e]; [|left; by eexists].
  apply wp_bind. eapply wp_mono; [apply wp_Send_stays|]. intros [[]|e] [c1 w1] [(E1 & E2 & E3) (E4 & E5 & _)]; [|left; by eexists].
  apply wp_get. unfold wp, needs_wakeup. cbn in *. right. cbn. rewrite E4, E5, E1. split_and!; [congruence|congruence|auto| |done].
  unfold push_functor. rewrite H1, H4. by destruct (calling_pending_functors_ _).
Qed.

Lemma steady_files w s :
  steady w -> same_cas (storage_ cfg) (os_of w) s -> steady (set_store (set_os s (sv_store w)) w).
Proof.
  intros [(s0 & E & S0) H2 H3] S. split; [|done|done]. rewrite E in S |- *. exists s. split; [done|].
  eapply same_cas_trans; [exact S0|exact S].
Qed.

Lemma steady_uploads w u : steady w -> steady (set_sv_uploads u w).
Proof. by intros [H1 H2 H3]. Qed.

Definition open_conn c : Prop :=
  conn_id_ c = conn_id_ c0 /\ sockfd_ c = sockfd_ c0 /\ state_ c <> CLOSED.

Lemma wp_write_chunk recv d ws sha c w :
  open_conn c -> steady w -> ws_finished ws = false -> is_temp (storage_ cfg) (ws_tmp_path ws) ->
  ws_sha256_ctx ws = recv -> os_file (os_of w) (ws_tmp_path ws) = Some recv -> d <> [] -> zlen recv + zlen d < two64 ->
  wp (write_chunk (sockfd_ c0) (MkUpload (Some ws) sha (zlen recv) true) d)
    (fun x cw => (x = Ret tt /\ fst cw = c /\ steady (snd cw) /\
      session_holds (recv ++ d) sha (sv_uploads (snd cw) !! sockfd_ c0) (os_of (snd cw))) \/ given_up x cw) (c, w).
Proof.
  intros (C1 & C2 & C3) Hst Hf Ht <- Hc Hd Hz. unfold write_chunk. cbn [uc_session uc_bytes_written uc_expected_sha256 uc_streaming].
  apply wp_store, wp_on_os. eapply wp_mono; [by apply wp_session_write|].
  intros r s' (Hs & st & ws' & -> & Hok). cbn [set_os]. apply (same_but_cas (storage_ cfg)) in Hs; [|done].
  pose proof (steady_files _ _ Hst Hs) as Hst'. destruct (status_ok st).
  - destruct (Hok eq_refl) as (E1 & E2 & E3 & E4). unfold wp. cbn. left. split_and!; [done|done|by apply steady_uploads|].
    unfold session_holds. rewrite decide_False by (intros [_ ?]%app_nil; done). exists ws'. rewrite E1, E2, E3, lookup_insert_eq, zlen_app.
    split_and!; [|done..]. by rewrite u64_small by (unfold zlen in *; lia).
  - apply wp_world. unfold wp at 1. cbn. apply wp_get. eapply wp_mono; [apply wp_give_up; try done; apply Hst'|].
    intros x cw Hg. by right.
Qed.

(** The server keeps the promise on body data. *)
Lemma wp_OnBodyData recv d c w :
  ShouldStreamUpload (request_ q) = true -> Request c = request_ q -> zlen body < two64 -> open_conn c ->
  uploading recv (request_ q) w -> d <> [] -> recv ++ d `prefix_of` body ->
  wp (OnBodyData cfg d) (fun x cw => (x = Ret tt /\ fst cw = c /\ uploading (recv ++ d) (request_ q) (snd cw)) \/ given_up x cw) (c, w).
Proof.
  intros Hput Hr Hbody Hc (_ & Hst & Hses) Hd Hp%prefix_length. apply wp_get. rewrite Hr, Hput. cbn [negb].
  rewrite length_app in Hp. assert (Hz : zlen recv + zlen d < two64) by (unfold zlen in *; lia).
  assert (Hsock : sockfd_ c = sockfd_ c0) by apply Hc. rewrite Hsock. apply wp_world. unfold wp at 1. cbn [fst snd].
  assert (Hup : forall x cw, (x = Ret tt /\ fst cw = c /\ steady (snd cw) /\
      session_holds (recv ++ d) (GetHeader "X-Content-SHA256" (request_ q)) (sv_uploads (snd cw) !! sockfd_ c0) (os_of (snd cw))) \/ given_up x cw ->
      (x = Ret tt /\ fst cw = c /\ uploading (recv ++ d) (request_ q) (snd cw)) \/ given_up x cw).
  { intros x cw [(H1 & H2 & H3 & H4)|Hg]; [left|by right]. by split_and!. }
  unfold session_holds in Hses. destruct (decide (recv = [])) as [->|Hne].
  - rewrite Hses. cbn [default new_upload uc_streaming uc_session uc_bytes_written]. apply wp_store, wp_on_os.
    apply wp_bind. eapply wp_mono; [apply wp_create_temp|]. intros r s1 [S1 (res & -> & Hres)]. apply wp_ret.
    pose proof (steady_files _ _ Hst S1) as Hst1. destruct res as [tmp|e]; cbn [fmap].
    + destruct Hres as (Ht & Hf & _). eapply wp_mono; [|exact Hup].
      apply (wp_write_chunk [] d (new_session tmp)); done.
    + apply wp_world. unfold wp at 1. cbn. destruct Hc as (C1 & C2 & C3).
      eapply wp_mono; [apply wp_give_up; try done; apply Hst1|]. intros x cw Hg. by right.
  - destruct Hses as (ws & -> & E1 & E2 & E3 & E4). cbn [default uc_streaming].
    eapply wp_mono; [|exact Hup]. by apply wp_write_chunk.
Qed.

(** ** The request of a streamed upload *)

(** The request as the callback gets it, and as the router does. *)
Definition client_request : HttpRequest := SetClientIp (peer_addr_ c0) (request_ q).

Definition stored_request (key : string) : HttpRequest :=
  HttpRequest.SetHeader "X-Internal-Size" (to_string (zlen body))
    (HttpRequest.SetHeader "X-Internal-CAS-Key" key client_request).

(** The whole body is stored under its digest, which is the announced one if one
    was announced, and the handlers answer the request that names it and leave [r]
    of it; or the storing is refused and nothing else happens. *)
Definition answered (resp : HttpResponse) (r : HttpRequest) (st : StoreW) : Prop :=
  exists s res, stored (storage_ cfg) (Final body) body (sw_os st0) (Ret res) s /\
  match res with
  | Ok key =>
      (GetHeader "X-Content-SHA256" (request_ q) = "" \/ GetHeader "X-Content-SHA256" (request_ q) = Final body) /\
      Handle router (stored_request key) (set_os s st0) = (Ret (r, resp), st)
  | Err e => r = client_request /\ Resp_BadRequest (message_ e) (trace_id_ r) = Ret resp /\ st = set_os s st0
  end.

(** The store the handlers get is consistent and has the content the request
    names: what [store_consistent] asks of the requests it is about. *)
Lemma answered_streamed resp r st :
  store_ok (storage_ cfg) st0 -> answered resp r st ->
  exists s, store_ok (storage_ cfg) (set_os s st0) /\
    ((exists key, streamed (storage_ cfg) (stored_request key) (set_os s st0) /\
        Handle router (stored_request key) (set_os s st0) = (Ret (r, resp), st)) \/ st = set_os s st0).
Proof.
  intros Hst (s & res & Hs & Hres). exists s.
  destruct (stored_ok _ body st0 _ s Hst Hs) as [Hok' (res' & [= <-] & Hk)]. split; [done|].
  destruct res as [key|e]; [left|right; apply Hres]. destruct Hres as [_ Hh]. exists key. split; [|done].
  intros _. destruct (Hk key eq_refl) as (_ & Hin & _).
  assert (E : GetHeader "X-Internal-CAS-Key" (stored_request key) = key).
  { unfold GetHeader, stored_request. cbn -[to_lower]. rewrite lookup_insert_ne by done. by rewrite lookup_insert_eq. }
  by rewrite E.
Qed.

(** The connection [c1] about to send the answer. *)
Record answering (resp : HttpResponse) c1 (w1 : ServerW) : Prop := MkAnswering {
  aw_answered : answered resp (Request c1) (sv_store w1);
  aw_open : open_conn c1;
  aw_output : output_buffer_ c1 = output_buffer_ c0 /\ wire_ c1 = wire_ c0;
  aw_input : contents (input_buffer_ c1) = [];
  aw_upload : sv_uploads w1 !! sockfd_ c0 = None;
  aw_pending : pending_functors_ (sv_loop w1) = [];
  aw_live : conn_id_ c0 ∈ sv_connections w1
}.

(** The answer is on its way. *)
Definition sent (x : exn unit) (cw : HttpConnection * ServerW) : Prop :=
  (exists e, x = Throw e) \/
  (x = Ret tt /\ exists resp c1 w1, answering resp c1 w1 /\ Send resp (c1, w1) = (Ret tt, cw)).

Lemma wp_send_answer resp c1 w1 : answering resp c1 w1 -> wp (Send resp) sent (c1, w1).
Proof.
  intros Ha. unfold wp. destruct (Send resp (c1, w1)) as [[[]|e] cw] eqn:E; [|left; by eexists].
  right. split; [done|]. by exists resp, c1, w1.
Qed.

Lemma wp_OnRequest p b w :
  uploading body (request_ q) w -> body <> [] -> cas_ok (storage_ cfg) (sw_os st0) -> contents b = [] ->
  request_ p = client_request ->
  wp (OnRequest cfg router) sent (conn_at c0 READING_BODY_STREAM p b, w).
Proof.
  intros (_ & Hst & Hses) Hne Hok Hb Hp. set (c := conn_at c0 READING_BODY_STREAM p b).
  unfold session_holds in Hses. rewrite decide_False in Hses by done. destruct Hses as (ws & Hws & E1 & E2 & E3 & E4).
  destruct Hst as [(s0 & Hs0 & Hsame) Hpend Hlive].
  assert (Hbase : forall st r, answered r (Request c) st -> answering r c (set_store st (set_sv_uploads (delete (sockfd_ c0) (sv_uploads w)) w))).
  { intros st r Ha. split; try done; cbn; apply lookup_delete_eq. }
  apply wp_bind. unfold commit_upload. apply wp_get, wp_take_upload. change (sockfd_ c) with (sockfd_ c0).
  rewrite Hws. cbn [default uc_session uc_streaming uc_expected_sha256 uc_bytes_written]. apply wp_store, wp_on_os.
  assert (Hos : sw_os (sv_store w) = s0) by by rewrite Hs0.
  assert (Hok0 : cas_ok (storage_ cfg) (os_of w)) by (rewrite Hos; by eapply same_cas_ok).
  eapply wp_mono; [apply wp_both; [apply wp_commit_write; [done|done|exact Hok0|by rewrite E3]|apply wp_commit_checks]|].
  rewrite E3. intros r s1 [Hstored Hcheck]. cbn [set_sv_uploads sv_store] in Hstored. rewrite Hos in Hstored.
  apply (stored_after _ _ _ _ _ _ _ Hsame (final_valid body)) in Hstored.
  destruct (Hstored) as (_ & _ & res & -> & _). cbn [set_sv_uploads sv_store]. rewrite Hs0. cbn [set_os].
  destruct res as [key|e].
  - apply wp_mod, wp_ret, wp_get, wp_store. unfold wp at 1. cbn [set_store sv_store].
    match goal with |- context [Request ?c] => assert (Hrq : Request c = stored_request key) end.
    { unfold stored_request. rewrite <-Hp. done. }
    rewrite Hrq. destruct (Handle router (stored_request key) _) as [[[req resp]|e] st] eqn:E; [|left; by eexists]. cbn [fst snd].
    apply wp_mod, wp_log; [intros g|intros e g; left; by eexists].
    apply wp_send_answer. split; try done; [|apply lookup_delete_eq].
    exists s1, (Ok key). split; [done|]. split; [by eapply Hcheck|]. exact E.
  - apply wp_get, wp_bind, wp_lift. destruct (Resp_BadRequest _ _) as [resp|e'] eqn:E; [|left; by eexists].
    apply wp_ret, wp_send_answer. apply Hbase. exists s1, (Err e). change (Request c) with (request_ p). rewrite Hp.
    split_and!; try done. rewrite <-Hp. exact E.
Qed.

(** ** Rounds of the loop *)

Lemma uploading_client (Hput : ShouldStreamUpload (request_ q) = true) (Hz : zlen body < two64) (Hne : body <> [])
    (Hok : cas_ok (storage_ cfg) (sw_os st0)) :
  BodyClient c0 body (callbacks cfg router) uploading given_up sent.
Proof.
  split.
  - intros recv r w t (-> & [H1 H2 H3] & H4). by split_and!.
  - intros recv d r w p b Hu Hd Hp Hr. assert (Er : r = request_ q) by apply Hu. subst r.
    eapply wp_mono; [apply (wp_OnBodyData recv d); try done; by rewrite <-Er|].
    intros x cw [(-> & Hc & Hu')|Hg]; [left|by right]. split; [done|]. exists (request_ q).
    split; [|done]. rewrite Hc, <-Er. by destruct p.
  - intros r w p b Hu Hwf Hb Hp. assert (Er : r = request_ q) by apply Hu. subst r. by apply wp_OnRequest.
  - intros c w [[e He]|(E1 & E2 & E3 & E4 & E5)]; [done|]. eapply wp_mono; [apply wp_OnRequest_stays|].
    intros x [c' w'] [(F1 & F2 & F3) (F4 & F5 & _)]. cbn [fst snd] in *. right. cbn [fst snd].
    rewrite F1, F2, F4, F5. split_and!; auto.
  - intros p c w [[e He]|Hg]; [done|]. right. exact Hg.
  - intros b c w [[e He]|Hg]; [done|]. right. exact Hg.
Qed.

Lemma uploading_loop recv r l w :
  uploading recv r w -> pending_functors_ l = [] -> uploading recv r (set_sv_loop l w).
Proof. intros (-> & [H1 H2 H3] & H4) Hl. by split_and!. Qed.

Lemma uploading_conns recv r cs n w :
  uploading recv r w -> uploading recv r (set_conns (sv_connections w) cs n w).
Proof. intros (-> & [H1 H2 H3] & H4). by split_and!. Qed.

Definition arrival (id : nat) (d : list ascii) : server_event :=
  Ready id EPOLLIN (MkIo (ReadOk d) (WriteErr EAGAIN) (WriteErr EAGAIN)).

(** The pieces [ds] arrive on the connection, one in each round of the loop. *)
Fixpoint receive (id : nat) (ds : list (list ascii)) : M ServerW unit :=
  match ds with
  | [] => mret tt
  | d :: ds => _ ← loop_round cfg router [arrival id d]; receive id ds
  end.

(** The connection object is destroyed. *)
Definition gone w : Prop :=
  sv_conns w !! conn_id_ c0 = None /\ pending_functors_ (sv_loop w) = [].

(** The answer has been handed to [Send], and that is the state of the server. *)
Definition on_its_way w : Prop :=
  exists resp c1 w1 c2 w2, answering resp c1 w1 /\ Send resp (c1, w1) = (Ret tt, (c2, w2)) /\
    sv_conns w !! conn_id_ c0 = Some c2 /\ sv_store w = sv_store w2.

Lemma wp_on_connection id op c w (Q : exn unit -> ServerW -> Prop) :
  sv_conns w !! id = Some c ->
  wp op (fun r cw =>
    (id ∈ sv_connections (snd cw) ->
      Q r (set_conns (sv_connections (snd cw)) (<[id := fst cw]> (sv_conns (snd cw))) (sv_next (snd cw)) (snd cw))) /\
    (id ∉ (sv_connections (snd cw)) ->
      Q r (set_conns (sv_connections (snd cw)) (delete id (sv_conns (snd cw))) (sv_next (snd cw)) (snd cw)))) (c, w) ->
  wp (on_connection id op) Q w.
Proof.
  intros Hc Hop. unfold wp, on_connection in *. rewrite Hc. destruct (op (c, w)) as [r [c' w']]. cbn [fst snd] in *.
  destruct Hop as [H1 H2]. case_decide; auto.
Qed.

Lemma wp_read_event cb i (Q : exn unit -> HttpConnection * ServerW -> Prop) cw :
  wp (HandleRead cb i) Q cw -> wp (HandleEvent cb EPOLLIN i) Q cw.
Proof.
  intros Hr. change (wp (HandleRead cb i ≫= fun _ => mret tt) Q cw). apply wp_bind.
  eapply wp_mono; [exact Hr|]. by intros [[]|e] cw' HQ.
Qed.

Lemma wp_no_pending (run : LoopTask -> M ServerW unit) (Q : exn unit -> ServerW -> Prop) w :
  pending_functors_ (sv_loop w) = [] ->
  (forall l, pending_functors_ l = [] -> Q (Ret tt) (set_sv_loop l w)) -> wp (DoPendingFunctors run) Q w.
Proof.
  intros Hp HQ. unfold DoPendingFunctors. apply wp_bind. unfold wp at 1, on_loop, take_functors. cbn [fst snd loop_of server_loop].
  rewrite Hp. cbn [run_all]. apply wp_bind, wp_ret. unfold wp. cbn. by apply HQ.
Qed.

(** The close of an open connection takes it out of the table. *)
Lemma wp_HandleClose_leaves c w :
  conn_id_ c = conn_id_ c0 -> state_ c <> CLOSED ->
  wp (HandleClose (callbacks cfg router)) (fun x cw => (exists e, x = Throw e) \/
    (x = Ret tt /\ (conn_id_ c0 ∉ sv_connections (snd cw)) /\
     pending_functors_ (sv_loop (snd cw)) = pending_functors_ (sv_loop w))) (c, w).
Proof.
  intros Hid Hs. apply wp_get. rewrite bool_decide_false by done. apply wp_mod.
  assert (Hclose : forall c1 w1, conn_id_ c1 = conn_id_ c0 -> pending_functors_ (sv_loop w1) = pending_functors_ (sv_loop w) ->
    wp (mod_conn (fun c => set_events (DisableAll (events_ c)) c) ≫= fun _ => OnConnectionClose) (fun x cw => (exists e, x = Throw e) \/
      (x = Ret tt /\ (conn_id_ c0 ∉ sv_connections (snd cw)) /\
       pending_functors_ (sv_loop (snd cw)) = pending_functors_ (sv_loop w))) (c1, w1)).
  { intros c1 w1 Hc1 Hw1. apply wp_mod, wp_get. unfold wp, on_world. cbn [fst snd]. cbn. rewrite Hc1.
    destruct (sv_uploads w1 !! sockfd_ c1) as [ctx|]; [|right; cbn; split_and!; [done|set_solver|done]].
    unfold on_store. cbn. destruct (drop_upload ctx (sv_store w1)) as [[[]|e] st]; cbn; [|left; by eexists].
    right. split_and!; [done|set_solver|done]. }
  destruct (_ =? 0); [by apply Hclose|]. apply wp_bind, wp_world. unfold wp at 1. cbn. by apply Hclose.
Qed.

Context (p0 : HttpParser) (head : list ascii) (Han : announced c0 p0 q head body).
Context (Hput : ShouldStreamUpload (request_ q) = true) (Hok : cas_ok (storage_ cfg) (sw_os st0)).

#[local] Instance client : BodyClient c0 body (callbacks cfg router) uploading given_up sent.
Proof. apply uploading_client; [done|apply (an_word _ _ _ _ _ Han)|apply (an_body _ _ _ _ _ Han)|done]. Qed.

Definition waiting (so_far : list ascii) w : Prop :=
  exists c, sv_conns w !! conn_id_ c0 = Some c /\ receiving c0 p0 q head body uploading so_far (c, w).

(** The outcome of the events of a round, before the queued tasks run. *)
Definition mid_round (so_far : list ascii) (x : exn unit) w : Prop :=
  (exists e, x = Throw e) \/ (x = Ret tt /\
    (waiting so_far w \/
     (exists c, sv_conns w !! conn_id_ c0 = Some c /\ conn_id_ c = conn_id_ c0 /\ state_ c <> CLOSED /\
        pending_functors_ (sv_loop w) = [CloseTask (conn_id_ c0)]) \/
     (so_far = head ++ body /\ on_its_way w /\ pending_functors_ (sv_loop w) = []))).

Definition after_round (so_far : list ascii) (x : exn unit) w : Prop :=
  (exists e, x = Throw e) \/ (x = Ret tt /\ (waiting so_far w \/ gone w \/ (so_far = head ++ body /\ on_its_way w))).

Lemma wp_arrival so_far d w :
  waiting so_far w -> d <> [] -> zlen d <= kExtraBuf -> so_far ++ d `prefix_of` head ++ body ->
  wp (handle_event cfg router (arrival (conn_id_ c0) d)) (mid_round (so_far ++ d)) w.
Proof.
  intros (c & Hc & Hrc) Hd Hz Hp. apply (wp_on_connection _ _ c); [done|]. apply wp_read_event.
  eapply wp_mono; [by apply (wp_HandleRead c0 p0 q head body (callbacks cfg router) uploading given_up sent Han)|].
  intros x [c' w'] [[-> Hrc']|[[Hall [[e ->]|[-> (resp & c1 & w1 & Ha & Hs)]]]|[[e ->]|(F1 & F2 & F3 & F4 & F5)]]];
    cbn [fst snd] in *; try (split; intros _; left; by eexists).
  - destruct (receiving_client _ _ _ _ _ _ _ _ _ Hrc') as (recv & r & _ & [_ _ Hlive] & _).
    split; [intros _|intros Hn; destruct (Hn Hlive)]. right. split; [done|]. left. exists c'. split; [apply lookup_insert_eq|].
    eapply receiving_world; [exact Hrc'|]. intros recv' r'. apply uploading_conns.
  - pose proof (wp_Send_stays resp c1 w1) as Hst. unfold wp in Hst. rewrite Hs in Hst.
    destruct Hst as [_ (S1 & S2 & _)]. cbn [fst snd] in *. pose proof (aw_live _ _ _ Ha) as Hlive. pose proof (aw_pending _ _ _ Ha) as Hpend.
    rewrite <-S2 in Hlive. split; [intros _|intros Hn; destruct (Hn Hlive)]. right. split; [done|]. right; right. split_and!; [done| |by cbn; rewrite S1].
    exists resp, c1, w1, c', w'. split_and!; [done|done|apply lookup_insert_eq|done].
  - destruct x as [[]|e]; [|split; intros _; left; by eexists].
    split; [intros _|intros Hn; destruct (Hn F5)]. right. split; [done|]. right; left. exists c'. split_and!; [apply lookup_insert_eq|done..].
Qed.

(** The queued close runs. *)
Lemma wp_close_queued c w :
  sv_conns w !! conn_id_ c0 = Some c -> conn_id_ c = conn_id_ c0 -> state_ c <> CLOSED ->
  pending_functors_ (sv_loop w) = [CloseTask (conn_id_ c0)] ->
  wp (DoPendingFunctors (run_task cfg router)) (fun x w' => (exists e, x = Throw e) \/ (x = Ret tt /\ gone w')) w.
Proof.
  intros Hc Hid Hs Hp. unfold DoPendingFunctors. apply wp_bind. unfold wp at 1, on_loop, take_functors. cbn [fst snd loop_of server_loop].
  rewrite Hp. cbn [run_all run_task]. apply wp_bind, wp_bind, (wp_on_connection _ _ c); [done|].
  eapply wp_mono; [by apply wp_HandleClose_leaves|]. intros x [c' w'] [[e ->]|(-> & Hn & Hp')].
  { split; intros _; left; by eexists. }
  split; [done|intros _]. apply wp_ret. unfold wp. cbn in *. right. split; [done|]. split; [apply lookup_delete_eq|exact Hp'].
Qed.

Lemma waiting_pending so_far w : waiting so_far w -> pending_functors_ (sv_loop w) = [].
Proof. by intros (c & _ & (recv & r & _ & [_ Hp _] & _)%receiving_client). Qed.

Lemma wp_round so_far d w :
  waiting so_far w -> d <> [] -> zlen d <= kExtraBuf -> so_far ++ d `prefix_of` head ++ body ->
  wp (loop_round cfg router [arrival (conn_id_ c0) d]) (after_round (so_far ++ d)) w.
Proof.
  intros Hw Hd Hz Hp. unfold loop_round. cbn [handle_events]. apply wp_bind, wp_bind.
  eapply wp_mono; [by apply wp_arrival|]. intros x w1 [[e ->]|[-> Hmid]]; [left; by eexists|]. apply wp_ret.
  destruct Hmid as [Hw1|[(c & Hc & Hid & Hs & Hpend)|(Hall & Hway & Hpend)]].
  - apply wp_no_pending; [by eapply waiting_pending|]. intros l Hl. right. split; [done|]. left.
    destruct Hw1 as (c & Hc & Hrc). exists c. split; [done|]. eapply receiving_world; [exact Hrc|].
    intros recv r Hu. by apply uploading_loop.
  - eapply wp_mono; [by eapply wp_close_queued|]. intros x w2 [He|[-> Hg]]; [by left|]. right; auto.
  - apply wp_no_pending; [done|]. intros l Hl. right. split; [done|]. right; right. split; [done|].
    destruct Hway as (resp & c1 & w0 & c2 & w2 & Ha & Hs & Hc & Hst). by exists resp, c1, w0, c2, w2.
Qed.

Lemma wp_gone ds w : gone w -> wp (receive (conn_id_ c0) ds) (fun x w' => x = Ret tt /\ gone w') w.
Proof.
  revert w. induction ds as [|d ds IH]; intros w [Hc Hp]; [by apply wp_ret|]. cbn [receive].
  apply wp_bind. unfold loop_round. cbn [handle_events handle_event arrival]. apply wp_bind, wp_bind.
  unfold wp at 1, on_connection. rewrite Hc. cbn [fst snd]. apply wp_ret, wp_no_pending; [done|].
  intros l Hl. by apply IH.
Qed.

(** The outcome of a whole upload. *)
Definition upload_outcome (x : exn unit) w : Prop :=
  (exists e, x = Throw e) \/ (x = Ret tt /\ (sv_conns w !! conn_id_ c0 = None \/ on_its_way w)).

Lemma waiting_incomplete w : ~ waiting (head ++ body) w.
Proof.
  intros (c & _ & [[_ (k & Hk & E)]|(recv & E & Hne & _)]).
  - apply (f_equal length) in E. rewrite !length_app in E. destruct k; [done|cbn in E; lia].
  - apply Hne. by apply app_inv_head in E.
Qed.

Lemma wp_receive ds so_far w :
  waiting so_far w -> Forall (fun d => d <> [] /\ zlen d <= kExtraBuf) ds -> so_far ++ concat ds = head ++ body ->
  wp (receive (conn_id_ c0) ds) upload_outcome w.
Proof.
  intros Hw Hds. revert so_far w Hw. induction Hds as [|d ds [Hd Hz] Hds IH]; intros so_far w Hw E.
  { rewrite app_nil_r in E. subst so_far. by apply waiting_incomplete in Hw. }
  cbn [concat] in E. cbn [receive]. apply wp_bind.
  eapply wp_mono; [apply (wp_round so_far d); try done; exists (concat ds); by rewrite <-app_assoc|].
  intros x w1 [[e ->]|[-> [Hw1|[Hg|[Hall Hway]]]]].
  - left. by eexists.
  - apply (IH _ _ Hw1). by rewrite <-app_assoc.
  - eapply wp_mono; [by apply wp_gone|]. intros x w2 [-> [Hc _]]. right. auto.
  - assert (ds = []) as ->.
    { rewrite app_assoc, Hall in E. rewrite <-(app_nil_r (head ++ body)) in E at 2. apply app_inv_head in E.
      destruct Hds as [|d' ds [Hd' _] _]; [done|]. by apply app_nil in E as [? _]. }
    apply wp_ret. right. auto.
Qed.
End server_props.

Lemma set_os_id `{MySQL, ConnPool, Redis, Posix} (st : StoreW) : set_os (sw_os st) st = st.
Proof. by destruct st. Qed.

(** ** The upload, end to end *)

Section streamed.
Context `{HCo : Collation, HCa : Calendar, HMy : MySQL, HCp : ConnPool, HRe : Redis, HP : Posix}.
Context `{HJ : JsonLib, HD : Digest, HHo : HeaderOrder}.
Context `{HL : !PosixLaws} (cfg : ServerConfig) (router : HttpRouter StoreW).

(** A connection of the server that waits for a request, with nothing queued. *)
Record idle (c : HttpConnection) (w : ServerW) : Prop := MkIdle {
  id_conn : sv_conns w !! conn_id_ c = Some c;
  id_live : conn_id_ c ∈ sv_connections w;
  id_pending : pending_functors_ (sv_loop w) = [];
  id_upload : sv_uploads w !! sockfd_ c = None;
  id_state : state_ c = READING_HEADERS;
  id_parser : HttpParser.state_ (parser_ c) = REQUEST_LINE;
  id_input : wf (input_buffer_ c) /\ contents (input_buffer_ c) = []
}.

(** The request that a head spells, on the parser of the connection. *)
Definition head_request (c : HttpConnection) (path : string) (query : option string) (ver : string)
    (hs : list (string * string)) : HttpRequest :=
  add_headers hs (line_request PUT path query ver (Request c)).

(** A head that announces the body and goes to the streaming path. *)
Record put_head (c : HttpConnection) (path : string) (query : option string) (ver : string)
    (hs : list (string * string)) (body : list ascii) : Prop := MkPutHead {
  ph_line : line_ok PUT path query ver;
  ph_headers : Forall header_ok hs;
  ph_short : zlen (render_head PUT path query ver hs) <= kMaxRequestLineSize;
  ph_encoding : GetHeader "transfer-encoding" (head_request c path query ver hs) = "";
  ph_length : GetHeader "content-length" (head_request c path query ver hs) = to_string (zlen body);
  ph_stream : ShouldStreamUpload (head_request c path query ver hs) = true;
  ph_body : body <> [];
  ph_max : zlen body <= max_body_bytes_ c;
  ph_word : zlen body < two64;
  ph_room : zlen (buffer_ (input_buffer_ c)) + (zlen (render_head PUT path query ver hs) + zlen body) < kMaxBuffer
}.

Definition head_parser (c : HttpConnection) (r : HttpRequest) (n : Z) : HttpParser :=
  set_state BODY (set_body_info n n false (set_request r (parser_ c))).

Lemma put_head_announced c path query ver hs body :
  HttpParser.state_ (parser_ c) = REQUEST_LINE -> put_head c path query ver hs body ->
  announced c (parser_ c) (head_parser c (head_request c path query ver hs) (zlen body))
    (render_head PUT path query ver hs) body.
Proof.
  intros Hs [H1 H2 H3 H4 H5 H6 H7 H8 H9 H10]. split; try done.
  intros rest. assert (Hz : 0 < zlen body) by (destruct body; [done|unfold zlen; cbn; lia]).
  rewrite (add_headers_line_irrel (parser_ c) hs PUT path query ver (zlen body) rest); try done.
  - by rewrite (proj2 (Z.ltb_lt 0 _)).
  - right. split; [done|lia].
Qed.

(** C11. A streamed PUT, end to end: the bytes of a request head that announces a
    body, and of the body, arrive on an idle connection in any pieces the kernel
    may read, one in each round of the loop, whatever the file system answers.
    Then an exception has ended the run (a handler or the access log threw), or the
    connection is closed, or the answer has been handed to [Send], and it
    is the handlers' answer to the one request whose internal headers name the
    digest and the size of exactly that body, stored under that digest (and equal
    to the announced digest, if one was announced), on a store in which nothing
    else has changed; or the refusal of the commit, with nothing changed. *)
Theorem streamed_put c path query ver hs body ds w :
  idle c w -> put_head c path query ver hs body -> cas_ok (storage_ cfg) (sw_os (sv_store w)) ->
  Forall (fun d => d <> [] /\ zlen d <= kExtraBuf) ds ->
  concat ds = render_head PUT path query ver hs ++ body ->
  let '(r, w') := receive cfg router (conn_id_ c) ds w in
  upload_outcome cfg router c (head_parser c (head_request c path query ver hs) (zlen body)) body (sv_store w) r w'.
Proof.
  intros [I1 I2 I3 I4 I5 I6 [I7 I8]] Hph Hok Hds Hcat.
  pose proof (put_head_announced c path query ver hs body I6 Hph) as Han.
  set (q := head_parser c _ _) in *. set (head := render_head _ _ _ _ _) in *.
  pose proof (wp_receive cfg router c q body (sv_store w) (parser_ c) head Han (ph_stream _ _ _ _ _ _ Hph) Hok ds [] w) as Hrun.
  unfold wp in Hrun. destruct (receive _ _ _ _ _) as [r w']. apply Hrun; [|done|exact Hcat].
  exists c. split; [done|]. left. split.
  - exists (parser_ c), (input_buffer_ c). split_and!.
    + unfold conn_at. rewrite <-I5. by destruct c.
    + split; [done|]. pose proof (ph_room _ _ _ _ _ _ Hph). unfold head. change (zlen []) with 0. lia.
    + intros k. by rewrite I8.
    + split; [done|]. split.
      * split; [|done|done]. exists (sw_os (sv_store w)). by rewrite set_os_id.
      * unfold session_holds. by rewrite decide_True.
  - exists head. split; [|done]. intros E. apply (f_equal length) in E. unfold head, render_head in E.
    rewrite length_app in E. cbn in E. lia.
Qed.
End streamed.

(** ** A concrete server *)

#[local] Existing Instance map_order.

(** A store with a bucket, no authentication, one connection. *)
Definition sample_server_cfg : ServerConfig := MkServerConfig mem_cfg false [] 60 1000.
Definition sample_router : HttpRouter StoreW :=
  match SetupRoutes sample_server_cfg "" with Ret r => r | Throw _ => new_router StoreW end.

Definition sample_conn : HttpConnection := SetMaxBodyBytes 1000 (new_connection 0 7 "10.0.0.1").

(** Metrics at zero and a JSON access log on the console. *)
Definition sample_log : ServerLog :=
  MkServerLog new_metrics (MkLogger true (Some (LevelInfo, None)) (Some None) []) [].

Definition sample_server : ServerW :=
  MkServerW _ _ _ _ sample_world (new_loop LoopTask) ∅ {[0%nat]} {[0%nat := sample_conn]} 1 sample_log.

Definition sample_path : string := "/buckets/b/objects/o".
Definition sample_hs : list (string * string) := [("Host", "h"); ("Content-Length", "5")].
Definition sample_bytes : list ascii := render_head PUT sample_path None "HTTP/1.1" sample_hs ++ bytes_of "world".
(** The head cut in two, its end with the start of the body, the rest. *)
Definition sample_pieces : list (list ascii) := [take 30 sample_bytes; drop 30 (take 67 sample_bytes); drop 67 sample_bytes].

Definition sample_run : exn unit * ServerW := receive sample_server_cfg sample_router 0 sample_pieces sample_server.

Lemma sample_idle : idle sample_conn sample_server.
Proof.
  destruct (wf_new kInitialSize) as [H1 H2]; [done|].
  split; [reflexivity|by apply elem_of_singleton|reflexivity..|by split].
Qed.

Lemma sample_put_head : put_head sample_conn sample_path None "HTTP/1.1" sample_hs (bytes_of "world").
Proof.
  split; try (vm_compute; reflexivity); try done.
  - split_and!; [done|reflexivity..|done|by right].
  - repeat constructor.
Qed.

Lemma streamed_put_witness :
  on_its_way sample_server_cfg sample_router sample_conn
    (head_parser sample_conn (head_request sample_conn sample_path None "HTTP/1.1" sample_hs) (zlen (bytes_of "world")))
    (bytes_of "world") (sv_store sample_server) (snd sample_run).
Proof.
  pose proof (streamed_put sample_server_cfg sample_router sample_conn sample_path None "HTTP/1.1" sample_hs (bytes_of "world")
    sample_pieces sample_server sample_idle sample_put_head sample_files_ok ltac:(repeat constructor; done) ltac:(reflexivity)) as H.
  assert (E : fst sample_run = Ret tt) by (vm_compute; reflexivity).
  assert (E' : (match sv_conns (snd sample_run) !! 0%nat with Some _ => true | None => false end) = true) by (vm_compute; reflexivity).
  unfold sample_run in *. change (conn_id_ sample_conn) with 0%nat in H.
  destruct (receive sample_server_cfg sample_router 0 sample_pieces sample_server) as [r w']. cbn [fst snd] in *. subst r.
  destruct H as [[e He]|[_ [Hn|Hw]]]; [discriminate| |exact Hw].
  change (conn_id_ sample_conn) with 0%nat in Hn. rewrite Hn in E'. discriminate.
Defined.
