(* ===== verification/Serving.v ===== *)
(** * A GET, from the request to the bytes on the wire

    Composes the server's request callback (src/src/server/server.cpp), the router
    and the trace middleware, the GET handler over the two stores, and the
    connection's write events (src/src/net/http/http_connection.cpp). *)
From S2P Require Import Prelude Metrics Logging Status ByteBuffer Json Crypto Sql MySQLTx MetaStore Sessions MetaStoreSpec MetaStoreProps.
From S2P Require Import MemServer Uuid FileSys DataStore DataStoreSpec DataStoreProps World StoreSpec.
From S2P Require Import TimerWheel EventLoop HttpResponse HttpRequest HttpParser HttpRouter Auth Trace.
From S2P Require Import HttpConnection ConnProps Gc ObjectHandlers Server StoreProps ObjectProps ServerProps.

Open Scope Z_scope.

Section serving.
Context `{HCo : Collation, HCa : Calendar, HMy : MySQL, HCp : ConnPool, HRe : Redis, HP : Posix}.
Context `{HJ : JsonLib, HD : Digest, HHo : HeaderOrder}.
Context `{HML : !MySQLLaws, HL : !PosixLaws} (cfg : ServerConfig) (router : HttpRouter StoreW).
Implicit Types (c : HttpConnection) (w : ServerW) (st : StoreW).

(** ** The request callback without an upload *)

Lemma keeps_conn_callbacks : keeps_conn (callbacks cfg router).
Proof.
  intros c w. cbn [callbacks close_callback_]. unfold OnConnectionClose, get_conn, on_world, mbind, M_bind. cbn [fst snd].
  destruct (sv_uploads w !! sockfd_ c); [|done]. by destruct (on_store _ _).
Qed.

(** The handlers answer, the log takes its line, and the answer goes to [Send], on
    the connection with the request as the handlers left it. *)
Lemma OnRequest_plain c w req resp st1 cw :
  sv_uploads w !! sockfd_ c = None -> Handle router (Request c) (sv_store w) = (Ret (req, resp), st1) ->
  OnRequest cfg router (c, w) = (Ret tt, cw) ->
  exists w1, sv_store w1 = st1 /\ Send resp (set_conn_request req c, w1) = (Ret tt, cw).
Proof.
  intros Hu Hh. unfold OnRequest, commit_upload, take_upload, get_conn, on_world, mod_conn, mbind, M_bind. cbn [fst snd].
  rewrite Hu. cbn [default new_upload uc_session mret M_ret fst snd]. unfold on_store at 1.
  change (sv_store (set_sv_uploads (delete (sockfd_ c) (sv_uploads w)) w)) with (sv_store w). rewrite Hh. cbn [fst snd].
  unfold on_log. destruct (Logging_AccessLog _ _ _) as [[[]|e] g]; [|discriminate].
  intros Hs. eexists. split; [|exact Hs]. done.
Qed.

(** ** The route *)

(** The router takes the request to the GET handler, behind the trace middleware. *)
Record get_route (request : HttpRequest) (bucket key : string) : Prop := MkGetRoute {
  gr_trace : middlewares_ router = [TraceMiddleware_Handle];
  gr_route : exists route, find_route (routes_ router) request = Some (route, [bucket; key]) /\
    rt_handler route = ObjectHandlers_GetObject (storage_ cfg) /\ rt_param_names route = ["bucket"; "object"]
}.

(** The request with the identifier of the trace; its other headers are the client's. *)
Definition traced (request req : HttpRequest) : Prop :=
  version_ req = version_ request /\
  forall k, to_lower k <> "x-request-id" -> GetHeader k req = GetHeader k request.

Lemma traced_keep_alive request req : traced request req -> IsKeepAlive req = IsKeepAlive request.
Proof. intros [Hv Hk]. unfold IsKeepAlive. by rewrite Hv, Hk. Qed.

Lemma handle_get request bucket key st req resp st1 :
  get_route request bucket key -> open_tx (sw_meta st) = None -> Handle router request st = (Ret (req, resp), st1) ->
  exists st0 resp0 tid,
    ObjectHandlers_GetObject (storage_ cfg) req st0 = (Ret resp0, st1) /\ resp = HttpResponse.SetHeader "X-Request-Id" tid resp0 /\
    GetPathParam "bucket" req = bucket /\ GetPathParam "object" req = key /\ traced request req /\
    same_store st st0 /\ sw_meta st0 = sw_meta st.
Proof.
  intros [Hm (route & Hf & Hh & Hn)] Ho. unfold Handle. rewrite Hf, Hm, Hh, Hn. cbn [wrap foldr].
  unfold TraceMiddleware_Handle. set (req0 := set_params _ _ request).
  assert (Hparams : forall req1, path_params_ req1 = path_params_ req0 ->
    GetPathParam "bucket" req1 = bucket /\ GetPathParam "object" req1 = key).
  { intros req1 E. unfold GetPathParam. rewrite E. cbn. by simplify_map_eq. }
  assert (Hrun : forall tid req1 st0, path_params_ req1 = path_params_ req0 -> traced request req1 ->
    same_store st st0 -> sw_meta st0 = sw_meta st ->
    ('(q, response) ← chain_end (ObjectHandlers_GetObject (storage_ cfg)) req1;
     mret (q, HttpResponse.SetHeader "X-Request-Id" tid response)) st0 = (Ret (req, resp), st1) ->
    exists st0 resp0 tid,
      ObjectHandlers_GetObject (storage_ cfg) req st0 = (Ret resp0, st1) /\ resp = HttpResponse.SetHeader "X-Request-Id" tid resp0 /\
      GetPathParam "bucket" req = bucket /\ GetPathParam "object" req = key /\ traced request req /\
      same_store st st0 /\ sw_meta st0 = sw_meta st).
  { intros tid req1 st0 Hp Htr Hs Hmeta. unfold chain_end, mbind, M_bind, mret, M_ret.
    destruct (ObjectHandlers_GetObject _ req1 st0) as [[resp0|e] st2] eqn:E; [|discriminate].
    cbn. intros [= <- <- <-].
    destruct (Hparams req1 Hp) as [H1 H2]. by exists st0, resp0, tid. }
  destruct (str_empty (GetHeader "X-Request-Id" req0)).
  - pose proof (still_generate st Ho) as Hgen. unfold wp, Generate in Hgen.
    assert (Hmeta : sw_meta (snd (uuid_generate st)) = sw_meta st).
    { unfold uuid_generate, world_uuid. by destruct (os_uuid (sw_os st)). }
    destruct (uuid_generate st) as [id st0]. cbn [fst snd] in *. apply Hrun; [done| |done..].
    split; [done|]. intros k Hk. unfold GetHeader. cbn -[to_lower]. by rewrite lookup_insert_ne.
  - apply Hrun; [done|by split|by apply same_store_refl|done].
Qed.

(** ** What is served *)

(** A header more does not change what is served. *)
Lemma serves_range_header o h resp k v :
  k ∉ ["Content-Type"; "ETag"; "Content-Length"; "Content-Range"] -> serves_range (storage_ cfg) o h resp ->
  serves_range (storage_ cfg) o h (HttpResponse.SetHeader k v resp).
Proof.
  intros Hk. unfold serves_range. cbn. rewrite !lookup_insert_ne by set_solver. done.
Qed.

(** The object a response serves, with its content in place, for the Range header
    [header] of the request. *)
Definition served (bucket key header : string) st (resp : HttpResponse) (d : list ascii) : Prop :=
  exists bid o, names_bucket bucket bid (sw_meta st) /\ a_find bid key (abs (tables_of st)) = Some o /\
    (0 <= ao_size o < two63 -> serves_range (storage_ cfg) o header resp /\ Final d = ao_cas o).

Lemma handle_get_serves request bucket key st req resp st1 d w1 :
  get_route request bucket key -> store_ok (storage_ cfg) st -> redis_live (sw_meta st) = None ->
  Handle router request st = (Ret (req, resp), st1) -> HasFile resp = true -> sv_store w1 = st1 ->
  fst (open_file (HttpResponse.file_path_ resp) w1) = Opened d ->
  served bucket key (GetHeader "Range" request) st resp d /\ IsKeepAlive req = IsKeepAlive request.
Proof.
  intros Hroute Hok Hr Hh Hf <- Hopen.
  destruct (handle_get _ _ _ _ _ _ _ Hroute (so_closed _ _ Hok) Hh) as (st0 & resp0 & tid & Hg & -> & Hb & Hk & Htr & S & Hmeta).
  assert (Hok0 : store_ok (storage_ cfg) st0) by by eapply store_ok_same.
  assert (Hr0 : redis_live (sw_meta st0) = None) by by rewrite Hmeta.
  destruct (wp_run _ _ _ _ _ Hg (wp_GetObject_serves (storage_ cfg) req st0 Hok0 Hr0) resp0 eq_refl Hf)
    as (S1 & bid & o & Hn & F & Hserve).
  split; [|by apply traced_keep_alive].
  rewrite (proj2 Htr "Range" ltac:(done)) in Hserve. rewrite Hb, Hmeta in Hn. unfold tables_of in F. rewrite Hk, Hmeta in F.
  pose proof (store_ok_same _ _ _ S1 Hok0) as Hok1.
  assert (Href : refers (abs (tables_of (sv_store w1))) (ao_cas o)).
  { destruct S1 as (_ & E & _). rewrite E. unfold tables_of. rewrite Hmeta. apply a_find_Some in F as [F _]. left; eauto. }
  destruct (so_backed _ _ Hok1 _ Href) as [Hv [d' Hd']]. pose proof (so_cas _ _ Hok1 _ _ Hv Hd') as Hfinal.
  exists bid, o. split; [done|]. split; [done|]. intros Hsz. specialize (Hserve Hsz).
  split; [apply serves_range_header; [set_solver|done]|]. destruct Hserve as (Hpath & _).
  change (HttpResponse.file_path_ (HttpResponse.SetHeader "X-Request-Id" tid resp0)) with (HttpResponse.file_path_ resp0) in Hopen.
  rewrite Hpath in Hopen. unfold open_file, server_files in Hopen.
  destruct (sys_open_read _ _) as [r s'] eqn:Eo. apply open_law in Eo as (_ & Hsame & _).
  destruct r; cbn [fst] in Hopen; [|by destruct (bool_decide _)..].
  injection Hopen as <-. rewrite Hsame, Hd'. exact Hfinal.
Qed.

(** ** The property *)

End serving.

(** ** A GET of the sample server *)

#[local] Existing Instance map_order.

(** The object of the sample PUT; a connection with a request for bytes 1 to 3 of it. *)
Definition get_server : ServerW :=
  MkServerW _ _ _ _ put_world (new_loop LoopTask) ∅ {[0%nat]} {[0%nat := sample_conn]} 1 sample_log.

Definition wire_request : HttpRequest :=
  HttpRequest.SetHeader "Range" "bytes=1-3" (SetPath sample_path (SetMethod GET (Request sample_conn))).

Definition get_conn0 : HttpConnection := set_conn_request wire_request sample_conn.

Definition get_handled : exn (HttpRequest * HttpResponse) * StoreW := Handle sample_router wire_request put_world.
Definition get_left : HttpRequest * HttpResponse :=
  match fst get_handled with Ret r => r | Throw _ => (wire_request, new_response) end.
Definition get_response : HttpResponse := snd get_left.

Definition get_on : exn unit * (HttpConnection * ServerW) := OnRequest sample_server_cfg sample_router (get_conn0, get_server).
Definition after_get : HttpConnection * ServerW := snd get_on.

(** The kernel takes the head and two bytes of the file, then the last one, and has
    nothing more to take. *)
Definition get_ios : list io :=
  [ MkIo (ReadErr EAGAIN) (WriteOk (ReadableBytes (output_buffer_ (fst after_get)))) (WriteOk 2);
    MkIo (ReadErr EAGAIN) (WriteOk 0) (WriteOk 1); MkIo (ReadErr EAGAIN) (WriteOk 0) (WriteOk 0) ].

Definition get_drained : option (HttpConnection * ServerW) :=
  drain (callbacks sample_server_cfg sample_router) get_ios after_get.

(** The request takes the route of the sample server's table. *)
Lemma sample_get_route : get_route sample_server_cfg sample_router wire_request "b" "o".
Proof.
  split; [reflexivity|].
  assert (Hg : snd <$> find_route (routes_ sample_router) wire_request = Some ["b"; "o"]) by (vm_compute; reflexivity).
  assert (Hn : (fun x => rt_param_names (fst x)) <$> find_route (routes_ sample_router) wire_request = Some ["bucket"; "object"])
    by (vm_compute; reflexivity).
  assert (Hh : (fun x => rt_handler (fst x)) <$> find_route (routes_ sample_router) wire_request =
    Some (ObjectHandlers_GetObject mem_cfg)) by reflexivity.
  destruct (find_route _ _) as [[route groups]|]; [|discriminate Hg]. exists route.
  injection Hg as ->. injection Hn as Hn. injection Hh as Hh. by split_and!.
Qed.

Lemma get_conn0_ready : ready get_conn0.
Proof. destruct (wf_new kInitialSize) as [H1 H2]; [done|]. by split. Qed.

Lemma get_on_run : get_on = (Ret tt, after_get).
Proof. unfold after_get. apply (pair_of_fst get_on). vm_compute. reflexivity. Qed.

Lemma get_drains : exists cw, drain (callbacks sample_server_cfg sample_router) get_ios after_get = Some cw /\
  state_ (fst cw) = READING_HEADERS.
Proof.
  assert (H : (fun cw => state_ (fst cw)) <$> get_drained = Some READING_HEADERS) by (vm_compute; reflexivity).
  fold get_drained. destruct get_drained as [cw|]; [|discriminate H]. exists cw. split; [reflexivity|]. by injection H.
Qed.

