(* ===== verification/ServerFaults.v ===== *)
(** * Uploads that go wrong

    Runs of the server, each on a concrete world, in which it does not do what it
    means to: a disk that fills up during the last piece of a body, a request that
    carries an internal header of the server, a chunked request. *)
From S2P Require Import Prelude Metrics Logging Status ByteBuffer Json Crypto Sql MySQLTx FileSys DataStore DataStoreSpec World.
From S2P Require Import TimerWheel EventLoop HttpResponse HttpRequest HttpParser HttpRouter.
From S2P Require Import HttpConnection Server MemServer DataStoreProps StoreSpec StoreProps ServerProps.

Open Scope Z_scope.

#[local] Existing Instance map_order.

(** One bucket. *)
Definition bucket_tables : Tables := set_buckets {["b" := MkBucketRow 1 "b" 0]} (set_counters 2 1 empty_tables).

(** ** A disk that fills up *)

(** The file system in memory, on which [snd s] more bytes can be written. *)
Definition on_mem {A} (f : MemOs -> A * MemOs) (s : MemOs * nat) : A * (MemOs * nat) :=
  let '(r, m) := f (fst s) in (r, (m, snd s)).

Definition disk_write (p : string) (d : list ascii) (s : MemOs * nat) : sys_result nat * (MemOs * nat) :=
  match snd s with
  | O => (SysErr "No space left on device", s)
  | free =>
      let k := min free (length d) in
      (SysOk k, (mo_set (<[p := default [] (mo_files (fst s) !! p) ++ take k d]> (mo_files (fst s))) (fst s), (free - k)%nat))
  end.

Definition disk_posix : Posix := {|
  os := MemOs * nat;
  os_file s := os_file (fst s : @os mem_posix);
  os_patience s := os_patience (fst s : @os mem_posix);
  sys_create_excl p := on_mem (sys_create_excl p);
  sys_open_read p := on_mem (sys_open_read p);
  sys_fstat p := on_mem (sys_fstat p);
  sys_seek p n := on_mem (sys_seek p n);
  sys_read p off n := on_mem (sys_read p off n);
  sys_write := disk_write;
  sys_sync b p := on_mem (sys_sync b p);
  sys_close p s := (sys_close p (fst s : @os mem_posix), snd s);
  sys_unlink p := on_mem (sys_unlink p);
  sys_rename a b := on_mem (sys_rename a b);
  sys_is_regular p s := sys_is_regular p (fst s : @os mem_posix);
  sys_stat_size p s := sys_stat_size p (fst s : @os mem_posix);
  sys_mkdirs p := on_mem (sys_mkdirs p);
  os_uuid := on_mem (os_uuid : @os mem_posix -> string * @os mem_posix)
|}.

Lemma on_mem_inv {A} (f : MemOs -> A * MemOs) s r s' :
  on_mem f s = (r, s') -> f (fst s) = (r, fst s') /\ snd s' = snd s.
Proof. unfold on_mem. destruct (f (fst s)). by intros [= <- <-]. Qed.

Lemma disk_laws : @PosixLaws disk_posix.
Proof.
  split.
  - intros p s r s' [H _]%on_mem_inv. exact (@create_law _ mem_posix_laws _ _ _ _ H).
  - intros p s r s' [H _]%on_mem_inv. exact (@open_law _ mem_posix_laws _ _ _ _ H).
  - intros p s r s' [H _]%on_mem_inv. exact (@fstat_law _ mem_posix_laws _ _ _ _ H).
  - intros p n s r s' [H _]%on_mem_inv. exact (@seek_law _ mem_posix_laws _ _ _ _ _ H).
  - intros p off n s r s' [H _]%on_mem_inv. exact (@read_law _ mem_posix_laws _ _ _ _ _ _ H).
  - intros p d s r s' Hd H. cbn in H. unfold disk_write in H. destruct (snd s) as [|n] eqn:E; simplify_eq; [done|].
    destruct d as [|x d]; [done|]. split_and!; [done|cbn; lia|cbn; lia| |].
    + intros q Hq. cbn. by rewrite lookup_insert_ne.
    + intros c Hc. cbn in *. by rewrite Hc, lookup_insert_eq.
  - intros b p s r s' [H _]%on_mem_inv. exact (@sync_law _ mem_posix_laws _ _ _ _ _ H).
  - intros p s. exact (@close_law _ mem_posix_laws p (fst s)).
  - intros p s r s' [H _]%on_mem_inv. exact (@unlink_law _ mem_posix_laws _ _ _ _ H).
  - intros a b s r s' Hab [H _]%on_mem_inv. exact (@rename_law _ mem_posix_laws _ _ _ _ _ Hab H).
  - intros p s H. exact (@regular_law _ mem_posix_laws p (fst s) H).
  - intros p s r s' [H _]%on_mem_inv. exact (@mkdirs_law _ mem_posix_laws _ _ _ _ H).
  - intros s u s' [H _]%on_mem_inv. exact (@uuid_law _ mem_posix_laws _ _ _ H).
Qed.

Section full_disk.
#[local] Existing Instance disk_posix.

Definition full_router : HttpRouter StoreW :=
  match SetupRoutes sample_server_cfg "" with Ret r => r | Throw _ => new_router StoreW end.

(** An empty disk with room for four bytes. *)
Definition full_store : StoreW := MkStoreW _ _ _ _ (mem_world bucket_tables []) (MkOs ∅ 0 0, 4%nat) (Some []).

Definition full_server : ServerW :=
  MkServerW _ _ _ _ full_store (new_loop LoopTask) ∅ {[0%nat]} {[0%nat := sample_conn]} 1 sample_log.

Definition full_run : exn unit * ServerW := receive sample_server_cfg full_router 0 sample_pieces full_server.

Lemma full_run_end : full_run = (Ret tt, snd full_run).
Proof. apply pair_of_fst. vm_compute. reflexivity. Qed.

Lemma full_run_file :
  os_file (sw_os (sv_store (snd full_run))) (cas_path mem_cfg (Final (bytes_of "wo"))) = Some (bytes_of "worl").
Proof. vm_compute. reflexivity. Qed.

(** A write that fails in the last piece of a body corrupts the store: the
    disk fills up within the piece, the body callback gives the upload up, but the
    piece completes the message and the request callback commits the session. The
    bytes that reached the file are filed under the digest of the bytes before the
    piece, and the handlers make them an object; the client's connection is closed
    without an answer. The file system keeps its documented behaviour. *)
Theorem failed_write_corrupts :
  PosixLaws /\ cas_ok mem_cfg (sw_os full_store) /\
  exists w', receive sample_server_cfg full_router 0 sample_pieces full_server = (Ret tt, w') /\
    sv_conns w' !! 0%nat = None /\
    os_file (sw_os (sv_store w')) (cas_path mem_cfg (Final (bytes_of "wo"))) = Some (bytes_of "worl") /\
    ~ cas_ok mem_cfg (sw_os (sv_store w')) /\
    (or_cas <$> objects (tables_of (sv_store w')) !! (1, "o")) = Some (Final (bytes_of "wo")).
Proof.
  split; [exact disk_laws|]. split; [by intros k c _ Hk|].
  exists (snd full_run). split; [exact full_run_end|]. split; [vm_compute; reflexivity|].
  split; [exact full_run_file|]. split; [|vm_compute; reflexivity].
  intros Hok. specialize (Hok _ _ (final_valid _) full_run_file). by vm_compute in Hok.
Qed.
End full_disk.

(** ** Requests the server takes at their word *)

(** A store with one bucket and no content at all. *)
Definition bare_store : StoreW := fresh_world bucket_tables [].

Lemma bare_store_ok : store_ok mem_cfg bare_store.
Proof. by apply fresh_world_ok. Qed.

Definition bare_server : ServerW :=
  MkServerW _ _ _ _ bare_store (new_loop LoopTask) ∅ {[0%nat]} {[0%nat := sample_conn]} 1 sample_log.

Definition status_line (w : ServerW) : option string :=
  (fun c => string_of (take 15 (contents (output_buffer_ c)))) <$> sv_conns w !! 0%nat.

Definition forged_bytes : list ascii :=
  render_head PUT sample_path None "HTTP/1.1" [("X-Internal-CAS-Key", Final (bytes_of "secret"))].

Definition forged_run : exn unit * ServerW := receive sample_server_cfg sample_router 0 [forged_bytes] bare_server.

Lemma forged_run_end : forged_run = (Ret tt, snd forged_run).
Proof. apply pair_of_fst. vm_compute. reflexivity. Qed.

(** An internal header is believed as it comes from a client: a PUT without a
    body that carries [X-Internal-CAS-Key] passes no upload through the server,
    which then does not overwrite the header, and is answered 200: the object it
    creates refers to the content of the client's choice, here one that the store
    does not have. *)
Theorem internal_header_trusted :
  store_ok mem_cfg bare_store /\
  exists w', receive sample_server_cfg sample_router 0 [forged_bytes] bare_server = (Ret tt, w') /\
    status_line w' = Some "HTTP/1.1 200 OK" /\
    (or_cas <$> objects (tables_of (sv_store w')) !! (1, "o")) = Some (Final (bytes_of "secret")) /\
    os_file (sw_os (sv_store w')) (cas_path mem_cfg (Final (bytes_of "secret"))) = None.
Proof.
  split; [exact bare_store_ok|]. exists (snd forged_run).
  split; [exact forged_run_end|]. split_and!; vm_compute; reflexivity.
Qed.

Definition chunked_bytes : list ascii :=
  render_head PUT sample_path None "HTTP/1.1" [("Transfer-Encoding", "chunked")] ++
  bytes_of ("5" +:+ crlf +:+ "hello" +:+ crlf +:+ "0" +:+ crlf +:+ crlf).

Definition chunked_run : exn unit * ServerW := receive sample_server_cfg sample_router 0 [chunked_bytes] bare_server.

Lemma chunked_run_end : chunked_run = (Ret tt, snd chunked_run).
Proof. apply pair_of_fst. vm_compute. reflexivity. Qed.

(** A chunked PUT is answered 200 and stored as an empty object: a chunked message
    has a body of length 0 for the connection, which completes it at once; the
    parser's own refusal of chunked bodies is never reached, and the chunks are
    left to be parsed as the next request. *)
Theorem chunked_put_stores_empty :
  exists w', receive sample_server_cfg sample_router 0 [chunked_bytes] bare_server = (Ret tt, w') /\
    status_line w' = Some "HTTP/1.1 200 OK" /\
    ((fun r => (or_cas r, or_size r)) <$> objects (tables_of (sv_store w')) !! (1, "o")) = Some (Final [], 0) /\
    ((fun c => string_of (contents (input_buffer_ c))) <$> sv_conns w' !! 0%nat) =
      Some ("5" +:+ crlf +:+ "hello" +:+ crlf +:+ "0" +:+ crlf +:+ crlf).
Proof.
  exists (snd chunked_run). split; [exact chunked_run_end|]. split_and!; vm_compute; reflexivity.
Qed.

(** ** A request that ends the process *)

(** The JSON library's [dump] throws for a string that is not UTF-8; the byte 255
    occurs in no UTF-8 text. *)
Fixpoint json_utf8 (j : Json) : bool :=
  match j with
  | JStr s => str_free "255" s
  | JArr l => forallb json_utf8 l
  | JObj l => forallb (fun kv => str_free "255" (fst kv) && json_utf8 (snd kv)) l
  | _ => true
  end.

Section strict.
#[local] Instance strict_json : JsonLib := {|
  json_dump j := if json_utf8 j then @json_dump tree_json j else Throw "type_error.316";
  json_parse := @json_parse tree_json;
  json_get_int := @json_get_int tree_json;
  json_get_i64 := @json_get_i64 tree_json;
  json_get_string := @json_get_string tree_json
|}.

Definition strict_router : HttpRouter StoreW :=
  match SetupRoutes sample_server_cfg "" with Ret r => r | Throw _ => new_router StoreW end.

Definition named_bytes (id : string) : list ascii :=
  render_head PUT sample_path None "HTTP/1.1" [("Content-Length", "5"); ("X-Request-Id", id)] ++ bytes_of "hello".

Definition named_run (id : string) : exn unit * ServerW :=
  receive sample_server_cfg strict_router 0 [named_bytes id] bare_server.

(** A client names its request with a byte that is not UTF-8: the PUT is stored and
    counted, and then the access log throws, before the answer is sent and with
    nothing in the loop or in its thread to catch the exception. *)
Theorem bad_request_id_throws :
  exists w', receive sample_server_cfg strict_router 0 [named_bytes (String "255" "")] bare_server = (Throw "type_error.316", w') /\
    is_Some (objects (tables_of (sv_store w')) !! (1, "o")) /\
    http_requests_ (lg_metrics (sv_log w')) !! "PUT_200" = Some 1 /\
    access_lines_ (lg_logger (sv_log w')) = [].
Proof.
  exists (snd (named_run (String "255" ""))). split; [|split; [eexists; vm_compute; reflexivity|split; vm_compute; reflexivity]].
  apply (pair_of_fst (named_run (String "255" ""))). vm_compute. reflexivity.
Qed.

(** Any other name is answered. *)
Example named_request_answered : fst (named_run "r-1") = Ret tt /\ status_line (snd (named_run "r-1")) = Some "HTTP/1.1 200 OK".
Proof. split; vm_compute; reflexivity. Qed.
End strict.
